(* ===== verification/_CoqProject ===== *)
-Q . S2P
Prelude.v
Wire.v
Layout.v
Kernel.v
Ring.v
State.v
Output.v
Resources.v
Trace.v
Daemon.v
Startup.v
Input.v
Request.v
Reader.v
Dispatch.v
Complete.v
Sched.v
Session.v
Corners.v
Books.v
Ledger.v
Work.v
Accounting.v
Settle.v
Invariant.v
Correct.v
Memory.v
Safety.v
Socket.v
Client.v
Inbox.v
ClientApi.v
Calls.v
Conversation.v
Payloads.v
Passing.v
Setup.v
World.v
Boot.v
Sockets.v
Exit.v
Progress.v
Schedule.v
Replies.v
Delivery.v
Link.v
Arrival.v
Started.v
Exchange.v
Hazards.v
Log.v
Overlay.v
