(* ===== verification/Prelude.v ===== *)
(** * iouringd: a verification library

    ** The program

    [iouringd] is a daemon that offers Linux io_uring to local clients.  A client
    connects over a Unix socket, shakes hands, registers files and buffers, and
    submits tasks (nop, timeout, cancel, reads and writes, poll, connect, accept,
    openat, close).  The daemon checks each request, turns it into a submission
    queue entry of the one ring it owns, and when the kernel completes the entry
    sends the client a completion record.  One thread runs everything, in
    [iouringd_run] of [src/daemon/main.c]: read the clients' sockets, dispatch the
    requests that are complete, reap completions, sweep closing resources, flush
    the clients' output, and poll when nothing moved.

    ** The files, and what of the source they model

    - [Prelude]: machine integers with their wrap-around, the outcome type and
      the state-and-error monad, record update notation, byte arrays, the
      tactics and generic lemmas.
    - [Wire]: every struct and constant of [include/iouringd/api.h], as records
      with their memory image ([to_wire], [of_wire]).
    - [Layout]: the same structs as C types with C's layout rule, and the static
      assertions of [api.h] and [protocol.h].
    - [Kernel]: the system calls the daemon makes, as a type class with nothing
      assumed of its instances, the memory shared with the kernel, and a scripted
      instance for concrete runs.
    - [Ring]: [src/daemon/submit.c], the submission and completion rings.
    - [State]: the structs of [main.c], initialisation and reset.  The flat
      [struct iouringd_client] is split by use into input, output, request and
      resources.
    - [Output]: the client's output buffer, [iouringd_queue_client_output] and
      [iouringd_flush_client_output].
    - [Resources]: the slot tables of a client and the allocation of ids.
    - [Trace]: the trace ring and its queries.
    - [Daemon]: the monad of the daemon's functions ([DM], on the runtime, the
      world and the list of closed descriptors), replies, release of slots,
      opening and closing of clients, the accept loop.
    - [Startup]: the command line ([iouringd_parse_args] with [strtoul]) and the
      parameters [main] computes from it.
    - [Input]: [iouringd_read_client_input], [iouringd_process_submit_input],
      [iouringd_finish_submit_request], [iouringd_service_client_readable].
    - [Dispatch]: [iouringd_dispatch_client_request], every branch with its undo.
    - [Complete]: [iouringd_complete_task], [iouringd_reap_completions],
      [iouringd_sweep_closing_resources].
    - [Sched]: the dispatcher's bands, the flush, the poll set, one round of
      [iouringd_run] and the loop.

    - [Setup]: the life cycle of the ring in [submit.c]: set-up with its fallback,
      mappings, probe, registration of files and buffers, cleanup.
    - [Boot]: [main] with every early return, the stop signal's handler, the
      server socket, the registered storage and the cleanup.
    - [Socket]: blocking stream sockets as the client library uses them, and its
      transfer loops ([write_full], [write_iov_full], [read_full] and the like).
    - [Client], [ClientApi]: [src/lib/client.c] and [src/lib/submit.c]: connect,
      handshake, the calls that submit and register with their wrappers, the lists
      of buffered completions and payloads, waiting and reading a payload.
    - [Link]: [src/daemon/handshake.c], beside its proofs.
    - [Log]: the lines on stderr (trace, metrics, reports, usage), as strings.
    - [Overlay]: the programs of [examples/].

    The proofs are in [Ring], [Output], [Resources], [Trace], [Startup] and [Setup]
    beside the definitions, and in:

    - [Request], [Reader]: the request parser against the abstract requests of
      the protocol.
    - [Session], [Corners]: concrete sessions, and five runs that end where the
      design does not intend.
    - [Hazards]: two of these as general statements (a reply that does not fit, a
      submission the kernel refuses).
    - [Books], [Ledger], [Work]: the accounting part of the runtime ([books]), a
      program logic for it ([btrip], [keeps]), the invariant ([books_ok]) and the
      updates that keep it.
    - [Accounting], [Settle], [Invariant]: dispatching, completing and the rest of
      the main loop keep the invariant.
    - [Correct]: the states the main loop goes through ([reachable]) and what the
      invariant says about them.
    - [Memory], [Safety]: no array is written past its end, in any of these
      states.
    - [Replies], [Delivery]: what a dispatch and a completion append to the
      clients' output ([emits]).
    - [Progress], [Schedule]: the dispatcher does not leave a request waiting while
      it sleeps; the schedules under which one is passed over for ever.
    - [Arrival]: a request that comes in pieces, against the parser's theorem.
    - [Started]: what a task request that is answered has done to the task table and
      the ring.
    - [World], [Sockets], [Exit]: how a preorder is carried through the main loop
      ([evolves]), the balance of the sockets obtained and closed ([owed]), and that
      [main] gives back what it acquired; a concrete host.
    - [Inbox], [Calls], [Conversation], [Payloads]: the client library against an
      abstract inbox of replies and completions.
    - [Passing]: which descriptors the library passes, and where in the stream.
    - [Link]: the daemon and the library together; the stand-alone handshake
      against the daemon's.
    - [Exchange]: a submit call of the library, from the call to its return, with the
      daemon's part in between.

    ** What the theorems show

    - Memory: in every state of the main loop, whatever the clients send, the
      windows of the buffers are inside their arrays and no copy leaves its array.
    - Accounting: in every state of the main loop the counters of tasks, credits
      and in-flight references are exactly the numbers of active task slots they
      count; credits never exceed the limits; an active task is found by its id
      and belongs to the client generation that started it; a client slot or
      resource slot that is given away is referred to by no task.
    - Answers: each dispatched request gets exactly one reply of its kind, each
      completed task exactly one completion record with its payload, in the output
      of the client concerned and of no other; a pass of the dispatcher over waiting
      requests dispatches at least one, and the daemon sleeps only when none waits.
    - Submissions: a request that arrives in any pieces is ready and whole after the
      last byte and not before; the answer to it tells what happened (one new task from whose fields the
      request can be read back, and its entry pushed, or no change to the tasks);
      put together with the library, a submit call returns 0 exactly when the daemon
      runs the task it asked for.
    - Protocol: the incremental parser inverts the encoding of every request on a
      byte stream and consumes exactly its bytes; on any bytes at all it keeps its
      window inside the array and makes only well-formed requests ready; servicing
      a client always returns.  The byte images are the C memory images, member by
      member, and the headers' assertions hold.
    - Client library: for any sequence of calls, however replies and completions
      interleave, each request gets its reply and completions arrive in order, with
      their payloads; the handshake agrees with the daemon's.  The example programs,
      run against the daemon's answers, do what they are for.
    - Queues: the submission ring, the completion ring, the output buffer and the
      trace ring implement bounded queues, also when their indices wrap; a flush
      forgets exactly what the writes took; a trace line can be read back to the
      event it was written for.
    - Start-up and exit: accepted arguments are in range, the command line is read
      as written, the registered tables are in range and disjoint; the ring's
      set-up loses nothing when it fails, the operation mask is the supported set;
      when [main] reaches the main loop the state is one of those above, and on
      every way out of [main] the mappings, the ring's descriptor and the blocks
      [main] allocated are given back and every socket was closed.
    - Corner cases: a cancel cannot use the ring entry kept for it; a failed
      [io_uring_enter] and a client that does not read end the daemon; a rejected
      handshake can be lost; the dispatcher can pass over a high-priority request, and
      over a waiting one for as long as two others keep sending, whatever they send;
      the longest paths and messages with two descriptors are mishandled; a stale
      payload can be copied for another task; a stop signal closes the server
      socket twice; the example fails on an empty file.

    ** Conventions, bounds and fuel

    A C function that returns -1 and sets [errno] is a computation that ends in
    [Err errno]; what it changed before stays changed.  A failure that the main
    loop sees ends the daemon, so the invariant is stated for runs that return.
    Every integer is a [Z] followed by the wrap-around of its C type where it can
    leave it.  Loops whose length the code bounds are structural recursions or
    have a fuel that is proved to suffice: [service_client_readable_total] relates the
    service loop, which ends in [OUT_OF_ROUNDS] if it were cut off, to the runs of the
    loop without a bound, [flush_client_output_spec] the flush to its writes.  The loops only the kernel bounds ([accept_loop],
    [reap_loop], [iouringd_run]) take the number of rounds as an argument and say
    when more are needed; the theorems hold for every number of rounds.  What the
    proofs need of the system calls is stated by classes over them ([SocketOk],
    [Reliable], [Passing], [SetupOk], [BootOk], [Feed]), each with an instance.

    ** What is not modelled

    The version string, a placeholder program that prints one line
    ([src/iouringd.c]) and the tests.  That a line is written to stderr at the place
    where the code calls the logging function: [Log] gives the text only.  The
    two [fcntl] calls with which the daemon sets a flag are one operation of the class of
    system calls.  The point at which a stop
    signal arrives is the world's choice ([k_stop]).  Retrying a system
    call on EINTR is part of the operation of [Kernel] and
    [Socket].  The kernel's writes into task memory are modelled when the
    completion is reaped ([kernel_writes]).  The release of a client's output buffer
    is the reset of its fields; that each is freed is not shown.  Where a receive
    of the client library breaks off in the middle of a struct, the bytes before
    the break are not shown in the caller's object. *)

From stdpp Require Export prelude list.
From Stdlib Require Export ZArith Lia Bool.

#[export] Set Default Goal Selector "!".
Open Scope Z_scope.

(** ** Notation scope of the development *)

Declare Scope iou_scope.
Delimit Scope iou_scope with iou.

(** ** Machine integers

    Every C integer is a [Z]; an operation that can leave the range of its C
    type is followed by the wrap-around of that type. *)

Definition wrap (w : Z) (z : Z) : Z := z mod 2 ^ w.
Definition u8 (z : Z) : Z := wrap 8 z.
Definition u16 (z : Z) : Z := wrap 16 z.
Definition u32 (z : Z) : Z := wrap 32 z.
Definition u64 (z : Z) : Z := wrap 64 z.
Definition i32 (z : Z) : Z := (z + 2 ^ 31) mod 2 ^ 32 - 2 ^ 31.

Definition UINT16_MAX : Z := 65535.
Definition UINT32_MAX : Z := 4294967295.
Definition UINT64_MAX : Z := 18446744073709551615.
Definition INT32_MAX : Z := 2147483647.

Definition fits (w z : Z) : Prop := 0 <= z < 2 ^ w.
Definition fits_i32 (z : Z) : Prop := - 2 ^ 31 <= z < 2 ^ 31.

Lemma wrap_id w z : fits w z -> wrap w z = z.
Proof. intros H. apply Z.mod_small. exact H. Qed.

Lemma wrap_range w z : 0 <= w -> fits w (wrap w z).
Proof. intros H. apply Z.mod_pos_bound. lia. Qed.

Lemma u8_id z : 0 <= z < 256 -> u8 z = z.
Proof. intros H. apply wrap_id. unfold fits. lia. Qed.
Lemma u16_id z : 0 <= z < 65536 -> u16 z = z.
Proof. intros H. apply wrap_id. unfold fits. lia. Qed.
Lemma u32_id z : 0 <= z < 4294967296 -> u32 z = z.
Proof. intros H. apply wrap_id. unfold fits. lia. Qed.
Lemma u64_id z : 0 <= z < 18446744073709551616 -> u64 z = z.
Proof. intros H. apply wrap_id. unfold fits. lia. Qed.

Lemma i32_id z : -2147483648 <= z < 2147483648 -> i32 z = z.
Proof. intros H. unfold i32. rewrite Z.mod_small; lia. Qed.

Create HintDb iou.
Create Rewrite HintDb iou.
#[export] Hint Rewrite u8_id u16_id u32_id u64_id i32_id using lia : iou.

(** ** Errors

    A C function that reports failure by [-1] and [errno] returns [Err e];
    its state changes up to that point persist. *)

Inductive outcome (A : Type) : Type :=
| Ok (a : A)
| Err (e : Z).
Arguments Ok {A} a.
Arguments Err {A} e.

Definition is_ok {A} (r : outcome A) : bool :=
  match r with Ok _ => true | Err _ => false end.

Definition EPERM : Z := 1.
Definition ENOENT : Z := 2.
Definition EINTR : Z := 4.
Definition EIO : Z := 5.
Definition EBADF : Z := 9.
Definition EAGAIN : Z := 11.
Definition ENOMEM : Z := 12.
Definition EACCES : Z := 13.
Definition EBUSY : Z := 16.
Definition EINVAL : Z := 22.
Definition EPIPE : Z := 32.
Definition ENAMETOOLONG : Z := 36.
Definition ENOSYS : Z := 38.
Definition EPROTO : Z := 71.
Definition EOVERFLOW : Z := 75.
Definition EMSGSIZE : Z := 90.
Definition ENOTSUP : Z := 95.

(** ** A state and error monad *)

Definition M (S A : Type) : Type := S -> outcome A * S.

Definition mret {S A} (a : A) : M S A := fun s => (Ok a, s).
Definition mfail {S A} (e : Z) : M S A := fun s => (Err e, s).
Definition mbnd {S A B} (m : M S A) (k : A -> M S B) : M S B :=
  fun s => match m s with
           | (Ok a, s') => k a s'
           | (Err e, s') => (Err e, s')
           end.
(** [mtry m] turns the failure of [m] into a value: the C idiom
    [if (f() != 0) { int saved_errno = errno; ... }]. *)
Definition mtry {S A} (m : M S A) : M S (outcome A) :=
  fun s => let '(r, s') := m s in (Ok r, s').
Definition mget {S A} (f : S -> A) : M S A := fun s => (Ok (f s), s).
Definition mmod {S} (f : S -> S) : M S unit := fun s => (Ok tt, f s).

Notation "x <- m ;; k" := (mbnd m (fun x => k))
  (at level 100, m at next level, right associativity) : iou_scope.
Notation "m ;;; k" := (mbnd m (fun _ => k))
  (at level 100, right associativity) : iou_scope.

(** Two continuations that agree on the runs of [m] make the same computation. *)
Lemma mbnd_ext {S A B} (m : M S A) (k1 k2 : A -> M S B) s :
  (forall a s', m s = (Ok a, s') -> k1 a s' = k2 a s') -> mbnd m k1 s = mbnd m k2 s.
Proof. unfold mbnd. destruct (m s) as [[a|e] s']; auto. Qed.

Lemma mtry_inv {S A} (m : M S A) s r s' : mtry m s = (Ok r, s') -> m s = (r, s').
Proof. unfold mtry. destruct (m s). congruence. Qed.

Lemma mbnd_ok {S A B} (m : M S A) (k : A -> M S B) s a s' :
  m s = (Ok a, s') -> mbnd m k s = k a s'.
Proof. intros E. unfold mbnd. by rewrite E. Qed.

Lemma mbnd_try {S A B} (m : M S A) (k : outcome A -> M S B) s r s' :
  m s = (r, s') -> mbnd (mtry m) k s = k r s'.
Proof. intros E. unfold mbnd, mtry. by rewrite E. Qed.

(** A post-condition of the runs that return: [post m s Q] holds when the run
    of [m] from [s] fails or ends in a value and state of [Q]. *)
Definition post {S A} (m : M S A) (s : S) (Q : A -> S -> Prop) : Prop :=
  match m s with
  | (Ok a, s') => Q a s'
  | (Err _, _) => True
  end.

Lemma post_bind {S A B} (m : M S A) (k : A -> M S B) s Q :
  post m s (fun a s' => post (k a) s' Q) -> post (mbnd m k) s Q.
Proof. unfold post, mbnd. destruct (m s) as [[a|e] s']; auto. Qed.

Lemma post_weaken {S A} (m : M S A) s (Q Q' : A -> S -> Prop) :
  post m s Q -> (forall a s', Q a s' -> Q' a s') -> post m s Q'.
Proof. unfold post. destruct (m s) as [[a|e] s']; auto. Qed.

Lemma post_run {S A} (m : M S A) s Q a s' :
  post m s Q -> m s = (Ok a, s') -> Q a s'.
Proof. unfold post. intros H E. rewrite E in H. exact H. Qed.

Lemma post_intro {S A} (m : M S A) s (Q : A -> S -> Prop) :
  (forall a s', m s = (Ok a, s') -> Q a s') -> post m s Q.
Proof. unfold post. destruct (m s) as [[a|e] s']; auto. Qed.

(** A post-condition of every run, of its result and of its final state, whether
    it returns or fails. *)
Definition wp {S A} (m : M S A) (s : S) (Q : outcome A -> S -> Prop) : Prop :=
  let '(r, s') := m s in Q r s'.

Lemma wp_bind {S A B} (m : M S A) (k : A -> M S B) s (Q : outcome B -> S -> Prop) :
  wp m s (fun r s' => match r with Ok a => wp (k a) s' Q | Err e => Q (Err e) s' end) ->
  wp (mbnd m k) s Q.
Proof. unfold wp, mbnd. by destruct (m s) as [[a|e] s']. Qed.

Lemma wp_try {S A} (m : M S A) s (Q : outcome (outcome A) -> S -> Prop) :
  wp m s (fun r s' => Q (Ok r) s') -> wp (mtry m) s Q.
Proof. unfold wp, mtry. by destruct (m s). Qed.

Lemma wp_weaken {S A} (m : M S A) s (Q Q' : outcome A -> S -> Prop) :
  wp m s Q -> (forall r s', Q r s' -> Q' r s') -> wp m s Q'.
Proof. unfold wp. destruct (m s). auto. Qed.

(** ** Record updates

    [r <| f := v |>] replaces field [f] of [r]; the update of a field is found
    by instance search among the [Setter] instances each record declares. *)

Class Setter {R T : Type} (proj : R -> T) := put : T -> R -> R.
Arguments put {R T} proj {_} v r /.

Notation "r <| f := v |>" := (put f v r)
  (at level 12, f constr at level 200, v at level 200, left associativity,
   format "r  <| f  :=  v |>").

(** Builds the setter of [proj] from the eta expansion of its record. *)
Ltac mk_put eta proj :=
  let h := eval cbv delta [eta] in eta in
  let t := type of proj in
  lazymatch t with
  | ?R -> ?T =>
      exact (fun (v : T) (r : R) =>
               ltac:(let b := eval cbv beta in (h r) in
                     let p := eval pattern (proj r) in b in
                     lazymatch p with
                     | ?f _ => let e := eval cbv beta in (f v) in exact e
                     end))
  end.

(** ** Bytes and byte arrays

    A byte is a [Z] in [0, 256); a C array of bytes is a list of them. *)

Definition is_byte (b : Z) : Prop := 0 <= b < 256.
Abbreviation bytes := (list Z).

(** The [n] little-endian bytes of [z], and the number a byte list stands for:
    the in-memory image of an unsigned integer field on the wire. *)
Fixpoint le_split (n : nat) (z : Z) : bytes :=
  match n with
  | O => []
  | S m => u8 z :: le_split m (z / 256)
  end.

Fixpoint le_combine (bs : bytes) : Z :=
  match bs with
  | [] => 0
  | b :: rest => b + 256 * le_combine rest
  end.

Lemma length_le_split n z : length (le_split n z) = n.
Proof. revert z. induction n as [|n IH]; intros z; simpl; [done|]. by rewrite IH. Qed.

Lemma le_split_bytes n z : Forall is_byte (le_split n z).
Proof.
  revert z. induction n as [|n IH]; intros z; simpl; [constructor|].
  constructor; [|apply IH]. apply Z.mod_pos_bound. lia.
Qed.

Lemma le_combine_split n z :
  0 <= z < 256 ^ Z.of_nat n -> le_combine (le_split n z) = z.
Proof.
  revert z. induction n as [|n IH]; intros z Hz; cbn [le_split le_combine].
  - simpl in Hz. lia.
  - rewrite Nat2Z.inj_succ, Z.pow_succ_r in Hz by lia.
    rewrite IH.
    + unfold u8, wrap. change (2 ^ 8) with 256.
      pose proof (Z.div_mod z 256 ltac:(lia)). lia.
    + split; [apply Z.div_pos; lia|]. apply Z.div_lt_upper_bound; lia.
Qed.

Lemma le_combine_bound bs :
  Forall is_byte bs -> 0 <= le_combine bs < 256 ^ Z.of_nat (length bs).
Proof.
  induction 1 as [|b bs Hb _ IH]; cbn [le_combine length]; [simpl; lia|].
  rewrite Nat2Z.inj_succ, Z.pow_succ_r by lia. unfold is_byte in Hb. lia.
Qed.

Lemma le_split_combine bs :
  Forall is_byte bs -> le_split (length bs) (le_combine bs) = bs.
Proof.
  induction 1 as [|b bs Hb _ IH]; cbn [le_combine le_split length]; [done|].
  unfold is_byte in Hb. rewrite (Z.mul_comm 256), Z.div_add by lia.
  rewrite (Z.div_small b) by lia. rewrite Z.add_0_l, IH. f_equal.
  unfold u8, wrap. change (2 ^ 8) with 256. rewrite Z.mod_add by lia.
  apply Z.mod_small. lia.
Qed.

(** [slice off len buf] is the [len] bytes at [buf + off]; [blit off bs buf]
    is [buf] after [memcpy(buf + off, bs, length bs)]. *)
Definition slice {A} (off len : nat) (buf : list A) : list A := take len (drop off buf).
Definition blit {A} (off : nat) (bs buf : list A) : list A :=
  take off buf ++ bs ++ drop (off + length bs) buf.

Lemma length_slice {A} off len (buf : list A) :
  (off + len <= length buf)%nat -> length (slice off len buf) = len.
Proof. intros H. unfold slice. rewrite length_take, length_drop. lia. Qed.

Lemma length_blit {A} off (bs buf : list A) :
  (off + length bs <= length buf)%nat -> length (blit off bs buf) = length buf.
Proof.
  intros H. unfold blit. rewrite !length_app, length_take, length_drop. lia.
Qed.

Lemma take_blit {A} off (bs buf : list A) :
  (off <= length buf)%nat -> take (off + length bs) (blit off bs buf) = take off buf ++ bs.
Proof.
  intros H. unfold blit. rewrite app_assoc. apply take_app_length'.
  rewrite length_app, length_take. lia.
Qed.

Lemma slice_blit_same {A} off (bs buf : list A) :
  (off <= length buf)%nat -> slice off (length bs) (blit off bs buf) = bs.
Proof.
  intros H. unfold slice, blit.
  rewrite drop_app_length' by (rewrite length_take; lia). apply take_app_length.
Qed.

Lemma slice_blit_before {A} off len (bs buf : list A) o :
  (off + len <= o)%nat -> (o <= length buf)%nat ->
  slice off len (blit o bs buf) = slice off len buf.
Proof.
  intros H1 H2. unfold slice, blit.
  rewrite drop_app_le by (rewrite length_take; lia).
  rewrite take_app_le by (rewrite length_drop, length_take; lia).
  rewrite <- (take_drop o buf) at 2. rewrite drop_app_le by (rewrite length_take; lia).
  rewrite take_app_le; [done|]. rewrite length_drop, length_take. lia.
Qed.

(** ** Searching an array: the first index whose element passes a test *)

Fixpoint find_index {A} (p : A -> bool) (l : list A) : option nat :=
  match l with
  | [] => None
  | x :: rest => if p x then Some O else S <$> find_index p rest
  end.

Lemma find_index_Some {A} (p : A -> bool) l i :
  find_index p l = Some i ->
  exists x, l !! i = Some x /\ p x = true /\
            forall j y, (j < i)%nat -> l !! j = Some y -> p y = false.
Proof.
  revert i. induction l as [|x l IH]; intros i H; simpl in H; [done|].
  destruct (p x) eqn:Hp.
  - injection H as <-. exists x. split_and!; [done|done|]. intros; lia.
  - destruct (find_index p l) as [i'|] eqn:E; simpl in H; [|done].
    injection H as <-. destruct (IH i' eq_refl) as (y & Hy & Hpy & Hlt).
    exists y. split_and!; [done|done|]. intros [|j] z Hj Hz; simpl in Hz.
    + congruence.
    + eapply Hlt; [|exact Hz]. lia.
Qed.

Lemma find_index_None {A} (p : A -> bool) l :
  find_index p l = None <-> forall j y, l !! j = Some y -> p y = false.
Proof.
  split.
  - induction l as [|x l IH]; simpl; intros H j y Hj; [done|].
    destruct (p x) eqn:Hp; [done|].
    destruct (find_index p l) eqn:E; [done|].
    destruct j as [|j]; simpl in Hj; [congruence|]. eapply IH; eauto.
  - induction l as [|x l IH]; simpl; intros H; [done|].
    rewrite (H O x eq_refl), IH; [done|]. intros j y Hj. apply (H (S j) y Hj).
Qed.

Lemma lookup_take_Some {A} (l : list A) n i x :
  take n l !! i = Some x <-> (i < n)%nat /\ l !! i = Some x.
Proof.
  destruct (decide (i < n)%nat) as [H|H].
  - rewrite lookup_take_lt by done. tauto.
  - rewrite lookup_take_ge by lia. split; [done|]. intros [? _]. lia.
Qed.

(** ** Sums over an array *)

Fixpoint sumz {A} (f : A -> Z) (l : list A) : Z :=
  match l with
  | [] => 0
  | x :: rest => f x + sumz f rest
  end.

Lemma sumz_insert {A} (f : A -> Z) l k t t' :
  l !! k = Some t -> sumz f (<[k := t']> l) = sumz f l - f t + f t'.
Proof.
  revert k. induction l as [|x l IH]; intros [|k] H; simplify_eq/=; [lia|].
  rewrite (IH k H). lia.
Qed.

Lemma sumz_ext {A} (f g : A -> Z) l :
  (forall k x, l !! k = Some x -> f x = g x) -> sumz f l = sumz g l.
Proof.
  induction l as [|x l IH]; intros H; simpl; [done|].
  rewrite (H O x eq_refl), IH; [done|]. intros k y Hk. apply (H (S k) y Hk).
Qed.

Lemma sumz_nonneg {A} (f : A -> Z) l : (forall x, 0 <= f x) -> 0 <= sumz f l.
Proof. intros H. induction l as [|x l IH]; simpl; [lia|]. specialize (H x). lia. Qed.

Lemma sumz_elem_le {A} (f : A -> Z) l k x :
  (forall x, 0 <= f x) -> l !! k = Some x -> f x <= sumz f l.
Proof.
  intros Hf. revert k. induction l as [|y l IH]; intros [|k] H; simplify_eq/=.
  - pose proof (sumz_nonneg f l Hf). lia.
  - specialize (IH k H). specialize (Hf y). lia.
Qed.

Lemma sumz_zero {A} (f : A -> Z) l :
  (forall k x, l !! k = Some x -> f x = 0) -> sumz f l = 0.
Proof.
  induction l as [|x l IH]; intros H; simpl; [done|].
  rewrite (H O x eq_refl), IH; [done|]. intros k y Hk. apply (H (S k) y Hk).
Qed.

Lemma sumz_zero_inv {A} (f : A -> Z) l k x :
  (forall x, 0 <= f x) -> sumz f l = 0 -> l !! k = Some x -> f x = 0.
Proof.
  intros Hf Hs Hk. pose proof (sumz_elem_le f l k x Hf Hk). specialize (Hf x). lia.
Qed.

Lemma sumz_le {A} (f g : A -> Z) l : (forall x, f x <= g x) -> sumz f l <= sumz g l.
Proof. intros H. induction l as [|x l IH]; simpl; [lia|]. specialize (H x). lia. Qed.

Lemma sumz_le_length {A} (f : A -> Z) l :
  (forall x, f x <= 1) -> sumz f l <= Z.of_nat (length l).
Proof.
  intros H. induction l as [|x l IH]; cbn [sumz length]; [lia|].
  specialize (H x). lia.
Qed.

Lemma sumz_app {A} (f : A -> Z) l1 l2 : sumz f (l1 ++ l2) = sumz f l1 + sumz f l2.
Proof.
  induction l1 as [|x l IH]; [done|]. cbn [app sumz]. lia.
Qed.

(** The number of elements that pass a test. *)
Definition countz {A} (p : A -> bool) (l : list A) : Z := sumz (fun x => Z.b2z (p x)) l.

Lemma countz_nonneg {A} (p : A -> bool) l : 0 <= countz p l.
Proof. apply sumz_nonneg. intros x. destruct (p x); simpl; lia. Qed.

Lemma countz_le_length {A} (p : A -> bool) l : countz p l <= Z.of_nat (length l).
Proof. apply sumz_le_length. intros x. destruct (p x); simpl; lia. Qed.

(** An element that fails the test leaves room: the count is below the length. *)
Lemma countz_lt_length {A} (p : A -> bool) l k x :
  l !! k = Some x -> p x = false -> countz p l < Z.of_nat (length l).
Proof.
  intros Hk Hp. revert k Hk. induction l as [|y l IH]; intros [|k] Hk; simplify_eq/=.
  - unfold countz. cbn [sumz]. change (sumz _ l) with (countz p l).
    rewrite Hp. pose proof (countz_le_length p l). simpl Z.b2z. lia.
  - unfold countz. cbn [sumz]. change (sumz _ l) with (countz p l).
    specialize (IH k Hk). destruct (p y); simpl Z.b2z; lia.
Qed.

Lemma countz_full {A} (p : A -> bool) l :
  countz p l = Z.of_nat (length l) <-> forall k x, l !! k = Some x -> p x = true.
Proof.
  split.
  - intros H k x Hk. destruct (p x) eqn:Hp; [done|].
    pose proof (countz_lt_length p l k x Hk Hp). lia.
  - intros H. induction l as [|y l IH]; [done|]. unfold countz. cbn [sumz length].
    change (sumz _ l) with (countz p l). rewrite IH.
    + rewrite (H O y eq_refl). simpl Z.b2z. lia.
    + intros k x Hk. apply (H (S k) x Hk).
Qed.

(** ** Total access

    [l !!! i] reads an array whose index is known to be in range. *)

Lemma insert_total_eq {A} `{Inhabited A} (l : list A) i x :
  (i < length l)%nat -> <[i := x]> l !!! i = x.
Proof. intros Hi. apply list_lookup_total_insert_eq. exact Hi. Qed.

Lemma insert_total_ne {A} `{Inhabited A} (l : list A) i j x :
  i <> j -> <[i := x]> l !!! j = l !!! j.
Proof. apply list_lookup_total_insert_ne. Qed.

Lemma lookup_total_lt {A} `{Inhabited A} (l : list A) i :
  (i < length l)%nat -> l !! i = Some (l !!! i).
Proof. intros Hi. apply list_lookup_lookup_total_lt. exact Hi. Qed.

#[export] Hint Resolve lookup_total_lt : iou.
#[export] Hint Resolve countz_nonneg countz_le_length : iou.

(** ** Tactics *)

(** Opens the guards of a definition one at a time and drops the
    contradictory ones. *)
Ltac split_ifs :=
  repeat match goal with
         | |- context [if ?b then _ else _] =>
             lazymatch b with
             | context [if _ then _ else _] => fail
             | _ => let E := fresh "E" in destruct b eqn:E
             end
         | H : context [if ?b then _ else _] |- _ =>
             lazymatch b with
             | context [if _ then _ else _] => fail
             | _ => let E := fresh "E" in destruct b eqn:E
             end
         end; try discriminate.

(** Turns the boolean tests of the context into propositions. *)
Ltac bool_hyps :=
  repeat match goal with
         | H : _ && _ = true |- _ => apply andb_true_iff in H as [? ?]
         | H : _ || _ = false |- _ => apply orb_false_iff in H as [? ?]
         | H : negb _ = true |- _ => apply negb_true_iff in H
         | H : negb _ = false |- _ => apply negb_false_iff in H
         | H : (_ =? _) = true |- _ => apply Z.eqb_eq in H
         | H : (_ =? _) = false |- _ => apply Z.eqb_neq in H
         | H : (_ <? _) = true |- _ => apply Z.ltb_lt in H
         | H : (_ <? _) = false |- _ => apply Z.ltb_ge in H
         | H : (_ <=? _) = true |- _ => apply Z.leb_le in H
         | H : (_ <=? _) = false |- _ => apply Z.leb_gt in H
         end.
