(* ===== verification/Wire.v ===== *)
(** * The wire protocol

    Models [include/iouringd/protocol.h] and [include/iouringd/api.h]: the
    protocol constants, one record per wire struct, and the memory image of
    each struct.  The structs are written to and read from the socket by
    copying their memory, so the image is the concatenation of the
    little-endian bytes of the fields, in declaration order and without
    padding ([IOURINGD_PROTOCOL_PACKING_NONE]); the static assertions of
    [api.h] about sizes and offsets become theorems about that image.

    [Wire] is the interface every other file uses: the layout of a struct, its
    fields as numbers, and back.  [WireOk] is the law an instance owes. *)

From S2P Require Import Prelude.

(** ** Constants *)

Definition IOURINGD_TASK_ID_INVALID : Z := 0.
Definition IOURINGD_RESOURCE_ID_INVALID : Z := 0.

Definition IOURINGD_TASK_KIND_NOP : Z := 1.
Definition IOURINGD_TASK_KIND_TIMEOUT : Z := 2.
Definition IOURINGD_TASK_KIND_CANCEL : Z := 3.
Definition IOURINGD_TASK_KIND_SOCK_READ : Z := 4.
Definition IOURINGD_TASK_KIND_SOCK_WRITE : Z := 5.
Definition IOURINGD_TASK_KIND_SOCK_READ_FIXED : Z := 6.
Definition IOURINGD_TASK_KIND_SOCK_WRITE_FIXED : Z := 7.
Definition IOURINGD_TASK_KIND_FILE_READ : Z := 8.
Definition IOURINGD_TASK_KIND_FILE_WRITE : Z := 9.
Definition IOURINGD_TASK_KIND_POLL : Z := 10.
Definition IOURINGD_TASK_KIND_CONNECT : Z := 11.
Definition IOURINGD_TASK_KIND_ACCEPT : Z := 12.
Definition IOURINGD_TASK_KIND_OPENAT : Z := 13.
Definition IOURINGD_TASK_KIND_CLOSE : Z := 14.
Definition IOURINGD_TASK_KIND_MAX_V1 : Z := 15.

Definition IOURINGD_ABI_V1_MAJOR : Z := 1.
Definition IOURINGD_ABI_V1_MINOR : Z := 12.
Definition IOURINGD_PROTOCOL_V1_MAJOR : Z := 1.
Definition IOURINGD_PROTOCOL_V1_MINOR : Z := 12.
Definition IOURINGD_PROTOCOL_WIRE_MAGIC : Z := 0x31444f49.

Definition IOURINGD_HANDSHAKE_STATUS_ACCEPT : Z := 0.
Definition IOURINGD_HANDSHAKE_STATUS_REJECT : Z := 1.

Definition IOURINGD_CAPABILITY_OP_NOP : Z := 1.
Definition IOURINGD_CAPABILITY_OP_TIMEOUT : Z := Z.shiftl 1 1.
Definition IOURINGD_CAPABILITY_OP_READV : Z := Z.shiftl 1 2.
Definition IOURINGD_CAPABILITY_OP_WRITEV : Z := Z.shiftl 1 3.
Definition IOURINGD_CAPABILITY_OP_ASYNC_CANCEL : Z := Z.shiftl 1 4.
Definition IOURINGD_CAPABILITY_OP_READ_FIXED : Z := Z.shiftl 1 5.
Definition IOURINGD_CAPABILITY_OP_WRITE_FIXED : Z := Z.shiftl 1 6.
Definition IOURINGD_CAPABILITY_OP_POLL : Z := Z.shiftl 1 7.
Definition IOURINGD_CAPABILITY_OP_CONNECT : Z := Z.shiftl 1 8.
Definition IOURINGD_CAPABILITY_OP_ACCEPT : Z := Z.shiftl 1 9.
Definition IOURINGD_CAPABILITY_OP_OPENAT : Z := Z.shiftl 1 10.
Definition IOURINGD_CAPABILITY_OP_CLOSE : Z := Z.shiftl 1 11.

Definition IOURINGD_CAPABILITY_OP_MASK_V1 : Z :=
  foldr Z.lor 0
    [IOURINGD_CAPABILITY_OP_NOP; IOURINGD_CAPABILITY_OP_TIMEOUT;
     IOURINGD_CAPABILITY_OP_READV; IOURINGD_CAPABILITY_OP_WRITEV;
     IOURINGD_CAPABILITY_OP_ASYNC_CANCEL; IOURINGD_CAPABILITY_OP_READ_FIXED;
     IOURINGD_CAPABILITY_OP_WRITE_FIXED; IOURINGD_CAPABILITY_OP_POLL;
     IOURINGD_CAPABILITY_OP_CONNECT; IOURINGD_CAPABILITY_OP_ACCEPT;
     IOURINGD_CAPABILITY_OP_OPENAT; IOURINGD_CAPABILITY_OP_CLOSE].

Definition IOURINGD_REQUEST_KIND_REGISTER_FD : Z := 256.
Definition IOURINGD_REQUEST_KIND_RELEASE_RESOURCE : Z := 257.
Definition IOURINGD_REQUEST_KIND_REGISTER_BUFFER : Z := 258.
Definition IOURINGD_REQUEST_KIND_GET_STATS : Z := 259.
Definition IOURINGD_REQUEST_KIND_GET_TRACE : Z := 260.

Definition IOURINGD_SUBMIT_PRIORITY_NORMAL : Z := 0.
Definition IOURINGD_SUBMIT_PRIORITY_LOW : Z := 1.
Definition IOURINGD_SUBMIT_PRIORITY_HIGH : Z := 2.

Definition IOURINGD_TRACE_EVENT_SUBMIT_ACCEPT : Z := 1.
Definition IOURINGD_TRACE_EVENT_SUBMIT_REJECT : Z := 2.
Definition IOURINGD_TRACE_EVENT_COMPLETION : Z := 3.
Definition IOURINGD_TRACE_EVENT_RESOURCE_REGISTER : Z := 4.
Definition IOURINGD_TRACE_EVENT_RESOURCE_RELEASE : Z := 5.

Definition IOURINGD_TASK_ID_RESERVED_MIN : Z := UINT64_MAX - 15.
Definition IOURINGD_COMPLETION_RES_OK : Z := 0.

(** ** The interface of a wire struct *)

Class Wire (A : Type) := {
  wire_layout : list nat;          (* the width in bytes of each field *)
  wire_fields : A -> list Z;       (* the fields, as unsigned numbers *)
  wire_build : list Z -> A;        (* a struct from its fields *)
}.
Arguments wire_layout A {_}.

Definition wire_size (A : Type) `{Wire A} : nat := sum_list (wire_layout A).

Fixpoint enc (ws : list nat) (zs : list Z) : bytes :=
  match ws, zs with
  | w :: ws', z :: zs' => le_split w z ++ enc ws' zs'
  | _, _ => []
  end.

Fixpoint dec (ws : list nat) (bs : bytes) : list Z :=
  match ws with
  | [] => []
  | w :: ws' => le_combine (take w bs) :: dec ws' (drop w bs)
  end.

Definition to_wire {A} `{Wire A} (a : A) : bytes := enc (wire_layout A) (wire_fields a).
Definition of_wire {A} `{Wire A} (bs : bytes) : A := wire_build (dec (wire_layout A) bs).

(** [offsetof]: where the [n]-th field of the struct starts. *)
Definition wire_offset (A : Type) `{Wire A} (n : nat) : nat :=
  sum_list (take n (wire_layout A)).

(** What an instance owes: the values of [wire_ok] are those the C struct can
    hold, their fields fit their widths and rebuild the struct; and any fields
    of the right widths are those of some struct. *)
Class WireOk (A : Type) `{Wire A} (wire_ok : A -> Prop) := {
  wire_build_fields a : wire_ok a -> wire_build (wire_fields a) = a;
  wire_fields_fit a :
    wire_ok a -> Forall2 (fun w z => 0 <= z < 256 ^ Z.of_nat w) (wire_layout A) (wire_fields a);
  wire_fields_build zs :
    Forall2 (fun w z => 0 <= z < 256 ^ Z.of_nat w) (wire_layout A) zs ->
    wire_fields (wire_build zs) = zs;
}.

Lemma length_enc ws zs : length zs = length ws -> length (enc ws zs) = sum_list ws.
Proof.
  revert zs. induction ws as [|w ws IH]; intros [|z zs] H; simpl in *; try done.
  rewrite length_app, length_le_split, IH; lia.
Qed.

Lemma enc_bytes ws zs : Forall is_byte (enc ws zs).
Proof.
  revert zs. induction ws as [|w ws IH]; intros [|z zs]; simpl; try constructor.
  apply Forall_app. split; [apply le_split_bytes|apply IH].
Qed.

Lemma dec_enc ws zs rest :
  Forall2 (fun w z => 0 <= z < 256 ^ Z.of_nat w) ws zs ->
  dec ws (enc ws zs ++ rest) = zs.
Proof.
  induction 1 as [|w z ws zs Hz _ IH]; cbn [dec enc]; [done|].
  rewrite <- app_assoc.
  rewrite take_app_length' by (by rewrite length_le_split).
  rewrite drop_app_length' by (by rewrite length_le_split).
  by rewrite le_combine_split, IH.
Qed.

Lemma dec_fit ws bs :
  Forall is_byte bs -> (sum_list ws <= length bs)%nat ->
  Forall2 (fun w z => 0 <= z < 256 ^ Z.of_nat w) ws (dec ws bs).
Proof.
  revert bs. induction ws as [|w ws IH]; intros bs Hb Hl; cbn [dec]; constructor.
  - simpl in Hl. pose proof (le_combine_bound (take w bs) (Forall_take _ w _ Hb)) as H.
    rewrite length_take in H. rewrite (Nat.min_l w (length bs)) in H by lia. exact H.
  - simpl in Hl. apply IH; [by apply Forall_drop|]. rewrite length_drop. lia.
Qed.

Lemma enc_dec ws bs :
  Forall is_byte bs -> length bs = sum_list ws -> enc ws (dec ws bs) = bs.
Proof.
  revert bs. induction ws as [|w ws IH]; intros bs Hb Hl; simpl in *.
  - by destruct bs.
  - rewrite IH; [|by apply Forall_drop|rewrite length_drop; lia].
    assert (Hw : length (take w bs) = w) by (rewrite length_take; lia).
    rewrite <- Hw at 1. rewrite le_split_combine by (by apply Forall_take).
    apply take_drop.
Qed.

Section WireTheory.
Context {A : Type} `{WireOk A ok}.

(** Reading a struct back from the bytes it was written as gives the struct,
    whatever follows it in the buffer. *)
Lemma of_to_wire a rest : ok a -> of_wire (to_wire a ++ rest) = a.
Proof.
  intros Ha. unfold of_wire, to_wire.
  rewrite dec_enc by (by apply wire_fields_fit). by apply wire_build_fields.
Qed.

Lemma to_of_wire bs :
  Forall is_byte bs -> length bs = wire_size A -> to_wire (of_wire (A := A) bs) = bs.
Proof.
  intros Hb Hl. unfold of_wire, to_wire.
  rewrite wire_fields_build by (apply dec_fit; [done|unfold wire_size in Hl; lia]).
  by apply enc_dec.
Qed.

Lemma length_to_wire a : ok a -> length (to_wire a) = wire_size A.
Proof.
  intros Ha. apply length_enc. symmetry. eapply Forall2_length. by apply wire_fields_fit.
Qed.

Lemma to_wire_bytes (a : A) : Forall is_byte (to_wire a).
Proof. apply enc_bytes. Qed.
End WireTheory.

(** ** The wire structs

    Field names carry a prefix per struct; the [iouringd_task_id_record_v1],
    [iouringd_resource_id_record_v1] and [iouringd_task_kind_wire_v1] wrappers
    of one number are that number. *)

Lemma i32_u32 z : fits_i32 z -> i32 (u32 z) = z.
Proof.
  unfold fits_i32. intros H. unfold i32, u32, wrap.
  rewrite Z.add_mod_idemp_l by lia. apply i32_id. lia.
Qed.

Lemma u32_i32 z : 0 <= z < 4294967296 -> u32 (i32 z) = z.
Proof.
  intros H. unfold i32, u32, wrap.
  rewrite Zminus_mod_idemp_l. rewrite <- (Z.mod_small z (2 ^ 32)) at 2 by lia.
  f_equal. lia.
Qed.

Lemma u32_fits z : 0 <= u32 z < 4294967296.
Proof. apply (wrap_range 32). lia. Qed.
#[export] Hint Resolve u32_fits : iou.

(** [struct iouringd_protocol_header_v1] *)
Record protocol_header := mk_protocol_header {
  hdr_magic : Z;
  hdr_version_major : Z;
  hdr_version_minor : Z;
}.
#[export] Instance protocol_header_eq_dec : EqDecision protocol_header.
Proof. solve_decision. Defined.
#[export] Instance wire_protocol_header : Wire protocol_header := {|
  wire_layout := ([4; 2; 2])%nat;
  wire_fields a := [hdr_magic a; hdr_version_major a; hdr_version_minor a];
  wire_build zs := mk_protocol_header (nth 0 zs 0) (nth 1 zs 0) (nth 2 zs 0);
|}.

(** [struct iouringd_handshake_request_v1] *)
Record handshake_request := mk_handshake_request {
  hq_header : protocol_header;
  hq_abi_major : Z;
  hq_abi_minor : Z;
  hq_reserved : Z;
}.
#[export] Instance handshake_request_eq_dec : EqDecision handshake_request.
Proof. solve_decision. Defined.
#[export] Instance wire_handshake_request : Wire handshake_request := {|
  wire_layout := (wire_layout protocol_header ++ [2; 2; 4])%nat;
  wire_fields a := wire_fields (hq_header a) ++ [hq_abi_major a; hq_abi_minor a;
      hq_reserved a];
  wire_build zs := mk_handshake_request (wire_build (take 3 zs)) (nth 3 zs 0) (nth 4
      zs 0) (nth 5 zs 0);
|}.

(** [struct iouringd_handshake_response_v1] *)
Record handshake_response := mk_handshake_response {
  hp_header : protocol_header;
  hp_abi_major : Z;
  hp_abi_minor : Z;
  hp_status : Z;
  hp_reserved : Z;
}.
#[export] Instance wire_handshake_response : Wire handshake_response := {|
  wire_layout := (wire_layout protocol_header ++ [2; 2; 2; 2])%nat;
  wire_fields a := wire_fields (hp_header a) ++ [hp_abi_major a; hp_abi_minor a;
      hp_status a; hp_reserved a];
  wire_build zs := mk_handshake_response (wire_build (take 3 zs)) (nth 3 zs 0) (nth
      4 zs 0) (nth 5 zs 0) (nth 6 zs 0);
|}.

(** [struct iouringd_capability_descriptor_v1] *)
Record capability_descriptor := mk_capability_descriptor {
  cap_struct_size : Z;
  cap_features : Z;
  cap_ring_entries : Z;
  cap_cq_entries : Z;
  cap_op_mask : Z;
  cap_submit_credits : Z;
  cap_registered_fd_slots : Z;
  cap_registered_buffer_slots : Z;
  cap_io_bytes_max : Z;
}.
#[export] Instance wire_capability_descriptor : Wire capability_descriptor := {|
  wire_layout := ([4; 4; 4; 4; 4; 4; 4; 4; 4])%nat;
  wire_fields a := [cap_struct_size a; cap_features a; cap_ring_entries a;
      cap_cq_entries a; cap_op_mask a; cap_submit_credits a; cap_registered_fd_slots
      a; cap_registered_buffer_slots a; cap_io_bytes_max a];
  wire_build zs := mk_capability_descriptor (nth 0 zs 0) (nth 1 zs 0) (nth 2 zs 0)
      (nth 3 zs 0) (nth 4 zs 0) (nth 5 zs 0) (nth 6 zs 0) (nth 7 zs 0) (nth 8 zs 0);
|}.

(** [struct iouringd_handshake_result_v1] *)
Record handshake_result := mk_handshake_result {
  hr_response : handshake_response;
  hr_capabilities : capability_descriptor;
}.
#[export] Instance wire_handshake_result : Wire handshake_result := {|
  wire_layout := (wire_layout handshake_response ++ wire_layout
      capability_descriptor)%nat;
  wire_fields a := wire_fields (hr_response a) ++ wire_fields (hr_capabilities a);
  wire_build zs := mk_handshake_result (wire_build (take 7 zs)) (wire_build (take 9
      (drop 7 zs)));
|}.

(** [struct iouringd_submit_request_v1] *)
Record submit_request := mk_submit_request {
  sq_header : protocol_header;
  sq_task_kind : Z;
  sq_priority : Z;
  sq_reserved1 : Z;
}.
#[export] Instance wire_submit_request : Wire submit_request := {|
  wire_layout := (wire_layout protocol_header ++ [2; 2; 4])%nat;
  wire_fields a := wire_fields (sq_header a) ++ [sq_task_kind a; sq_priority a;
      sq_reserved1 a];
  wire_build zs := mk_submit_request (wire_build (take 3 zs)) (nth 3 zs 0) (nth 4 zs
      0) (nth 5 zs 0);
|}.

(** [struct iouringd_control_request_v1] *)
Record control_request := mk_control_request {
  cq_header : protocol_header;
  cq_request_kind : Z;
  cq_reserved0 : Z;
  cq_reserved1 : Z;
}.
#[export] Instance wire_control_request : Wire control_request := {|
  wire_layout := (wire_layout protocol_header ++ [2; 2; 4])%nat;
  wire_fields a := wire_fields (cq_header a) ++ [cq_request_kind a; cq_reserved0 a;
      cq_reserved1 a];
  wire_build zs := mk_control_request (wire_build (take 3 zs)) (nth 3 zs 0) (nth 4
      zs 0) (nth 5 zs 0);
|}.

(** [struct iouringd_timeout_request_v1] *)
Record timeout_request := mk_timeout_request {
  tq_submit : submit_request;
  tq_timeout_nsec : Z;
}.
#[export] Instance wire_timeout_request : Wire timeout_request := {|
  wire_layout := (wire_layout submit_request ++ [8])%nat;
  wire_fields a := wire_fields (tq_submit a) ++ [tq_timeout_nsec a];
  wire_build zs := mk_timeout_request (wire_build (take 6 zs)) (nth 6 zs 0);
|}.

(** [struct iouringd_cancel_request_v1] *)
Record cancel_request := mk_cancel_request {
  kq_header : protocol_header;
  kq_task_kind : Z;
  kq_reserved0 : Z;
  kq_reserved1 : Z;
  kq_target : Z;
}.
#[export] Instance wire_cancel_request : Wire cancel_request := {|
  wire_layout := (wire_layout protocol_header ++ [2; 2; 4; 8])%nat;
  wire_fields a := wire_fields (kq_header a) ++ [kq_task_kind a; kq_reserved0 a;
      kq_reserved1 a; kq_target a];
  wire_build zs := mk_cancel_request (wire_build (take 3 zs)) (nth 3 zs 0) (nth 4 zs
      0) (nth 5 zs 0) (nth 6 zs 0);
|}.

(** iouringd_{sock,file}_{read,write}_request_v1, iouringd_connect_request_v1 and iouringd_accept_request_v1 (one layout) *)
Record rw_request := mk_rw_request {
  rq_submit : submit_request;
  rq_resource : Z;
  rq_length : Z;
}.
#[export] Instance wire_rw_request : Wire rw_request := {|
  wire_layout := (wire_layout submit_request ++ [4; 4])%nat;
  wire_fields a := wire_fields (rq_submit a) ++ [rq_resource a; rq_length a];
  wire_build zs := mk_rw_request (wire_build (take 6 zs)) (nth 6 zs 0) (nth 7 zs 0);
|}.

(** [struct iouringd_poll_request_v1] *)
Record poll_request := mk_poll_request {
  pq_submit : submit_request;
  pq_resource : Z;
  pq_poll_mask : Z;
  pq_reserved2 : Z;
}.
#[export] Instance wire_poll_request : Wire poll_request := {|
  wire_layout := (wire_layout submit_request ++ [4; 2; 2])%nat;
  wire_fields a := wire_fields (pq_submit a) ++ [pq_resource a; pq_poll_mask a;
      pq_reserved2 a];
  wire_build zs := mk_poll_request (wire_build (take 6 zs)) (nth 6 zs 0) (nth 7 zs
      0) (nth 8 zs 0);
|}.

(** [struct iouringd_openat_request_v1] *)
Record openat_request := mk_openat_request {
  oq_submit : submit_request;
  oq_open_flags : Z;
  oq_open_mode : Z;
  oq_path_length : Z;
}.
#[export] Instance wire_openat_request : Wire openat_request := {|
  wire_layout := (wire_layout submit_request ++ [4; 4; 4])%nat;
  wire_fields a := wire_fields (oq_submit a) ++ [u32 (oq_open_flags a); oq_open_mode
      a; oq_path_length a];
  wire_build zs := mk_openat_request (wire_build (take 6 zs)) (i32 (nth 6 zs 0))
      (nth 7 zs 0) (nth 8 zs 0);
|}.

(** [struct iouringd_close_request_v1] *)
Record close_request := mk_close_request {
  lq_submit : submit_request;
  lq_resource : Z;
  lq_reserved2 : Z;
}.
#[export] Instance wire_close_request : Wire close_request := {|
  wire_layout := (wire_layout submit_request ++ [4; 4])%nat;
  wire_fields a := wire_fields (lq_submit a) ++ [lq_resource a; lq_reserved2 a];
  wire_build zs := mk_close_request (wire_build (take 6 zs)) (nth 6 zs 0) (nth 7 zs
      0);
|}.

(** iouringd_sock_{read,write}_fixed_request_v1 (one layout) *)
Record fixed_request := mk_fixed_request {
  fq_submit : submit_request;
  fq_file_resource : Z;
  fq_buffer_resource : Z;
  fq_length : Z;
}.
#[export] Instance wire_fixed_request : Wire fixed_request := {|
  wire_layout := (wire_layout submit_request ++ [4; 4; 4])%nat;
  wire_fields a := wire_fields (fq_submit a) ++ [fq_file_resource a;
      fq_buffer_resource a; fq_length a];
  wire_build zs := mk_fixed_request (wire_build (take 6 zs)) (nth 6 zs 0) (nth 7 zs
      0) (nth 8 zs 0);
|}.

(** [struct iouringd_register_buffer_request_v1] *)
Record register_buffer_request := mk_register_buffer_request {
  bq_control : control_request;
  bq_length : Z;
  bq_reserved2 : Z;
}.
#[export] Instance wire_register_buffer_request : Wire register_buffer_request := {|
  wire_layout := (wire_layout control_request ++ [4; 4])%nat;
  wire_fields a := wire_fields (bq_control a) ++ [bq_length a; bq_reserved2 a];
  wire_build zs := mk_register_buffer_request (wire_build (take 6 zs)) (nth 6 zs 0)
      (nth 7 zs 0);
|}.

(** [struct iouringd_release_resource_request_v1] *)
Record release_resource_request := mk_release_resource_request {
  eq_control : control_request;
  eq_resource : Z;
  eq_reserved2 : Z;
}.
#[export] Instance wire_release_resource_request : Wire release_resource_request := {|
  wire_layout := (wire_layout control_request ++ [4; 4])%nat;
  wire_fields a := wire_fields (eq_control a) ++ [eq_resource a; eq_reserved2 a];
  wire_build zs := mk_release_resource_request (wire_build (take 6 zs)) (nth 6 zs 0)
      (nth 7 zs 0);
|}.

(** [struct iouringd_get_trace_request_v1] *)
Record get_trace_request := mk_get_trace_request {
  gq_control : control_request;
  gq_after_sequence : Z;
  gq_max_events : Z;
  gq_reserved2 : Z;
}.
#[export] Instance wire_get_trace_request : Wire get_trace_request := {|
  wire_layout := (wire_layout control_request ++ [8; 4; 4])%nat;
  wire_fields a := wire_fields (gq_control a) ++ [gq_after_sequence a; gq_max_events
      a; gq_reserved2 a];
  wire_build zs := mk_get_trace_request (wire_build (take 6 zs)) (nth 6 zs 0) (nth 7
      zs 0) (nth 8 zs 0);
|}.

(** [struct iouringd_submit_result_v1] *)
Record submit_result := mk_submit_result {
  sr_task : Z;
  sr_res : Z;
  sr_credits : Z;
}.
#[export] Instance wire_submit_result : Wire submit_result := {|
  wire_layout := ([8; 4; 4])%nat;
  wire_fields a := [sr_task a; u32 (sr_res a); sr_credits a];
  wire_build zs := mk_submit_result (nth 0 zs 0) (i32 (nth 1 zs 0)) (nth 2 zs 0);
|}.

(** [struct iouringd_resource_result_v1] *)
Record resource_result := mk_resource_result {
  rr_resource : Z;
  rr_res : Z;
  rr_resources_available : Z;
  rr_reserved : Z;
}.
#[export] Instance wire_resource_result : Wire resource_result := {|
  wire_layout := ([4; 4; 4; 4])%nat;
  wire_fields a := [rr_resource a; u32 (rr_res a); rr_resources_available a;
      rr_reserved a];
  wire_build zs := mk_resource_result (nth 0 zs 0) (i32 (nth 1 zs 0)) (nth 2 zs 0)
      (nth 3 zs 0);
|}.

(** [struct iouringd_stats_result_v1] *)
Record stats_result := mk_stats_result {
  st_active_clients : Z;
  st_outstanding_tasks : Z;
  st_outstanding_credit_tasks : Z;
  st_available_credits : Z;
  st_registered_files : Z;
  st_registered_buffers : Z;
  st_accepted_submits : Z;
  st_rejected_submits : Z;
  st_completions : Z;
  st_per_client_credit_limit : Z;
  st_clients_at_credit_limit : Z;
}.
#[export] Instance wire_stats_result : Wire stats_result := {|
  wire_layout := ([4; 4; 4; 4; 4; 4; 8; 8; 8; 4; 4])%nat;
  wire_fields a := [st_active_clients a; st_outstanding_tasks a;
      st_outstanding_credit_tasks a; st_available_credits a; st_registered_files a;
      st_registered_buffers a; st_accepted_submits a; st_rejected_submits a;
      st_completions a; st_per_client_credit_limit a; st_clients_at_credit_limit a];
  wire_build zs := mk_stats_result (nth 0 zs 0) (nth 1 zs 0) (nth 2 zs 0) (nth 3 zs
      0) (nth 4 zs 0) (nth 5 zs 0) (nth 6 zs 0) (nth 7 zs 0) (nth 8 zs 0) (nth 9 zs
      0) (nth 10 zs 0);
|}.

(** [struct iouringd_trace_result_v1] *)
Record trace_result := mk_trace_result {
  tr_oldest_sequence : Z;
  tr_latest_sequence : Z;
  tr_count : Z;
  tr_reserved : Z;
}.
#[export] Instance wire_trace_result : Wire trace_result := {|
  wire_layout := ([8; 8; 4; 4])%nat;
  wire_fields a := [tr_oldest_sequence a; tr_latest_sequence a; tr_count a;
      tr_reserved a];
  wire_build zs := mk_trace_result (nth 0 zs 0) (nth 1 zs 0) (nth 2 zs 0) (nth 3 zs
      0);
|}.

(** [struct iouringd_trace_event_v1] *)
Record trace_event := mk_trace_event {
  te_sequence : Z;
  te_timestamp_nsec : Z;
  te_task : Z;
  te_resource : Z;
  te_res : Z;
  te_credits : Z;
  te_event_kind : Z;
  te_task_kind : Z;
  te_client_slot : Z;
  te_priority : Z;
  te_reserved1 : Z;
}.
#[export] Instance wire_trace_event : Wire trace_event := {|
  wire_layout := ([8; 8; 8; 4; 4; 4; 2; 2; 2; 2; 4])%nat;
  wire_fields a := [te_sequence a; te_timestamp_nsec a; te_task a; te_resource a;
      u32 (te_res a); te_credits a; te_event_kind a; te_task_kind a; te_client_slot
      a; te_priority a; te_reserved1 a];
  wire_build zs := mk_trace_event (nth 0 zs 0) (nth 1 zs 0) (nth 2 zs 0) (nth 3 zs
      0) (i32 (nth 4 zs 0)) (nth 5 zs 0) (nth 6 zs 0) (nth 7 zs 0) (nth 8 zs 0) (nth
      9 zs 0) (nth 10 zs 0);
|}.

(** [struct iouringd_completion_record_v1] *)
Record completion_record := mk_completion_record {
  cr_header : protocol_header;
  cr_task : Z;
  cr_res : Z;
  cr_task_kind : Z;
  cr_payload_length : Z;
}.
#[export] Instance wire_completion_record : Wire completion_record := {|
  wire_layout := (wire_layout protocol_header ++ [8; 4; 2; 2])%nat;
  wire_fields a := wire_fields (cr_header a) ++ [cr_task a; u32 (cr_res a);
      cr_task_kind a; cr_payload_length a];
  wire_build zs := mk_completion_record (wire_build (take 3 zs)) (nth 3 zs 0) (i32
      (nth 4 zs 0)) (nth 5 zs 0) (nth 6 zs 0);
|}.

(** The values a C object of the struct can hold: every field in the range of
    its type, the signed ones included. *)
Definition wire_fit {A} `{Wire A} (a : A) : Prop :=
  Forall2 (fun w z => 0 <= z < 256 ^ Z.of_nat w) (wire_layout A) (wire_fields a).

Ltac destruct_structs :=
  repeat match goal with
         | x : protocol_header |- _ => destruct x
         | x : handshake_request |- _ => destruct x
         | x : handshake_response |- _ => destruct x
         | x : capability_descriptor |- _ => destruct x
         | x : handshake_result |- _ => destruct x
         | x : submit_request |- _ => destruct x
         | x : control_request |- _ => destruct x
         | x : timeout_request |- _ => destruct x
         | x : cancel_request |- _ => destruct x
         | x : rw_request |- _ => destruct x
         | x : poll_request |- _ => destruct x
         | x : openat_request |- _ => destruct x
         | x : close_request |- _ => destruct x
         | x : fixed_request |- _ => destruct x
         | x : register_buffer_request |- _ => destruct x
         | x : release_resource_request |- _ => destruct x
         | x : get_trace_request |- _ => destruct x
         | x : submit_result |- _ => destruct x
         | x : resource_result |- _ => destruct x
         | x : stats_result |- _ => destruct x
         | x : trace_result |- _ => destruct x
         | x : trace_event |- _ => destruct x
         | x : completion_record |- _ => destruct x
         end.

Ltac forall2_inv :=
  repeat match goal with
         | H : Forall2 _ (_ :: _) _ |- _ => inversion H; subst; clear H
         | H : Forall2 _ [] _ |- _ => inversion H; subst; clear H
         end.

Ltac wire_ok_tac :=
  constructor;
  [ intros a Ha; destruct_structs; try destruct Ha as [_ Ha]; cbn in *; rewrite ?i32_u32 by apply Ha; reflexivity
  | intros a Ha; first [exact Ha | exact (proj1 Ha)]
  | intros zs Hzs; cbn in Hzs; forall2_inv; cbn;
    rewrite ?u32_i32 by (cbn in *; lia); reflexivity ].

#[export] Instance wire_ok_protocol_header : WireOk protocol_header wire_fit.
Proof. wire_ok_tac. Qed.
#[export] Instance wire_ok_handshake_request : WireOk handshake_request wire_fit.
Proof. wire_ok_tac. Qed.
#[export] Instance wire_ok_handshake_response : WireOk handshake_response wire_fit.
Proof. wire_ok_tac. Qed.
#[export] Instance wire_ok_capability_descriptor : WireOk capability_descriptor wire_fit.
Proof. wire_ok_tac. Qed.
#[export] Instance wire_ok_handshake_result : WireOk handshake_result wire_fit.
Proof. wire_ok_tac. Qed.
#[export] Instance wire_ok_submit_request : WireOk submit_request wire_fit.
Proof. wire_ok_tac. Qed.
#[export] Instance wire_ok_control_request : WireOk control_request wire_fit.
Proof. wire_ok_tac. Qed.
#[export] Instance wire_ok_timeout_request : WireOk timeout_request wire_fit.
Proof. wire_ok_tac. Qed.
#[export] Instance wire_ok_cancel_request : WireOk cancel_request wire_fit.
Proof. wire_ok_tac. Qed.
#[export] Instance wire_ok_rw_request : WireOk rw_request wire_fit.
Proof. wire_ok_tac. Qed.
#[export] Instance wire_ok_poll_request : WireOk poll_request wire_fit.
Proof. wire_ok_tac. Qed.
#[export] Instance wire_ok_openat_request : WireOk openat_request (fun a => wire_fit a /\ fits_i32 (oq_open_flags a)).
Proof. wire_ok_tac. Qed.
#[export] Instance wire_ok_close_request : WireOk close_request wire_fit.
Proof. wire_ok_tac. Qed.
#[export] Instance wire_ok_fixed_request : WireOk fixed_request wire_fit.
Proof. wire_ok_tac. Qed.
#[export] Instance wire_ok_register_buffer_request : WireOk register_buffer_request wire_fit.
Proof. wire_ok_tac. Qed.
#[export] Instance wire_ok_release_resource_request : WireOk release_resource_request wire_fit.
Proof. wire_ok_tac. Qed.
#[export] Instance wire_ok_get_trace_request : WireOk get_trace_request wire_fit.
Proof. wire_ok_tac. Qed.
#[export] Instance wire_ok_submit_result : WireOk submit_result (fun a => wire_fit a /\ fits_i32 (sr_res a)).
Proof. wire_ok_tac. Qed.
#[export] Instance wire_ok_resource_result : WireOk resource_result (fun a => wire_fit a /\ fits_i32 (rr_res a)).
Proof. wire_ok_tac. Qed.
#[export] Instance wire_ok_stats_result : WireOk stats_result wire_fit.
Proof. wire_ok_tac. Qed.
#[export] Instance wire_ok_trace_result : WireOk trace_result wire_fit.
Proof. wire_ok_tac. Qed.
#[export] Instance wire_ok_trace_event : WireOk trace_event (fun a => wire_fit a /\ fits_i32 (te_res a)).
Proof. wire_ok_tac. Qed.
#[export] Instance wire_ok_completion_record : WireOk completion_record (fun a => wire_fit a /\ fits_i32 (cr_res a)).
Proof. wire_ok_tac. Qed.
