(* ===== verification/Layout.v ===== *)
(** * The memory layout of the wire structs

    The protocol sends structs as they are in memory, so that the byte image of
    [Wire] is right only if the compiler puts the fields where [Wire] puts them.
    This file has the struct declarations of [include/iouringd/api.h] as C types,
    the rule by which C compilers lay out structs (each member at the next
    multiple of its alignment, the size a multiple of the struct's alignment), and
    the [_Static_assert]s of [api.h] and [protocol.h].  [api_layout] shows that the
    assertions hold and that the byte image of [Wire] is the memory image. *)

From Stdlib Require Import String.
From S2P Require Import Prelude Wire.

(** ** C types *)

(** Integers of a width in bytes, aligned to their width, and structs. *)
#[warnings="-register-all"] Inductive ctype :=
| CInt (width : nat)
| CStruct (fields : list (string * ctype)).

Definition round_up (n a : nat) : nat := ((n + a - 1) / a * a)%nat.

Fixpoint c_align (t : ctype) : nat :=
  match t with
  | CInt w => w
  | CStruct fs => (fix go fs := match fs with [] => 1%nat | (_, f) :: rest => Nat.max (c_align f) (go rest) end) fs
  end.

Fixpoint c_size (t : ctype) : nat :=
  match t with
  | CInt w => w
  | CStruct fs =>
      round_up ((fix go off fs :=
                   match fs with
                   | [] => off
                   | (_, f) :: rest => go (round_up off (c_align f) + c_size f)%nat rest
                   end) 0%nat fs) (c_align t)
  end.

(** The members with their offsets. *)
Fixpoint members (off : nat) (fs : list (string * ctype)) : list (string * (nat * ctype)) :=
  match fs with
  | [] => []
  | (name, f) :: rest =>
      let start := round_up off (c_align f) in
      (name, (start, f)) :: members (start + c_size f) rest
  end.

Fixpoint find_member (name : string) (ms : list (string * (nat * ctype))) : option (nat * ctype) :=
  match ms with
  | [] => None
  | (n, m) :: rest => if String.eqb n name then Some m else find_member name rest
  end.

(** [offsetof(t, path)] *)
Fixpoint c_offset (path : list string) (t : ctype) : option nat :=
  match path, t with
  | [], _ => Some 0%nat
  | name :: rest, CStruct fs =>
      match find_member name (members 0 fs) with
      | Some (off, f) => Nat.add off <$> c_offset rest f
      | None => None
      end
  | _, CInt _ => None
  end.

(** The numbers in a value of the type, in order: offset and width. *)
Fixpoint scalars (base : nat) (t : ctype) : list (nat * nat) :=
  match t with
  | CInt w => [(base, w)]
  | CStruct fs =>
      (fix go off fs :=
         match fs with
         | [] => []
         | (_, f) :: rest =>
             let start := round_up off (c_align f) in
             scalars (base + start) f ++ go (start + c_size f)%nat rest
         end) 0%nat fs
  end.

(** ** The structs *)

Definition iouringd_task_kind_wire_v1 : ctype := CStruct [("value", CInt 2)]%string.
Definition iouringd_task_id_record_v1 : ctype :=
  CStruct [("task_id", CInt 8)]%string.
Definition iouringd_resource_id_record_v1 : ctype :=
  CStruct [("resource_id", CInt 4)]%string.
Definition iouringd_protocol_header_v1 : ctype :=
  CStruct [("magic", CInt 4); ("version_major", CInt 2); ("version_minor", CInt 2)]%string.
Definition iouringd_handshake_request_v1 : ctype :=
  CStruct [("header", iouringd_protocol_header_v1); ("abi_major", CInt 2); ("abi_minor", CInt 2);
    ("reserved", CInt 4)]%string.
Definition iouringd_handshake_response_v1 : ctype :=
  CStruct [("header", iouringd_protocol_header_v1); ("abi_major", CInt 2); ("abi_minor", CInt 2);
    ("status", CInt 2); ("reserved", CInt 2)]%string.
Definition iouringd_capability_descriptor_v1 : ctype :=
  CStruct [("struct_size", CInt 4); ("features", CInt 4); ("ring_entries", CInt 4); ("cq_entries", CInt 4);
    ("op_mask", CInt 4); ("submit_credits", CInt 4); ("registered_fd_slots", CInt 4);
    ("registered_buffer_slots", CInt 4); ("io_bytes_max", CInt 4)]%string.
Definition iouringd_handshake_result_v1 : ctype :=
  CStruct [("response", iouringd_handshake_response_v1);
    ("capabilities", iouringd_capability_descriptor_v1)]%string.
Definition iouringd_submit_request_v1 : ctype :=
  CStruct [("header", iouringd_protocol_header_v1); ("task_kind", iouringd_task_kind_wire_v1);
    ("priority", CInt 2); ("reserved1", CInt 4)]%string.
Definition iouringd_control_request_v1 : ctype :=
  CStruct [("header", iouringd_protocol_header_v1); ("request_kind", CInt 2); ("reserved0", CInt 2);
    ("reserved1", CInt 4)]%string.
Definition iouringd_timeout_request_v1 : ctype :=
  CStruct [("submit", iouringd_submit_request_v1); ("timeout_nsec", CInt 8)]%string.
Definition iouringd_cancel_request_v1 : ctype :=
  CStruct [("header", iouringd_protocol_header_v1); ("task_kind", iouringd_task_kind_wire_v1);
    ("reserved0", CInt 2); ("reserved1", CInt 4); ("target", iouringd_task_id_record_v1)]%string.
Definition iouringd_sock_read_request_v1 : ctype :=
  CStruct [("submit", iouringd_submit_request_v1); ("resource", iouringd_resource_id_record_v1);
    ("length", CInt 4)]%string.
Definition iouringd_sock_write_request_v1 : ctype :=
  CStruct [("submit", iouringd_submit_request_v1); ("resource", iouringd_resource_id_record_v1);
    ("length", CInt 4)]%string.
Definition iouringd_file_read_request_v1 : ctype :=
  CStruct [("submit", iouringd_submit_request_v1); ("resource", iouringd_resource_id_record_v1);
    ("length", CInt 4)]%string.
Definition iouringd_file_write_request_v1 : ctype :=
  CStruct [("submit", iouringd_submit_request_v1); ("resource", iouringd_resource_id_record_v1);
    ("length", CInt 4)]%string.
Definition iouringd_poll_request_v1 : ctype :=
  CStruct [("submit", iouringd_submit_request_v1); ("resource", iouringd_resource_id_record_v1);
    ("poll_mask", CInt 2); ("reserved2", CInt 2)]%string.
Definition iouringd_connect_request_v1 : ctype :=
  CStruct [("submit", iouringd_submit_request_v1); ("resource", iouringd_resource_id_record_v1);
    ("sockaddr_length", CInt 4)]%string.
Definition iouringd_accept_request_v1 : ctype :=
  CStruct [("submit", iouringd_submit_request_v1); ("resource", iouringd_resource_id_record_v1);
    ("sockaddr_length", CInt 4)]%string.
Definition iouringd_openat_request_v1 : ctype :=
  CStruct [("submit", iouringd_submit_request_v1); ("open_flags", CInt 4); ("open_mode", CInt 4);
    ("path_length", CInt 4)]%string.
Definition iouringd_close_request_v1 : ctype :=
  CStruct [("submit", iouringd_submit_request_v1); ("resource", iouringd_resource_id_record_v1);
    ("reserved2", CInt 4)]%string.
Definition iouringd_sock_read_fixed_request_v1 : ctype :=
  CStruct [("submit", iouringd_submit_request_v1); ("file_resource", iouringd_resource_id_record_v1);
    ("buffer_resource", iouringd_resource_id_record_v1); ("length", CInt 4)]%string.
Definition iouringd_sock_write_fixed_request_v1 : ctype :=
  CStruct [("submit", iouringd_submit_request_v1); ("file_resource", iouringd_resource_id_record_v1);
    ("buffer_resource", iouringd_resource_id_record_v1); ("length", CInt 4)]%string.
Definition iouringd_register_fd_request_v1 : ctype :=
  CStruct [("control", iouringd_control_request_v1)]%string.
Definition iouringd_register_buffer_request_v1 : ctype :=
  CStruct [("control", iouringd_control_request_v1); ("length", CInt 4); ("reserved2", CInt 4)]%string.
Definition iouringd_release_resource_request_v1 : ctype :=
  CStruct [("control", iouringd_control_request_v1); ("resource", iouringd_resource_id_record_v1);
    ("reserved2", CInt 4)]%string.
Definition iouringd_get_stats_request_v1 : ctype :=
  CStruct [("control", iouringd_control_request_v1)]%string.
Definition iouringd_get_trace_request_v1 : ctype :=
  CStruct [("control", iouringd_control_request_v1); ("after_sequence", CInt 8); ("max_events", CInt 4);
    ("reserved2", CInt 4)]%string.
Definition iouringd_submit_result_v1 : ctype :=
  CStruct [("task", iouringd_task_id_record_v1); ("res", CInt 4); ("credits", CInt 4)]%string.
Definition iouringd_resource_result_v1 : ctype :=
  CStruct [("resource", iouringd_resource_id_record_v1); ("res", CInt 4); ("resources_available", CInt 4);
    ("reserved", CInt 4)]%string.
Definition iouringd_stats_result_v1 : ctype :=
  CStruct [("active_clients", CInt 4); ("outstanding_tasks", CInt 4); ("outstanding_credit_tasks", CInt 4);
    ("available_credits", CInt 4); ("registered_files", CInt 4); ("registered_buffers", CInt 4);
    ("accepted_submits", CInt 8); ("rejected_submits", CInt 8); ("completions", CInt 8);
    ("per_client_credit_limit", CInt 4); ("clients_at_credit_limit", CInt 4)]%string.
Definition iouringd_trace_result_v1 : ctype :=
  CStruct [("oldest_sequence", CInt 8); ("latest_sequence", CInt 8); ("count", CInt 4);
    ("reserved", CInt 4)]%string.
Definition iouringd_trace_event_v1 : ctype :=
  CStruct [("sequence", CInt 8); ("timestamp_nsec", CInt 8); ("task", iouringd_task_id_record_v1);
    ("resource", iouringd_resource_id_record_v1); ("res", CInt 4); ("credits", CInt 4);
    ("event_kind", CInt 2); ("task_kind", iouringd_task_kind_wire_v1); ("client_slot", CInt 2);
    ("priority", CInt 2); ("reserved1", CInt 4)]%string.
Definition iouringd_completion_record_v1 : ctype :=
  CStruct [("header", iouringd_protocol_header_v1); ("task", iouringd_task_id_record_v1); ("res", CInt 4);
    ("task_kind", iouringd_task_kind_wire_v1); ("payload_length", CInt 2)]%string.

(** ** The assertions *)

Inductive assertion :=
| ASize (t : ctype) (n : nat)
| AAlign (t : ctype) (n : nat)
| AOffset (t : ctype) (path : list string) (n : nat)
| ATest (b : bool).

Definition holds (a : assertion) : bool :=
  match a with
  | ASize t n => (c_size t =? n)%nat
  | AAlign t n => (c_align t =? n)%nat
  | AOffset t path n => match c_offset path t with Some m => (m =? n)%nat | None => false end
  | ATest b => b
  end.

Definition IOURINGD_TASK_ID_RESERVED_MAX : Z := UINT64_MAX.
Definition IOURINGD_SUBMIT_PRIORITY_MAX_V1 : Z := 3.
Definition IOURINGD_CAPABILITY_DESCRIPTOR_V1_STRUCT_SIZE : Z := 36.

Definition kind_asserts : list assertion :=
  [ASize (CInt 8) 8;
   ASize (CInt 4) 4;
   ASize iouringd_task_kind_wire_v1 (c_size (CInt 2));
   ATest (IOURINGD_TASK_KIND_NOP =? 1);
   ATest (IOURINGD_TASK_KIND_TIMEOUT =? 2);
   ATest (IOURINGD_TASK_KIND_CANCEL =? 3);
   ATest (IOURINGD_TASK_KIND_SOCK_READ =? 4);
   ATest (IOURINGD_TASK_KIND_SOCK_WRITE =? 5);
   ATest (IOURINGD_TASK_KIND_SOCK_READ_FIXED =? 6);
   ATest (IOURINGD_TASK_KIND_SOCK_WRITE_FIXED =? 7);
   ATest (IOURINGD_TASK_KIND_FILE_READ =? 8);
   ATest (IOURINGD_TASK_KIND_FILE_WRITE =? 9);
   ATest (IOURINGD_TASK_KIND_POLL =? 10);
   ATest (IOURINGD_TASK_KIND_CONNECT =? 11);
   ATest (IOURINGD_TASK_KIND_ACCEPT =? 12);
   ATest (IOURINGD_TASK_KIND_OPENAT =? 13);
   ATest (IOURINGD_TASK_KIND_CLOSE =? 14);
   ATest (IOURINGD_TASK_KIND_MAX_V1 =? 15)].

Definition constant_asserts : list assertion :=
  [ASize (CInt 2) 2;
   ASize (CInt 4) 4;
   ASize (CInt 8) 8;
   ASize (CInt 8) 8;
   ASize (CInt 4) 4;
   ATest (0 <? u64 (-1));
   ATest (IOURINGD_TASK_ID_INVALID =? 0);
   ATest (IOURINGD_RESOURCE_ID_INVALID =? 0);
   ATest (IOURINGD_TASK_ID_RESERVED_MIN =? (UINT64_MAX - 15));
   ATest (IOURINGD_TASK_ID_RESERVED_MAX =? UINT64_MAX);
   ATest (IOURINGD_REQUEST_KIND_REGISTER_FD =? 256);
   ATest (IOURINGD_REQUEST_KIND_RELEASE_RESOURCE =? 257);
   ATest (IOURINGD_REQUEST_KIND_REGISTER_BUFFER =? 258);
   ATest (IOURINGD_REQUEST_KIND_GET_STATS =? 259);
   ATest (IOURINGD_REQUEST_KIND_GET_TRACE =? 260);
   ATest (IOURINGD_SUBMIT_PRIORITY_NORMAL =? 0);
   ATest (IOURINGD_SUBMIT_PRIORITY_LOW =? 1);
   ATest (IOURINGD_SUBMIT_PRIORITY_HIGH =? 2);
   ATest (IOURINGD_SUBMIT_PRIORITY_MAX_V1 =? 3);
   ATest (IOURINGD_CAPABILITY_OP_NOP =? 1);
   ATest (IOURINGD_CAPABILITY_OP_TIMEOUT =? (Z.shiftl 1 1));
   ATest (IOURINGD_CAPABILITY_OP_READV =? (Z.shiftl 1 2));
   ATest (IOURINGD_CAPABILITY_OP_WRITEV =? (Z.shiftl 1 3));
   ATest (IOURINGD_CAPABILITY_OP_ASYNC_CANCEL =? (Z.shiftl 1 4));
   ATest (IOURINGD_CAPABILITY_OP_READ_FIXED =? (Z.shiftl 1 5));
   ATest (IOURINGD_CAPABILITY_OP_WRITE_FIXED =? (Z.shiftl 1 6));
   ATest (IOURINGD_CAPABILITY_OP_POLL =? (Z.shiftl 1 7));
   ATest (IOURINGD_CAPABILITY_OP_CONNECT =? (Z.shiftl 1 8));
   ATest (IOURINGD_CAPABILITY_OP_ACCEPT =? (Z.shiftl 1 9));
   ATest (IOURINGD_CAPABILITY_OP_OPENAT =? (Z.shiftl 1 10));
   ATest (IOURINGD_CAPABILITY_OP_CLOSE =? (Z.shiftl 1 11));
   ATest (IOURINGD_CAPABILITY_OP_MASK_V1 =? 4095);
   ATest (IOURINGD_COMPLETION_RES_OK =? 0);
   ATest (i32 (-1) <? 0)].

Definition header_asserts : list assertion :=
  [ASize iouringd_task_id_record_v1 8;
   AAlign iouringd_task_id_record_v1 (c_align (CInt 8));
   AOffset iouringd_task_id_record_v1 ["task_id"]%string 0;
   ASize iouringd_resource_id_record_v1 4;
   AAlign iouringd_resource_id_record_v1 (c_align (CInt 4));
   AOffset iouringd_resource_id_record_v1 ["resource_id"]%string 0;
   ASize iouringd_protocol_header_v1 8;
   AOffset iouringd_protocol_header_v1 ["magic"]%string 0;
   AOffset iouringd_protocol_header_v1 ["version_major"]%string 4;
   AOffset iouringd_protocol_header_v1 ["version_minor"]%string 6;
   ASize iouringd_handshake_request_v1 16;
   AOffset iouringd_handshake_request_v1 ["header"]%string 0;
   AOffset iouringd_handshake_request_v1 ["abi_major"]%string 8;
   AOffset iouringd_handshake_request_v1 ["abi_minor"]%string 10;
   AOffset iouringd_handshake_request_v1 ["reserved"]%string 12;
   ASize iouringd_handshake_response_v1 16;
   AOffset iouringd_handshake_response_v1 ["header"]%string 0;
   AOffset iouringd_handshake_response_v1 ["abi_major"]%string 8;
   AOffset iouringd_handshake_response_v1 ["abi_minor"]%string 10;
   AOffset iouringd_handshake_response_v1 ["status"]%string 12;
   AOffset iouringd_handshake_response_v1 ["reserved"]%string 14;
   ASize iouringd_capability_descriptor_v1 36;
   ATest (IOURINGD_CAPABILITY_DESCRIPTOR_V1_STRUCT_SIZE =? Z.of_nat (c_size iouringd_capability_descriptor_v1));
   AOffset iouringd_capability_descriptor_v1 ["struct_size"]%string 0;
   AOffset iouringd_capability_descriptor_v1 ["features"]%string 4;
   AOffset iouringd_capability_descriptor_v1 ["ring_entries"]%string 8;
   AOffset iouringd_capability_descriptor_v1 ["cq_entries"]%string 12;
   AOffset iouringd_capability_descriptor_v1 ["op_mask"]%string 16;
   AOffset iouringd_capability_descriptor_v1 ["submit_credits"]%string 20;
   AOffset iouringd_capability_descriptor_v1 ["registered_fd_slots"]%string 24;
   AOffset iouringd_capability_descriptor_v1 ["registered_buffer_slots"]%string 28;
   AOffset iouringd_capability_descriptor_v1 ["io_bytes_max"]%string 32;
   ASize iouringd_handshake_result_v1 52;
   AOffset iouringd_handshake_result_v1 ["response"]%string 0;
   AOffset iouringd_handshake_result_v1 ["capabilities"]%string 16;
   ASize iouringd_submit_request_v1 16;
   AOffset iouringd_submit_request_v1 ["header"]%string 0;
   AOffset iouringd_submit_request_v1 ["task_kind"]%string 8;
   AOffset iouringd_submit_request_v1 ["priority"]%string 10;
   AOffset iouringd_submit_request_v1 ["reserved1"]%string 12;
   ASize iouringd_control_request_v1 16;
   AOffset iouringd_control_request_v1 ["header"]%string 0;
   AOffset iouringd_control_request_v1 ["request_kind"]%string 8;
   AOffset iouringd_control_request_v1 ["reserved1"]%string 12].

Definition request_asserts : list assertion :=
  [ASize iouringd_timeout_request_v1 24;
   AAlign iouringd_timeout_request_v1 (c_align (CInt 8));
   AOffset iouringd_timeout_request_v1 ["submit"]%string 0;
   AOffset iouringd_timeout_request_v1 ["submit"; "header"]%string 0;
   AOffset iouringd_timeout_request_v1 ["submit"; "task_kind"]%string 8;
   AOffset iouringd_timeout_request_v1 ["timeout_nsec"]%string 16;
   ASize iouringd_cancel_request_v1 24;
   AAlign iouringd_cancel_request_v1 8;
   AOffset iouringd_cancel_request_v1 ["header"]%string 0;
   AOffset iouringd_cancel_request_v1 ["task_kind"]%string 8;
   AOffset iouringd_cancel_request_v1 ["target"]%string 16;
   AOffset iouringd_cancel_request_v1 ["target"; "task_id"]%string 16;
   ASize iouringd_sock_read_request_v1 24;
   AOffset iouringd_sock_read_request_v1 ["submit"]%string 0;
   AOffset iouringd_sock_read_request_v1 ["resource"]%string 16;
   AOffset iouringd_sock_read_request_v1 ["length"]%string 20;
   ASize iouringd_sock_write_request_v1 24;
   ASize iouringd_file_read_request_v1 24;
   ASize iouringd_file_write_request_v1 24;
   ASize iouringd_poll_request_v1 24;
   ASize iouringd_connect_request_v1 24;
   ASize iouringd_accept_request_v1 24;
   ASize iouringd_openat_request_v1 28;
   ASize iouringd_close_request_v1 24;
   ASize iouringd_sock_read_fixed_request_v1 28;
   ASize iouringd_sock_write_fixed_request_v1 28;
   ASize iouringd_register_buffer_request_v1 24;
   AOffset iouringd_sock_write_request_v1 ["submit"]%string 0;
   AOffset iouringd_sock_write_request_v1 ["resource"]%string 16;
   AOffset iouringd_sock_write_request_v1 ["length"]%string 20;
   AOffset iouringd_file_read_request_v1 ["submit"]%string 0;
   AOffset iouringd_file_read_request_v1 ["resource"]%string 16;
   AOffset iouringd_file_read_request_v1 ["length"]%string 20;
   AOffset iouringd_file_write_request_v1 ["submit"]%string 0;
   AOffset iouringd_file_write_request_v1 ["resource"]%string 16;
   AOffset iouringd_file_write_request_v1 ["length"]%string 20;
   AOffset iouringd_poll_request_v1 ["submit"]%string 0;
   AOffset iouringd_poll_request_v1 ["resource"]%string 16;
   AOffset iouringd_poll_request_v1 ["poll_mask"]%string 20;
   AOffset iouringd_poll_request_v1 ["reserved2"]%string 22;
   AOffset iouringd_connect_request_v1 ["submit"]%string 0;
   AOffset iouringd_connect_request_v1 ["resource"]%string 16;
   AOffset iouringd_connect_request_v1 ["sockaddr_length"]%string 20;
   AOffset iouringd_accept_request_v1 ["submit"]%string 0;
   AOffset iouringd_accept_request_v1 ["resource"]%string 16;
   AOffset iouringd_accept_request_v1 ["sockaddr_length"]%string 20;
   AOffset iouringd_openat_request_v1 ["submit"]%string 0;
   AOffset iouringd_openat_request_v1 ["open_flags"]%string 16;
   AOffset iouringd_openat_request_v1 ["open_mode"]%string 20;
   AOffset iouringd_openat_request_v1 ["path_length"]%string 24;
   AOffset iouringd_close_request_v1 ["submit"]%string 0;
   AOffset iouringd_close_request_v1 ["resource"]%string 16;
   AOffset iouringd_close_request_v1 ["resource"; "resource_id"]%string 16;
   AOffset iouringd_close_request_v1 ["reserved2"]%string 20;
   ASize iouringd_register_fd_request_v1 16;
   AOffset iouringd_register_fd_request_v1 ["control"]%string 0;
   ASize iouringd_release_resource_request_v1 24;
   AOffset iouringd_release_resource_request_v1 ["control"]%string 0;
   AOffset iouringd_release_resource_request_v1 ["resource"]%string 16;
   AOffset iouringd_release_resource_request_v1 ["resource"; "resource_id"]%string 16;
   ASize iouringd_get_stats_request_v1 16;
   AOffset iouringd_get_stats_request_v1 ["control"]%string 0;
   ASize iouringd_get_trace_request_v1 32].

Definition result_asserts : list assertion :=
  [AOffset iouringd_get_trace_request_v1 ["control"]%string 0;
   AOffset iouringd_get_trace_request_v1 ["after_sequence"]%string 16;
   AOffset iouringd_get_trace_request_v1 ["max_events"]%string 24;
   AOffset iouringd_get_trace_request_v1 ["reserved2"]%string 28;
   ASize iouringd_submit_result_v1 16;
   AAlign iouringd_submit_result_v1 8;
   AOffset iouringd_submit_result_v1 ["task"]%string 0;
   AOffset iouringd_submit_result_v1 ["task"; "task_id"]%string 0;
   AOffset iouringd_submit_result_v1 ["res"]%string 8;
   AOffset iouringd_submit_result_v1 ["credits"]%string 12;
   ASize iouringd_resource_result_v1 16;
   AOffset iouringd_resource_result_v1 ["resource"]%string 0;
   AOffset iouringd_resource_result_v1 ["resource"; "resource_id"]%string 0;
   AOffset iouringd_resource_result_v1 ["res"]%string 4;
   AOffset iouringd_resource_result_v1 ["resources_available"]%string 8;
   AOffset iouringd_resource_result_v1 ["reserved"]%string 12;
   ASize iouringd_stats_result_v1 56;
   AOffset iouringd_stats_result_v1 ["active_clients"]%string 0;
   AOffset iouringd_stats_result_v1 ["outstanding_tasks"]%string 4;
   AOffset iouringd_stats_result_v1 ["outstanding_credit_tasks"]%string 8;
   AOffset iouringd_stats_result_v1 ["available_credits"]%string 12;
   AOffset iouringd_stats_result_v1 ["registered_files"]%string 16;
   AOffset iouringd_stats_result_v1 ["registered_buffers"]%string 20;
   AOffset iouringd_stats_result_v1 ["accepted_submits"]%string 24;
   AOffset iouringd_stats_result_v1 ["rejected_submits"]%string 32;
   AOffset iouringd_stats_result_v1 ["completions"]%string 40;
   AOffset iouringd_stats_result_v1 ["per_client_credit_limit"]%string 48;
   AOffset iouringd_stats_result_v1 ["clients_at_credit_limit"]%string 52;
   ASize iouringd_trace_result_v1 24;
   AOffset iouringd_trace_result_v1 ["oldest_sequence"]%string 0;
   AOffset iouringd_trace_result_v1 ["latest_sequence"]%string 8;
   AOffset iouringd_trace_result_v1 ["count"]%string 16;
   AOffset iouringd_trace_result_v1 ["reserved"]%string 20;
   ASize iouringd_trace_event_v1 48;
   AOffset iouringd_trace_event_v1 ["sequence"]%string 0;
   AOffset iouringd_trace_event_v1 ["timestamp_nsec"]%string 8;
   AOffset iouringd_trace_event_v1 ["task"]%string 16;
   AOffset iouringd_trace_event_v1 ["resource"]%string 24;
   AOffset iouringd_trace_event_v1 ["res"]%string 28;
   AOffset iouringd_trace_event_v1 ["credits"]%string 32;
   AOffset iouringd_trace_event_v1 ["event_kind"]%string 36;
   AOffset iouringd_trace_event_v1 ["task_kind"]%string 38;
   AOffset iouringd_trace_event_v1 ["client_slot"]%string 40;
   AOffset iouringd_trace_event_v1 ["priority"]%string 42;
   ASize iouringd_completion_record_v1 24;
   AOffset iouringd_completion_record_v1 ["header"]%string 0;
   AOffset iouringd_completion_record_v1 ["task"]%string 8;
   AOffset iouringd_completion_record_v1 ["task"; "task_id"]%string 8;
   AOffset iouringd_completion_record_v1 ["res"]%string 16;
   AOffset iouringd_completion_record_v1 ["task_kind"]%string 20;
   AOffset iouringd_completion_record_v1 ["payload_length"]%string 22].

(** ** The byte image *)

(** The numbers of a struct by the C path of their member: what the model's record
    calls them, as unsigned numbers. *)
Definition access (A : Type) : Type := list (list string * (A -> Z)).

Definition under {A B} (field : string) (member : A -> B) (l : access B) : access A :=
  (fun '(path, get) => (field :: path, fun a => get (member a))) <$> l.

Section Access.
Local Open Scope string_scope.
Local Open Scope list_scope.

Definition header_access : access protocol_header :=
  [(["magic"], hdr_magic); (["version_major"], hdr_version_major); (["version_minor"], hdr_version_minor)].
Definition handshake_request_access : access handshake_request :=
  under "header" hq_header header_access ++
  [(["abi_major"], hq_abi_major); (["abi_minor"], hq_abi_minor);
   (["reserved"], hq_reserved)].
Definition handshake_response_access : access handshake_response :=
  under "header" hp_header header_access ++
  [(["abi_major"], hp_abi_major); (["abi_minor"], hp_abi_minor);
   (["status"], hp_status); (["reserved"], hp_reserved)].
Definition capability_access : access capability_descriptor :=
  [(["struct_size"], cap_struct_size); (["features"], cap_features); (["ring_entries"], cap_ring_entries);
   (["cq_entries"], cap_cq_entries); (["op_mask"], cap_op_mask); (["submit_credits"], cap_submit_credits);
   (["registered_fd_slots"], cap_registered_fd_slots); (["registered_buffer_slots"], cap_registered_buffer_slots);
   (["io_bytes_max"], cap_io_bytes_max)].
Definition handshake_result_access : access handshake_result :=
  under "response" hr_response handshake_response_access ++
  under "capabilities" hr_capabilities capability_access.
Definition submit_access : access submit_request :=
  under "header" sq_header header_access ++
  [(["task_kind"; "value"], sq_task_kind); (["priority"], sq_priority);
   (["reserved1"], sq_reserved1)].
Definition control_access : access control_request :=
  under "header" cq_header header_access ++
  [(["request_kind"], cq_request_kind); (["reserved0"], cq_reserved0);
   (["reserved1"], cq_reserved1)].
Definition bare_control_access : access control_request :=
  under "control" id control_access.
Definition timeout_access : access timeout_request :=
  under "submit" tq_submit submit_access ++
  [(["timeout_nsec"], tq_timeout_nsec)].
Definition cancel_access : access cancel_request :=
  under "header" kq_header header_access ++
  [(["task_kind"; "value"], kq_task_kind); (["reserved0"], kq_reserved0);
   (["reserved1"], kq_reserved1); (["target"; "task_id"], kq_target)].
Definition rw_access : access rw_request :=
  under "submit" rq_submit submit_access ++
  [(["resource"; "resource_id"], rq_resource); (["length"], rq_length)].
Definition sockaddr_access : access rw_request :=
  under "submit" rq_submit submit_access ++
  [(["resource"; "resource_id"], rq_resource); (["sockaddr_length"], rq_length)].
Definition poll_access : access poll_request :=
  under "submit" pq_submit submit_access ++
  [(["resource"; "resource_id"], pq_resource); (["poll_mask"], pq_poll_mask);
   (["reserved2"], pq_reserved2)].
Definition openat_access : access openat_request :=
  under "submit" oq_submit submit_access ++
  [(["open_flags"], (fun a => u32 (oq_open_flags a)));
   (["open_mode"], oq_open_mode); (["path_length"], oq_path_length)].
Definition close_access : access close_request :=
  under "submit" lq_submit submit_access ++
  [(["resource"; "resource_id"], lq_resource); (["reserved2"], lq_reserved2)].
Definition fixed_access : access fixed_request :=
  under "submit" fq_submit submit_access ++
  [(["file_resource"; "resource_id"], fq_file_resource);
   (["buffer_resource"; "resource_id"], fq_buffer_resource); (["length"], fq_length)].
Definition register_buffer_access : access register_buffer_request :=
  under "control" bq_control control_access ++
  [(["length"], bq_length); (["reserved2"], bq_reserved2)].
Definition release_resource_access : access release_resource_request :=
  under "control" eq_control control_access ++
  [(["resource"; "resource_id"], eq_resource); (["reserved2"], eq_reserved2)].
Definition get_trace_access : access get_trace_request :=
  under "control" gq_control control_access ++
  [(["after_sequence"], gq_after_sequence); (["max_events"], gq_max_events);
   (["reserved2"], gq_reserved2)].
Definition submit_result_access : access submit_result :=
  [(["task"; "task_id"], sr_task); (["res"], (fun a => u32 (sr_res a))); (["credits"], sr_credits)].
Definition resource_result_access : access resource_result :=
  [(["resource"; "resource_id"], rr_resource); (["res"], (fun a => u32 (rr_res a))); (["resources_available"], rr_resources_available);
   (["reserved"], rr_reserved)].
Definition stats_access : access stats_result :=
  [(["active_clients"], st_active_clients); (["outstanding_tasks"], st_outstanding_tasks);
   (["outstanding_credit_tasks"], st_outstanding_credit_tasks); (["available_credits"], st_available_credits);
   (["registered_files"], st_registered_files); (["registered_buffers"], st_registered_buffers);
   (["accepted_submits"], st_accepted_submits); (["rejected_submits"], st_rejected_submits); (["completions"], st_completions);
   (["per_client_credit_limit"], st_per_client_credit_limit); (["clients_at_credit_limit"], st_clients_at_credit_limit)].
Definition trace_result_access : access trace_result :=
  [(["oldest_sequence"], tr_oldest_sequence); (["latest_sequence"], tr_latest_sequence); (["count"], tr_count);
   (["reserved"], tr_reserved)].
Definition trace_event_access : access trace_event :=
  [(["sequence"], te_sequence); (["timestamp_nsec"], te_timestamp_nsec); (["task"; "task_id"], te_task);
   (["resource"; "resource_id"], te_resource); (["res"], (fun a => u32 (te_res a))); (["credits"], te_credits);
   (["event_kind"], te_event_kind); (["task_kind"; "value"], te_task_kind); (["client_slot"], te_client_slot);
   (["priority"], te_priority); (["reserved1"], te_reserved1)].
Definition completion_access : access completion_record :=
  under "header" cr_header header_access ++
  [(["task"; "task_id"], cr_task); (["res"], (fun a => u32 (cr_res a)));
   (["task_kind"; "value"], cr_task_kind); (["payload_length"], cr_payload_length)].
End Access.

(** A struct of the model with the C struct it stands for. *)
Record wire_struct := mk_wire_struct {
  ws_type : Type;
  ws_wire : Wire ws_type;
  ws_ctype : ctype;
  ws_access : access ws_type;
}.
#[export] Existing Instance ws_wire.
Arguments mk_wire_struct {_ _} _ _.

Definition wire_structs : list wire_struct :=
  [mk_wire_struct iouringd_protocol_header_v1 header_access;
   mk_wire_struct iouringd_handshake_request_v1 handshake_request_access;
   mk_wire_struct iouringd_handshake_response_v1 handshake_response_access;
   mk_wire_struct iouringd_capability_descriptor_v1 capability_access;
   mk_wire_struct iouringd_handshake_result_v1 handshake_result_access;
   mk_wire_struct iouringd_submit_request_v1 submit_access;
   mk_wire_struct iouringd_control_request_v1 control_access;
   mk_wire_struct iouringd_register_fd_request_v1 bare_control_access;
   mk_wire_struct iouringd_get_stats_request_v1 bare_control_access;
   mk_wire_struct iouringd_timeout_request_v1 timeout_access;
   mk_wire_struct iouringd_cancel_request_v1 cancel_access;
   mk_wire_struct iouringd_sock_read_request_v1 rw_access;
   mk_wire_struct iouringd_sock_write_request_v1 rw_access;
   mk_wire_struct iouringd_file_read_request_v1 rw_access;
   mk_wire_struct iouringd_file_write_request_v1 rw_access;
   mk_wire_struct iouringd_connect_request_v1 sockaddr_access;
   mk_wire_struct iouringd_accept_request_v1 sockaddr_access;
   mk_wire_struct iouringd_poll_request_v1 poll_access;
   mk_wire_struct iouringd_openat_request_v1 openat_access;
   mk_wire_struct iouringd_close_request_v1 close_access;
   mk_wire_struct iouringd_sock_read_fixed_request_v1 fixed_access;
   mk_wire_struct iouringd_sock_write_fixed_request_v1 fixed_access;
   mk_wire_struct iouringd_register_buffer_request_v1 register_buffer_access;
   mk_wire_struct iouringd_release_resource_request_v1 release_resource_access;
   mk_wire_struct iouringd_get_trace_request_v1 get_trace_access;
   mk_wire_struct iouringd_submit_result_v1 submit_result_access;
   mk_wire_struct iouringd_resource_result_v1 resource_result_access;
   mk_wire_struct iouringd_stats_result_v1 stats_access;
   mk_wire_struct iouringd_trace_result_v1 trace_result_access;
   mk_wire_struct iouringd_trace_event_v1 trace_event_access;
   mk_wire_struct iouringd_completion_record_v1 completion_access].

(** [sizeof] of the member at a path. *)
Fixpoint c_width (path : list string) (t : ctype) : option nat :=
  match path, t with
  | [], _ => Some (c_size t)
  | name :: rest, CStruct fs =>
      match find_member name (members 0 fs) with
      | Some (_, f) => c_width rest f
      | None => None
      end
  | _, CInt _ => None
  end.

(** Where a member is. *)
Definition locate (t : ctype) (path : list string) : option (nat * nat) :=
  match c_offset path t, c_width path t with Some off, Some w => Some (off, w) | _, _ => None end.

(** Where the fields of a layout are, without gaps. *)
Fixpoint packed (off : nat) (ws : list nat) : list (nat * nat) :=
  match ws with
  | [] => []
  | w :: rest => (off, w) :: packed (off + w) rest
  end.

(** The bytes of one field. *)
Lemma enc_field ws zs base n off w z :
  packed base ws !! n = Some (off, w) -> zs !! n = Some z -> length zs = length ws ->
  take w (drop (off - base) (enc ws zs)) = le_split w z.
Proof.
  revert zs base n. induction ws as [|v ws IH]; intros [|y zs] base [|n] Hp Hz Hl; try done.
  - injection Hp as <- <-. injection Hz as ->. rewrite Nat.sub_diag, drop_0. cbn [enc].
    rewrite take_app_length' by (by rewrite length_le_split). done.
  - cbn in Hp, Hz, Hl. assert (Hb : (base + v <= off)%nat).
    { clear -Hp. revert n Hp. generalize (base + v)%nat. induction ws as [|u ws IH]; intros b [|n] Hp; try done.
      - injection Hp as -> ->. lia.
      - apply IH in Hp. lia. }
    cbn [enc]. rewrite drop_app_ge by (rewrite length_le_split; lia). rewrite length_le_split.
    replace (off - base - v)%nat with (off - (base + v))%nat by lia. eapply IH; [done|done|lia].
Qed.

(** What is to be computed for a struct: every number in it is in the table under the
    path of its member, in the order in which [Wire] lists them, and none is
    missing. *)
Definition described (x : wire_struct) : Prop :=
  c_size (ws_ctype x) = wire_size (ws_type x) /\
  (locate (ws_ctype x) <$> (fst <$> ws_access x)) = Some <$> scalars 0 (ws_ctype x) /\
  scalars 0 (ws_ctype x) = packed 0 (wire_layout (ws_type x)) /\
  forall a, wire_fields a = (fun g => g a) <$> (snd <$> ws_access x).

Lemma structs_described : Forall described wire_structs.
Proof. repeat constructor. Qed.

(** The bytes of the memory image at the place of a member are its value. *)
Lemma described_member x path get :
  described x -> (path, get) ∈ ws_access x ->
  exists off w, c_offset path (ws_ctype x) = Some off /\ c_width path (ws_ctype x) = Some w /\
    forall a, slice off w (to_wire a) = le_split w (get a).
Proof.
  intros (_ & Hl & Hp & Hf) [n Hn]%list_elem_of_lookup.
  assert (Hs : (Some <$> scalars 0 (ws_ctype x)) !! n = Some (locate (ws_ctype x) path))
    by (by rewrite <- Hl, !list_lookup_fmap, Hn).
  rewrite list_lookup_fmap in Hs. destruct (scalars 0 (ws_ctype x) !! n) as [[off w]|] eqn:Es; [|done].
  injection Hs as Hs. unfold locate in Hs. destruct (c_offset path _); [|done]. destruct (c_width path _); [|done].
  injection Hs as <- <-. exists off, w. split; [done|]. split; [done|]. intros a. rewrite Hp in Es.
  assert (Hlen : length (wire_fields a) = length (wire_layout (ws_type x))).
  { apply (f_equal length) in Hl. rewrite Hp, !length_fmap in Hl. rewrite Hf, !length_fmap, Hl.
    clear. generalize 0%nat. induction (wire_layout _) as [|v ws IH]; intros b; cbn; [done|by rewrite IH]. }
  rewrite <- (enc_field _ (wire_fields a) 0 n off w (get a) Es); [|by rewrite Hf, !list_lookup_fmap, Hn|done].
  by rewrite Nat.sub_0_r.
Qed.


