(* ===== verification/Kernel.v ===== *)
(** * The operating system, as the daemon sees it

    The kernel is not part of the sources: it is a parameter of the model.
    [Kernel W] is the interface to it: for a type [W] of worlds, one operation
    per system call the daemon makes, from the world and the arguments to the
    result and the next world.  Nothing is assumed of an instance; a theorem
    that needs documented behaviour of a call names it as a hypothesis.

    This file also has the memory the daemon shares with the kernel: submission
    and completion queue entries and the ring ([struct iouringd_ring] of
    [src/daemon/submit.h], with the objects behind its pointers as values). *)

From S2P Require Import Prelude.

(** ** Addresses

    A pointer the daemon passes to the kernel is one of the objects below, by
    the task slot that owns it or the offset in the registered buffers. *)

Inductive ptr :=
| PTaskTimeout (slot : nat)
| PTaskIov (slot : nat)
| PTaskIoBuffer (slot : nat)
| PTaskSockaddrLength (slot : nat)
| PStorage (offset : Z).

(** A 64-bit [addr] or [off] field: a number, or the image of a pointer;
    [AOpt None] is the null pointer. *)
Inductive addr :=
| ANum (z : Z)
| AOpt (p : option ptr).

Definition is_null {A} (p : option A) : bool :=
  match p with Some _ => false | None => true end.

(** [struct io_uring_sqe], as far as the daemon fills it. *)
Record sqe := mk_sqe {
  sqe_opcode : Z;
  sqe_flags : Z;
  sqe_ioprio : Z;
  sqe_fd : Z;
  sqe_off : addr;
  sqe_addr : addr;
  sqe_len : Z;
  sqe_op_flags : Z;      (* the poll_events / open_flags / accept_flags / cancel_flags union *)
  sqe_user_data : Z;
  sqe_buf_index : Z;
}.

(** [memset(sqe, 0, sizeof *sqe)] *)
Definition sqe_zero : sqe := mk_sqe 0 0 0 0 (ANum 0) (ANum 0) 0 0 0 0.
#[export] Instance sqe_inhabited : Inhabited sqe := populate sqe_zero.

(** [struct io_uring_cqe].  The kernel writes the result data of an operation
    (bytes read, the accepted peer's address and its length) into the memory
    the submission named, before it publishes the entry; [cqe_data] and
    [cqe_addrlen] are what it wrote, for the daemon's model to find. *)
Record cqe := mk_cqe {
  cqe_user_data : Z;
  cqe_res : Z;
  cqe_data : bytes;
  cqe_addrlen : Z;
}.
Definition cqe_zero : cqe := mk_cqe 0 0 [] 0.
#[export] Instance cqe_inhabited : Inhabited cqe := populate cqe_zero.

(** [struct iouringd_ring] *)
Record ring := mk_ring {
  ring_fd : Z;
  registered_files_count : Z;
  registered_buffers_count : Z;
  sq_head : Z;                (* advanced by the kernel *)
  sq_tail : Z;
  sq_ring_mask : Z;
  sq_ring_entries : Z;
  sqes : list sqe;
  sq_array : list Z;
  cq_head : Z;
  cq_tail : Z;                (* advanced by the kernel *)
  cq_ring_mask : Z;
  cqes : list cqe;
}.
Definition eta_ring (r : ring) : ring :=
  mk_ring (ring_fd r) (registered_files_count r) (registered_buffers_count r)
    (sq_head r) (sq_tail r) (sq_ring_mask r) (sq_ring_entries r) (sqes r) (sq_array r)
    (cq_head r) (cq_tail r) (cq_ring_mask r) (cqes r).
#[export] Instance put_registered_files_count : Setter registered_files_count :=
  ltac:(mk_put eta_ring registered_files_count).
#[export] Instance put_registered_buffers_count : Setter registered_buffers_count :=
  ltac:(mk_put eta_ring registered_buffers_count).
#[export] Instance put_sq_head : Setter sq_head := ltac:(mk_put eta_ring sq_head).
#[export] Instance put_sq_tail : Setter sq_tail := ltac:(mk_put eta_ring sq_tail).
#[export] Instance put_sqes : Setter sqes := ltac:(mk_put eta_ring sqes).
#[export] Instance put_sq_array : Setter sq_array := ltac:(mk_put eta_ring sq_array).
#[export] Instance put_cq_head : Setter cq_head := ltac:(mk_put eta_ring cq_head).
#[export] Instance put_cq_tail : Setter cq_tail := ltac:(mk_put eta_ring cq_tail).
#[export] Instance put_cqes : Setter cqes := ltac:(mk_put eta_ring cqes).

(** ** Messages received on a client's socket *)

(** A control message: [SCM_RIGHTS] carrying the descriptors the kernel has
    installed, or something else. *)
Inductive cmsg :=
| CmsgRights (fds : list Z)
| CmsgOther.

Record message := mk_message {
  msg_data : bytes;
  msg_ctrunc : bool;          (* MSG_CTRUNC *)
  msg_cmsgs : list cmsg;
}.

(** ** The system calls *)

Class Kernel (W : Type) := {
  (** [io_uring_enter(ring_fd, to_submit, 0, 0)]: the result and where the
      kernel has moved the submission head. *)
  k_enter : W -> ring -> Z -> (outcome Z * Z) * W;
  (** [io_uring_register(IORING_REGISTER_FILES_UPDATE)] of one entry. *)
  k_files_update : W -> Z -> Z -> outcome Z * W;
  (** The completion queue at an acquire load: its tail and its entries. *)
  k_cq : W -> ring -> (Z * list cqe) * W;
  (** [clock_gettime(CLOCK_MONOTONIC)]: seconds and nanoseconds. *)
  k_clock : W -> option (Z * Z) * W;
  (** [recvmsg(fd)] with room for [len] bytes and one descriptor.  The daemon
      repeats [recvmsg] and [write] with the same arguments while they fail with
      [EINTR]: the operation here is the first result that is not [EINTR]. *)
  k_recvmsg : W -> Z -> nat -> outcome message * W;
  (** [write(fd, buf)] *)
  k_write : W -> Z -> bytes -> outcome Z * W;
  (** [accept(server_fd)] *)
  k_accept : W -> Z -> outcome Z * W;
  (** [fcntl(fd, F_SETFL, O_NONBLOCK)], [fcntl(fd, F_SETFD, FD_CLOEXEC)] *)
  k_set_nonblocking : W -> Z -> outcome unit * W;
  k_set_cloexec : W -> Z -> outcome unit * W;
  (** [malloc] of a client's output buffer: whether it succeeds. *)
  k_malloc : W -> nat -> bool * W;
  (** [poll(fds, n, -1)]: the descriptors with the events asked for, and the
      events reported for each. *)
  k_poll : W -> list (Z * Z) -> outcome (list Z) * W;
  (** [iouringd_stop_requested], which a signal handler sets at any time. *)
  k_stop : W -> bool;
  (** [iouringd_test_fault_matches("submit_accept_einval")]: the environment variable
      [IOURINGD_TEST_FAULT] has this value. *)
  k_accept_fault : W -> bool;
}.

(** ** A scripted kernel

    An instance that answers from lists prepared in advance, for concrete runs:
    when a list is exhausted the call succeeds in the ordinary way. *)
Record script := mk_script {
  sc_enter : list (outcome Z);     (* results of io_uring_enter *)
  sc_update : list (outcome Z);    (* results of the file table updates *)
  sc_cq : list cqe;                (* completions, published one per poll *)
  sc_recv : list (outcome message);
  sc_write : list (outcome Z);
  sc_accept : list (outcome Z);
  sc_poll : list (outcome (list Z));
}.
Definition eta_script (x : script) : script :=
  mk_script (sc_enter x) (sc_update x) (sc_cq x) (sc_recv x) (sc_write x) (sc_accept x)
    (sc_poll x).
#[export] Instance put_sc_enter : Setter sc_enter := ltac:(mk_put eta_script sc_enter).
#[export] Instance put_sc_update : Setter sc_update := ltac:(mk_put eta_script sc_update).
#[export] Instance put_sc_cq : Setter sc_cq := ltac:(mk_put eta_script sc_cq).
#[export] Instance put_sc_recv : Setter sc_recv := ltac:(mk_put eta_script sc_recv).
#[export] Instance put_sc_write : Setter sc_write := ltac:(mk_put eta_script sc_write).
#[export] Instance put_sc_accept : Setter sc_accept := ltac:(mk_put eta_script sc_accept).
#[export] Instance put_sc_poll : Setter sc_poll := ltac:(mk_put eta_script sc_poll).

Definition quiet : script := mk_script [] [] [] [] [] [] [].

Definition script_enter (w : script) (r : ring) (n : Z) : (outcome Z * Z) * script :=
  let queued := u32 (sq_tail r - sq_head r) in
  let clamp m := Z.max 0 (Z.min m (Z.min n queued)) in
  match sc_enter w with
  | Err e :: rest => ((Err (Z.max 1 (Z.min e 4095)), sq_head r), w <| sc_enter := rest |>)
  | Ok m :: rest => ((Ok (clamp m), u32 (sq_head r + clamp m)), w <| sc_enter := rest |>)
  | [] => ((Ok (clamp n), u32 (sq_head r + clamp n)), w)
  end.

Definition script_cq (w : script) (r : ring) : (Z * list cqe) * script :=
  match sc_cq w with
  | e :: rest =>
      ((u32 (cq_tail r + 1),
        <[Z.to_nat (Z.land (cq_tail r) (cq_ring_mask r)) := e]> (cqes r)),
       w <| sc_cq := rest |>)
  | [] => ((cq_tail r, cqes r), w)
  end.

#[export] Instance script_kernel : Kernel script := {|
  k_enter := script_enter;
  k_files_update w _ _ :=
    match sc_update w with
    | Ok n :: rest => (Ok n, w <| sc_update := rest |>)
    | Err e :: rest => (Err (Z.max 1 (Z.min e 4095)), w <| sc_update := rest |>)
    | [] => (Ok 1, w)
    end;
  k_cq := script_cq;
  k_clock w := (Some (0, 0), w);
  k_recvmsg w _ len :=
    match sc_recv w with
    | Ok m :: rest => (Ok (mk_message (u8 <$> take len (msg_data m)) (msg_ctrunc m) (msg_cmsgs m)),
                       w <| sc_recv := rest |>)
    | Err e :: rest => (Err e, w <| sc_recv := rest |>)
    | [] => (Err EAGAIN, w)
    end;
  k_write w _ buf :=
    match sc_write w with
    | Ok n :: rest => (Ok (Z.min n (Z.of_nat (length buf))), w <| sc_write := rest |>)
    | Err e :: rest => (Err e, w <| sc_write := rest |>)
    | [] => (Ok (Z.of_nat (length buf)), w)
    end;
  k_accept w _ :=
    match sc_accept w with
    | x :: rest => (x, w <| sc_accept := rest |>)
    | [] => (Err EAGAIN, w)
    end;
  k_set_nonblocking w _ := (Ok tt, w);
  k_set_cloexec w _ := (Ok tt, w);
  k_malloc w _ := (true, w);
  k_poll w fds :=
    match sc_poll w with
    | x :: rest => (x, w <| sc_poll := rest |>)
    | [] => (Ok (replicate (length fds) 0), w)
    end;
  k_stop _ := false;
  k_accept_fault _ := false;
|}.
