(* ===== verification/Ring.v ===== *)
(** * The submission and completion rings

    Models [src/daemon/submit.c]: the guards of each [iouringd_ring_submit_*],
    the submission entry it fills, the push into the shared submission ring
    with its wrapping 32-bit indices, and the pop of the completion ring.

    The theorems show that the ring is a queue: a push writes a free slot,
    never one the kernel has still to consume, and appends exactly the entry
    that was built; a failed [io_uring_enter] leaves the entry in the queue;
    a completion pop returns the oldest unread entry, once. *)

From S2P Require Import Prelude Wire Kernel.

Definition IORING_OP_NOP : Z := 0.
Definition IORING_OP_READV : Z := 1.
Definition IORING_OP_WRITEV : Z := 2.
Definition IORING_OP_READ_FIXED : Z := 4.
Definition IORING_OP_WRITE_FIXED : Z := 5.
Definition IORING_OP_POLL_ADD : Z := 6.
Definition IORING_OP_TIMEOUT : Z := 11.
Definition IORING_OP_ACCEPT : Z := 13.
Definition IORING_OP_ASYNC_CANCEL : Z := 14.
Definition IORING_OP_CONNECT : Z := 16.
Definition IORING_OP_OPENAT : Z := 18.
Definition IORING_OP_CLOSE : Z := 19.
Definition IOSQE_FIXED_FILE : Z := 1.
Definition IORING_ASYNC_CANCEL_USERDATA : Z := Z.shiftl 1 4.
(** [IOPRIO_PRIO_VALUE(class, data)] with [IOPRIO_CLASS_BE] *)
Definition IOPRIO_CLASS_BE : Z := 2.
Definition IOPRIO_PRIO_VALUE (cls data : Z) : Z := Z.lor (Z.shiftl cls 13) data.

Definition sqe_ioprio_from_submit_priority (submit_priority : Z) : Z :=
  if submit_priority =? IOURINGD_SUBMIT_PRIORITY_HIGH
  then u16 (IOPRIO_PRIO_VALUE IOPRIO_CLASS_BE 0)
  else if submit_priority =? IOURINGD_SUBMIT_PRIORITY_LOW
  then u16 (IOPRIO_PRIO_VALUE IOPRIO_CLASS_BE 7)
  else 0.

(** The entry in its slot, the slot in the index array, the tail moved on. *)
Definition ring_store (r : ring) (e : sqe) : ring :=
  let sq_index := Z.land (sq_tail r) (sq_ring_mask r) in
  r <| sqes := <[Z.to_nat sq_index := e]> (sqes r) |>
    <| sq_array := <[Z.to_nat sq_index := sq_index]> (sq_array r) |>
    <| sq_tail := u32 (sq_tail r + 1) |>.

Section Ring.
Context {W : Type} `{Kernel W}.

(** The result of a ring operation: success or errno, the ring and world. *)
Definition ring_result : Type := outcome unit * ring * W.

(** The push every [ring_queue_*_sqe] ends with: the fullness test on the
    wrapping indices, the entry, the index array, the release store of the
    tail, and [io_uring_enter]. *)
Definition ring_push (w : W) (r : ring) (e : sqe) : ring_result :=
  if sq_ring_entries r <=? u32 (sq_tail r - sq_head r) then (Err EBUSY, r, w)
  else
    let r1 := ring_store r e in
    let '((rc, head), w') := k_enter w r1 1 in
    let r2 := r1 <| sq_head := head |> in
    match rc with
    | Ok _ => (Ok tt, r2, w')
    | Err e => (Err e, r2, w')
    end.

Definition ring_queue_sqe (w : W) (r : ring) (opcode task_id : Z) (addr : addr)
    (len submit_priority : Z) : ring_result :=
  if ring_fd r <? 0 then (Err EINVAL, r, w)
  else ring_push w r
         (mk_sqe opcode 0 0 0 (ANum 0) addr len 0 task_id 0).

Definition ring_queue_rw_sqe (w : W) (r : ring) (opcode task_id file_index : Z)
    (iov : option ptr) (iovcnt submit_priority : Z) : ring_result :=
  if (ring_fd r <? 0) || is_null iov || (iovcnt =? 0) ||
     (registered_files_count r <=? file_index)
  then (Err EINVAL, r, w)
  else ring_push w r
         (mk_sqe opcode IOSQE_FIXED_FILE (sqe_ioprio_from_submit_priority submit_priority)
            (i32 file_index) (ANum 0) (AOpt iov) iovcnt 0 task_id 0).

Definition ring_queue_fixed_buffer_sqe (w : W) (r : ring)
    (opcode task_id file_index buffer_index : Z) (buf : option ptr)
    (len submit_priority : Z) : ring_result :=
  if (ring_fd r <? 0) || is_null buf ||
     (registered_files_count r <=? file_index) ||
     (registered_buffers_count r <=? buffer_index)
  then (Err EINVAL, r, w)
  else ring_push w r
         (mk_sqe opcode IOSQE_FIXED_FILE (sqe_ioprio_from_submit_priority submit_priority)
            (i32 file_index) (ANum 0) (AOpt buf) len 0 task_id (u16 buffer_index)).

Definition ring_queue_poll_sqe (w : W) (r : ring) (task_id file_index poll_mask : Z)
    (submit_priority : Z) : ring_result :=
  if (ring_fd r <? 0) || (poll_mask =? 0) || (registered_files_count r <=? file_index)
  then (Err EINVAL, r, w)
  else ring_push w r
         (mk_sqe IORING_OP_POLL_ADD IOSQE_FIXED_FILE 0 (i32 file_index) (ANum 0) (ANum 0) 0
            poll_mask task_id 0).

Definition ring_queue_connect_sqe (w : W) (r : ring) (task_id fd : Z)
    (sockaddr_buf : option ptr) (sockaddr_length submit_priority : Z) : ring_result :=
  if (ring_fd r <? 0) || is_null sockaddr_buf ||
     (sockaddr_length =? 0) || (UINT16_MAX <? sockaddr_length) || (fd <? 0)
  then (Err EINVAL, r, w)
  else ring_push w r
         (mk_sqe IORING_OP_CONNECT 0 0 fd (ANum sockaddr_length) (AOpt sockaddr_buf) 0 0
            task_id 0).

Definition ring_queue_accept_sqe (w : W) (r : ring) (task_id fd : Z)
    (sockaddr_buf sockaddr_length : option ptr) (accept_flags submit_priority : Z)
    : ring_result :=
  if (ring_fd r <? 0) || (fd <? 0) then (Err EINVAL, r, w)
  else if negb (eqb (is_null sockaddr_buf) (is_null sockaddr_length))
  then (Err EINVAL, r, w)
  else ring_push w r
         (mk_sqe IORING_OP_ACCEPT 0 0 fd (AOpt sockaddr_length) (AOpt sockaddr_buf) 0
            accept_flags task_id 0).

Definition ring_queue_openat_sqe (w : W) (r : ring) (task_id dirfd : Z)
    (path : option ptr) (open_flags open_mode submit_priority : Z) : ring_result :=
  if (ring_fd r <? 0) || is_null path then (Err EINVAL, r, w)
  else ring_push w r
         (mk_sqe IORING_OP_OPENAT 0 (sqe_ioprio_from_submit_priority submit_priority) dirfd
            (ANum 0) (AOpt path) open_mode (u32 open_flags) task_id 0).

Definition ring_queue_close_sqe (w : W) (r : ring) (task_id fd submit_priority : Z)
    : ring_result :=
  if (ring_fd r <? 0) || (fd <? 0) then (Err EINVAL, r, w)
  else ring_push w r
         (mk_sqe IORING_OP_CLOSE 0 (sqe_ioprio_from_submit_priority submit_priority) fd
            (ANum 0) (ANum 0) 0 0 task_id 0).

Definition iouringd_ring_submit_nop w r task_id submit_priority : ring_result :=
  ring_queue_sqe w r IORING_OP_NOP task_id (ANum 0) 0 submit_priority.

Definition iouringd_ring_submit_timeout w r task_id (timeout : option ptr) submit_priority
    : ring_result :=
  match timeout with
  | None => (Err EINVAL, r, w)
  | Some _ => ring_queue_sqe w r IORING_OP_TIMEOUT task_id (AOpt timeout) 1 submit_priority
  end.

Definition iouringd_ring_submit_cancel (w : W) (r : ring)
    (task_id target_task_id submit_priority : Z) : ring_result :=
  if (ring_fd r <? 0) || (target_task_id =? IOURINGD_TASK_ID_INVALID) ||
     (IOURINGD_TASK_ID_RESERVED_MIN <=? target_task_id)
  then (Err EINVAL, r, w)
  else ring_push w r
         (mk_sqe IORING_OP_ASYNC_CANCEL 0 0 0 (ANum 0) (ANum target_task_id) 0
            IORING_ASYNC_CANCEL_USERDATA task_id 0).

Definition iouringd_ring_submit_readv w r task_id file_index iov iovcnt submit_priority
    : ring_result :=
  ring_queue_rw_sqe w r IORING_OP_READV task_id file_index iov iovcnt submit_priority.

Definition iouringd_ring_submit_writev w r task_id file_index iov iovcnt submit_priority
    : ring_result :=
  ring_queue_rw_sqe w r IORING_OP_WRITEV task_id file_index iov iovcnt submit_priority.

Definition iouringd_ring_submit_poll w r task_id file_index poll_mask submit_priority
    : ring_result :=
  ring_queue_poll_sqe w r task_id file_index poll_mask submit_priority.

Definition iouringd_ring_submit_connect w r task_id fd sockaddr_buf sockaddr_length
    submit_priority : ring_result :=
  ring_queue_connect_sqe w r task_id fd sockaddr_buf sockaddr_length submit_priority.

(** The [IOURINGD_TEST_FAULT] environment variable is unset. *)
Definition iouringd_ring_submit_accept w r task_id fd sockaddr_buf sockaddr_length
    accept_flags submit_priority : ring_result :=
  if k_accept_fault w then (Err EINVAL, r, w)
  else ring_queue_accept_sqe w r task_id fd sockaddr_buf sockaddr_length accept_flags
         submit_priority.

Definition iouringd_ring_submit_openat w r task_id dirfd path open_flags open_mode
    submit_priority : ring_result :=
  ring_queue_openat_sqe w r task_id dirfd path open_flags open_mode submit_priority.

Definition iouringd_ring_submit_close w r task_id fd submit_priority : ring_result :=
  ring_queue_close_sqe w r task_id fd submit_priority.

Definition iouringd_ring_submit_read_fixed w r task_id file_index buffer_index buf len
    submit_priority : ring_result :=
  ring_queue_fixed_buffer_sqe w r IORING_OP_READ_FIXED task_id file_index buffer_index buf
    len submit_priority.

Definition iouringd_ring_submit_write_fixed w r task_id file_index buffer_index buf len
    submit_priority : ring_result :=
  ring_queue_fixed_buffer_sqe w r IORING_OP_WRITE_FIXED task_id file_index buffer_index buf
    len submit_priority.

Definition iouringd_ring_update_registered_file (w : W) (r : ring) (index fd : Z)
    : outcome unit * W :=
  if (ring_fd r <? 0) || (registered_files_count r <=? index) || (fd <? -1)
  then (Err EINVAL, w)
  else
    let '(rc, w') := k_files_update w index fd in
    match rc with
    | Err e => (Err e, w')
    | Ok n => if n =? 1 then (Ok tt, w') else (Err EIO, w')
    end.

Definition iouringd_ring_peek_completion (w : W) (r : ring) : option cqe * ring * W :=
  let '((tail, entries), w') := k_cq w r in
  let r1 := r <| cq_tail := tail |> <| cqes := entries |> in
  if cq_head r1 =? tail then (None, r1, w')
  else
    let e := cqes r1 !!! Z.to_nat (Z.land (cq_head r1) (cq_ring_mask r1)) in
    (Some e, r1 <| cq_head := u32 (cq_head r1 + 1) |>, w').

Definition iouringd_ring_capacity (r : ring) : Z := sq_ring_entries r.
End Ring.

(** ** The ring as a queue *)

(** The slot an index selects. *)
Definition sq_slot (r : ring) (k : nat) : nat :=
  Z.to_nat (Z.land (u32 (sq_head r + Z.of_nat k)) (sq_ring_mask r)).
Definition sq_count (r : ring) : Z := u32 (sq_tail r - sq_head r).

(** The entries the kernel has still to consume, oldest first. *)
Definition sq_pending (r : ring) : list sqe :=
  (fun k => sqes r !!! Z.to_nat (sq_array r !!! sq_slot r k))
    <$> seq 0 (Z.to_nat (sq_count r)).

Definition cq_unread (r : ring) : list cqe :=
  (fun k => cqes r !!! Z.to_nat (Z.land (u32 (cq_head r + Z.of_nat k)) (cq_ring_mask r)))
    <$> seq 0 (Z.to_nat (u32 (cq_tail r - cq_head r))).

(** A ring of [2 ^ n] entries, as [io_uring_setup] lays it out. *)
Record ring_wf (n : Z) (r : ring) : Prop := {
  rw_n : 0 <= n <= 31;
  rw_entries : sq_ring_entries r = 2 ^ n;
  rw_mask : sq_ring_mask r = 2 ^ n - 1;
  rw_sqes : length (sqes r) = Z.to_nat (2 ^ n);
  rw_array : length (sq_array r) = Z.to_nat (2 ^ n);
  rw_head : fits 32 (sq_head r);
  rw_tail : fits 32 (sq_tail r);
  rw_count : sq_count r <= 2 ^ n;
  rw_index k : Z.of_nat k < sq_count r -> sq_array r !! sq_slot r k = Some (Z.of_nat (sq_slot r k));
}.

(** [io_uring_enter(2)]: on success the result is the number of entries
    consumed, at most as many as asked for and queued, and the head has moved
    past them; on error, one of the errno range, no entry was consumed. *)
Definition enter_documented {W} `{Kernel W} : Prop :=
  forall w r n rc head w', 0 <= n -> k_enter w r n = ((rc, head), w') ->
  match rc with
  | Ok m => 0 <= m <= n /\ m <= sq_count r /\ head = u32 (sq_head r + m)
  | Err e => 0 < e <= 4095 /\ head = sq_head r
  end.

Lemma mod_pow2_u32 n z : 0 <= n <= 32 -> u32 z mod 2 ^ n = z mod 2 ^ n.
Proof.
  intros Hn. unfold u32, wrap.
  replace (2 ^ 32) with (2 ^ n * 2 ^ (32 - n)) by (rewrite <- Z.pow_add_r by lia; f_equal; lia).
  rewrite Z.rem_mul_r by lia.
  rewrite Z.add_mod, (Z.mul_comm (2 ^ n) _), Z.mod_mul, Z.add_0_r, !Z.mod_mod by lia.
  reflexivity.
Qed.

Lemma land_mask n z : 0 <= n -> Z.land z (2 ^ n - 1) = z mod 2 ^ n.
Proof.
  intros Hn. rewrite <- Z.land_ones by lia. f_equal. rewrite Z.ones_equiv. lia.
Qed.

Lemma sq_slot_mod n r k :
  ring_wf n r -> sq_slot r k = Z.to_nat ((sq_head r + Z.of_nat k) mod 2 ^ n).
Proof.
  intros [Hn _ Hm _ _ _ _ _ _]. unfold sq_slot. rewrite Hm, land_mask by lia.
  by rewrite mod_pow2_u32 by lia.
Qed.

Lemma sq_slot_lt n r k : ring_wf n r -> (sq_slot r k < Z.to_nat (2 ^ n))%nat.
Proof.
  intros Hr. rewrite (sq_slot_mod n r k Hr). destruct Hr as [Hn _ _ _ _ _ _ _ _].
  pose proof (Z.mod_pos_bound (sq_head r + Z.of_nat k) (2 ^ n) ltac:(lia)). lia.
Qed.

(** Fewer than [2 ^ n] consecutive indices select different slots. *)
Lemma mod_inj_window m a b : 0 < m -> 0 <= b - a < m -> a mod m = b mod m -> a = b.
Proof.
  intros Hm Hd E. pose proof (Z.div_mod a m ltac:(lia)). pose proof (Z.div_mod b m ltac:(lia)).
  assert (m * (b / m - a / m) = b - a) by lia.
  assert (b / m - a / m = 0 \/ 1 <= b / m - a / m \/ b / m - a / m <= -1) as [|[|]] by lia; nia.
Qed.

Lemma sq_slot_inj n r j k :
  ring_wf n r -> Z.of_nat j < Z.of_nat k < 2 ^ n -> sq_slot r j <> sq_slot r k.
Proof.
  intros Hr Hjk E. rewrite !(sq_slot_mod n r _ Hr) in E. destruct Hr as [Hn _ _ _ _ _ _ _ _].
  pose proof (Z.mod_pos_bound (sq_head r + Z.of_nat j) (2 ^ n) ltac:(lia)).
  pose proof (Z.mod_pos_bound (sq_head r + Z.of_nat k) (2 ^ n) ltac:(lia)).
  pose proof (mod_inj_window (2 ^ n) (sq_head r + Z.of_nat j) (sq_head r + Z.of_nat k)
                ltac:(lia) ltac:(lia) ltac:(lia)). lia.
Qed.

Lemma sq_tail_eq n r : ring_wf n r -> sq_tail r = u32 (sq_head r + sq_count r).
Proof.
  intros [_ _ _ _ _ _ Ht _ _]. unfold sq_count, u32, wrap.
  rewrite Z.add_mod_idemp_r by lia. unfold fits in Ht. rewrite Z.mod_small; lia.
Qed.

Lemma sq_count_nonneg r : 0 <= sq_count r.
Proof. apply (wrap_range 32). lia. Qed.
#[export] Hint Resolve sq_count_nonneg : iou.

Lemma sq_index_slot n r :
  ring_wf n r ->
  Z.land (sq_tail r) (sq_ring_mask r) = Z.of_nat (sq_slot r (Z.to_nat (sq_count r))).
Proof.
  intros Hr. pose proof (sq_count_nonneg r). rewrite (sq_tail_eq n r Hr) at 1.
  unfold sq_slot. rewrite (Z2Nat.id (sq_count r)) by done.
  destruct Hr as [Hn _ Hm _ _ _ _ _ _]. rewrite Hm, land_mask by lia.
  pose proof (Z.mod_pos_bound (u32 (sq_head r + sq_count r)) (2 ^ n) ltac:(lia)). lia.
Qed.

Lemma sq_count_store n r e :
  ring_wf n r -> sq_count r < 2 ^ n -> sq_count (ring_store r e) = sq_count r + 1.
Proof.
  intros [Hn _ _ _ _ _ _ _ _] Hc. pose proof (sq_count_nonneg r).
  pose proof (Z.pow_le_mono_r 2 n 31 ltac:(lia) ltac:(lia)).
  unfold sq_count at 1. simpl. unfold u32, wrap. rewrite Zminus_mod_idemp_l.
  replace (sq_tail r + 1 - sq_head r) with ((sq_tail r - sq_head r) + 1) by lia.
  rewrite <- Z.add_mod_idemp_l by lia. change ((sq_tail r - sq_head r) mod 2 ^ 32) with (sq_count r).
  apply Z.mod_small. lia.
Qed.

Lemma ring_store_slot r e k : sq_slot (ring_store r e) k = sq_slot r k.
Proof. reflexivity. Qed.

Lemma ring_store_wf n r e :
  ring_wf n r -> sq_count r < 2 ^ n -> ring_wf n (ring_store r e).
Proof.
  intros Hr Hc. pose proof (sq_index_slot n r Hr) as Hidx.
  pose proof (sq_slot_lt n r (Z.to_nat (sq_count r)) Hr) as Hlt.
  pose proof (sq_count_nonneg r). destruct Hr as [Hn He Hm Hs Ha Hh Ht Hcn Hix].
  assert (Hr : ring_wf n r) by (constructor; done).
  constructor; simpl; rewrite ?length_insert; try done.
  - apply (wrap_range 32). lia.
  - rewrite (sq_count_store n) by done. lia.
  - intros k Hk. rewrite (sq_count_store n) in Hk by done. rewrite ring_store_slot, Hidx, Nat2Z.id.
    destruct (decide (Z.of_nat k = sq_count r)) as [E|E].
    + replace (Z.to_nat (sq_count r)) with k in * by lia.
      rewrite list_lookup_insert_eq; [done|lia].
    + rewrite list_lookup_insert_ne; [apply Hix; lia|].
      apply not_eq_sym, (sq_slot_inj n); [done|lia].
Qed.

(** Storing an entry in a ring that is not full appends it to the queue and
    leaves the entries already queued as they were. *)
Lemma ring_store_pending n r e :
  ring_wf n r -> sq_count r < 2 ^ n -> sq_pending (ring_store r e) = sq_pending r ++ [e].
Proof.
  intros Hr Hc. pose proof (sq_index_slot n r Hr) as Hidx.
  pose proof (sq_slot_lt n r (Z.to_nat (sq_count r)) Hr) as Hlt.
  pose proof (sq_count_nonneg r). unfold sq_pending.
  rewrite (sq_count_store n) by done. rewrite Z2Nat.inj_add by lia.
  change (Z.to_nat 1) with 1%nat. rewrite seq_app, fmap_app. f_equal.
  - apply list_fmap_ext. intros i k Hk. apply lookup_seq in Hk as [-> Hk].
    rewrite ring_store_slot. simpl. rewrite Hidx, Nat2Z.id.
    assert (Hne : sq_slot r (Z.to_nat (sq_count r)) <> sq_slot r i)
      by (apply not_eq_sym, (sq_slot_inj n); [done|lia]).
    rewrite (insert_total_ne (sq_array r)) by done. rewrite insert_total_ne; [done|].
    rewrite (list_lookup_total_correct _ _ _ (rw_index n r Hr i ltac:(lia))). lia.
  - simpl. f_equal. rewrite ring_store_slot, Hidx, Nat2Z.id.
    destruct Hr as [_ _ _ Hs Ha _ _ _ _].
    rewrite (insert_total_eq (sq_array r)) by lia. rewrite Nat2Z.id. apply insert_total_eq. lia.
Qed.

Lemma ring_advance n r m :
  ring_wf n r -> 0 <= m <= sq_count r ->
  let r' := r <| sq_head := u32 (sq_head r + m) |> in
  ring_wf n r' /\ sq_pending r' = drop (Z.to_nat m) (sq_pending r).
Proof.
  intros Hr Hm r'. destruct Hr as [Hn He Hk Hs Ha Hh Ht Hc Hix].
  assert (Hcr : sq_count r < 2 ^ 32) by (apply (wrap_range 32); lia).
  assert (Hcount : sq_count r' = sq_count r - m).
  { unfold sq_count, r'. simpl. unfold u32, wrap. rewrite Zminus_mod_idemp_r.
    replace (sq_tail r - (sq_head r + m)) with ((sq_tail r - sq_head r) - m) by lia.
    rewrite <- Zminus_mod_idemp_l. change ((sq_tail r - sq_head r) mod 2 ^ 32) with (sq_count r).
    apply Z.mod_small. lia. }
  assert (Hslot : forall k, sq_slot r' k = sq_slot r (Z.to_nat m + k)).
  { intros k. unfold sq_slot, r'. simpl. unfold u32, wrap. rewrite Z.add_mod_idemp_l by lia.
    do 3 f_equal. lia. }
  split.
  - constructor; try done.
    + apply (wrap_range 32). lia.
    + lia.
    + intros k Hlt. rewrite Hslot. apply Hix. lia.
  - unfold sq_pending. rewrite Hcount, <- fmap_drop, drop_seq.
    replace (0 + Z.to_nat m)%nat with (Z.to_nat m + 0)%nat by lia.
    rewrite <- fmap_add_seq, <- list_fmap_compose.
    replace (Z.to_nat (sq_count r) - Z.to_nat m)%nat with (Z.to_nat (sq_count r - m)) by lia.
    apply list_fmap_ext. intros i k _. simpl. by rewrite Hslot.
Qed.

Section RingTheorems.
Context {W : Type} `{Kernel W}.

(** A push, on all branches. *)
Lemma ring_push_appends n w r e :
  enter_documented -> ring_wf n r ->
  let '(rc, r', w') := ring_push w r e in
  ring_wf n r' /\
  match rc with
  | Ok _ => exists m, (m <= 1)%nat /\ sq_pending r' = drop m (sq_pending r ++ [e])
  | Err _ => (sq_count r = 2 ^ n /\ r' = r) \/ sq_pending r' = sq_pending r ++ [e]
  end.
Proof.
  intros Hent Hr. unfold ring_push. rewrite (rw_entries n r Hr).
  change (u32 (sq_tail r - sq_head r)) with (sq_count r).
  destruct (2 ^ n <=? sq_count r) eqn:Hfull; bool_hyps.
  { split; [done|]. left. pose proof (rw_count n r Hr). split; [lia|done]. }
  pose proof (ring_store_wf n r e Hr Hfull) as Hr1.
  pose proof (ring_store_pending n r e Hr Hfull) as Hp1.
  destruct (k_enter w (ring_store r e) 1) as [[rc head] w'] eqn:E.
  specialize (Hent _ _ 1 _ _ _ ltac:(lia) E). destruct rc as [m|err].
  - destruct Hent as (Hm1 & Hm2 & ->).
    destruct (ring_advance n _ m Hr1 ltac:(lia)) as [Hwf Hpend].
    split; [exact Hwf|]. exists (Z.to_nat m). split; [lia|]. by rewrite <- Hp1.
  - destruct Hent as [_ ->].
    destruct (ring_advance n _ 0 Hr1 ltac:(pose proof (sq_count_nonneg (ring_store r e)); lia))
      as [Hwf Hpend].
    rewrite Z.add_0_r in Hwf, Hpend. pose proof (rw_head n _ Hr1) as Hh.
    assert (Eh : u32 (sq_head (ring_store r e)) = sq_head (ring_store r e)) by (by apply wrap_id).
    rewrite Eh in Hwf, Hpend. split; [exact Hwf|]. right. by rewrite Hpend, <- Hp1.
Qed.

(** C15: the submission ring is a bounded queue.  On a well-formed ring, a push either finds the
    ring full and changes nothing, or appends exactly the given entry behind
    the pending ones: [io_uring_enter] then takes at most that one entry's
    worth from the front, and when it fails the entry stays queued.  The ring
    stays well-formed, so no pending entry is ever overwritten. *)
Theorem ring_push_queue n w r e :
  enter_documented -> ring_wf n r ->
  let '(rc, r', w') := ring_push w r e in
  ring_wf n r' /\
  match rc with
  | Ok _ => exists m, (m <= 1)%nat /\ sq_pending r' = drop m (sq_pending r ++ [e])
  | Err _ => (sq_count r = 2 ^ n /\ r' = r) \/ sq_pending r' = sq_pending r ++ [e]
  end.
Proof. exact (ring_push_appends n w r e). Qed.

(** C16: the completion ring is read in order and once: a peek that finds the head
    at the tail returns nothing; otherwise it returns the oldest unread
    entry of the ring the kernel published and exactly that entry stops
    being unread. *)
Theorem peek_completion_queue w r :
  fits 32 (cq_head r) ->
  (forall w0, fits 32 (fst (fst (k_cq w0 r)))) ->
  let '(oc, r', w') := iouringd_ring_peek_completion w r in
  let published := r <| cq_tail := cq_tail r' |> <| cqes := cqes r' |> in
  match oc with
  | None => cq_unread published = [] /\ r' = published
  | Some e => cq_unread published = e :: cq_unread r'
  end.
Proof.
  intros Hh Ht. unfold iouringd_ring_peek_completion. specialize (Ht w).
  destruct (k_cq w r) as [[tail entries] w']. simpl in Ht. simpl.
  destruct (cq_head r =? tail) eqn:E; bool_hyps.
  - simpl. split; [|done]. unfold cq_unread. simpl. by rewrite E, Z.sub_diag.
  - simpl. unfold cq_unread. simpl.
    assert (Hc : 0 < u32 (tail - cq_head r) < 2 ^ 32).
    { pose proof (wrap_range 32 (tail - cq_head r) ltac:(lia)) as Hw. unfold fits in *.
      enough (u32 (tail - cq_head r) <> 0) by (unfold u32 in *; lia).
      unfold u32, wrap. intros E0. apply Z.mod_divide in E0 as [q Hq]; lia. }
    replace (u32 (tail - u32 (cq_head r + 1))) with (u32 (tail - cq_head r) - 1).
    2: { unfold u32, wrap in *. rewrite Zminus_mod_idemp_r, Z.sub_add_distr.
         rewrite <- (Zminus_mod_idemp_l (tail - cq_head r)). symmetry. apply Z.mod_small. lia. }
    replace (Z.to_nat (u32 (tail - cq_head r)))
      with (S (Z.to_nat (u32 (tail - cq_head r) - 1))) by lia.
    cbn [seq fmap list_fmap]. f_equal.
    + rewrite Z.add_0_r. by rewrite (wrap_id 32).
    + rewrite <- fmap_S_seq, <- list_fmap_compose. apply list_fmap_ext. intros i k _.
      simpl. unfold u32, wrap. rewrite Z.add_mod_idemp_l by lia. do 4 f_equal. lia.
Qed.
End RingTheorems.

(** ** The hypotheses can hold *)

Lemma script_enter_documented : enter_documented (W := script).
Proof.
  intros w r n rc head w' Hn E. cbn in E. unfold script_enter in E.
  change (u32 (sq_tail r - sq_head r)) with (sq_count r) in E.
  pose proof (sq_count_nonneg r) as Hc.
  destruct (sc_enter w) as [|[m|e] rest]; injection E as <- <- <-; repeat split; lia.
Qed.

(** A ring of four entries with two pending, whose indices are about to wrap. *)
Definition wrapping_ring : ring :=
  mk_ring 3 8 2 4294967294 0 3 4
    (replicate 4 sqe_zero) [0; 1; 2; 3] 4294967295 4294967295 7 (replicate 8 cqe_zero).

Lemma wrapping_ring_wf : ring_wf 2 wrapping_ring.
Proof.
  constructor; [lia|reflexivity..| | | |].
  - vm_compute. split; congruence.
  - vm_compute. split; congruence.
  - vm_compute. congruence.
  - intros [|[|k]] Hk; [reflexivity|reflexivity|]. exfalso.
    change (sq_count wrapping_ring) with 2 in Hk. lia.
Qed.

Lemma ring_push_queue_witness :
  ring_wf 2 wrapping_ring /\
  exists r' w', ring_push quiet wrapping_ring (sqe_zero) = (Ok tt, r', w') /\ ring_wf 2 r'.
Proof.
  split; [exact wrapping_ring_wf|].
  pose proof (ring_push_queue 2 quiet wrapping_ring sqe_zero
                script_enter_documented wrapping_ring_wf) as [H _].
  eexists _, _. split; [reflexivity|exact H].
Defined.

Lemma peek_completion_queue_witness :
  let w := quiet <| sc_cq := [mk_cqe 7 (-62) [] 0] |> in
  exists r' w',
    iouringd_ring_peek_completion w wrapping_ring = (Some (mk_cqe 7 (-62) [] 0), r', w') /\
    cq_head r' = 0 /\
    cq_unread (wrapping_ring <| cq_tail := cq_tail r' |> <| cqes := cqes r' |>)
      = mk_cqe 7 (-62) [] 0 :: cq_unread r'.
Proof.
  intros w. eexists _, _. split; [reflexivity|]. split; [reflexivity|].
  refine (peek_completion_queue w wrapping_ring _ _).
  - vm_compute. split; congruence.
  - intros w0. cbn. unfold script_cq. destruct (sc_cq w0); vm_compute; split; congruence.
Defined.
