(* ===== verification/State.v ===== *)
(** * The state of the daemon

    Models the data of [src/daemon/main.c]: limits, resource slots, clients,
    task slots and the runtime, and the functions that initialise and reset
    them.  The flat [struct iouringd_client] is split into records by use
    (input side, output side, the current request, the resource tables), so
    that a function on one part visibly leaves the others alone. *)

From S2P Require Import Prelude Wire Kernel.

Definition IOURINGD_MAX_CLIENTS : nat := 64.
Definition IOURINGD_MAX_TASKS : nat := 64.
Definition IOURINGD_MAX_REGISTERED_FDS : nat := 32.
Definition IOURINGD_MAX_REGISTERED_BUFFERS : nat := 4.
Definition IOURINGD_DEFAULT_REGISTERED_BUFFERS : Z := 1.
Definition IOURINGD_MAX_IO_BYTES : nat := 4096.
Definition IOURINGD_TRACE_CAPACITY : nat := 256.
Definition IOURINGD_DEFAULT_RING_ENTRIES : Z := 4.
Definition IOURINGD_MAX_REQUEST_BYTES : nat :=
  wire_size register_buffer_request + IOURINGD_MAX_IO_BYTES.

Inductive client_phase :=
| IOURINGD_CLIENT_PHASE_HANDSHAKE
| IOURINGD_CLIENT_PHASE_SUBMIT.
#[export] Instance client_phase_eq_dec : EqDecision client_phase.
Proof. solve_decision. Defined.

(** [struct iouringd_resource_slot] *)
Record resource_slot := mk_resource_slot {
  rs_resource_id : Z;
  rs_daemon_fd : Z;
  rs_in_flight : Z;
  rs_registered : bool;
  rs_closing : bool;
}.
Definition eta_resource_slot (x : resource_slot) : resource_slot :=
  mk_resource_slot (rs_resource_id x) (rs_daemon_fd x) (rs_in_flight x) (rs_registered x)
    (rs_closing x).
#[export] Instance put_rs_resource_id : Setter rs_resource_id := ltac:(mk_put eta_resource_slot rs_resource_id).
#[export] Instance put_rs_daemon_fd : Setter rs_daemon_fd := ltac:(mk_put eta_resource_slot rs_daemon_fd).
#[export] Instance put_rs_in_flight : Setter rs_in_flight := ltac:(mk_put eta_resource_slot rs_in_flight).
#[export] Instance put_rs_registered : Setter rs_registered := ltac:(mk_put eta_resource_slot rs_registered).
#[export] Instance put_rs_closing : Setter rs_closing := ltac:(mk_put eta_resource_slot rs_closing).

(** [struct iouringd_buffer_slot] *)
Record buffer_slot := mk_buffer_slot {
  bs_resource_id : Z;
  bs_in_flight : Z;
  bs_registered : bool;
  bs_closing : bool;
  bs_valid_length : Z;
}.
Definition eta_buffer_slot (x : buffer_slot) : buffer_slot :=
  mk_buffer_slot (bs_resource_id x) (bs_in_flight x) (bs_registered x) (bs_closing x)
    (bs_valid_length x).
#[export] Instance put_bs_resource_id : Setter bs_resource_id := ltac:(mk_put eta_buffer_slot bs_resource_id).
#[export] Instance put_bs_in_flight : Setter bs_in_flight := ltac:(mk_put eta_buffer_slot bs_in_flight).
#[export] Instance put_bs_registered : Setter bs_registered := ltac:(mk_put eta_buffer_slot bs_registered).
#[export] Instance put_bs_closing : Setter bs_closing := ltac:(mk_put eta_buffer_slot bs_closing).
#[export] Instance put_bs_valid_length : Setter bs_valid_length := ltac:(mk_put eta_buffer_slot bs_valid_length).

(** [struct iouringd_limits] *)
Record iouringd_limits := mk_iouringd_limits {
  max_clients : Z;
  registered_fds_per_client : Z;
  registered_buffers_per_client : Z;
  per_client_credits : Z;
  lim_io_bytes_max : Z;
  ring_entries : Z;
}.
Definition eta_iouringd_limits (x : iouringd_limits) : iouringd_limits :=
  mk_iouringd_limits (max_clients x) (registered_fds_per_client x)
    (registered_buffers_per_client x) (per_client_credits x) (lim_io_bytes_max x)
    (ring_entries x).
#[export] Instance put_max_clients : Setter max_clients := ltac:(mk_put eta_iouringd_limits max_clients).
#[export] Instance put_registered_fds_per_client : Setter registered_fds_per_client := ltac:(mk_put eta_iouringd_limits registered_fds_per_client).
#[export] Instance put_registered_buffers_per_client : Setter registered_buffers_per_client := ltac:(mk_put eta_iouringd_limits registered_buffers_per_client).
#[export] Instance put_per_client_credits : Setter per_client_credits := ltac:(mk_put eta_iouringd_limits per_client_credits).
#[export] Instance put_lim_io_bytes_max : Setter lim_io_bytes_max := ltac:(mk_put eta_iouringd_limits lim_io_bytes_max).
#[export] Instance put_ring_entries : Setter ring_entries := ltac:(mk_put eta_iouringd_limits ring_entries).

(** The input side of [struct iouringd_client]: [expected_input], [input_len] and
    the array [input]. *)
Record inbuf := mk_inbuf {
  expected_input : Z;
  input_len : Z;
  input : bytes;
}.
Definition eta_inbuf (x : inbuf) : inbuf :=
  mk_inbuf (expected_input x) (input_len x) (input x).
#[export] Instance put_expected_input : Setter expected_input := ltac:(mk_put eta_inbuf expected_input).
#[export] Instance put_input_len : Setter input_len := ltac:(mk_put eta_inbuf input_len).
#[export] Instance put_input : Setter input := ltac:(mk_put eta_inbuf input).

(** The output side: the array [output] (empty while the pointer is null), its
    capacity, and the window of unsent bytes. *)
Record outbuf := mk_outbuf {
  output : bytes;
  output_capacity : Z;
  output_len : Z;
  output_sent : Z;
}.
Definition eta_outbuf (x : outbuf) : outbuf :=
  mk_outbuf (output x) (output_capacity x) (output_len x) (output_sent x).
#[export] Instance put_output : Setter output := ltac:(mk_put eta_outbuf output).
#[export] Instance put_output_capacity : Setter output_capacity := ltac:(mk_put eta_outbuf output_capacity).
#[export] Instance put_output_len : Setter output_len := ltac:(mk_put eta_outbuf output_len).
#[export] Instance put_output_sent : Setter output_sent := ltac:(mk_put eta_outbuf output_sent).

(** The request being read or waiting to be dispatched. *)
Record client_request := mk_client_request {
  request_ready : bool;
  request : submit_request;
  control_op : Z;
  timeout_nsec : Z;
  cancel_target_id : Z;
  resource_id : Z;
  buffer_resource_id : Z;
  open_flags : Z;
  close_fd : Z;
  open_mode : Z;
  io_length : Z;
  trace_after_sequence : Z;
  trace_max_events : Z;
  poll_mask : Z;
  io_payload : bytes;
}.
Definition eta_client_request (x : client_request) : client_request :=
  mk_client_request (request_ready x) (request x) (control_op x) (timeout_nsec x)
    (cancel_target_id x) (resource_id x) (buffer_resource_id x) (open_flags x) (close_fd
    x) (open_mode x) (io_length x) (trace_after_sequence x) (trace_max_events x)
    (poll_mask x) (io_payload x).
#[export] Instance put_request_ready : Setter request_ready := ltac:(mk_put eta_client_request request_ready).
#[export] Instance put_request : Setter request := ltac:(mk_put eta_client_request request).
#[export] Instance put_control_op : Setter control_op := ltac:(mk_put eta_client_request control_op).
#[export] Instance put_timeout_nsec : Setter timeout_nsec := ltac:(mk_put eta_client_request timeout_nsec).
#[export] Instance put_cancel_target_id : Setter cancel_target_id := ltac:(mk_put eta_client_request cancel_target_id).
#[export] Instance put_resource_id : Setter resource_id := ltac:(mk_put eta_client_request resource_id).
#[export] Instance put_buffer_resource_id : Setter buffer_resource_id := ltac:(mk_put eta_client_request buffer_resource_id).
#[export] Instance put_open_flags : Setter open_flags := ltac:(mk_put eta_client_request open_flags).
#[export] Instance put_close_fd : Setter close_fd := ltac:(mk_put eta_client_request close_fd).
#[export] Instance put_open_mode : Setter open_mode := ltac:(mk_put eta_client_request open_mode).
#[export] Instance put_io_length : Setter io_length := ltac:(mk_put eta_client_request io_length).
#[export] Instance put_trace_after_sequence : Setter trace_after_sequence := ltac:(mk_put eta_client_request trace_after_sequence).
#[export] Instance put_trace_max_events : Setter trace_max_events := ltac:(mk_put eta_client_request trace_max_events).
#[export] Instance put_poll_mask : Setter poll_mask := ltac:(mk_put eta_client_request poll_mask).
#[export] Instance put_io_payload : Setter io_payload := ltac:(mk_put eta_client_request io_payload).

(** What the client holds: its outstanding tasks and its resource tables. *)
Record client_resources := mk_client_resources {
  outstanding_tasks : Z;
  outstanding_credit_tasks : Z;
  file_slot_limit : Z;
  buffer_slot_limit : Z;
  next_resource_id : Z;
  file_resources : list resource_slot;
  buffer_resources : list buffer_slot;
}.
Definition eta_client_resources (x : client_resources) : client_resources :=
  mk_client_resources (outstanding_tasks x) (outstanding_credit_tasks x) (file_slot_limit
    x) (buffer_slot_limit x) (next_resource_id x) (file_resources x) (buffer_resources x).
#[export] Instance put_outstanding_tasks : Setter outstanding_tasks := ltac:(mk_put eta_client_resources outstanding_tasks).
#[export] Instance put_outstanding_credit_tasks : Setter outstanding_credit_tasks := ltac:(mk_put eta_client_resources outstanding_credit_tasks).
#[export] Instance put_file_slot_limit : Setter file_slot_limit := ltac:(mk_put eta_client_resources file_slot_limit).
#[export] Instance put_buffer_slot_limit : Setter buffer_slot_limit := ltac:(mk_put eta_client_resources buffer_slot_limit).
#[export] Instance put_next_resource_id : Setter next_resource_id := ltac:(mk_put eta_client_resources next_resource_id).
#[export] Instance put_file_resources : Setter file_resources := ltac:(mk_put eta_client_resources file_resources).
#[export] Instance put_buffer_resources : Setter buffer_resources := ltac:(mk_put eta_client_resources buffer_resources).

(** [struct iouringd_client] *)
Record client := mk_client {
  c_fd : Z;
  c_generation : Z;
  c_phase : client_phase;
  c_close_after_flush : bool;
  c_received_fd : Z;
  c_io_bytes_max : Z;
  c_in : inbuf;
  c_out : outbuf;
  c_req : client_request;
  c_res : client_resources;
}.
Definition eta_client (x : client) : client :=
  mk_client (c_fd x) (c_generation x) (c_phase x) (c_close_after_flush x) (c_received_fd
    x) (c_io_bytes_max x) (c_in x) (c_out x) (c_req x) (c_res x).
#[export] Instance put_c_fd : Setter c_fd := ltac:(mk_put eta_client c_fd).
#[export] Instance put_c_generation : Setter c_generation := ltac:(mk_put eta_client c_generation).
#[export] Instance put_c_phase : Setter c_phase := ltac:(mk_put eta_client c_phase).
#[export] Instance put_c_close_after_flush : Setter c_close_after_flush := ltac:(mk_put eta_client c_close_after_flush).
#[export] Instance put_c_received_fd : Setter c_received_fd := ltac:(mk_put eta_client c_received_fd).
#[export] Instance put_c_io_bytes_max : Setter c_io_bytes_max := ltac:(mk_put eta_client c_io_bytes_max).
#[export] Instance put_c_in : Setter c_in := ltac:(mk_put eta_client c_in).
#[export] Instance put_c_out : Setter c_out := ltac:(mk_put eta_client c_out).
#[export] Instance put_c_req : Setter c_req := ltac:(mk_put eta_client c_req).
#[export] Instance put_c_res : Setter c_res := ltac:(mk_put eta_client c_res).

(** [struct iouringd_task_slot]; [t_iov_len] is [io_vector.iov_len], whose base is
    the slot's own [io_buffer]. *)
Record task_slot := mk_task_slot {
  t_active : bool;
  t_consumes_credit : bool;
  t_task_id : Z;
  t_task_kind : Z;
  t_submit_priority : Z;
  t_client_index : nat;
  t_client_generation : Z;
  t_file_slot_index : Z;
  t_buffer_slot_index : Z;
  t_result_file_slot_index : Z;
  t_timeout : Z * Z;
  t_cancel_target_id : Z;
  t_resource_id : Z;
  t_buffer_resource_id : Z;
  t_result_resource_id : Z;
  t_open_flags : Z;
  t_close_fd : Z;
  t_open_mode : Z;
  t_io_length : Z;
  t_poll_mask : Z;
  t_sockaddr_length : Z;
  t_iov_len : Z;
  t_io_buffer : bytes;
}.
Definition eta_task_slot (x : task_slot) : task_slot :=
  mk_task_slot (t_active x) (t_consumes_credit x) (t_task_id x) (t_task_kind x)
    (t_submit_priority x) (t_client_index x) (t_client_generation x) (t_file_slot_index x)
    (t_buffer_slot_index x) (t_result_file_slot_index x) (t_timeout x) (t_cancel_target_id
    x) (t_resource_id x) (t_buffer_resource_id x) (t_result_resource_id x) (t_open_flags
    x) (t_close_fd x) (t_open_mode x) (t_io_length x) (t_poll_mask x) (t_sockaddr_length
    x) (t_iov_len x) (t_io_buffer x).
#[export] Instance put_t_active : Setter t_active := ltac:(mk_put eta_task_slot t_active).
#[export] Instance put_t_consumes_credit : Setter t_consumes_credit := ltac:(mk_put eta_task_slot t_consumes_credit).
#[export] Instance put_t_task_id : Setter t_task_id := ltac:(mk_put eta_task_slot t_task_id).
#[export] Instance put_t_task_kind : Setter t_task_kind := ltac:(mk_put eta_task_slot t_task_kind).
#[export] Instance put_t_submit_priority : Setter t_submit_priority := ltac:(mk_put eta_task_slot t_submit_priority).
#[export] Instance put_t_client_index : Setter t_client_index := ltac:(mk_put eta_task_slot t_client_index).
#[export] Instance put_t_client_generation : Setter t_client_generation := ltac:(mk_put eta_task_slot t_client_generation).
#[export] Instance put_t_file_slot_index : Setter t_file_slot_index := ltac:(mk_put eta_task_slot t_file_slot_index).
#[export] Instance put_t_buffer_slot_index : Setter t_buffer_slot_index := ltac:(mk_put eta_task_slot t_buffer_slot_index).
#[export] Instance put_t_result_file_slot_index : Setter t_result_file_slot_index := ltac:(mk_put eta_task_slot t_result_file_slot_index).
#[export] Instance put_t_timeout : Setter t_timeout := ltac:(mk_put eta_task_slot t_timeout).
#[export] Instance put_t_cancel_target_id : Setter t_cancel_target_id := ltac:(mk_put eta_task_slot t_cancel_target_id).
#[export] Instance put_t_resource_id : Setter t_resource_id := ltac:(mk_put eta_task_slot t_resource_id).
#[export] Instance put_t_buffer_resource_id : Setter t_buffer_resource_id := ltac:(mk_put eta_task_slot t_buffer_resource_id).
#[export] Instance put_t_result_resource_id : Setter t_result_resource_id := ltac:(mk_put eta_task_slot t_result_resource_id).
#[export] Instance put_t_open_flags : Setter t_open_flags := ltac:(mk_put eta_task_slot t_open_flags).
#[export] Instance put_t_close_fd : Setter t_close_fd := ltac:(mk_put eta_task_slot t_close_fd).
#[export] Instance put_t_open_mode : Setter t_open_mode := ltac:(mk_put eta_task_slot t_open_mode).
#[export] Instance put_t_io_length : Setter t_io_length := ltac:(mk_put eta_task_slot t_io_length).
#[export] Instance put_t_poll_mask : Setter t_poll_mask := ltac:(mk_put eta_task_slot t_poll_mask).
#[export] Instance put_t_sockaddr_length : Setter t_sockaddr_length := ltac:(mk_put eta_task_slot t_sockaddr_length).
#[export] Instance put_t_iov_len : Setter t_iov_len := ltac:(mk_put eta_task_slot t_iov_len).
#[export] Instance put_t_io_buffer : Setter t_io_buffer := ltac:(mk_put eta_task_slot t_io_buffer).

(** [struct iouringd_runtime], without the fields only the stderr log reads
    ([socket_path], [pid], [job_id], [trace_to_stderr]). *)
Record runtime := mk_runtime {
  rt_server_fd : Z;
  rt_next_task_id : Z;
  rt_next_client_generation : Z;
  rt_outstanding_tasks : Z;
  rt_outstanding_credit_tasks : Z;
  rt_ring_capacity : Z;
  rt_task_capacity : Z;
  rt_dispatch_cursor : nat;
  rt_client_output_capacity : Z;
  rt_registered_file_capacity : Z;
  rt_registered_buffer_capacity : Z;
  rt_per_client_credit_limit : Z;
  rt_accepted_submits : Z;
  rt_rejected_submits : Z;
  rt_completions : Z;
  rt_next_trace_sequence : Z;
  rt_trace_count : Z;
  rt_limits : iouringd_limits;
  rt_storage : bytes;
  rt_capabilities : capability_descriptor;
  rt_ring : ring;
  rt_trace_events : list trace_event;
  rt_clients : list client;
  rt_tasks : list task_slot;
}.
Definition eta_runtime (x : runtime) : runtime :=
  mk_runtime (rt_server_fd x) (rt_next_task_id x) (rt_next_client_generation x)
    (rt_outstanding_tasks x) (rt_outstanding_credit_tasks x) (rt_ring_capacity x)
    (rt_task_capacity x) (rt_dispatch_cursor x) (rt_client_output_capacity x)
    (rt_registered_file_capacity x) (rt_registered_buffer_capacity x)
    (rt_per_client_credit_limit x) (rt_accepted_submits x) (rt_rejected_submits x)
    (rt_completions x) (rt_next_trace_sequence x) (rt_trace_count x) (rt_limits x)
    (rt_storage x) (rt_capabilities x) (rt_ring x) (rt_trace_events x) (rt_clients x)
    (rt_tasks x).
#[export] Instance put_rt_server_fd : Setter rt_server_fd := ltac:(mk_put eta_runtime rt_server_fd).
#[export] Instance put_rt_next_task_id : Setter rt_next_task_id := ltac:(mk_put eta_runtime rt_next_task_id).
#[export] Instance put_rt_next_client_generation : Setter rt_next_client_generation := ltac:(mk_put eta_runtime rt_next_client_generation).
#[export] Instance put_rt_outstanding_tasks : Setter rt_outstanding_tasks := ltac:(mk_put eta_runtime rt_outstanding_tasks).
#[export] Instance put_rt_outstanding_credit_tasks : Setter rt_outstanding_credit_tasks := ltac:(mk_put eta_runtime rt_outstanding_credit_tasks).
#[export] Instance put_rt_ring_capacity : Setter rt_ring_capacity := ltac:(mk_put eta_runtime rt_ring_capacity).
#[export] Instance put_rt_task_capacity : Setter rt_task_capacity := ltac:(mk_put eta_runtime rt_task_capacity).
#[export] Instance put_rt_dispatch_cursor : Setter rt_dispatch_cursor := ltac:(mk_put eta_runtime rt_dispatch_cursor).
#[export] Instance put_rt_client_output_capacity : Setter rt_client_output_capacity := ltac:(mk_put eta_runtime rt_client_output_capacity).
#[export] Instance put_rt_registered_file_capacity : Setter rt_registered_file_capacity := ltac:(mk_put eta_runtime rt_registered_file_capacity).
#[export] Instance put_rt_registered_buffer_capacity : Setter rt_registered_buffer_capacity := ltac:(mk_put eta_runtime rt_registered_buffer_capacity).
#[export] Instance put_rt_per_client_credit_limit : Setter rt_per_client_credit_limit := ltac:(mk_put eta_runtime rt_per_client_credit_limit).
#[export] Instance put_rt_accepted_submits : Setter rt_accepted_submits := ltac:(mk_put eta_runtime rt_accepted_submits).
#[export] Instance put_rt_rejected_submits : Setter rt_rejected_submits := ltac:(mk_put eta_runtime rt_rejected_submits).
#[export] Instance put_rt_completions : Setter rt_completions := ltac:(mk_put eta_runtime rt_completions).
#[export] Instance put_rt_next_trace_sequence : Setter rt_next_trace_sequence := ltac:(mk_put eta_runtime rt_next_trace_sequence).
#[export] Instance put_rt_trace_count : Setter rt_trace_count := ltac:(mk_put eta_runtime rt_trace_count).
#[export] Instance put_rt_limits : Setter rt_limits := ltac:(mk_put eta_runtime rt_limits).
#[export] Instance put_rt_storage : Setter rt_storage := ltac:(mk_put eta_runtime rt_storage).
#[export] Instance put_rt_capabilities : Setter rt_capabilities := ltac:(mk_put eta_runtime rt_capabilities).
#[export] Instance put_rt_ring : Setter rt_ring := ltac:(mk_put eta_runtime rt_ring).
#[export] Instance put_rt_trace_events : Setter rt_trace_events := ltac:(mk_put eta_runtime rt_trace_events).
#[export] Instance put_rt_clients : Setter rt_clients := ltac:(mk_put eta_runtime rt_clients).
#[export] Instance put_rt_tasks : Setter rt_tasks := ltac:(mk_put eta_runtime rt_tasks).

(** The daemon and the world it runs in; [s_closed] is the record of the file
    descriptors passed to [close], in order. *)
Record sys (W : Type) := mk_sys {
  s_rt : runtime;
  s_world : W;
  s_closed : list Z;
}.
Arguments mk_sys {W}.
Arguments s_rt {W}.
Arguments s_world {W}.
Arguments s_closed {W}.
Definition eta_sys {W} (x : sys W) : sys W := mk_sys (s_rt x) (s_world x) (s_closed x).
#[export] Instance put_s_rt {W} : Setter (@s_rt W) := fun v x => mk_sys v (s_world x) (s_closed x).
#[export] Instance put_s_world {W} : Setter (@s_world W) := fun v x => mk_sys (s_rt x) v (s_closed x).
#[export] Instance put_s_closed {W} : Setter (@s_closed W) := fun v x => mk_sys (s_rt x) (s_world x) v.

(** ** Initialisation and reset *)

(** [memset(request, 0, sizeof *request)] *)
Definition submit_request_zero : submit_request := wire_build [].
Definition trace_event_zero : trace_event := wire_build [].
Definition capability_zero : capability_descriptor := wire_build [].
#[export] Instance trace_event_inhabited : Inhabited trace_event := populate trace_event_zero.

Definition iouringd_init_limits : iouringd_limits :=
  mk_iouringd_limits (Z.of_nat IOURINGD_MAX_CLIENTS) (Z.of_nat IOURINGD_MAX_REGISTERED_FDS)
    IOURINGD_DEFAULT_REGISTERED_BUFFERS (Z.of_nat IOURINGD_MAX_TASKS)
    (Z.of_nat IOURINGD_MAX_IO_BYTES) IOURINGD_DEFAULT_RING_ENTRIES.

Definition iouringd_reset_client_input (b : inbuf) : inbuf :=
  b <| input_len := 0 |> <| expected_input := Z.of_nat (wire_size submit_request) |>.

Definition file_slot_free : resource_slot :=
  mk_resource_slot IOURINGD_RESOURCE_ID_INVALID (-1) 0 false false.
Definition buffer_slot_free : buffer_slot :=
  mk_buffer_slot IOURINGD_RESOURCE_ID_INVALID 0 false false 0.
#[export] Instance resource_slot_inhabited : Inhabited resource_slot := populate file_slot_free.
#[export] Instance buffer_slot_inhabited : Inhabited buffer_slot := populate buffer_slot_free.

Definition iouringd_init_client_resources (c : client) : client :=
  c <| c_received_fd := -1 |>
    <| c_req := c_req c <| poll_mask := 0 |> |>
    <| c_res := c_res c <| next_resource_id := 1 |>
                        <| outstanding_tasks := 0 |>
                        <| outstanding_credit_tasks := 0 |>
                        <| file_resources := replicate IOURINGD_MAX_REGISTERED_FDS file_slot_free |>
                        <| buffer_resources :=
                             replicate IOURINGD_MAX_REGISTERED_BUFFERS buffer_slot_free |> |>.

(** The request fields after [iouringd_close_client] or [iouringd_open_client]. *)
Definition client_request_zero : client_request :=
  mk_client_request false submit_request_zero 0 0 IOURINGD_TASK_ID_INVALID
    IOURINGD_RESOURCE_ID_INVALID IOURINGD_RESOURCE_ID_INVALID 0 (-1) 0 0 0 0 0
    (replicate IOURINGD_MAX_IO_BYTES 0).

Definition mark_file_closing (s : resource_slot) : resource_slot :=
  if rs_registered s then s <| rs_closing := true |> else s.
Definition mark_buffer_closing (s : buffer_slot) : buffer_slot :=
  if bs_registered s then s <| bs_closing := true |> else s.

(** [if (fd >= 0) close(fd);] *)
Definition close_if_open (fd : Z) : list Z := if 0 <=? fd then [fd] else [].

(** The client after the close, and the descriptors it closed. *)
Definition iouringd_close_client (c : client) : client * list Z :=
  let c' :=
    c <| c_fd := -1 |>
      <| c_out := mk_outbuf [] 0 0 0 |>
      <| c_close_after_flush := false |>
      <| c_received_fd := if 0 <=? c_received_fd c then -1 else c_received_fd c |>
      <| c_res := c_res c <| file_resources := mark_file_closing <$> file_resources (c_res c) |>
                          <| buffer_resources := mark_buffer_closing <$> buffer_resources (c_res c) |> |>
      <| c_phase := IOURINGD_CLIENT_PHASE_HANDSHAKE |>
      <| c_req := client_request_zero |>
      <| c_in := iouringd_reset_client_input
                   (c_in c <| input := replicate IOURINGD_MAX_REQUEST_BYTES 0 |>) |> in
  (c', close_if_open (c_fd c) ++ close_if_open (c_received_fd c)).

Definition iouringd_clear_task_slot : task_slot :=
  mk_task_slot false false 0 0 0 0 0 (-1) (-1) (-1) (0, 0) 0 0 0 0 0 (-1) 0 0 0 0 0
    (replicate IOURINGD_MAX_IO_BYTES 0).
#[export] Instance task_slot_inhabited : Inhabited task_slot := populate iouringd_clear_task_slot.

(** [memset(runtime, 0, sizeof *runtime)] for one client. *)
Definition client_zero : client :=
  mk_client 0 0 IOURINGD_CLIENT_PHASE_HANDSHAKE false 0 0
    (mk_inbuf 0 0 (replicate IOURINGD_MAX_REQUEST_BYTES 0))
    (mk_outbuf [] 0 0 0)
    (client_request_zero <| close_fd := 0 |>)
    (mk_client_resources 0 0 0 0 0
       (replicate IOURINGD_MAX_REGISTERED_FDS (file_slot_free <| rs_daemon_fd := 0 |>))
       (replicate IOURINGD_MAX_REGISTERED_BUFFERS buffer_slot_free)).
#[export] Instance client_inhabited : Inhabited client := populate client_zero.

Definition init_client : client :=
  let c := iouringd_init_client_resources (client_zero <| c_fd := -1 |>) in
  c <| c_in := iouringd_reset_client_input (c_in c) |>
    <| c_res := c_res c <| file_slot_limit := Z.of_nat IOURINGD_MAX_REGISTERED_FDS |>
                        <| buffer_slot_limit := Z.of_nat IOURINGD_MAX_REGISTERED_BUFFERS |> |>
    <| c_io_bytes_max := Z.of_nat IOURINGD_MAX_IO_BYTES |>.

Definition ring_zero : ring := mk_ring (-1) 0 0 0 0 0 0 [] [] 0 0 0 [].

Definition iouringd_init_runtime : runtime :=
  mk_runtime (-1) 1 0 0 0 0 0 0 0 0 0 0 0 0 0 1 0 iouringd_init_limits []
    capability_zero ring_zero
    (replicate IOURINGD_TRACE_CAPACITY trace_event_zero)
    (replicate IOURINGD_MAX_CLIENTS init_client)
    (replicate IOURINGD_MAX_TASKS iouringd_clear_task_slot).
