(* ===== verification/Output.v ===== *)
(** * A client's output buffer

    Models [iouringd_queue_client_output] and [iouringd_flush_client_output] of
    [src/daemon/main.c]: a byte array with a window of unsent bytes, compacted
    before each append.  The abstract specification is a byte queue of bounded
    length; the theorems show that the two functions implement it. *)

From S2P Require Import Prelude Wire Kernel State.

(** The compaction before an append. *)
Definition compact_output (b : outbuf) : outbuf :=
  if output_sent b =? output_len b then
    b <| output_sent := 0 |> <| output_len := 0 |>
  else if negb (output_sent b =? 0) then
    let rest := slice (Z.to_nat (output_sent b)) (Z.to_nat (output_len b - output_sent b))
                  (output b) in
    b <| output := blit 0 rest (output b) |>
      <| output_len := u64 (output_len b - output_sent b) |>
      <| output_sent := 0 |>
  else b.

Definition iouringd_queue_client_output (b : outbuf) (buf : bytes) : outcome unit * outbuf :=
  let b1 := compact_output b in
  if u64 (output_capacity b1 - output_len b1) <? Z.of_nat (length buf) then (Err EOVERFLOW, b1)
  else
    (Ok tt,
     b1 <| output := blit (Z.to_nat (output_len b1)) buf (output b1) |>
        <| output_len := u64 (output_len b1 + Z.of_nat (length buf)) |>).

(** The bytes queued and not yet written. *)
Definition output_pending (b : outbuf) : bytes :=
  slice (Z.to_nat (output_sent b)) (Z.to_nat (output_len b - output_sent b)) (output b).

Definition iouringd_client_has_output (b : outbuf) : bool := output_sent b <? output_len b.

Section Flush.
Context {W : Type} `{Kernel W}.

(** The loop; [fuel] bounds the number of writes. *)
Fixpoint flush_loop (fuel : nat) (w : W) (fd : Z) (b : outbuf) : outcome unit * outbuf * W :=
  match fuel with
  | O => (Ok tt, b, w)
  | S fuel' =>
      if output_sent b <? output_len b then
        let '(rc, w') := k_write w fd (output_pending b) in
        match rc with
        | Ok n =>
            if 0 <? n then flush_loop fuel' w' fd (b <| output_sent := u64 (output_sent b + n) |>)
            else (Err EPIPE, b, w')
        | Err e => if e =? EAGAIN then (Ok tt, b, w') else (Err e, b, w')
        end
      else (Ok tt, b <| output_len := 0 |> <| output_sent := 0 |>, w)
  end.

Definition iouringd_flush_client_output (w : W) (fd : Z) (b : outbuf)
    : outcome unit * outbuf * W :=
  flush_loop (S (Z.to_nat (output_len b - output_sent b))) w fd b.
End Flush.

(** The buffer's invariant: a window inside an array of its capacity. *)
Record outbuf_wf (b : outbuf) : Prop := {
  ow_window : 0 <= output_sent b <= output_len b;
  ow_len : output_len b <= output_capacity b;
  ow_capacity : output_capacity b < 2 ^ 64;
  ow_array : Z.of_nat (length (output b)) = output_capacity b;
}.

Lemma compact_output_spec b :
  outbuf_wf b ->
  outbuf_wf (compact_output b) /\ output_sent (compact_output b) = 0 /\
  output_capacity (compact_output b) = output_capacity b /\
  output_pending (compact_output b) = output_pending b /\
  output_len (compact_output b) = output_len b - output_sent b.
Proof.
  intros [Hw Hl Hc Ha]. unfold compact_output.
  destruct (output_sent b =? output_len b) eqn:E1; bool_hyps; cbn [negb].
  { split; [constructor; simpl; lia|]. split_and!; simpl; try lia.
    unfold output_pending, slice. simpl. by rewrite E1, !Z.sub_diag. }
  destruct (output_sent b =? 0) eqn:E2; bool_hyps; simpl.
  { split_and!; try lia; [by constructor|done]. }
  assert (Hs : length (slice (Z.to_nat (output_sent b)) (Z.to_nat (output_len b - output_sent b))
                         (output b)) = Z.to_nat (output_len b - output_sent b))
    by (apply length_slice; lia).
  rewrite u64_id by lia. split_and!; try done.
  - constructor; simpl; try lia. rewrite length_blit; lia.
  - unfold output_pending. simpl. rewrite Z.sub_0_r.
    rewrite <- Hs at 1. apply slice_blit_same. lia.
Qed.

Lemma length_output_pending b :
  outbuf_wf b -> Z.of_nat (length (output_pending b)) = output_len b - output_sent b.
Proof.
  intros [Hw Hl Hc Ha]. unfold output_pending. rewrite length_slice; lia.
Qed.

(** An append, on both branches. *)
Lemma queue_bytes b buf :
  outbuf_wf b ->
  let '(rc, b') := iouringd_queue_client_output b buf in
  outbuf_wf b' /\ output_capacity b' = output_capacity b /\
  match rc with
  | Ok _ =>
      Z.of_nat (length (output_pending b) + length buf) <= output_capacity b /\
      output_pending b' = output_pending b ++ buf
  | Err e =>
      e = EOVERFLOW /\ output_capacity b < Z.of_nat (length (output_pending b) + length buf) /\
      output_pending b' = output_pending b
  end.
Proof.
  intros Hb. destruct (compact_output_spec b Hb) as (Hb1 & Hs1 & Hc1 & Hp1 & Hl1).
  pose proof (length_output_pending _ Hb) as Hlen.
  unfold iouringd_queue_client_output. set (b1 := compact_output b) in *.
  destruct Hb1 as [Hw Hl Hc Ha].
  rewrite u64_id by lia. destruct (_ <? _) eqn:E; bool_hyps.
  { split_and!; try lia; [by constructor|done]. }
  rewrite u64_id by lia. split_and!; simpl; try lia.
  - constructor; simpl; try lia. rewrite length_blit; lia.
  - rewrite <- Hp1. unfold output_pending. simpl. rewrite Hs1, !Z.sub_0_r.
    unfold slice. rewrite !drop_0. rewrite Z2Nat.inj_add, Nat2Z.id by lia.
    apply take_blit. lia.
Qed.

(** C17: the output buffer implements a bounded byte queue: an append of [buf] succeeds
    exactly when the pending bytes and [buf] together fit the capacity; it then
    appends [buf] behind the pending bytes, and otherwise fails with
    [EOVERFLOW] leaving the pending bytes as they were.  The buffer stays
    well-formed, so the copies never leave the array. *)
Theorem queue_client_output_spec b buf :
  outbuf_wf b ->
  let '(rc, b') := iouringd_queue_client_output b buf in
  outbuf_wf b' /\ output_capacity b' = output_capacity b /\
  match rc with
  | Ok _ =>
      Z.of_nat (length (output_pending b) + length buf) <= output_capacity b /\
      output_pending b' = output_pending b ++ buf
  | Err e =>
      e = EOVERFLOW /\ output_capacity b < Z.of_nat (length (output_pending b) + length buf) /\
      output_pending b' = output_pending b
  end.
Proof. exact (queue_bytes b buf). Qed.

Section FlushTheory.
Context {W : Type} `{Kernel W}.

(** [write(2)] reports at most as many bytes as it was given. *)
Definition write_documented : Prop :=
  forall w fd buf n w', k_write w fd buf = (Ok n, w') -> n <= Z.of_nat (length buf).

Lemma output_pending_advance b n :
  outbuf_wf b -> 0 <= n <= output_len b - output_sent b ->
  let b' := b <| output_sent := u64 (output_sent b + n) |> in
  outbuf_wf b' /\ output_pending b' = drop (Z.to_nat n) (output_pending b).
Proof.
  intros [Hw Hl Hc Ha] Hn b'. unfold b'. rewrite u64_id by lia. split.
  - constructor; simpl; lia.
  - unfold output_pending, slice. simpl.
    replace (Z.to_nat (output_len b - output_sent b))
      with (Z.to_nat n + Z.to_nat (output_len b - (output_sent b + n)))%nat by lia.
    rewrite <- take_drop_commute, drop_drop. f_equal. f_equal. lia.
Qed.

(** The pending bytes [q] are offered to [write], which takes some of them, and again,
    until [q'] is pending. *)
Inductive written (fd : Z) : W -> bytes -> W -> bytes -> Prop :=
| written_none w q : written fd w q w q
| written_some w q n w1 w2 q' :
    k_write w fd q = (Ok n, w1) -> 0 < n -> written fd w1 (drop (Z.to_nat n) q) w2 q' -> written fd w q w2 q'.

(** How a flush ends, with [q] pending: nothing is left, the socket would block, or
    the last write failed. *)
Definition flush_end (rc : outcome unit) (fd : Z) (w1 : W) (q : bytes) (w2 : W) : Prop :=
  match rc with
  | Ok _ => (q = [] /\ w2 = w1) \/ (q <> [] /\ k_write w1 fd q = (Err EAGAIN, w2))
  | Err e =>
      q <> [] /\ ((e <> EAGAIN /\ k_write w1 fd q = (Err e, w2)) \/
                 (e = EPIPE /\ exists n, n <= 0 /\ k_write w1 fd q = (Ok n, w2)))
  end.

Lemma flush_loop_spec fuel w fd b :
  write_documented -> outbuf_wf b ->
  output_len b - output_sent b < Z.of_nat fuel ->
  let '(rc, b', w') := flush_loop fuel w fd b in
  outbuf_wf b' /\ output_capacity b' = output_capacity b /\
  exists w1, written fd w (output_pending b) w1 (output_pending b') /\ flush_end rc fd w1 (output_pending b') w'.
Proof.
  intros Hwr. revert w b. induction fuel as [|fuel IH]; intros w b Hb Hf.
  { destruct Hb as [Hw _ _ _]. lia. }
  pose proof (length_output_pending b Hb) as Hlen.
  cbn [flush_loop]. destruct (output_sent b <? output_len b) eqn:E; bool_hyps.
  2: { destruct Hb as [Hw Hl Hc Ha]. split_and!; simpl; try lia; [constructor; simpl; lia|].
       assert (Hp : output_pending b = []) by (apply length_zero_iff_nil; lia). rewrite Hp.
       exists w. split; [apply written_none|by left]. }
  assert (Hne : output_pending b <> []) by (intros Hp; rewrite Hp in Hlen; cbn in Hlen; lia).
  destruct (k_write w fd (output_pending b)) as [[n|e] w'] eqn:Ek.
  - destruct (0 <? n) eqn:En; bool_hyps.
    + pose proof (Hwr _ _ _ _ _ Ek) as Hn.
      destruct (output_pending_advance b n Hb ltac:(lia)) as [Hb' Hp'].
      assert (Hs' : u64 (output_sent b + n) = output_sent b + n) by (destruct Hb; apply u64_id; lia).
      specialize (IH w' (b <| output_sent := u64 (output_sent b + n) |>) Hb').
      cbn [output_len output_sent put put_output_sent] in IH. rewrite Hs' in IH, Hp' |- *.
      specialize (IH ltac:(lia)). cbn [put] in *.
      destruct (flush_loop _ _ _ _) as [[rc b2] w2]. destruct IH as (H1 & H2 & w3 & Hw & He).
      split_and!; [done|done|]. exists w3. split; [|done]. rewrite Hp' in Hw. by eapply written_some.
    + split_and!; [done|done|]. exists w. split; [apply written_none|]. split; [done|]. right. eauto.
  - destruct (e =? EAGAIN) eqn:Ee; bool_hyps; [subst e|]; (split_and!; [done|done|]; exists w; split; [apply written_none|]).
    + by right.
    + split; [done|by left].
Qed.

(** C18: a flush is a sequence of writes.  It hands all that is pending to [write] as long
    as something is, and forgets of it exactly the bytes each call took: from [w] the
    writes lead to [w1], with what they have left of the pending bytes still pending.
    It succeeds when nothing is left, or when the next write of the rest would block;
    it fails when that write failed, with its error, or took nothing, with [EPIPE].
    The buffer stays well-formed; the writes are bounded by the number of bytes. *)
Theorem flush_client_output_spec w fd b :
  write_documented -> outbuf_wf b ->
  let '(rc, b', w') := iouringd_flush_client_output w fd b in
  outbuf_wf b' /\ output_capacity b' = output_capacity b /\
  exists w1, written fd w (output_pending b) w1 (output_pending b') /\ flush_end rc fd w1 (output_pending b') w'.
Proof.
  intros Hwr Hb. apply flush_loop_spec; [done|done|].
  destruct Hb as [Hw _ _ _]. lia.
Qed.
End FlushTheory.

(** ** The hypotheses can hold *)

Definition small_output : outbuf := mk_outbuf [9; 1; 2; 0; 0; 0; 0; 0] 8 3 1.

Lemma small_output_wf : outbuf_wf small_output.
Proof. constructor; simpl; lia. Qed.

Lemma queue_client_output_spec_witness :
  outbuf_wf small_output /\
  exists b', iouringd_queue_client_output small_output [5; 6] = (Ok tt, b') /\
             output_pending b' = [1; 2; 5; 6].
Proof.
  split; [exact small_output_wf|].
  pose proof (queue_client_output_spec small_output [5; 6] small_output_wf) as (_ & _ & _ & H).
  eexists. split; [reflexivity|exact H].
Defined.

(** A kernel whose [write] takes one byte and then would block. *)
Definition slow_write : script := quiet <| sc_write := [Ok 1; Err EAGAIN] |>.

Lemma script_write_documented : write_documented (W := script).
Proof.
  intros w fd buf n w' E. cbn in E.
  destruct (sc_write w) as [|[m|e] rest]; simplify_eq; lia.
Qed.

Lemma flush_client_output_spec_witness :
  exists b' w', iouringd_flush_client_output slow_write 7 small_output = (Ok tt, b', w') /\
    output_pending b' = [2] /\ outbuf_wf b' /\
    exists w1, written 7 slow_write [1; 2] w1 [2] /\ k_write w1 7 [2] = (Err EAGAIN, w').
Proof.
  pose proof (flush_client_output_spec (W := script) slow_write 7 small_output
                script_write_documented small_output_wf) as H.
  eexists _, _. split; [reflexivity|]. split; [reflexivity|].
  destruct H as (Hb & _ & w1 & Hw & [[He _]|[_ He]]); [discriminate He|].
  split; [exact Hb|]. exists w1. split; [exact Hw|exact He].
Defined.
