(* ===== verification/Resources.v ===== *)
(** * A client's resource tables

    Models the slot functions of [src/daemon/main.c]: counting, finding and
    clearing the file and buffer slots of a client, the test whether a slot
    table is still in use, and the allocation of resource ids. *)

From S2P Require Import Prelude Wire Kernel State.

(** The slots the limits make available. *)
Definition file_slots (a : client_resources) : list resource_slot :=
  take (Z.to_nat (file_slot_limit a)) (file_resources a).
Definition buffer_slots (a : client_resources) : list buffer_slot :=
  take (Z.to_nat (buffer_slot_limit a)) (buffer_resources a).

Definition file_slot_is_free (s : resource_slot) : bool :=
  negb (rs_registered s) && negb (rs_closing s) && (rs_in_flight s =? 0).
Definition buffer_slot_is_free (s : buffer_slot) : bool :=
  negb (bs_registered s) && negb (bs_closing s) && (bs_in_flight s =? 0).

Definition iouringd_available_file_slots (a : client_resources) : Z :=
  countz file_slot_is_free (file_slots a).
Definition iouringd_available_buffer_slots (a : client_resources) : Z :=
  countz buffer_slot_is_free (buffer_slots a).

Definition iouringd_find_free_file_slot (a : client_resources) : option nat :=
  find_index file_slot_is_free (file_slots a).
Definition iouringd_find_free_buffer_slot (a : client_resources) : option nat :=
  find_index buffer_slot_is_free (buffer_slots a).

Definition iouringd_find_file_slot (a : client_resources) (id : Z) : option nat :=
  find_index (fun s => rs_registered s && (rs_resource_id s =? id)) (file_slots a).
Definition iouringd_find_buffer_slot (a : client_resources) (id : Z) : option nat :=
  find_index (fun s => bs_registered s && (bs_resource_id s =? id)) (buffer_slots a).

Definition iouringd_resource_id_in_use (a : client_resources) (id : Z) : bool :=
  existsb (fun s => (rs_registered s && (rs_resource_id s =? id)) ||
                    ((rs_resource_id s =? id) &&
                     (negb (rs_in_flight s =? 0) || rs_closing s))) (file_slots a) ||
  existsb (fun s => (bs_registered s && (bs_resource_id s =? id)) ||
                    ((bs_resource_id s =? id) &&
                     (negb (bs_in_flight s =? 0) || bs_closing s))) (buffer_slots a).

Definition iouringd_client_has_retained_resources (a : client_resources) : bool :=
  existsb (fun s => rs_registered s || rs_closing s || negb (rs_in_flight s =? 0))
    (file_slots a) ||
  existsb (fun s => bs_registered s || bs_closing s || negb (bs_in_flight s =? 0))
    (buffer_slots a).

(** The cleared slot and the descriptors closed with it. *)
Definition iouringd_clear_file_slot (s : resource_slot) : resource_slot * list Z :=
  (file_slot_free, close_if_open (rs_daemon_fd s)).
Definition iouringd_clear_buffer_slot (s : buffer_slot) : buffer_slot := buffer_slot_free.

Fixpoint allocate_loop (attempts : nat) (a : client_resources) : Z * client_resources :=
  match attempts with
  | O => (IOURINGD_RESOURCE_ID_INVALID, a)
  | S n =>
      let candidate := next_resource_id a in
      let a' := a <| next_resource_id := u32 (next_resource_id a + 1) |> in
      if candidate =? IOURINGD_RESOURCE_ID_INVALID then allocate_loop n a'
      else if negb (iouringd_resource_id_in_use a' candidate) then (candidate, a')
      else allocate_loop n a'
  end.

Definition iouringd_allocate_resource_id (a : client_resources) : Z * client_resources :=
  allocate_loop (Z.to_nat (u32 (file_slot_limit a + buffer_slot_limit a))) a.

Definition iouringd_unallocate_resource_id (a : client_resources) (id : Z) : client_resources :=
  if negb (id =? IOURINGD_RESOURCE_ID_INVALID) then a <| next_resource_id := id |> else a.

(** ** Finding *)

Lemma file_slots_lookup a j s :
  file_slots a !! j = Some s <->
  (j < Z.to_nat (file_slot_limit a))%nat /\ file_resources a !! j = Some s.
Proof. apply lookup_take_Some. Qed.

Lemma buffer_slots_lookup a j s :
  buffer_slots a !! j = Some s <->
  (j < Z.to_nat (buffer_slot_limit a))%nat /\ buffer_resources a !! j = Some s.
Proof. apply lookup_take_Some. Qed.

Lemma find_free_file_slot_Some a j :
  iouringd_find_free_file_slot a = Some j ->
  exists s, file_resources a !! j = Some s /\ (j < Z.to_nat (file_slot_limit a))%nat /\
            rs_registered s = false /\ rs_closing s = false /\ rs_in_flight s = 0.
Proof.
  intros E. apply find_index_Some in E as (s & Hs & Hp & _).
  apply file_slots_lookup in Hs as [Hj Hs]. unfold file_slot_is_free in Hp. bool_hyps. eauto 10.
Qed.

Lemma find_free_buffer_slot_Some a j :
  iouringd_find_free_buffer_slot a = Some j ->
  exists s, buffer_resources a !! j = Some s /\ (j < Z.to_nat (buffer_slot_limit a))%nat /\
            bs_registered s = false /\ bs_closing s = false /\ bs_in_flight s = 0.
Proof.
  intros E. apply find_index_Some in E as (s & Hs & Hp & _).
  apply buffer_slots_lookup in Hs as [Hj Hs]. unfold buffer_slot_is_free in Hp. bool_hyps. eauto 10.
Qed.

Lemma find_file_slot_Some a id j :
  iouringd_find_file_slot a id = Some j ->
  exists s, file_resources a !! j = Some s /\ (j < Z.to_nat (file_slot_limit a))%nat /\
            rs_registered s = true /\ rs_resource_id s = id.
Proof.
  intros E. apply find_index_Some in E as (s & Hs & Hp & _).
  apply file_slots_lookup in Hs as [Hj Hs]. bool_hyps. eauto 10.
Qed.

Lemma find_buffer_slot_Some a id j :
  iouringd_find_buffer_slot a id = Some j ->
  exists s, buffer_resources a !! j = Some s /\ (j < Z.to_nat (buffer_slot_limit a))%nat /\
            bs_registered s = true /\ bs_resource_id s = id.
Proof.
  intros E. apply find_index_Some in E as (s & Hs & Hp & _).
  apply buffer_slots_lookup in Hs as [Hj Hs]. bool_hyps. eauto 10.
Qed.

(** ** Allocation of resource ids *)

(** The ids of the slots in use. *)
Definition used_ids (a : client_resources) : list Z :=
  (rs_resource_id <$> filter (fun s => file_slot_is_free s = false) (file_slots a)) ++
  (bs_resource_id <$> filter (fun s => buffer_slot_is_free s = false) (buffer_slots a)).

Lemma existsb_lookup {A} (p : A -> bool) l :
  existsb p l = true <-> exists x, x ∈ l /\ p x = true.
Proof.
  rewrite existsb_exists. split; intros (x & Hx & Hp); exists x; split; try done;
    by apply list_elem_of_In.
Qed.

Lemma resource_id_in_use_spec a id :
  iouringd_resource_id_in_use a id = true <-> id ∈ used_ids a.
Proof.
  unfold iouringd_resource_id_in_use, used_ids.
  rewrite orb_true_iff, !existsb_lookup, elem_of_app, !list_elem_of_fmap.
  split; (intros [(s & H1 & H2)|(s & H1 & H2)]; [left|right]); exists s.
  - unfold file_slot_is_free. rewrite list_elem_of_filter.
    destruct (rs_registered s), (rs_closing s), (rs_in_flight s =? 0); simpl in *;
      rewrite ?andb_false_r in H2; try discriminate; rewrite ?orb_false_r in H2;
      repeat split; try done; lia.
  - unfold buffer_slot_is_free. rewrite list_elem_of_filter.
    destruct (bs_registered s), (bs_closing s), (bs_in_flight s =? 0); simpl in *;
      rewrite ?andb_false_r in H2; try discriminate; rewrite ?orb_false_r in H2;
      repeat split; try done; lia.
  - apply list_elem_of_filter in H2 as [H2 H3]. split; [done|]. unfold file_slot_is_free in H2.
    rewrite H1, Z.eqb_refl.
    destruct (rs_registered s), (rs_closing s), (rs_in_flight s =? 0); done.
  - apply list_elem_of_filter in H2 as [H2 H3]. split; [done|]. unfold buffer_slot_is_free in H2.
    rewrite H1, Z.eqb_refl.
    destruct (bs_registered s), (bs_closing s), (bs_in_flight s =? 0); done.
Qed.

(** Whatever the state, an id that is returned is not the invalid one and is
    not in use; the allocation changes nothing but the next candidate. *)
Lemma allocate_loop_fresh n a id a' :
  allocate_loop n a = (id, a') ->
  (exists v, a' = a <| next_resource_id := v |>) /\
  (id <> IOURINGD_RESOURCE_ID_INVALID -> iouringd_resource_id_in_use a id = false).
Proof.
  revert a. induction n as [|n IH]; intros a E; simpl in E.
  { injection E as <- <-. split; [|done]. exists (next_resource_id a). by destruct a. }
  destruct (next_resource_id a =? IOURINGD_RESOURCE_ID_INVALID) eqn:E0.
  { apply IH in E as [[v ->] Hf]. split; [by exists v|]. exact Hf. }
  destruct (iouringd_resource_id_in_use _ _) eqn:E1; simpl in E.
  { apply IH in E as [[v ->] Hf]. split; [by exists v|]. exact Hf. }
  injection E as <- <-. split; [eexists; reflexivity|]. intros _. exact E1.
Qed.

Lemma in_use_next a v id :
  iouringd_resource_id_in_use (a <| next_resource_id := v |>) id = iouringd_resource_id_in_use a id.
Proof. reflexivity. Qed.

(** If the allocation fails, every candidate it tried was in use. *)
Lemma allocate_loop_fails n a id a' :
  1 <= next_resource_id a -> next_resource_id a + Z.of_nat n <= 2 ^ 32 ->
  allocate_loop n a = (id, a') -> id = IOURINGD_RESOURCE_ID_INVALID ->
  forall k, (k < n)%nat ->
  iouringd_resource_id_in_use a (next_resource_id a + Z.of_nat k) = true.
Proof.
  revert a. induction n as [|n IH]; intros a H1 H2 E Eid k Hk; [lia|]. simpl in E.
  destruct (next_resource_id a =? IOURINGD_RESOURCE_ID_INVALID) eqn:E0;
    unfold IOURINGD_RESOURCE_ID_INVALID in *; bool_hyps; [lia|].
  destruct (iouringd_resource_id_in_use _ (next_resource_id a)) eqn:E1; simpl in E.
  2: { injection E as <- <-. lia. }
  destruct k as [|k]; [rewrite Z.add_0_r; exact E1|].
  destruct (decide (n = 0)%nat) as [->|Hn]; [lia|].
  rewrite u32_id in E by lia.
  specialize (IH (a <| next_resource_id := next_resource_id a + 1 |>)). simpl in IH.
  specialize (IH ltac:(lia) ltac:(lia) E Eid k ltac:(lia)).
  replace (next_resource_id a + Z.of_nat (S k)) with (next_resource_id a + 1 + Z.of_nat k) by lia.
  exact IH.
Qed.

Lemma length_filter_lt {A} (P : A -> Prop) `{!forall x, Decision (P x)} (l : list A) x :
  x ∈ l -> ~ P x -> (length (filter P l) < length l)%nat.
Proof.
  intros Hx Hp. induction l as [|y l IH]; [by apply not_elem_of_nil in Hx|].
  pose proof (length_filter P l). rewrite filter_cons.
  apply elem_of_cons in Hx as [->|Hx].
  - destruct (decide (P y)); [done|]. simpl. lia.
  - specialize (IH Hx). destruct (decide (P y)); simpl; lia.
Qed.

Lemma length_used_ids a :
  (length (used_ids a) <= length (file_slots a) + length (buffer_slots a))%nat.
Proof.
  unfold used_ids. rewrite length_app, !length_fmap.
  pose proof (length_filter (fun s => file_slot_is_free s = false) (file_slots a)).
  pose proof (length_filter (fun s => buffer_slot_is_free s = false) (buffer_slots a)). lia.
Qed.

Lemma length_used_ids_free a :
  (exists s, s ∈ file_slots a /\ file_slot_is_free s = true) \/
  (exists s, s ∈ buffer_slots a /\ buffer_slot_is_free s = true) ->
  (length (used_ids a) < length (file_slots a) + length (buffer_slots a))%nat.
Proof.
  unfold used_ids. rewrite length_app, !length_fmap.
  pose proof (length_filter (fun s => file_slot_is_free s = false) (file_slots a)).
  pose proof (length_filter (fun s => buffer_slot_is_free s = false) (buffer_slots a)).
  intros [(s & Hs & Hf)|(s & Hs & Hf)].
  - pose proof (length_filter_lt (fun s => file_slot_is_free s = false) (file_slots a) s Hs
                  ltac:(simpl; congruence)). lia.
  - pose proof (length_filter_lt (fun s => buffer_slot_is_free s = false) (buffer_slots a) s Hs
                  ltac:(simpl; congruence)). lia.
Qed.

(** C24: a resource id handed out is never one in use: whatever [next_resource_id] is, also
    after it wrapped, the allocation returns the invalid id or an id no
    registered, in-flight or closing slot of the client has, and changes nothing
    but the counter.  While the counter does not wrap during the search, a
    client with a free slot always gets an id: the search tries more candidates
    than there are slots in use. *)
Theorem allocate_resource_id_spec a id a' :
  0 <= file_slot_limit a <= Z.of_nat IOURINGD_MAX_REGISTERED_FDS ->
  0 <= buffer_slot_limit a <= Z.of_nat IOURINGD_MAX_REGISTERED_BUFFERS ->
  iouringd_allocate_resource_id a = (id, a') ->
  (exists v, a' = a <| next_resource_id := v |>) /\
  (id <> IOURINGD_RESOURCE_ID_INVALID -> id ∉ used_ids a) /\
  (is_Some (iouringd_find_free_file_slot a) \/ is_Some (iouringd_find_free_buffer_slot a) ->
   1 <= next_resource_id a ->
   next_resource_id a + file_slot_limit a + buffer_slot_limit a <= 2 ^ 32 ->
   id <> IOURINGD_RESOURCE_ID_INVALID).
Proof.
  intros Hf Hb E. unfold iouringd_allocate_resource_id in E.
  unfold IOURINGD_MAX_REGISTERED_FDS, IOURINGD_MAX_REGISTERED_BUFFERS in *.
  rewrite u32_id in E by lia. destruct (allocate_loop_fresh _ _ _ _ E) as [Hv Hfresh].
  split; [exact Hv|]. split.
  { intros Hne Hin. apply resource_id_in_use_spec in Hin. rewrite Hfresh in Hin; done. }
  intros Hfree H1 H2 Eid.
  pose proof (allocate_loop_fails (Z.to_nat (file_slot_limit a + buffer_slot_limit a))
                a id a' H1 ltac:(lia) E Eid) as Hall.
  set (n := Z.to_nat (file_slot_limit a + buffer_slot_limit a)) in *.
  set (cands := (fun k => next_resource_id a + Z.of_nat k) <$> seq 0 n).
  assert (Hnd : NoDup cands).
  { apply NoDup_fmap; [|apply NoDup_seq]. intros x y Hxy. simpl in Hxy. lia. }
  assert (Hincl : cands ⊆ used_ids a).
  { intros x Hx. apply list_elem_of_fmap in Hx as (k & -> & Hk). apply elem_of_seq in Hk.
    apply resource_id_in_use_spec, Hall. lia. }
  pose proof (submseteq_length _ _ (NoDup_submseteq _ _ Hnd Hincl)) as Hlen.
  unfold cands in Hlen. rewrite length_fmap, length_seq in Hlen.
  assert (length (file_slots a) <= Z.to_nat (file_slot_limit a))%nat
    by (unfold file_slots; rewrite length_take; lia).
  assert (length (buffer_slots a) <= Z.to_nat (buffer_slot_limit a))%nat
    by (unfold buffer_slots; rewrite length_take; lia).
  enough (length (used_ids a) < length (file_slots a) + length (buffer_slots a))%nat by lia.
  apply length_used_ids_free. destruct Hfree as [[j Hj]|[j Hj]]; [left|right];
    apply find_index_Some in Hj as (s & Hs & Hp & _); exists s; split; try done;
    by eapply list_elem_of_lookup_2.
Qed.

(** ** The hypotheses can hold *)

Definition one_file_client : client_resources :=
  mk_client_resources 0 0 2 1 3
    [mk_resource_slot 3 7 0 true false; file_slot_free] [buffer_slot_free].

Lemma allocate_resource_id_spec_witness :
  exists a', iouringd_allocate_resource_id one_file_client = (4, a') /\ 4 ∉ used_ids one_file_client.
Proof.
  eexists. split; [reflexivity|].
  refine (proj1 (proj2 (allocate_resource_id_spec one_file_client 4 _ _ _ eq_refl)) _);
    vm_compute; [split; congruence|split; congruence|congruence].
Defined.
