(* ===== verification/Trace.v ===== *)
(** * The trace ring

    Models [iouringd_trace_oldest_sequence], [iouringd_monotonic_nsec],
    [iouringd_emit_trace_event] (the record; its stderr line is not modelled)
    and the selection of events by [iouringd_queue_trace_result] of
    [src/daemon/main.c].  The theorems show that the ring holds the most recent
    events under consecutive sequence numbers, and that a query returns the
    retained events after a sequence number, oldest first and without gaps. *)

From S2P Require Import Prelude Wire Kernel State.

Definition iouringd_trace_oldest_sequence (rt : runtime) : Z :=
  if rt_trace_count rt =? 0 then 0
  else u64 (rt_next_trace_sequence rt - rt_trace_count rt).

Definition iouringd_monotonic_nsec (ts : option (Z * Z)) : Z :=
  match ts with
  | None => 0
  | Some (sec, nsec) => u64 (u64 (u64 sec * 1000000000) + u64 nsec)
  end.

Definition trace_slot (sequence : Z) : nat :=
  Z.to_nat (u64 (sequence - 1) mod Z.of_nat IOURINGD_TRACE_CAPACITY).

(** The event is recorded at the given time. *)
Definition iouringd_emit_trace_event (now : Z) (client_index : nat)
    (event_kind task_kind submit_priority task_id resource_id res credits : Z)
    (rt : runtime) : runtime :=
  let sequence := rt_next_trace_sequence rt in
  let event := mk_trace_event sequence now task_id resource_id res credits event_kind task_kind
                 (u16 (Z.of_nat client_index)) submit_priority 0 in
  rt <| rt_next_trace_sequence := u64 (sequence + 1) |>
     <| rt_trace_events := <[trace_slot sequence := event]> (rt_trace_events rt) |>
     <| rt_trace_count := if rt_trace_count rt <? Z.of_nat IOURINGD_TRACE_CAPACITY
                          then u32 (rt_trace_count rt + 1) else rt_trace_count rt |>.

Definition trace_latest_sequence (rt : runtime) : Z :=
  if rt_next_trace_sequence rt =? 0 then 0 else u64 (rt_next_trace_sequence rt - 1).

(** The first sequence number a query after [after] looks at. *)
Definition trace_start (rt : runtime) (after : Z) : Z :=
  let sequence := u64 (after + 1) in
  if sequence <? iouringd_trace_oldest_sequence rt then iouringd_trace_oldest_sequence rt
  else sequence.

(** [while (sequence <= latest && emitted < max) { emitted++; sequence++; }]:
    at most [max] rounds. *)
Fixpoint trace_count_loop (rounds : nat) (sequence latest emitted : Z) : Z :=
  match rounds with
  | O => emitted
  | S n => if sequence <=? latest
           then trace_count_loop n (u64 (sequence + 1)) latest (u32 (emitted + 1))
           else emitted
  end.

Definition trace_emitted (rt : runtime) (after max : Z) : Z :=
  let latest := trace_latest_sequence rt in
  if negb (max =? 0) && negb (rt_trace_count rt =? 0) && (after <? latest)
  then trace_count_loop (Z.to_nat max) (trace_start rt after) latest 0
  else 0.

Definition trace_header (rt : runtime) (after max : Z) : trace_result :=
  mk_trace_result (iouringd_trace_oldest_sequence rt) (trace_latest_sequence rt)
    (trace_emitted rt after max) 0.

(** The second loop: the events copied out, [count] rounds at most. *)
Fixpoint trace_events_loop (count : nat) (rt : runtime) (sequence latest : Z) : list trace_event :=
  match count with
  | O => []
  | S n => if sequence <=? latest
           then (rt_trace_events rt !!! trace_slot sequence)
                  :: trace_events_loop n rt (u64 (sequence + 1)) latest
           else []
  end.

Definition trace_selected (rt : runtime) (after max : Z) : list trace_event :=
  let emitted := trace_emitted rt after max in
  if emitted =? 0 then []
  else trace_events_loop (Z.to_nat emitted) rt (trace_start rt after) (trace_latest_sequence rt).

(** ** Invariant *)

(** Sequence numbers start at 1 and have not exhausted 64 bits; the ring holds
    the last [IOURINGD_TRACE_CAPACITY] events, each where its number says. *)
Record trace_wf (rt : runtime) : Prop := {
  tw_length : length (rt_trace_events rt) = IOURINGD_TRACE_CAPACITY;
  tw_next : 1 <= rt_next_trace_sequence rt < 2 ^ 64;
  tw_count : rt_trace_count rt =
             Z.min (rt_next_trace_sequence rt - 1) (Z.of_nat IOURINGD_TRACE_CAPACITY);
  tw_events q :
    rt_next_trace_sequence rt - rt_trace_count rt <= q < rt_next_trace_sequence rt ->
    te_sequence (rt_trace_events rt !!! trace_slot q) = q;
}.

Lemma trace_slot_lt q : (trace_slot q < IOURINGD_TRACE_CAPACITY)%nat.
Proof.
  unfold trace_slot, IOURINGD_TRACE_CAPACITY.
  pose proof (Z.mod_pos_bound (u64 (q - 1)) 256 ltac:(lia)). lia.
Qed.

Lemma trace_slot_inj q q' :
  1 <= q < 2 ^ 64 -> 1 <= q' < 2 ^ 64 -> 0 < q' - q < 256 -> trace_slot q <> trace_slot q'.
Proof.
  unfold trace_slot, IOURINGD_TRACE_CAPACITY. intros H H' Hd E. rewrite !u64_id in E by lia.
  change (Z.of_nat 256) with 256 in E.
  pose proof (Z.mod_pos_bound (q - 1) 256 ltac:(lia)).
  pose proof (Z.mod_pos_bound (q' - 1) 256 ltac:(lia)).
  pose proof (Z.div_mod (q - 1) 256 ltac:(lia)). pose proof (Z.div_mod (q' - 1) 256 ltac:(lia)).
  lia.
Qed.

Lemma emit_trace_event_wf now ci ek tk sp tid rid res cr rt :
  trace_wf rt -> rt_next_trace_sequence rt + 1 < 2 ^ 64 ->
  trace_wf (iouringd_emit_trace_event now ci ek tk sp tid rid res cr rt).
Proof.
  intros [Hl Hn Hc He] Hlt. unfold IOURINGD_TRACE_CAPACITY in *.
  assert (Hslot : (trace_slot (rt_next_trace_sequence rt) < length (rt_trace_events rt))%nat)
    by (rewrite Hl; apply trace_slot_lt).
  constructor; simpl; rewrite ?length_insert; rewrite ?u64_id by lia; [done|lia| |].
  - unfold IOURINGD_TRACE_CAPACITY. change (Z.of_nat 256) with 256 in *.
    destruct (rt_trace_count rt <? 256) eqn:E; bool_hyps; [rewrite u32_id by lia|]; lia.
  - intros q Hq. destruct (decide (q = rt_next_trace_sequence rt)) as [->|Hne].
    { rewrite insert_total_eq by done. reflexivity. }
    assert (Hq' : rt_next_trace_sequence rt - rt_trace_count rt <= q /\
                  rt_next_trace_sequence rt - 256 < q < rt_next_trace_sequence rt).
    { unfold IOURINGD_TRACE_CAPACITY in Hq. change (Z.of_nat 256) with 256 in *.
      destruct (rt_trace_count rt <? 256) eqn:E; bool_hyps; rewrite ?u32_id in Hq by lia; lia. }
    rewrite insert_total_ne by (apply not_eq_sym, trace_slot_inj; lia). apply He. lia.
Qed.

Lemma trace_count_loop_spec n q latest emitted :
  0 <= emitted -> emitted + Z.of_nat n < 2 ^ 32 -> 1 <= q -> latest < 2 ^ 64 - 1 ->
  trace_count_loop n q latest emitted = emitted + Z.max 0 (Z.min (Z.of_nat n) (latest - q + 1)).
Proof.
  revert q emitted. induction n as [|n IH]; intros q emitted H0 H1 H2 H3; cbn [trace_count_loop].
  { lia. }
  destruct (q <=? latest) eqn:E; bool_hyps; [|lia].
  rewrite u64_id, u32_id by lia. rewrite IH; lia.
Qed.

Lemma trace_events_loop_spec n rt q latest :
  trace_wf rt -> latest = rt_next_trace_sequence rt - 1 ->
  rt_next_trace_sequence rt - rt_trace_count rt <= q -> 1 <= q -> q + Z.of_nat n - 1 <= latest ->
  te_sequence <$> trace_events_loop n rt q latest = (fun k => q + Z.of_nat k) <$> seq 0 n.
Proof.
  intros Hw -> . pose proof (tw_next _ Hw). revert q.
  induction n as [|n IH]; intros q H1 H2 H3; cbn [trace_events_loop seq fmap list_fmap]; [done|].
  destruct (q <=? _) eqn:E; bool_hyps; [|lia]. rewrite u64_id by lia.
  rewrite fmap_cons, IH by lia. f_equal.
  - rewrite (tw_events _ Hw) by lia. lia.
  - rewrite <- fmap_S_seq, <- list_fmap_compose. apply list_fmap_ext. intros i k _. simpl. lia.
Qed.

Lemma trace_oldest_wf rt :
  trace_wf rt -> rt_trace_count rt <> 0 ->
  iouringd_trace_oldest_sequence rt = rt_next_trace_sequence rt - rt_trace_count rt.
Proof.
  intros [_ Hn Hc _] H0. unfold iouringd_trace_oldest_sequence.
  destruct (_ =? _) eqn:E; bool_hyps; [done|]. apply u64_id. lia.
Qed.

Lemma trace_latest_wf rt :
  trace_wf rt -> trace_latest_sequence rt = rt_next_trace_sequence rt - 1.
Proof.
  intros [_ Hn _ _]. unfold trace_latest_sequence.
  destruct (_ =? _) eqn:E; bool_hyps; [lia|]. apply u64_id. lia.
Qed.

(** Nothing is emitted while the ring is empty. *)
Lemma trace_emitted_wf rt after max :
  trace_wf rt -> 0 <= after < 2 ^ 64 -> 0 <= max <= UINT16_MAX ->
  trace_emitted rt after max =
  Z.max 0 (Z.min max (rt_next_trace_sequence rt -
             Z.max (after + 1) (rt_next_trace_sequence rt - rt_trace_count rt))) /\
  (trace_emitted rt after max <> 0 ->
   trace_start rt after = Z.max (after + 1) (rt_next_trace_sequence rt - rt_trace_count rt)).
Proof.
  intros Hw Ha Hm. pose proof (tw_next _ Hw) as Hn. pose proof (tw_count _ Hw) as Hc.
  unfold UINT16_MAX in Hm. unfold trace_emitted. rewrite trace_latest_wf by done.
  destruct (max =? 0) eqn:E1, (rt_trace_count rt =? 0) eqn:E2,
    (after <? rt_next_trace_sequence rt - 1) eqn:E3; bool_hyps; cbn [negb andb];
    try (split; [lia|lia]).
  assert (Hs : trace_start rt after =
               Z.max (after + 1) (rt_next_trace_sequence rt - rt_trace_count rt)).
  { unfold trace_start. rewrite trace_oldest_wf, u64_id by (done || lia).
    destruct (_ <? _) eqn:E; bool_hyps; lia. }
  rewrite Hs. split; [|done]. rewrite trace_count_loop_spec; lia.
Qed.

(** C28: recording an event keeps the trace ring well-formed: the new event is retained
    under the next sequence number, the sequence numbers stay consecutive, and
    of the events retained before only the one that is [IOURINGD_TRACE_CAPACITY]
    older is given up; every other one is still there unchanged. *)
Theorem emit_trace_event_spec now ci ek tk sp tid rid res cr rt :
  trace_wf rt -> rt_next_trace_sequence rt + 1 < 2 ^ 64 ->
  let rt' := iouringd_emit_trace_event now ci ek tk sp tid rid res cr rt in
  trace_wf rt' /\
  trace_latest_sequence rt' = rt_next_trace_sequence rt /\
  rt_trace_events rt' !!! trace_slot (rt_next_trace_sequence rt) =
    mk_trace_event (rt_next_trace_sequence rt) now tid rid res cr ek tk
      (u16 (Z.of_nat ci)) sp 0 /\
  (forall q, iouringd_trace_oldest_sequence rt' <= q < rt_next_trace_sequence rt ->
     rt_trace_events rt' !!! trace_slot q = rt_trace_events rt !!! trace_slot q /\
     iouringd_trace_oldest_sequence rt <= q).
Proof.
  intros Hw Hlt rt'. pose proof (emit_trace_event_wf now ci ek tk sp tid rid res cr rt Hw Hlt) as Hw'.
  fold rt' in Hw'. pose proof (tw_next _ Hw) as Hn. pose proof (tw_count _ Hw) as Hc.
  pose proof (tw_count _ Hw') as Hc'. pose proof (tw_next _ Hw') as Hn'.
  assert (Es : rt_next_trace_sequence rt' = rt_next_trace_sequence rt + 1)
    by (unfold rt'; simpl; apply u64_id; lia).
  unfold IOURINGD_TRACE_CAPACITY in *. change (Z.of_nat 256) with 256 in *.
  split; [done|]. split; [rewrite trace_latest_wf by done; lia|]. split.
  - unfold rt'; simpl. rewrite insert_total_eq; [done|]. rewrite (tw_length _ Hw). apply trace_slot_lt.
  - intros q Hq. rewrite trace_oldest_wf in Hq by (done || lia).
    split.
    + unfold rt'; simpl. apply insert_total_ne, not_eq_sym, trace_slot_inj; lia.
    + unfold iouringd_trace_oldest_sequence. destruct (_ =? _) eqn:E; bool_hyps; [lia|].
      rewrite u64_id; lia.
Qed.

(** C29: a trace query returns what it promises: the retained events with sequence numbers
    above [after], from the oldest such one, consecutively, as many as there are
    up to [max]; the header announces exactly the number of events that follow. *)
Theorem trace_query_spec rt after max :
  trace_wf rt -> 0 <= after < 2 ^ 64 -> 0 <= max <= UINT16_MAX ->
  let oldest := rt_next_trace_sequence rt - rt_trace_count rt in
  let start := Z.max (after + 1) oldest in
  let count := Z.max 0 (Z.min max (rt_next_trace_sequence rt - start)) in
  tr_count (trace_header rt after max) = count /\
  te_sequence <$> trace_selected rt after max =
    (fun k => start + Z.of_nat k) <$> seq 0 (Z.to_nat count).
Proof.
  intros Hw Ha Hm oldest start count.
  destruct (trace_emitted_wf rt after max Hw Ha Hm) as [He Hs].
  split; [exact He|]. unfold trace_selected. cbv zeta.
  destruct (trace_emitted rt after max =? 0) eqn:E0; bool_hyps.
  { rewrite E0 in He. unfold count, start, oldest. rewrite <- He. reflexivity. }
  rewrite Hs by done. rewrite He in *. fold oldest start count in E0 |- *.
  pose proof (tw_next _ Hw) as Hn. pose proof (tw_count _ Hw) as Hc.
  apply trace_events_loop_spec; [done|by apply trace_latest_wf|lia|lia|].
  rewrite trace_latest_wf by done. lia.
Qed.

(** ** The hypotheses can hold *)

Definition record_nop (now : Z) (rt : runtime) : runtime :=
  iouringd_emit_trace_event now 0 IOURINGD_TRACE_EVENT_SUBMIT_ACCEPT IOURINGD_TASK_KIND_NOP
    0 now 0 0 4 rt.

Lemma init_trace_wf : trace_wf iouringd_init_runtime.
Proof.
  constructor; [reflexivity|simpl; lia|reflexivity|]. simpl. intros q Hq. lia.
Qed.

Lemma emit_trace_event_spec_witness :
  trace_wf (record_nop 5 iouringd_init_runtime) /\
  trace_latest_sequence (record_nop 5 iouringd_init_runtime) = 1.
Proof.
  pose proof (emit_trace_event_spec 5 0 IOURINGD_TRACE_EVENT_SUBMIT_ACCEPT IOURINGD_TASK_KIND_NOP
                0 5 0 0 4 iouringd_init_runtime init_trace_wf ltac:(simpl; lia)) as (H1 & H2 & _).
  split; [exact H1|exact H2].
Defined.

Lemma trace_query_spec_witness :
  let rt := record_nop 6 (record_nop 5 iouringd_init_runtime) in
  te_sequence <$> trace_selected rt 0 8 = [1; 2].
Proof.
  intros rt.
  assert (Hw : trace_wf rt).
  { apply emit_trace_event_wf; [apply emit_trace_event_wf; [exact init_trace_wf|]|];
      vm_compute; reflexivity. }
  exact (proj2 (trace_query_spec rt 0 8 Hw ltac:(lia) ltac:(unfold UINT16_MAX; lia))).
Defined.
