(* ===== verification/Daemon.v ===== *)
(** * The daemon's operations

    The state and error monad of [src/daemon/main.c] and the operations its
    handlers share: access to a client or task slot by index (the C code keeps
    pointers into the two arrays of the runtime), the system calls, the replies
    queued to a client, the release of resource slots, and the opening and
    closing of clients.

    A C function that returns [-1] is a computation that fails with [errno];
    the state changes made before the failure stay. *)

From S2P Require Import Prelude Wire Kernel Ring State Output Resources Trace.
Open Scope iou_scope.

Section Daemon.
Context {W : Type} `{Kernel W}.

Definition DM (A : Type) : Type := M (sys W) A.

(** ** Primitive steps *)

Definition get_rt : DM runtime := mget s_rt.
Definition mod_rt (f : runtime -> runtime) : DM unit :=
  mmod (fun s => s <| s_rt := f (s_rt s) |>).

Definition the_client (s : sys W) (i : nat) : client := rt_clients (s_rt s) !!! i.
Definition the_task (s : sys W) (k : nat) : task_slot := rt_tasks (s_rt s) !!! k.

Definition get_client (i : nat) : DM client := mget (fun s => the_client s i).
Definition mod_client (i : nat) (f : client -> client) : DM unit :=
  mod_rt (fun rt => rt <| rt_clients := <[i := f (rt_clients rt !!! i)]> (rt_clients rt) |>).

Definition get_task (k : nat) : DM task_slot := mget (fun s => the_task s k).
Definition mod_task (k : nat) (f : task_slot -> task_slot) : DM unit :=
  mod_rt (fun rt => rt <| rt_tasks := <[k := f (rt_tasks rt !!! k)]> (rt_tasks rt) |>).

Definition close_fds (fds : list Z) : DM unit :=
  mmod (fun s => s <| s_closed := s_closed s ++ fds |>).

(** A call of the ring component on the runtime's ring. *)
Definition with_ring (f : W -> ring -> ring_result) : DM unit :=
  fun s =>
    let '(rc, r, w) := f (s_world s) (rt_ring (s_rt s)) in
    (rc, s <| s_rt := s_rt s <| rt_ring := r |> |> <| s_world := w |>).

Definition ring_update_file (index fd : Z) : DM unit :=
  fun s =>
    let '(rc, w) := iouringd_ring_update_registered_file (s_world s) (rt_ring (s_rt s)) index fd in
    (rc, s <| s_world := w |>).

Definition emit_trace (client_index : nat)
    (event_kind task_kind submit_priority task_id resource_id res credits : Z) : DM unit :=
  fun s =>
    let '(ts, w) := k_clock (s_world s) in
    (Ok tt,
     s <| s_rt := iouringd_emit_trace_event (iouringd_monotonic_nsec ts) client_index event_kind
                    task_kind submit_priority task_id resource_id res credits (s_rt s) |>
       <| s_world := w |>).

Definition set_req (i : nat) (f : client_request -> client_request) : DM unit :=
  mod_client i (fun c => c <| c_req := f (c_req c) |>).
Definition set_res (i : nat) (f : client_resources -> client_resources) : DM unit :=
  mod_client i (fun c => c <| c_res := f (c_res c) |>).
Definition set_file_slot (i j : nat) (f : resource_slot -> resource_slot) : DM unit :=
  set_res i (fun a => a <| file_resources :=
                             <[j := f (file_resources a !!! j)]> (file_resources a) |>).
Definition set_buffer_slot (i j : nat) (f : buffer_slot -> buffer_slot) : DM unit :=
  set_res i (fun a => a <| buffer_resources :=
                             <[j := f (buffer_resources a !!! j)]> (buffer_resources a) |>).
Definition get_file_slot (i j : nat) : DM resource_slot :=
  mget (fun s => file_resources (c_res (the_client s i)) !!! j).
Definition get_buffer_slot (i j : nat) : DM buffer_slot :=
  mget (fun s => buffer_resources (c_res (the_client s i)) !!! j).

(** [iouringd_queue_client_output(client, buf, len)] *)
Definition queue_output (i : nat) (buf : bytes) : DM unit :=
  fun s =>
    let c := the_client s i in
    let '(rc, b) := iouringd_queue_client_output (c_out c) buf in
    (rc, s <| s_rt := s_rt s <| rt_clients := <[i := c <| c_out := b |>]> (rt_clients (s_rt s)) |> |>).

(** ** Counters and replies *)

Definition iouringd_client_is_active (c : client) : bool := 0 <=? c_fd c.

Definition iouringd_available_credits (rt : runtime) : Z :=
  u32 (rt_task_capacity rt - rt_outstanding_credit_tasks rt).

Definition iouringd_available_file_resources (c : client) : Z :=
  u32 (iouringd_available_file_slots (c_res c)).
Definition iouringd_available_buffer_resources (c : client) : Z :=
  u32 (iouringd_available_buffer_slots (c_res c)).

(** The clients the limits make available. *)
Definition live_clients (rt : runtime) : list client :=
  take (Z.to_nat (max_clients (rt_limits rt))) (rt_clients rt).

Definition iouringd_count_active_clients (rt : runtime) : Z :=
  u32 (countz (fun c => 0 <=? c_fd c) (live_clients rt)).
Definition iouringd_count_registered_files (rt : runtime) : Z :=
  u32 (sumz (fun c => countz rs_registered (file_slots (c_res c))) (live_clients rt)).
Definition iouringd_count_registered_buffers (rt : runtime) : Z :=
  u32 (sumz (fun c => countz bs_registered (buffer_slots (c_res c))) (live_clients rt)).
Definition iouringd_count_clients_at_credit_limit (rt : runtime) : Z :=
  if rt_per_client_credit_limit rt =? 0 then 0
  else u32 (countz (fun c => negb (c_fd c <? 0) &&
                             (rt_per_client_credit_limit rt <=? outstanding_credit_tasks (c_res c)))
              (live_clients rt)).

Definition iouringd_queue_submit_result (i : nat) (task_id res : Z) : DM unit :=
  rt <- get_rt ;;
  queue_output i (to_wire (mk_submit_result task_id res (iouringd_available_credits rt))).

Definition iouringd_reject_submit (i : nat) (res : Z) : DM unit :=
  mod_rt (fun rt => rt <| rt_rejected_submits := u64 (rt_rejected_submits rt + 1) |>) ;;;
  iouringd_queue_submit_result i IOURINGD_TASK_ID_INVALID res ;;;
  c <- get_client i ;; rt <- get_rt ;;
  emit_trace i IOURINGD_TRACE_EVENT_SUBMIT_REJECT (sq_task_kind (request (c_req c)))
    (sq_priority (request (c_req c))) IOURINGD_TASK_ID_INVALID (resource_id (c_req c)) res
    (iouringd_available_credits rt).

Definition iouringd_queue_resource_result (i : nat) (rid res resources_available : Z) : DM unit :=
  queue_output i (to_wire (mk_resource_result rid res resources_available 0)).

Definition stats_of (rt : runtime) : stats_result :=
  mk_stats_result (iouringd_count_active_clients rt) (u32 (rt_outstanding_tasks rt))
    (u32 (rt_outstanding_credit_tasks rt)) (iouringd_available_credits rt)
    (iouringd_count_registered_files rt) (iouringd_count_registered_buffers rt)
    (rt_accepted_submits rt) (rt_rejected_submits rt) (rt_completions rt)
    (u32 (rt_per_client_credit_limit rt)) (iouringd_count_clients_at_credit_limit rt).

Definition iouringd_queue_stats_result (i : nat) : DM unit :=
  rt <- get_rt ;; queue_output i (to_wire (stats_of rt)).

Fixpoint queue_events (i : nat) (events : list trace_event) : DM unit :=
  match events with
  | [] => mret tt
  | e :: rest => queue_output i (to_wire e) ;;; queue_events i rest
  end.

Definition iouringd_queue_trace_result (i : nat) : DM unit :=
  rt <- get_rt ;; c <- get_client i ;;
  let after := trace_after_sequence (c_req c) in
  let max := trace_max_events (c_req c) in
  queue_output i (to_wire (trace_header rt after max)) ;;;
  queue_events i (trace_selected rt after max).

Definition handshake_request_ok (q : handshake_request) : bool :=
  (hdr_magic (hq_header q) =? IOURINGD_PROTOCOL_WIRE_MAGIC) &&
  (hdr_version_major (hq_header q) =? IOURINGD_PROTOCOL_V1_MAJOR) &&
  (hdr_version_minor (hq_header q) =? IOURINGD_PROTOCOL_V1_MINOR) &&
  (hq_abi_major q =? IOURINGD_ABI_V1_MAJOR) &&
  (hq_abi_minor q =? IOURINGD_ABI_V1_MINOR) &&
  (hq_reserved q =? 0).

Definition protocol_header_v1 : protocol_header :=
  mk_protocol_header IOURINGD_PROTOCOL_WIRE_MAGIC IOURINGD_PROTOCOL_V1_MAJOR
    IOURINGD_PROTOCOL_V1_MINOR.

Definition handshake_reply (rt : runtime) (accepted : bool) : handshake_result :=
  mk_handshake_result
    (mk_handshake_response protocol_header_v1 IOURINGD_ABI_V1_MAJOR IOURINGD_ABI_V1_MINOR
       (if accepted then IOURINGD_HANDSHAKE_STATUS_ACCEPT else IOURINGD_HANDSHAKE_STATUS_REJECT) 0)
    (if accepted
     then let k := rt_capabilities rt in
          mk_capability_descriptor (cap_struct_size k) (cap_features k) (cap_ring_entries k)
            (cap_cq_entries k) (cap_op_mask k) (iouringd_available_credits rt)
            (cap_registered_fd_slots k) (cap_registered_buffer_slots k) (cap_io_bytes_max k)
     else capability_zero).

Definition iouringd_queue_handshake_result (i : nat) (q : handshake_request) : DM unit :=
  rt <- get_rt ;;
  let accepted := handshake_request_ok q in
  mod_client i (fun c => if accepted then c <| c_phase := IOURINGD_CLIENT_PHASE_SUBMIT |>
                         else c <| c_close_after_flush := true |>) ;;;
  queue_output i (to_wire (handshake_reply rt accepted)) ;;;
  mod_client i (fun c => c <| c_in := iouringd_reset_client_input (c_in c) |>).

Definition finish_request (q : client_request) : client_request :=
  q <| request_ready := false |> <| control_op := 0 |> <| timeout_nsec := 0 |>
    <| cancel_target_id := IOURINGD_TASK_ID_INVALID |>
    <| resource_id := IOURINGD_RESOURCE_ID_INVALID |>
    <| buffer_resource_id := IOURINGD_RESOURCE_ID_INVALID |>
    <| open_flags := 0 |> <| close_fd := -1 |> <| open_mode := 0 |> <| io_length := 0 |>
    <| trace_after_sequence := 0 |> <| trace_max_events := 0 |> <| poll_mask := 0 |>.

Definition iouringd_finish_client_request (i : nat) : DM unit := set_req i finish_request.

(** ** Task slots *)

Definition iouringd_find_free_task_slot (rt : runtime) : option nat :=
  find_index (fun t => negb (t_active t)) (take (Z.to_nat (rt_task_capacity rt)) (rt_tasks rt)).

Definition iouringd_find_task_slot (rt : runtime) (task_id : Z) : option nat :=
  find_index (fun t => t_active t && (t_task_id t =? task_id))
    (take (Z.to_nat (rt_task_capacity rt)) (rt_tasks rt)).

(** ** Resource slots in the ring's tables *)

Definition iouringd_global_file_index (rt : runtime) (client_index slot_index : nat) : Z :=
  u32 (Z.of_nat client_index * registered_fds_per_client (rt_limits rt) + Z.of_nat slot_index).
Definition iouringd_global_buffer_index (rt : runtime) (client_index slot_index : nat) : Z :=
  u32 (Z.of_nat client_index * registered_buffers_per_client (rt_limits rt) + Z.of_nat slot_index).
(** The offset in [registered_buffer_storage]. *)
Definition iouringd_buffer_storage_at (rt : runtime) (client_index slot_index : nat) : Z :=
  iouringd_global_buffer_index rt client_index slot_index * lim_io_bytes_max (rt_limits rt).

Definition clear_file_slot (i j : nat) : DM unit :=
  s <- get_file_slot i j ;;
  close_fds (snd (iouringd_clear_file_slot s)) ;;;
  set_file_slot i j (fun s => fst (iouringd_clear_file_slot s)).

Definition iouringd_try_release_file_slot (i j : nat) : DM unit :=
  c <- get_client i ;;
  if file_slot_limit (c_res c) <=? Z.of_nat j then mfail EINVAL
  else
    s <- get_file_slot i j ;;
    if negb (rs_registered s) then
      if rs_in_flight s =? 0 then clear_file_slot i j else mret tt
    else if negb (rs_in_flight s =? 0) || negb (rs_closing s) then mret tt
    else
      rt <- get_rt ;;
      ring_update_file (iouringd_global_file_index rt i j) (-1) ;;;
      clear_file_slot i j.

Definition iouringd_try_release_buffer_slot (i j : nat) : DM unit :=
  c <- get_client i ;;
  if buffer_slot_limit (c_res c) <=? Z.of_nat j then mfail EINVAL
  else
    s <- get_buffer_slot i j ;;
    if negb (bs_registered s) then
      if bs_in_flight s =? 0 then set_buffer_slot i j iouringd_clear_buffer_slot else mret tt
    else if negb (bs_in_flight s =? 0) || negb (bs_closing s) then mret tt
    else set_buffer_slot i j iouringd_clear_buffer_slot.

(** ** Opening and closing clients *)

Definition close_client (i : nat) : DM unit :=
  c <- get_client i ;;
  close_fds (snd (iouringd_close_client c)) ;;;
  mod_client i (fun c => fst (iouringd_close_client c)).

(** A slot a new client can take. *)
Definition client_slot_vacant (c : client) : bool :=
  negb (0 <=? c_fd c) && negb (iouringd_client_has_retained_resources (c_res c)) &&
  (outstanding_tasks (c_res c) =? 0).

(** The fields set for the new client in the vacant slot [c]; the bytes of a
    fresh [malloc] are unspecified, and never read before they are written. *)
Definition opened_client (rt : runtime) (fd : Z) (c : client) : client :=
  let c1 :=
    c <| c_fd := fd |>
      <| c_generation := u32 (rt_next_client_generation rt + 1) |>
      <| c_phase := IOURINGD_CLIENT_PHASE_HANDSHAKE |>
      <| c_out := mk_outbuf (replicate (Z.to_nat (rt_client_output_capacity rt)) 0)
                    (rt_client_output_capacity rt) 0 0 |>
      <| c_close_after_flush := false |>
      <| c_received_fd := -1 |>
      <| c_io_bytes_max := lim_io_bytes_max (rt_limits rt) |>
      <| c_req := client_request_zero |>
      <| c_res := c_res c <| file_slot_limit := registered_fds_per_client (rt_limits rt) |>
                          <| buffer_slot_limit := registered_buffers_per_client (rt_limits rt) |> |>
      <| c_in := c_in c <| input := replicate IOURINGD_MAX_REQUEST_BYTES 0 |> |> in
  let c2 := iouringd_init_client_resources c1 in
  c2 <| c_in := iouringd_reset_client_input (c_in c2) |>.

Definition iouringd_open_client (fd : Z) : DM unit :=
  nb <- mtry (fun s => let '(rc, w) := k_set_nonblocking (s_world s) fd in
                       (rc, s <| s_world := w |>)) ;;
  if negb (is_ok nb) then close_fds [fd]
  else
    rt <- get_rt ;;
    match find_index client_slot_vacant (live_clients rt) with
    | None => close_fds [fd]
    | Some i =>
        mem <- (fun s => let '(ok, w) :=
                           k_malloc (s_world s) (Z.to_nat (rt_client_output_capacity rt)) in
                         (Ok ok, s <| s_world := w |>)) ;;
        if negb mem then close_fds [fd]
        else
          mod_client i (opened_client rt fd) ;;;
          mod_rt (fun rt => rt <| rt_next_client_generation :=
                                    u32 (rt_next_client_generation rt + 1) |>)
    end.

(** The accept loop, [fuel] rounds; [None] when more rounds are needed, and
    otherwise whether there was progress. *)
Fixpoint accept_loop (fuel : nat) (progress : bool) : DM (option bool) :=
  match fuel with
  | O => mret None
  | S fuel' =>
      rc <- mtry (fun s => let '(rc, w) := k_accept (s_world s) (rt_server_fd (s_rt s)) in
                           (rc, s <| s_world := w |>)) ;;
      stop <- mget (fun s => k_stop (s_world s)) ;;
      match rc with
      | Err e =>
          if e =? EAGAIN then mret (Some progress)
          else if stop && ((e =? EINTR) || (e =? EBADF)) then mret (Some progress)
          else mfail e
      | Ok fd =>
          ce <- mtry (fun s => let '(rc, w) := k_set_cloexec (s_world s) fd in
                               (rc, s <| s_world := w |>)) ;;
          match ce with
          | Err e => close_fds [fd] ;;; mfail e
          | Ok _ =>
              stop' <- mget (fun s => k_stop (s_world s)) ;;
              if stop' then close_fds [fd] ;;; mret (Some progress)
              else iouringd_open_client fd ;;; accept_loop fuel' true
          end
      end
  end.

Definition iouringd_accept_clients (fuel : nat) : DM (option bool) := accept_loop fuel false.
End Daemon.
