(* ===== verification/Startup.v ===== *)
(** * Starting the daemon

    Models the command line of [src/daemon/main.c]
    ([iouringd_parse_unsigned_arg] with the [strtoul] it calls,
    [iouringd_parse_args]) and the part of [main] that derives the runtime's
    parameters from the limits and the ring ([configure]).  The ring and the
    capabilities that [iouringd_ring_init] obtains from the kernel are
    arguments. *)

From Stdlib Require Import String Ascii.
From S2P Require Import Prelude Wire Kernel Ring State Output Resources Trace Daemon.

Open Scope Z_scope.

(** ** [strtoul(value, &end, 10)] *)

Definition char_code (a : ascii) : Z := Z.of_nat (nat_of_ascii a).
Definition is_space (a : ascii) : bool :=
  (char_code a =? 32) || ((9 <=? char_code a) && (char_code a <=? 13)).
Definition is_digit (a : ascii) : bool := (48 <=? char_code a) && (char_code a <=? 57).

Fixpoint skip_spaces (s : string) : string :=
  match s with
  | String a rest => if is_space a then skip_spaces rest else s
  | EmptyString => s
  end.

(** The value of the leading digits, whether there is one, and what follows. *)
Fixpoint take_digits (acc : Z) (any : bool) (s : string) : Z * bool * string :=
  match s with
  | String a rest =>
      if is_digit a then take_digits (10 * acc + (char_code a - 48)) true rest
      else (acc, any, s)
  | EmptyString => (acc, any, s)
  end.

(** The optional sign. *)
Definition take_sign (s : string) : bool * string :=
  match s with
  | String a rest =>
      if char_code a =? 45 then (true, rest)
      else if char_code a =? 43 then (false, rest) else (false, s)
  | EmptyString => (false, s)
  end.

(** The value, [end] ([None]: no conversion, [end == value]), and whether
    [errno] is [ERANGE]. *)
Definition strtoul (value : string) : Z * option string * bool :=
  let '(negative, s) := take_sign (skip_spaces value) in
  let '(v, any, rest) := take_digits 0 false s in
  if negb any then (0, None, false)
  else if UINT64_MAX <? v then (UINT64_MAX, Some rest, true)
  else (if negative then u64 (- v) else v, Some rest, false).

Definition iouringd_parse_unsigned_arg (value : string) : outcome Z :=
  match value with
  | EmptyString => Err EINVAL
  | _ =>
      let '(parsed, rest, erange) := strtoul value in
      match rest with
      | None => Err EINVAL
      | Some EmptyString => if erange || (UINT32_MAX <? parsed) then Err EINVAL else Ok (u32 parsed)
      | Some _ => Err EINVAL
      end
  end.

(** ** The arguments *)

(** The fields of the runtime that [iouringd_parse_args] sets. *)
Record arguments := mk_arguments {
  arg_limits : iouringd_limits;
  arg_trace_stderr : bool;
  arg_job_id : option Z;
  arg_socket_path : string;
}.
Definition eta_arguments (x : arguments) : arguments :=
  mk_arguments (arg_limits x) (arg_trace_stderr x) (arg_job_id x) (arg_socket_path x).
#[export] Instance put_arg_limits : Setter arg_limits := ltac:(mk_put eta_arguments arg_limits).
#[export] Instance put_arg_trace_stderr : Setter arg_trace_stderr :=
  ltac:(mk_put eta_arguments arg_trace_stderr).
#[export] Instance put_arg_job_id : Setter arg_job_id := ltac:(mk_put eta_arguments arg_job_id).
#[export] Instance put_arg_socket_path : Setter arg_socket_path :=
  ltac:(mk_put eta_arguments arg_socket_path).

Definition default_arguments : arguments := mk_arguments iouringd_init_limits false None "".

(** One option with its value. *)
Definition set_option (option : string) (value : Z) (a : arguments) : outcome arguments :=
  let l := arg_limits a in
  if (option =? "--ring-entries")%string then
    Ok (a <| arg_limits := l <| ring_entries := value |> |>)
  else if (option =? "--max-clients")%string then
    Ok (a <| arg_limits := l <| max_clients := value |> |>)
  else if (option =? "--registered-fds")%string then
    Ok (a <| arg_limits := l <| registered_fds_per_client := value |> |>)
  else if (option =? "--registered-buffers")%string then
    Ok (a <| arg_limits := l <| registered_buffers_per_client := value |> |>)
  else if (option =? "--per-client-credits")%string then
    Ok (a <| arg_limits := l <| per_client_credits := value |> |>)
  else if (option =? "--io-bytes-max")%string then
    Ok (a <| arg_limits := l <| lim_io_bytes_max := value |> |>)
  else if (option =? "--job-id")%string then Ok (a <| arg_job_id := Some value |>)
  else Err EINVAL.

(** The loop over the options: [l] is the arguments from [argv[index]] on, and the
    loop goes on while there are two of them. *)
Fixpoint parse_options (l : list string) (a : arguments) : outcome (list string * arguments) :=
  match l with
  | opt :: ((value :: rest) as tl) =>
      if (opt =? "--trace-stderr")%string then parse_options tl (a <| arg_trace_stderr := true |>)
      else
        match iouringd_parse_unsigned_arg value with
        | Err e => Err e
        | Ok v =>
            match set_option opt v a with
            | Err e => Err e
            | Ok a' => parse_options rest a'
            end
        end
  | _ => Ok (l, a)
  end.

Definition limits_rejected (l : iouringd_limits) : bool :=
  (ring_entries l <? 2) || (Z.of_nat IOURINGD_MAX_TASKS <? ring_entries l) ||
  (max_clients l =? 0) || (Z.of_nat IOURINGD_MAX_CLIENTS <? max_clients l) ||
  (registered_fds_per_client l =? 0) ||
  (Z.of_nat IOURINGD_MAX_REGISTERED_FDS <? registered_fds_per_client l) ||
  (registered_buffers_per_client l =? 0) ||
  (Z.of_nat IOURINGD_MAX_REGISTERED_BUFFERS <? registered_buffers_per_client l) ||
  (per_client_credits l =? 0) || (Z.of_nat IOURINGD_MAX_TASKS <? per_client_credits l) ||
  (lim_io_bytes_max l =? 0) || (Z.of_nat IOURINGD_MAX_IO_BYTES <? lim_io_bytes_max l).

(** [argv], from the program's name on. *)
Definition iouringd_parse_args (argv : list string) : outcome arguments :=
  match parse_options (tail argv) default_arguments with
  | Err e => Err e
  | Ok ([path], a) =>
      if limits_rejected (arg_limits a) then Err EINVAL else Ok (a <| arg_socket_path := path |>)
  | Ok _ => Err EINVAL
  end.

(** ** The parameters of the runtime *)

Definition client_output_size (l : iouringd_limits) (task_capacity : Z) : Z :=
  Z.of_nat (wire_size handshake_result) + Z.of_nat (wire_size stats_result) +
  Z.of_nat (wire_size trace_result) +
  Z.of_nat IOURINGD_TRACE_CAPACITY * Z.of_nat (wire_size trace_event) +
  u32 (registered_fds_per_client l + registered_buffers_per_client l) *
    Z.of_nat (wire_size resource_result) +
  task_capacity * (Z.of_nat (wire_size submit_result) + Z.of_nat (wire_size completion_record) +
                   lim_io_bytes_max l).

(** The runtime that [main] hands to the main loop. *)
Definition configured (a : arguments) (r : ring) (caps : capability_descriptor) : runtime :=
  let l := arg_limits a in
  let files := max_clients l * registered_fds_per_client l in
  let buffers := max_clients l * registered_buffers_per_client l in
  let task_capacity := u64 (iouringd_ring_capacity r - 1) in
  iouringd_init_runtime
    <| rt_limits := l |>
    <| rt_registered_file_capacity := files |> <| rt_registered_buffer_capacity := buffers |>
    <| rt_ring := r <| registered_files_count := u32 files |>
                    <| registered_buffers_count := u32 buffers |> |>
    <| rt_ring_capacity := iouringd_ring_capacity r |>
    <| rt_storage := replicate (Z.to_nat (buffers * lim_io_bytes_max l)) 0 |>
    <| rt_task_capacity := task_capacity |>
    <| rt_per_client_credit_limit :=
         if task_capacity <? per_client_credits l then task_capacity else per_client_credits l |>
    <| rt_capabilities :=
         mk_capability_descriptor (cap_struct_size caps) (cap_features caps)
           (cap_ring_entries caps) (cap_cq_entries caps) (cap_op_mask caps)
           (u32 task_capacity) (registered_fds_per_client l)
           (registered_buffers_per_client l) (lim_io_bytes_max l) |>
    <| rt_client_output_capacity := client_output_size l task_capacity |>.

(** [None] when the ring's capacity is outside the supported range. *)
Definition configure (a : arguments) (r : ring) (caps : capability_descriptor) : option runtime :=
  if (iouringd_ring_capacity r <=? 1) || (Z.of_nat IOURINGD_MAX_TASKS <? iouringd_ring_capacity r)
  then None else Some (configured a r caps).

Lemma configure_Some a r caps rt :
  configure a r caps = Some rt ->
  rt = configured a r caps /\ 2 <= iouringd_ring_capacity r <= 64.
Proof.
  unfold configure. change (Z.of_nat IOURINGD_MAX_TASKS) with 64. intros E.
  destruct (_ || _) eqn:Eb; [done|]. bool_hyps. split; [congruence|lia].
Qed.

(** ** Numbers *)

(** A decimal numeral: its digits and its value. *)
Definition digit_char (d : Z) : ascii := ascii_of_nat (Z.to_nat (48 + d)).
Fixpoint numeral (ds : list Z) : string :=
  match ds with
  | [] => EmptyString
  | d :: rest => String (digit_char d) (numeral rest)
  end.
Definition numeral_value (ds : list Z) : Z := fold_left (fun acc d => 10 * acc + d) ds 0.
Definition decimal_digit (d : Z) : Prop := 0 <= d <= 9.

Lemma digit_char_code d : decimal_digit d -> char_code (digit_char d) = 48 + d.
Proof.
  intros Hd. unfold char_code, digit_char, decimal_digit in *.
  rewrite nat_ascii_embedding by lia. lia.
Qed.

Lemma take_digits_numeral ds acc any :
  Forall decimal_digit ds ->
  take_digits acc any (numeral ds) =
  (fold_left (fun acc d => 10 * acc + d) ds acc, any || negb (length ds =? 0)%nat, EmptyString).
Proof.
  intros Hds. revert acc any. induction Hds as [|d ds Hd _ IH]; intros acc any; cbn [numeral take_digits].
  { by rewrite orb_false_r. }
  unfold is_digit. rewrite digit_char_code by done. unfold decimal_digit in Hd.
  destruct (Z.leb_spec 48 (48 + d)), (Z.leb_spec (48 + d) 57); [|lia..]. simpl andb. cbv iota.
  rewrite IH. replace (48 + d - 48) with d by lia. simpl. by rewrite orb_true_r.
Qed.

Lemma numeral_value_nonneg ds acc :
  Forall decimal_digit ds -> 0 <= acc -> 0 <= fold_left (fun acc d => 10 * acc + d) ds acc.
Proof.
  intros Hds. revert acc. induction Hds as [|d ds Hd _ IH]; intros acc Ha; simpl; [done|].
  apply IH. unfold decimal_digit in Hd. lia.
Qed.

(** A decimal numeral given as an option's value is read as the number it
    denotes when that is at most UINT32_MAX and rejected with EINVAL otherwise,
    also when it exceeds the 64 bits of the conversion. *)
Lemma parse_unsigned_numeral d ds :
  Forall decimal_digit (d :: ds) ->
  iouringd_parse_unsigned_arg (numeral (d :: ds)) =
  if numeral_value (d :: ds) <=? UINT32_MAX then Ok (numeral_value (d :: ds)) else Err EINVAL.
Proof.
  intros Hds. pose proof (Forall_inv Hds) as Hd. pose proof (digit_char_code d Hd) as Ec.
  unfold decimal_digit in Hd.
  assert (Es : take_sign (skip_spaces (numeral (d :: ds))) = (false, numeral (d :: ds))).
  { cbn [numeral skip_spaces]. unfold is_space. rewrite Ec.
    destruct (Z.eqb_spec (48 + d) 32), (Z.leb_spec 9 (48 + d)), (Z.leb_spec (48 + d) 13);
      simpl orb; cbv iota; try lia; cbn [take_sign]; rewrite Ec;
      destruct (Z.eqb_spec (48 + d) 45), (Z.eqb_spec (48 + d) 43); done || lia. }
  assert (Ev : strtoul (numeral (d :: ds)) =
               (if UINT64_MAX <? numeral_value (d :: ds) then UINT64_MAX else numeral_value (d :: ds),
                Some EmptyString, UINT64_MAX <? numeral_value (d :: ds))).
  { unfold strtoul. rewrite Es, take_digits_numeral by done. fold (numeral_value (d :: ds)).
    simpl negb. cbv iota. by destruct (_ <? _). }
  unfold iouringd_parse_unsigned_arg. rewrite Ev. cbn [numeral].
  set (v := numeral_value _). unfold UINT64_MAX, UINT32_MAX in *.
  destruct (Z.ltb_spec 18446744073709551615 v), (Z.leb_spec v 4294967295); simpl; try lia; try done.
  - destruct (Z.ltb_spec 4294967295 v); [lia|]. rewrite u32_id; [done|].
    pose proof (numeral_value_nonneg (d :: ds) 0 Hds ltac:(done)) as Hnn. fold (numeral_value (d :: ds)) v in Hnn. lia.
  - destruct (Z.ltb_spec 4294967295 v); [done|lia].
Qed.

Lemma take_digits_nonneg s acc any : 0 <= acc -> 0 <= fst (fst (take_digits acc any s)).
Proof.
  revert acc any. induction s as [|a s IH]; intros acc any Ha; cbn [take_digits]; [done|].
  destruct (is_digit a) eqn:E; [|done]. apply IH. unfold is_digit in E. bool_hyps. lia.
Qed.

Lemma parse_unsigned_range s v : iouringd_parse_unsigned_arg s = Ok v -> 0 <= v <= UINT32_MAX.
Proof.
  unfold iouringd_parse_unsigned_arg. destruct s as [|a s]; [done|]. unfold strtoul.
  destruct (take_sign _) as [neg s1]. pose proof (take_digits_nonneg s1 0 false ltac:(done)) as Hn.
  destruct (take_digits 0 false s1) as [[n any] rest]. cbn [fst] in Hn.
  destruct (negb any); [done|]. destruct (UINT64_MAX <? n); [by destruct rest|].
  destruct rest; [|done]. simpl. destruct (Z.ltb_spec UINT32_MAX (if neg then u64 (- n) else n)); [done|].
  intros [= <-]. pose proof (u32_fits (if neg then u64 (- n) else n)). unfold UINT32_MAX. lia.
Qed.

(** ** Limits *)

Definition limits_nonneg (l : iouringd_limits) : Prop :=
  0 <= max_clients l /\ 0 <= registered_fds_per_client l /\ 0 <= registered_buffers_per_client l /\
  0 <= per_client_credits l /\ 0 <= lim_io_bytes_max l /\ 0 <= ring_entries l.

Lemma set_option_nonneg o v a a' :
  0 <= v -> limits_nonneg (arg_limits a) -> set_option o v a = Ok a' -> limits_nonneg (arg_limits a').
Proof.
  intros Hv (H1 & H2 & H3 & H4 & H5 & H6) E. unfold set_option in E.
  split_ifs; injection E as <-; by split_and!.
Qed.

Lemma parse_options_nonneg l a rest a' :
  limits_nonneg (arg_limits a) -> parse_options l a = Ok (rest, a') -> limits_nonneg (arg_limits a').
Proof.
  remember (length l) as n eqn:En. revert l En a.
  induction (lt_wf n) as [n _ IH]. intros l -> a Ha E.
  destruct l as [|o [|v l]]; [by injection E as <- <-..|]. cbn [parse_options] in E.
  destruct (_ =? _)%string.
  - eapply (IH (length (v :: l))); [simpl; lia|done| |exact E]. done.
  - destruct (iouringd_parse_unsigned_arg v) as [z|e] eqn:Ez; [|done].
    destruct (set_option o z a) as [a1|e] eqn:Eo; [|done].
    eapply (IH (length l)); [simpl; lia|done| |exact E].
    eapply set_option_nonneg; [|done|exact Eo]. apply parse_unsigned_range in Ez. lia.
Qed.

(** The ranges the daemon supports. *)
Definition limits_supported (l : iouringd_limits) : Prop :=
  2 <= ring_entries l <= 64 /\ 1 <= max_clients l <= 64 /\
  1 <= registered_fds_per_client l <= 32 /\ 1 <= registered_buffers_per_client l <= 4 /\
  1 <= per_client_credits l <= 64 /\ 1 <= lim_io_bytes_max l <= 4096.

Lemma limits_rejected_spec l :
  limits_nonneg l -> limits_rejected l = false <-> limits_supported l.
Proof.
  unfold limits_nonneg, limits_rejected, limits_supported, IOURINGD_MAX_TASKS, IOURINGD_MAX_CLIENTS,
    IOURINGD_MAX_REGISTERED_FDS, IOURINGD_MAX_REGISTERED_BUFFERS, IOURINGD_MAX_IO_BYTES.
  intros H0. split.
  - intros E. bool_hyps. lia.
  - intros Hs. rewrite !orb_false_iff, !Z.ltb_ge, !Z.eqb_neq. lia.
Qed.

Lemma accepted_limits argv a :
  iouringd_parse_args argv = Ok a -> limits_supported (arg_limits a).
Proof.
  unfold iouringd_parse_args. destruct (parse_options _ _) as [[[|path [|? ?]] a0]|e] eqn:E; try done.
  apply parse_options_nonneg in E; [|by split_and!].
  destruct (limits_rejected (arg_limits a0)) eqn:El; [done|]. intros [= <-].
  by apply limits_rejected_spec.
Qed.

(** Whatever the command line, arguments that are accepted give limits in the
    ranges the daemon's arrays are dimensioned for. *)
Theorem parse_args_limits argv a :
  iouringd_parse_args argv = Ok a -> limits_supported (arg_limits a).
Proof. apply accepted_limits. Qed.

(** The command line that sets every limit, each as a numeral. *)
Definition option_with (o : string) (ds : Z * list Z) : list string := [o; numeral (fst ds :: snd ds)].
Definition value_of (ds : Z * list Z) : Z := numeral_value (fst ds :: snd ds).
Definition is_numeral (ds : Z * list Z) : Prop := Forall decimal_digit (fst ds :: snd ds).

Definition full_command_line (prog path : string) (ring clients fds buffers credits io : Z * list Z)
    : list string :=
  (prog :: option_with "--ring-entries" ring ++ option_with "--max-clients" clients ++
     option_with "--registered-fds" fds ++ option_with "--registered-buffers" buffers ++
     option_with "--per-client-credits" credits ++ option_with "--io-bytes-max" io ++ [path])%list.

(** The numbers are read one after the other, and the first that does not fit 32 bits
    ends the parsing. *)
Definition number_fits (ds : Z * list Z) : bool := value_of ds <=? UINT32_MAX.

Lemma parse_option_with o ds rest a a' :
  is_numeral ds -> (o =? "--trace-stderr")%string = false -> set_option o (value_of ds) a = Ok a' ->
  parse_options (option_with o ds ++ rest) a = if number_fits ds then parse_options rest a' else Err EINVAL.
Proof.
  intros Hd Ho Es. unfold option_with, number_fits. cbn [app parse_options]. rewrite Ho, parse_unsigned_numeral by exact Hd.
  fold (value_of ds). destruct (_ <=? _); [by rewrite Es|done].
Qed.

Lemma full_options prog path ring clients fds buffers credits io :
  Forall is_numeral [ring; clients; fds; buffers; credits; io] ->
  let l := mk_iouringd_limits (value_of clients) (value_of fds) (value_of buffers)
             (value_of credits) (value_of io) (value_of ring) in
  parse_options (tail (full_command_line prog path ring clients fds buffers credits io)) default_arguments =
  if forallb number_fits [ring; clients; fds; buffers; credits; io]
  then Ok ([path], mk_arguments l false None "") else Err EINVAL.
Proof.
  intros Hn l. rewrite !Forall_cons in Hn. destruct Hn as (N1 & N2 & N3 & N4 & N5 & N6 & _).
  unfold full_command_line. cbn [tail forallb].
  repeat (erewrite parse_option_with; [|done|done|reflexivity]; destruct (number_fits _); [cbn [andb]|done]). done.
Qed.

Lemma numbers_fit ring clients fds buffers credits io :
  limits_supported (mk_iouringd_limits (value_of clients) (value_of fds) (value_of buffers)
                      (value_of credits) (value_of io) (value_of ring)) ->
  forallb number_fits [ring; clients; fds; buffers; credits; io] = true.
Proof.
  unfold limits_supported, number_fits, UINT32_MAX. cbn. intros Hs. rewrite !andb_true_iff, !Z.leb_le. lia.
Qed.

(** C26: a command line that names every limit, each as a decimal number of any size, is
    accepted exactly when the numbers are supported, and the limits are then those
    numbers: a number too large for 32 or 64 bits is refused, not cut off. *)
Theorem parse_args_roundtrip prog path ring clients fds buffers credits io :
  Forall is_numeral [ring; clients; fds; buffers; credits; io] ->
  let l := mk_iouringd_limits (value_of clients) (value_of fds) (value_of buffers)
             (value_of credits) (value_of io) (value_of ring) in
  (limits_supported l ->
   iouringd_parse_args (full_command_line prog path ring clients fds buffers credits io) =
   Ok (mk_arguments l false None path)) /\
  (~ limits_supported l ->
   iouringd_parse_args (full_command_line prog path ring clients fds buffers credits io) = Err EINVAL).
Proof.
  intros Hn l. assert (Hl : limits_nonneg l).
  { rewrite !Forall_cons in Hn. destruct Hn as (N1 & N2 & N3 & N4 & N5 & N6 & _).
    split_and!; by apply numeral_value_nonneg. }
  unfold iouringd_parse_args. rewrite full_options by done. fold l. split; intros Hs.
  - rewrite numbers_fit by done. cbn [arg_limits].
    by rewrite (proj2 (limits_rejected_spec l Hl) Hs).
  - destruct (forallb _ _); [|done]. cbn [arg_limits].
    destruct (limits_rejected l) eqn:Er; [done|]. by destruct Hs; apply limits_rejected_spec.
Qed.

(** ** The tables of the ring *)

(** The index of slot [j] of client [i] in a table of [n] slots per client. *)
Lemma flat_index_range i j m n : 0 <= i < m -> 0 <= j < n -> 0 <= i * n + j < m * n.
Proof. intros Hi Hj. nia. Qed.

Lemma flat_index_inj i j i' j' n :
  0 <= j < n -> 0 <= j' < n -> i * n + j = i' * n + j' -> i = i' /\ j = j'.
Proof. intros Hj Hj' E. assert (i = i') by nia. subst. lia. Qed.

(** Client [i] is one the limits allow, and [j] one of its [n] slots. *)
Definition slot_of (rt : runtime) (n : Z) (i j : nat) : Prop :=
  Z.of_nat i < max_clients (rt_limits rt) /\ Z.of_nat j < n.

Lemma configured_limits a r caps : rt_limits (configured a r caps) = arg_limits a.
Proof. reflexivity. Qed.
Lemma configured_files a r caps :
  registered_files_count (rt_ring (configured a r caps)) =
  u32 (max_clients (arg_limits a) * registered_fds_per_client (arg_limits a)).
Proof. reflexivity. Qed.
Lemma configured_buffers a r caps :
  registered_buffers_count (rt_ring (configured a r caps)) =
  u32 (max_clients (arg_limits a) * registered_buffers_per_client (arg_limits a)).
Proof. reflexivity. Qed.
Lemma configured_storage a r caps :
  Z.of_nat (length (rt_storage (configured a r caps))) =
  Z.max 0 (max_clients (arg_limits a) * registered_buffers_per_client (arg_limits a) *
           lim_io_bytes_max (arg_limits a)).
Proof.
  transitivity (Z.of_nat (length (replicate (Z.to_nat (max_clients (arg_limits a) *
    registered_buffers_per_client (arg_limits a) * lim_io_bytes_max (arg_limits a))) 0%Z)));
    [reflexivity|]. rewrite length_replicate. lia.
Qed.

(** C25: in the runtime the daemon starts with, every file slot of every client has
    its own entry of the ring's registered file table and every buffer slot its
    own piece of the registered storage; all are in range, and no two slots
    share an entry or a byte. *)
Theorem registered_slots_disjoint a r caps rt :
  limits_supported (arg_limits a) -> configure a r caps = Some rt ->
  (forall i j, slot_of rt (registered_fds_per_client (rt_limits rt)) i j ->
     0 <= iouringd_global_file_index rt i j < registered_files_count (rt_ring rt)) /\
  (forall i j i' j', slot_of rt (registered_fds_per_client (rt_limits rt)) i j ->
     slot_of rt (registered_fds_per_client (rt_limits rt)) i' j' ->
     iouringd_global_file_index rt i j = iouringd_global_file_index rt i' j' -> i = i' /\ j = j') /\
  (forall i j, slot_of rt (registered_buffers_per_client (rt_limits rt)) i j ->
     0 <= iouringd_buffer_storage_at rt i j /\
     iouringd_buffer_storage_at rt i j + lim_io_bytes_max (rt_limits rt) <=
       Z.of_nat (length (rt_storage rt)) /\
     0 <= iouringd_global_buffer_index rt i j < registered_buffers_count (rt_ring rt)) /\
  (forall i j i' j', slot_of rt (registered_buffers_per_client (rt_limits rt)) i j ->
     slot_of rt (registered_buffers_per_client (rt_limits rt)) i' j' ->
     (i, j) <> (i', j') ->
     iouringd_buffer_storage_at rt i j + lim_io_bytes_max (rt_limits rt) <=
       iouringd_buffer_storage_at rt i' j' \/
     iouringd_buffer_storage_at rt i' j' + lim_io_bytes_max (rt_limits rt) <=
       iouringd_buffer_storage_at rt i j).
Proof.
  intros (L1 & L2 & L3 & L4 & L5 & L6) E. apply configure_Some in E as [-> _].
  pose proof (configured_limits a r caps) as El. pose proof (configured_files a r caps) as Ef.
  pose proof (configured_buffers a r caps) as Eb. pose proof (configured_storage a r caps) as Es.
  remember (configured a r caps) as rt eqn:Hrt. clear Hrt. rewrite El. set (l := arg_limits a) in *.
  assert (Hf : forall i j, slot_of rt (registered_fds_per_client l) i j ->
            iouringd_global_file_index rt i j =
              Z.of_nat i * registered_fds_per_client l + Z.of_nat j /\
            0 <= Z.of_nat i * registered_fds_per_client l + Z.of_nat j <
              max_clients l * registered_fds_per_client l /\
            max_clients l * registered_fds_per_client l <= 2048).
  { intros i j [Hi Hj]. rewrite El in Hi. unfold iouringd_global_file_index. rewrite El.
    pose proof (flat_index_range (Z.of_nat i) (Z.of_nat j) (max_clients l)
                  (registered_fds_per_client l) ltac:(lia) ltac:(lia)).
    assert (max_clients l * registered_fds_per_client l <= 2048) by nia.
    split; [|lia]. apply u32_id. lia. }
  assert (Hg : forall i j, slot_of rt (registered_buffers_per_client l) i j ->
            iouringd_global_buffer_index rt i j =
              Z.of_nat i * registered_buffers_per_client l + Z.of_nat j /\
            0 <= Z.of_nat i * registered_buffers_per_client l + Z.of_nat j <
              max_clients l * registered_buffers_per_client l /\
            max_clients l * registered_buffers_per_client l <= 256).
  { intros i j [Hi Hj]. rewrite El in Hi. unfold iouringd_global_buffer_index. rewrite El.
    pose proof (flat_index_range (Z.of_nat i) (Z.of_nat j) (max_clients l)
                  (registered_buffers_per_client l) ltac:(lia) ltac:(lia)).
    assert (max_clients l * registered_buffers_per_client l <= 256) by nia.
    split; [|lia]. apply u32_id. lia. }
  unfold iouringd_buffer_storage_at. rewrite El, Ef, Eb, Es. split_and!.
  - intros i j Hs. destruct (Hf i j Hs) as [-> ?]. rewrite u32_id; lia.
  - intros i j i' j' Hs Hs'. destruct (Hf i j Hs) as [-> ?], (Hf i' j' Hs') as [-> ?]. intros E.
    apply flat_index_inj in E; [lia|destruct Hs; lia|destruct Hs'; lia].
  - intros i j Hs. destruct (Hg i j Hs) as [-> ?]. rewrite u32_id by lia. split_and!; [nia|nia|lia|lia].
  - intros i j i' j' Hs Hs' Hne. destruct (Hg i j Hs) as [-> ?], (Hg i' j' Hs') as [-> ?].
    assert (Hd : Z.of_nat i * registered_buffers_per_client l + Z.of_nat j <>
                 Z.of_nat i' * registered_buffers_per_client l + Z.of_nat j').
    { intros E. apply flat_index_inj in E as [E1 E2]; [|destruct Hs; lia|destruct Hs'; lia].
      apply Hne. f_equal; lia. }
    nia.
Qed.

(** ** Concrete runs *)

Definition example_ring : ring :=
  mk_ring 3 0 0 0 0 3 4 (replicate 4 sqe_zero) (replicate 4 0) 0 0 7 (replicate 8 cqe_zero).
Definition example_arguments : arguments := mk_arguments iouringd_init_limits false None "/tmp/s".
Definition example_runtime : runtime := configured example_arguments example_ring capability_zero.

Lemma parse_args_limits_witness :
  iouringd_parse_args ["iouringd"; "--max-clients"; " 12"; "/tmp/s"]%string =
    Ok (mk_arguments (iouringd_init_limits <| max_clients := 12 |>) false None "/tmp/s") /\
  limits_supported (iouringd_init_limits <| max_clients := 12 |>).
Proof.
  split; [reflexivity|].
  exact (parse_args_limits ["iouringd"; "--max-clients"; " 12"; "/tmp/s"]%string _ eq_refl).
Defined.

Lemma parse_args_roundtrip_witness :
  iouringd_parse_args (full_command_line "d" "/s" (8, []) (1, [6]) (0, [8]) (2, []) (7, [])
                         (1, [0; 2; 4])) =
  Ok (mk_arguments (mk_iouringd_limits 16 8 2 7 1024 8) false None "/s") /\
  iouringd_parse_args (full_command_line "d" "/s" (4, [2; 9; 4; 9; 6; 7; 3; 0; 4]) (1, [6]) (0, [8]) (2, []) (7, [])
                         (1, [0; 2; 4])) = Err EINVAL.
Proof.
  split.
  - apply (parse_args_roundtrip "d" "/s" (8, []) (1, [6]) (0, [8]) (2, []) (7, []) (1, [0; 2; 4])).
    + repeat constructor; done.
    + repeat split; done.
  - apply parse_args_roundtrip.
    + repeat constructor; done.
    + intros (H & _). vm_compute in H. by destruct H as [_ []].
Defined.

Lemma registered_slots_disjoint_witness :
  limits_supported iouringd_init_limits /\
  configure example_arguments example_ring capability_zero = Some example_runtime /\
  (iouringd_global_file_index example_runtime 2 5 <
   registered_files_count (rt_ring example_runtime)).
Proof.
  assert (Hl : limits_supported iouringd_init_limits) by (repeat split; done).
  split_and!; [exact Hl|reflexivity|].
  apply (registered_slots_disjoint example_arguments example_ring capability_zero); try done.
Defined.
