(* ===== verification/Input.v ===== *)
(** * Reading requests

    Models the input side of [src/daemon/main.c]: [iouringd_read_client_input]
    (the socket reads and the passed descriptors), [iouringd_process_submit_input]
    (how many bytes the request needs, by its kind),
    [iouringd_finish_submit_request] (the request taken out of the buffer) and
    [iouringd_service_client_readable] (the loop around them). *)

From S2P Require Import Prelude Wire Kernel Ring State Output Resources Trace Daemon.

Definition iouringd_request_header_is_valid (q : submit_request) : bool :=
  (hdr_magic (sq_header q) =? IOURINGD_PROTOCOL_WIRE_MAGIC) &&
  (hdr_version_major (sq_header q) =? IOURINGD_PROTOCOL_V1_MAJOR) &&
  (hdr_version_minor (sq_header q) =? IOURINGD_PROTOCOL_V1_MINOR) &&
  (sq_reserved1 q =? 0).

Definition iouringd_request_kind_is_control (kind : Z) : bool :=
  (IOURINGD_REQUEST_KIND_REGISTER_FD <=? kind) && (kind <=? IOURINGD_REQUEST_KIND_GET_TRACE).

Definition iouringd_submit_priority_is_valid (p : Z) : bool :=
  (p =? IOURINGD_SUBMIT_PRIORITY_NORMAL) || (p =? IOURINGD_SUBMIT_PRIORITY_LOW) ||
  (p =? IOURINGD_SUBMIT_PRIORITY_HIGH).

Definition iouringd_request_priority_is_valid (q : submit_request) : bool :=
  if (IOURINGD_TASK_KIND_NOP <=? sq_task_kind q) && (sq_task_kind q <? IOURINGD_TASK_KIND_MAX_V1)
  then iouringd_submit_priority_is_valid (sq_priority q)
  else if iouringd_request_kind_is_control (sq_task_kind q)
  then sq_priority q =? IOURINGD_SUBMIT_PRIORITY_NORMAL
  else false.

(** ** Taking a complete request out of the buffer *)

(** The fields every branch of [iouringd_finish_submit_request] assigns. *)
Definition assign_request (q : client_request) (nsec target rid brid len : Z) : client_request :=
  q <| timeout_nsec := nsec |> <| cancel_target_id := target |> <| resource_id := rid |>
    <| buffer_resource_id := brid |> <| io_length := len |>.

Definition ready_request (op : Z) (q : client_request) : client_request :=
  q <| control_op := op |> <| request_ready := true |>.

(** [memcpy(client->io_payload, client->input + off, client->io_length)] *)
Definition copy_payload (b : inbuf) (off : nat) (q : client_request) : client_request :=
  q <| io_payload := blit 0 (slice off (Z.to_nat (io_length q)) (input b)) (io_payload q) |>.

(** How the payload array goes through the updates. *)
Lemma ready_payload op q : io_payload (ready_request op q) = io_payload q.
Proof. reflexivity. Qed.
Lemma assign_payload q nsec target rid brid len :
  io_payload (assign_request q nsec target rid brid len) = io_payload q.
Proof. reflexivity. Qed.
Lemma assign_length q nsec target rid brid len :
  io_length (assign_request q nsec target rid brid len) = len.
Proof. reflexivity. Qed.
Lemma put_request_payload v q : io_payload (put_request v q) = io_payload q.
Proof. reflexivity. Qed.
Lemma put_poll_mask_payload v q : io_payload (put_poll_mask v q) = io_payload q.
Proof. reflexivity. Qed.
Lemma put_open_flags_payload v q : io_payload (put_open_flags v q) = io_payload q.
Proof. reflexivity. Qed.
Lemma put_open_mode_payload v q : io_payload (put_open_mode v q) = io_payload q.
Proof. reflexivity. Qed.
Lemma put_open_flags_length v q : io_length (put_open_flags v q) = io_length q.
Proof. reflexivity. Qed.
Lemma put_open_mode_length v q : io_length (put_open_mode v q) = io_length q.
Proof. reflexivity. Qed.
Lemma put_close_fd_payload v q : io_payload (put_close_fd v q) = io_payload q.
Proof. reflexivity. Qed.
Lemma put_trace_after_payload v q : io_payload (put_trace_after_sequence v q) = io_payload q.
Proof. reflexivity. Qed.
Lemma put_trace_max_payload v q : io_payload (put_trace_max_events v q) = io_payload q.
Proof. reflexivity. Qed.
Create Rewrite HintDb payload.
#[export] Hint Rewrite ready_payload assign_payload assign_length put_request_payload
  put_poll_mask_payload put_open_flags_payload put_open_mode_payload put_open_flags_length
  put_open_mode_length put_close_fd_payload put_trace_after_payload put_trace_max_payload : payload.

(** A branch: success or errno, and the request fields it leaves. *)
Definition finished : Type := outcome unit * client_request.

Definition finish_nop (q : client_request) : finished :=
  (Ok tt, ready_request 0 (assign_request q 0 IOURINGD_TASK_ID_INVALID IOURINGD_RESOURCE_ID_INVALID
                             IOURINGD_RESOURCE_ID_INVALID 0)).

Definition finish_timeout (b : inbuf) (q : client_request) : finished :=
  let x : timeout_request := of_wire (input b) in
  (Ok tt, ready_request 0 (assign_request (q <| request := tq_submit x |>) (tq_timeout_nsec x)
                             IOURINGD_TASK_ID_INVALID IOURINGD_RESOURCE_ID_INVALID
                             IOURINGD_RESOURCE_ID_INVALID 0)).

Definition finish_cancel (b : inbuf) (q : client_request) : finished :=
  let x : cancel_request := of_wire (input b) in
  (Ok tt, ready_request 0
            (assign_request
               (q <| request := mk_submit_request (kq_header x) (kq_task_kind x) (kq_reserved0 x)
                                  (kq_reserved1 x) |>)
               0 (kq_target x) IOURINGD_RESOURCE_ID_INVALID IOURINGD_RESOURCE_ID_INVALID 0)).

(** SOCK_READ and FILE_READ *)
Definition finish_read (b : inbuf) (q : client_request) : finished :=
  let x : rw_request := of_wire (input b) in
  (Ok tt, ready_request 0 (assign_request (q <| request := rq_submit x |>) 0
                             IOURINGD_TASK_ID_INVALID (rq_resource x)
                             IOURINGD_RESOURCE_ID_INVALID (rq_length x))).

(** SOCK_WRITE and FILE_WRITE *)
Definition finish_write (b : inbuf) (bytes_max : Z) (q : client_request) : finished :=
  let x : rw_request := of_wire (input b) in
  let q1 := assign_request (q <| request := rq_submit x |>) 0 IOURINGD_TASK_ID_INVALID
              (rq_resource x) IOURINGD_RESOURCE_ID_INVALID (rq_length x) in
  if bytes_max <? io_length q1 then (Err EMSGSIZE, q1)
  else (Ok tt, ready_request 0 (copy_payload b (wire_size rw_request) q1)).

Definition finish_poll (b : inbuf) (q : client_request) : finished :=
  let x : poll_request := of_wire (input b) in
  (Ok tt, ready_request 0 (assign_request (q <| request := pq_submit x |>) 0
                             IOURINGD_TASK_ID_INVALID (pq_resource x)
                             IOURINGD_RESOURCE_ID_INVALID 0
                             <| poll_mask := pq_poll_mask x |>)).

Definition finish_connect (b : inbuf) (bytes_max : Z) (q : client_request) : finished :=
  let x : rw_request := of_wire (input b) in
  let q1 := assign_request (q <| request := rq_submit x |>) 0 IOURINGD_TASK_ID_INVALID
              (rq_resource x) IOURINGD_RESOURCE_ID_INVALID (rq_length x) in
  if bytes_max <? io_length q1 then (Err EMSGSIZE, q1)
  else (Ok tt, ready_request 0 (copy_payload b (wire_size rw_request) q1 <| poll_mask := 0 |>)).

Definition finish_accept (b : inbuf) (q : client_request) : finished :=
  let x : rw_request := of_wire (input b) in
  (Ok tt, ready_request 0 (assign_request (q <| request := rq_submit x |>) 0
                             IOURINGD_TASK_ID_INVALID (rq_resource x)
                             IOURINGD_RESOURCE_ID_INVALID (rq_length x)
                             <| poll_mask := 0 |>)).

Definition finish_openat (b : inbuf) (bytes_max : Z) (q : client_request) : finished :=
  let x : openat_request := of_wire (input b) in
  let q1 := assign_request (q <| request := oq_submit x |>) 0 IOURINGD_TASK_ID_INVALID
              IOURINGD_RESOURCE_ID_INVALID IOURINGD_RESOURCE_ID_INVALID (oq_path_length x)
              <| open_flags := oq_open_flags x |> <| open_mode := oq_open_mode x |> in
  if bytes_max <? io_length q1 then (Err EMSGSIZE, q1)
  else
    let q2 := copy_payload b (wire_size openat_request) q1 in
    if (io_length q2 <? 2) || negb (io_payload q2 !!! Z.to_nat (io_length q2 - 1) =? 0)
    then (Err EPROTO, q2)
    else (Ok tt, ready_request 0 (q2 <| poll_mask := 0 |>)).

Definition finish_close (b : inbuf) (q : client_request) : finished :=
  let x : close_request := of_wire (input b) in
  (Ok tt, ready_request 0
            (assign_request (q <| request := lq_submit x |>) 0 IOURINGD_TASK_ID_INVALID
               (lq_resource x) IOURINGD_RESOURCE_ID_INVALID 0
               <| open_flags := 0 |> <| close_fd := -1 |> <| open_mode := 0 |>
               <| poll_mask := 0 |>)).

(** SOCK_READ_FIXED and SOCK_WRITE_FIXED *)
Definition finish_fixed (b : inbuf) (q : client_request) : finished :=
  let x : fixed_request := of_wire (input b) in
  (Ok tt, ready_request 0 (assign_request (q <| request := fq_submit x |>) 0
                             IOURINGD_TASK_ID_INVALID (fq_file_resource x)
                             (fq_buffer_resource x) (fq_length x))).

Definition finish_register_fd (q : client_request) : finished :=
  (Ok tt, ready_request IOURINGD_REQUEST_KIND_REGISTER_FD
            (assign_request q 0 IOURINGD_TASK_ID_INVALID IOURINGD_RESOURCE_ID_INVALID
               IOURINGD_RESOURCE_ID_INVALID 0)).

Definition finish_register_buffer (b : inbuf) (bytes_max : Z) (q : client_request) : finished :=
  let x : register_buffer_request := of_wire (input b) in
  let q1 := assign_request q 0 IOURINGD_TASK_ID_INVALID IOURINGD_RESOURCE_ID_INVALID
              IOURINGD_RESOURCE_ID_INVALID (bq_length x) in
  if bytes_max <? io_length q1 then (Err EMSGSIZE, q1)
  else
    let q2 := if negb (io_length q1 =? 0)
              then copy_payload b (wire_size register_buffer_request) q1 else q1 in
    (Ok tt, ready_request IOURINGD_REQUEST_KIND_REGISTER_BUFFER q2).

Definition finish_release (b : inbuf) (q : client_request) : finished :=
  let x : release_resource_request := of_wire (input b) in
  (Ok tt, ready_request IOURINGD_REQUEST_KIND_RELEASE_RESOURCE
            (assign_request q 0 IOURINGD_TASK_ID_INVALID (eq_resource x)
               IOURINGD_RESOURCE_ID_INVALID 0)).

Definition finish_get_stats (q : client_request) : finished :=
  (Ok tt, ready_request IOURINGD_REQUEST_KIND_GET_STATS
            (assign_request q 0 IOURINGD_TASK_ID_INVALID IOURINGD_RESOURCE_ID_INVALID
               IOURINGD_RESOURCE_ID_INVALID 0
               <| trace_after_sequence := 0 |> <| trace_max_events := 0 |> <| poll_mask := 0 |>)).

Definition finish_get_trace (b : inbuf) (q : client_request) : finished :=
  let x : get_trace_request := of_wire (input b) in
  (Ok tt, ready_request IOURINGD_REQUEST_KIND_GET_TRACE
            (assign_request q 0 IOURINGD_TASK_ID_INVALID IOURINGD_RESOURCE_ID_INVALID
               IOURINGD_RESOURCE_ID_INVALID 0
               <| trace_after_sequence := gq_after_sequence x |>
               <| trace_max_events := gq_max_events x |> <| poll_mask := 0 |>)).

(** The branch the request's kind selects. *)
Definition finish_by_kind (kind : Z) (b : inbuf) (bytes_max : Z) (q : client_request) : finished :=
  if kind =? IOURINGD_TASK_KIND_NOP then finish_nop q
  else if kind =? IOURINGD_TASK_KIND_TIMEOUT then finish_timeout b q
  else if kind =? IOURINGD_TASK_KIND_CANCEL then finish_cancel b q
  else if kind =? IOURINGD_TASK_KIND_SOCK_READ then finish_read b q
  else if kind =? IOURINGD_TASK_KIND_FILE_READ then finish_read b q
  else if kind =? IOURINGD_TASK_KIND_SOCK_WRITE then finish_write b bytes_max q
  else if kind =? IOURINGD_TASK_KIND_FILE_WRITE then finish_write b bytes_max q
  else if kind =? IOURINGD_TASK_KIND_POLL then finish_poll b q
  else if kind =? IOURINGD_TASK_KIND_CONNECT then finish_connect b bytes_max q
  else if kind =? IOURINGD_TASK_KIND_ACCEPT then finish_accept b q
  else if kind =? IOURINGD_TASK_KIND_OPENAT then finish_openat b bytes_max q
  else if kind =? IOURINGD_TASK_KIND_CLOSE then finish_close b q
  else if kind =? IOURINGD_TASK_KIND_SOCK_READ_FIXED then finish_fixed b q
  else if kind =? IOURINGD_TASK_KIND_SOCK_WRITE_FIXED then finish_fixed b q
  else if kind =? IOURINGD_REQUEST_KIND_REGISTER_FD then finish_register_fd q
  else if kind =? IOURINGD_REQUEST_KIND_REGISTER_BUFFER then finish_register_buffer b bytes_max q
  else if kind =? IOURINGD_REQUEST_KIND_RELEASE_RESOURCE then finish_release b q
  else if kind =? IOURINGD_REQUEST_KIND_GET_STATS then finish_get_stats q
  else if kind =? IOURINGD_REQUEST_KIND_GET_TRACE then finish_get_trace b q
  else (Err EPROTO, q).

Definition iouringd_finish_submit_request (c : client) : outcome unit * client :=
  let q := c_req c in
  if negb (iouringd_request_header_is_valid (request q)) then (Err EPROTO, c)
  else if negb (iouringd_request_priority_is_valid (request q)) then (Err EPROTO, c)
  else if negb (sq_task_kind (request q) =? IOURINGD_REQUEST_KIND_REGISTER_FD) &&
          (0 <=? c_received_fd c) then (Err EPROTO, c)
  else
    let '(rc, q') := finish_by_kind (sq_task_kind (request q)) (c_in c) (c_io_bytes_max c) q in
    match rc with
    | Ok _ => (Ok tt, c <| c_req := q' |> <| c_in := iouringd_reset_client_input (c_in c) |>)
    | Err e => (Err e, c <| c_req := q' |>)
    end.

(** ** How many bytes a request needs *)

(** [false] is the result 0 (more input is needed), [true] the result 1. *)
Definition processed : Type := outcome bool * client.

Definition finish_processed (c : client) : processed :=
  let '(rc, c') := iouringd_finish_submit_request c in
  (match rc with Ok _ => Ok true | Err e => Err e end, c').

Definition expect (n : Z) (c : client) : client := c <| c_in := c_in c <| expected_input := n |> |>.

(** [client->expected_input = n; if (client->input_len < client->expected_input)
    return 0;] and then [k] *)
Definition need (n : Z) (c : client) (k : client -> processed) : processed :=
  let c' := expect n c in
  if input_len (c_in c') <? n then (Ok false, c') else k c'.

(** The variable part behind a fixed part of [size] bytes: [n] bytes more, if
    they fit the input array. *)
Definition need_payload (size : nat) (n : Z) (c : client) : processed :=
  let total := u64 (Z.of_nat size + n) in
  if Z.of_nat IOURINGD_MAX_REQUEST_BYTES <? total then (Err EPROTO, expect total c)
  else need total c finish_processed.

Definition process_poll (c : client) : processed :=
  need (Z.of_nat (wire_size poll_request)) c (fun c =>
    if negb (pq_reserved2 (of_wire (input (c_in c))) =? 0) then (Err EPROTO, c)
    else finish_processed c).

Definition process_connect_rest (c : client) : processed :=
  let x : rw_request := of_wire (input (c_in c)) in
  if (rq_length x =? 0) || (c_io_bytes_max c <? rq_length x) || (UINT16_MAX <? rq_length x)
  then (Err EPROTO, c)
  else need_payload (wire_size rw_request) (rq_length x) c.

Definition process_connect (c : client) : processed :=
  need (Z.of_nat (wire_size rw_request)) c process_connect_rest.

Definition process_accept (c : client) : processed :=
  need (Z.of_nat (wire_size rw_request)) c (fun c =>
    let x : rw_request := of_wire (input (c_in c)) in
    if (c_io_bytes_max c <? rq_length x) || (UINT16_MAX <? rq_length x) then (Err EPROTO, c)
    else finish_processed c).

Definition process_openat_rest (c : client) : processed :=
  let x : openat_request := of_wire (input (c_in c)) in
  if (oq_path_length x <? 2) || (c_io_bytes_max c <? oq_path_length x) then (Err EPROTO, c)
  else need_payload (wire_size openat_request) (oq_path_length x) c.

Definition process_openat (c : client) : processed :=
  need (Z.of_nat (wire_size openat_request)) c process_openat_rest.

Definition process_close (c : client) : processed :=
  need (Z.of_nat (wire_size close_request)) c (fun c =>
    if negb (lq_reserved2 (of_wire (input (c_in c))) =? 0) then (Err EPROTO, c)
    else finish_processed c).

Definition process_get_trace (c : client) : processed :=
  need (Z.of_nat (wire_size get_trace_request)) c (fun c =>
    let x : get_trace_request := of_wire (input (c_in c)) in
    if (Z.of_nat IOURINGD_TRACE_CAPACITY <? gq_max_events x) || negb (gq_reserved2 x =? 0)
    then (Err EPROTO, c)
    else finish_processed c).

Definition process_register_buffer_rest (c : client) : processed :=
  let x : register_buffer_request := of_wire (input (c_in c)) in
  if (c_io_bytes_max c <? bq_length x) || negb (bq_reserved2 x =? 0) then (Err EPROTO, c)
  else need_payload (wire_size register_buffer_request) (bq_length x) c.

Definition process_register_buffer (c : client) : processed :=
  need (Z.of_nat (wire_size register_buffer_request)) c process_register_buffer_rest.

Definition process_write_rest (c : client) : processed :=
  let x : rw_request := of_wire (input (c_in c)) in
  if (rq_length x =? 0) || (c_io_bytes_max c <? rq_length x) then (Err EPROTO, c)
  else need_payload (wire_size rw_request) (rq_length x) c.

Definition process_write (c : client) : processed :=
  need (Z.of_nat (wire_size rw_request)) c process_write_rest.

Definition process_by_kind (kind : Z) (c : client) : processed :=
  if (kind =? IOURINGD_TASK_KIND_TIMEOUT) || (kind =? IOURINGD_TASK_KIND_CANCEL) then
    need (Z.of_nat (wire_size cancel_request)) c finish_processed
  else if (kind =? IOURINGD_TASK_KIND_SOCK_READ) || (kind =? IOURINGD_TASK_KIND_FILE_READ) then
    need (Z.of_nat (wire_size rw_request)) c finish_processed
  else if kind =? IOURINGD_TASK_KIND_POLL then process_poll c
  else if kind =? IOURINGD_TASK_KIND_CONNECT then process_connect c
  else if kind =? IOURINGD_TASK_KIND_ACCEPT then process_accept c
  else if kind =? IOURINGD_TASK_KIND_OPENAT then process_openat c
  else if kind =? IOURINGD_TASK_KIND_CLOSE then process_close c
  else if kind =? IOURINGD_TASK_KIND_SOCK_READ_FIXED then
    need (Z.of_nat (wire_size fixed_request)) c finish_processed
  else if kind =? IOURINGD_REQUEST_KIND_RELEASE_RESOURCE then
    need (Z.of_nat (wire_size release_resource_request)) c finish_processed
  else if kind =? IOURINGD_REQUEST_KIND_GET_STATS then
    need (Z.of_nat (wire_size control_request)) c finish_processed
  else if kind =? IOURINGD_REQUEST_KIND_GET_TRACE then process_get_trace c
  else if kind =? IOURINGD_TASK_KIND_SOCK_WRITE_FIXED then
    need (Z.of_nat (wire_size fixed_request)) c finish_processed
  else if kind =? IOURINGD_REQUEST_KIND_REGISTER_BUFFER then process_register_buffer c
  else if (kind =? IOURINGD_TASK_KIND_SOCK_WRITE) || (kind =? IOURINGD_TASK_KIND_FILE_WRITE) then
    process_write c
  else finish_processed c.

Definition iouringd_process_submit_input (c : client) : processed :=
  if input_len (c_in c) <? Z.of_nat (wire_size submit_request) then
    (Ok false, expect (Z.of_nat (wire_size submit_request)) c)
  else
    let q : submit_request := of_wire (input (c_in c)) in
    let c1 := c <| c_req := c_req c <| request := q |> |> in
    if negb (iouringd_request_header_is_valid q) then (Err EPROTO, c1)
    else process_by_kind (sq_task_kind q) c1.

(** ** Reading from the socket *)

(** The result of [iouringd_read_client_input]: 0, 1, or [*closed]. *)
Inductive read_status := ReadMore | ReadDone | ReadClosed.

(** The descriptors of the control messages: the first one is kept in
    [received_fd]; the result, [received_fd], and the descriptors closed. *)
Fixpoint take_cmsgs (received_fd : Z) (l : list cmsg) : outcome unit * Z * list Z :=
  match l with
  | [] => (Ok tt, received_fd, [])
  | CmsgOther :: _ => (Err EPROTO, received_fd, [])
  | CmsgRights fds :: rest =>
      match fds with
      | [fd] =>
          if 0 <=? received_fd then (Err EPROTO, received_fd, [fd])
          else take_cmsgs fd rest
      | _ => (Err EPROTO, received_fd, [])
      end
  end.

Section Read.
Context {W : Type} `{Kernel W}.

(** One round of the loop: what it returns, if it does, the client and the
    descriptors closed. *)
Definition read_round (w : W) (c : client)
    : option (outcome read_status) * client * list Z * W :=
  let b := c_in c in
  let '(rc, w') := k_recvmsg w (c_fd c) (Z.to_nat (expected_input b - input_len b)) in
  match rc with
  | Err e => (Some (if e =? EAGAIN then Ok ReadMore else Err e), c, [], w')
  | Ok m =>
      if (length (msg_data m) =? 0)%nat then
        (Some (if input_len b =? 0 then Ok ReadClosed else Err EPROTO), c, [], w')
      else
        let c1 := c <| c_in := b <| input := blit (Z.to_nat (input_len b)) (msg_data m)
                                               (input b) |> |> in
        if msg_ctrunc m then (Some (Err EPROTO), c1, [], w')
        else
          let '(rc', fd, closed) := take_cmsgs (c_received_fd c) (msg_cmsgs m) in
          let c2 := c1 <| c_received_fd := fd |> in
          match rc' with
          | Err e => (Some (Err e), c2, closed, w')
          | Ok _ =>
              (None,
               c2 <| c_in := c_in c2 <| input_len :=
                       u64 (input_len b + Z.of_nat (length (msg_data m))) |> |>,
               closed, w')
          end
  end.

(** [fuel] bounds the rounds: each takes at least one of the missing bytes. *)
Fixpoint read_loop (fuel : nat) (w : W) (c : client)
    : outcome read_status * client * list Z * W :=
  match fuel with
  | O => (Ok ReadMore, c, [], w)
  | S fuel' =>
      if input_len (c_in c) <? expected_input (c_in c) then
        let '(r, c', closed, w') := read_round w c in
        match r with
        | Some rc => (rc, c', closed, w')
        | None =>
            let '(rc, c'', closed', w'') := read_loop fuel' w' c' in
            (rc, c'', closed ++ closed', w'')
        end
      else (Ok ReadDone, c, [], w)
  end.

Definition iouringd_read_client_input (w : W) (c : client)
    : outcome read_status * client * list Z * W :=
  read_loop (S (Z.to_nat (expected_input (c_in c) - input_len (c_in c)))) w c.

Definition read_client_input (i : nat) : DM (W := W) read_status :=
  fun s =>
    let '(rc, c, closed, w) := iouringd_read_client_input (s_world s) (the_client s i) in
    (rc, s <| s_rt := s_rt s <| rt_clients := <[i := c]> (rt_clients (s_rt s)) |> |>
           <| s_world := w |> <| s_closed := s_closed s ++ closed |>).

Definition process_submit_input (i : nat) : DM (W := W) bool :=
  fun s =>
    let '(rc, c) := iouringd_process_submit_input (the_client s i) in
    (rc, s <| s_rt := s_rt s <| rt_clients := <[i := c]> (rt_clients (s_rt s)) |> |>).

(** One round of the loop of [iouringd_service_client_readable], with what the loop
    does [next] when it goes on; the result is whether there was progress. *)
Definition service_round (next : DM (W := W) bool) (i : nat) (progress : bool) : DM (W := W) bool :=
  c <- get_client i ;;
  if negb ((0 <=? c_fd c) && negb (request_ready (c_req c))) then mret progress
  else
    rc <- mtry (read_client_input i) ;;
    match rc with
    | Ok ReadClosed | Err _ => close_client i ;;; mret true
    | Ok ReadMore => mret progress
    | Ok ReadDone =>
        c <- get_client i ;;
        match c_phase c with
        | IOURINGD_CLIENT_PHASE_HANDSHAKE =>
            iouringd_queue_handshake_result i (of_wire (input (c_in c))) ;;; mret true
        | IOURINGD_CLIENT_PHASE_SUBMIT =>
            pr <- mtry (process_submit_input i) ;;
            match pr with
            | Err _ => close_client i ;;; mret true
            | Ok _ =>
                c' <- get_client i ;;
                if request_ready (c_req c') then mret true else next
            end
        end
    end.

(** No [errno]: the loop was cut off. *)
Definition OUT_OF_ROUNDS : Z := -1.

(** The loop.  Every round but the last completes a longer part of the request, so
    the size of the input array bounds the rounds. *)
Fixpoint service_loop (fuel : nat) (i : nat) (progress : bool) : DM (W := W) bool :=
  match fuel with
  | O => mfail OUT_OF_ROUNDS
  | S fuel' => service_round (service_loop fuel' i true) i progress
  end.

Definition iouringd_service_client_readable (i : nat) : DM (W := W) bool :=
  service_loop (S IOURINGD_MAX_REQUEST_BYTES) i false.
End Read.
