(* ===== verification/Request.v ===== *)
(** * Requests on the wire

    The abstract view of the request protocol: [wire_request] is what a client
    asks for, [encode] the bytes that ask for it, [request_view] what the
    daemon's request fields stand for.  The theorems show that the daemon's
    incremental parser is a left inverse of the encoding on a byte stream, reads
    exactly the bytes of one request, and never makes a malformed request
    ready. *)

From S2P Require Import Prelude Wire Kernel Ring State Output Resources Trace Daemon Input.

Inductive wire_request :=
| WNop (priority : Z)
| WTimeout (priority nsec : Z)
| WCancel (priority target : Z)
| WRead (file : bool) (priority resource length : Z)
| WWrite (file : bool) (priority resource : Z) (payload : bytes)
| WPoll (priority resource mask : Z)
| WConnect (priority resource : Z) (sockaddr : bytes)
| WAccept (priority resource sockaddr_length : Z)
| WOpenat (priority flags mode : Z) (path : bytes)
| WClose (priority resource : Z)
| WFixed (write : bool) (priority file_resource buffer_resource length : Z)
| WRegisterFd
| WRegisterBuffer (content : bytes)
| WRelease (resource : Z)
| WGetStats
| WGetTrace (after max : Z).

Definition wire_kind (r : wire_request) : Z :=
  match r with
  | WNop _ => IOURINGD_TASK_KIND_NOP
  | WTimeout _ _ => IOURINGD_TASK_KIND_TIMEOUT
  | WCancel _ _ => IOURINGD_TASK_KIND_CANCEL
  | WRead file _ _ _ => if file then IOURINGD_TASK_KIND_FILE_READ else IOURINGD_TASK_KIND_SOCK_READ
  | WWrite file _ _ _ => if file then IOURINGD_TASK_KIND_FILE_WRITE else IOURINGD_TASK_KIND_SOCK_WRITE
  | WPoll _ _ _ => IOURINGD_TASK_KIND_POLL
  | WConnect _ _ _ => IOURINGD_TASK_KIND_CONNECT
  | WAccept _ _ _ => IOURINGD_TASK_KIND_ACCEPT
  | WOpenat _ _ _ _ => IOURINGD_TASK_KIND_OPENAT
  | WClose _ _ => IOURINGD_TASK_KIND_CLOSE
  | WFixed write _ _ _ _ => if write then IOURINGD_TASK_KIND_SOCK_WRITE_FIXED
                            else IOURINGD_TASK_KIND_SOCK_READ_FIXED
  | WRegisterFd => IOURINGD_REQUEST_KIND_REGISTER_FD
  | WRegisterBuffer _ => IOURINGD_REQUEST_KIND_REGISTER_BUFFER
  | WRelease _ => IOURINGD_REQUEST_KIND_RELEASE_RESOURCE
  | WGetStats => IOURINGD_REQUEST_KIND_GET_STATS
  | WGetTrace _ _ => IOURINGD_REQUEST_KIND_GET_TRACE
  end.

Definition wire_priority (r : wire_request) : Z :=
  match r with
  | WNop p | WTimeout p _ | WCancel p _ | WRead _ p _ _ | WWrite _ p _ _ | WPoll p _ _
  | WConnect p _ _ | WAccept p _ _ | WOpenat p _ _ _ | WClose p _ | WFixed _ p _ _ _ => p
  | _ => 0
  end.

(** The submit part every request starts with. *)
Definition wire_head (r : wire_request) : submit_request :=
  mk_submit_request protocol_header_v1 (wire_kind r) (wire_priority r) 0.
Definition wire_control (r : wire_request) : control_request :=
  mk_control_request protocol_header_v1 (wire_kind r) (wire_priority r) 0.

Definition encode (r : wire_request) : bytes :=
  let h := wire_head r in
  let k := wire_control r in
  match r with
  | WNop _ => to_wire h
  | WTimeout _ nsec => to_wire (mk_timeout_request h nsec)
  | WCancel p target => to_wire (mk_cancel_request protocol_header_v1 (wire_kind r) p 0 target)
  | WRead _ _ rid len => to_wire (mk_rw_request h rid len)
  | WWrite _ _ rid payload => to_wire (mk_rw_request h rid (Z.of_nat (length payload))) ++ payload
  | WPoll _ rid mask => to_wire (mk_poll_request h rid mask 0)
  | WConnect _ rid sockaddr => to_wire (mk_rw_request h rid (Z.of_nat (length sockaddr))) ++ sockaddr
  | WAccept _ rid len => to_wire (mk_rw_request h rid len)
  | WOpenat _ flags mode path =>
      to_wire (mk_openat_request h flags mode (Z.of_nat (length path))) ++ path
  | WClose _ rid => to_wire (mk_close_request h rid 0)
  | WFixed _ _ frid brid len => to_wire (mk_fixed_request h frid brid len)
  | WRegisterFd => to_wire k
  | WRegisterBuffer content =>
      to_wire (mk_register_buffer_request k (Z.of_nat (length content)) 0) ++ content
  | WRelease rid => to_wire (mk_release_resource_request k rid 0)
  | WGetStats => to_wire k
  | WGetTrace after max => to_wire (mk_get_trace_request k after max 0)
  end.

(** The requests the protocol allows under a limit on payloads. *)
Definition valid_request (bytes_max : Z) (r : wire_request) : Prop :=
  match r with
  | WNop p => iouringd_submit_priority_is_valid p = true
  | WTimeout p nsec => iouringd_submit_priority_is_valid p = true /\ fits 64 nsec
  | WCancel p target => iouringd_submit_priority_is_valid p = true /\ fits 64 target
  | WRead _ p rid len => iouringd_submit_priority_is_valid p = true /\ fits 32 rid /\ fits 32 len
  | WWrite _ p rid payload =>
      iouringd_submit_priority_is_valid p = true /\ fits 32 rid /\
      1 <= Z.of_nat (length payload) <= bytes_max
  | WPoll p rid mask => iouringd_submit_priority_is_valid p = true /\ fits 32 rid /\ fits 16 mask
  | WConnect p rid sockaddr =>
      iouringd_submit_priority_is_valid p = true /\ fits 32 rid /\
      1 <= Z.of_nat (length sockaddr) <= bytes_max
  | WAccept p rid len =>
      iouringd_submit_priority_is_valid p = true /\ fits 32 rid /\ 0 <= len <= bytes_max
  | WOpenat p flags mode path =>
      iouringd_submit_priority_is_valid p = true /\ fits_i32 flags /\ fits 32 mode /\
      2 <= Z.of_nat (length path) <= bytes_max /\ last path = Some 0 /\
      Z.of_nat (wire_size openat_request + length path) <= Z.of_nat IOURINGD_MAX_REQUEST_BYTES
  | WClose p rid => iouringd_submit_priority_is_valid p = true /\ fits 32 rid
  | WFixed _ p frid brid len =>
      iouringd_submit_priority_is_valid p = true /\ fits 32 frid /\ fits 32 brid /\ fits 32 len
  | WRegisterFd | WGetStats => True
  | WRegisterBuffer content => Z.of_nat (length content) <= bytes_max
  | WRelease rid => fits 32 rid
  | WGetTrace after max => fits 64 after /\ 0 <= max <= Z.of_nat IOURINGD_TRACE_CAPACITY
  end.

(** What the request fields of a client stand for, by the request's kind. *)
Definition payload_view (q : client_request) : bytes := take (Z.to_nat (io_length q)) (io_payload q).

Definition request_view (q : client_request) : option wire_request :=
  let kind := sq_task_kind (request q) in
  let p := sq_priority (request q) in
  if kind =? IOURINGD_TASK_KIND_NOP then Some (WNop p)
  else if kind =? IOURINGD_TASK_KIND_TIMEOUT then Some (WTimeout p (timeout_nsec q))
  else if kind =? IOURINGD_TASK_KIND_CANCEL then Some (WCancel p (cancel_target_id q))
  else if kind =? IOURINGD_TASK_KIND_SOCK_READ then Some (WRead false p (resource_id q) (io_length q))
  else if kind =? IOURINGD_TASK_KIND_FILE_READ then Some (WRead true p (resource_id q) (io_length q))
  else if kind =? IOURINGD_TASK_KIND_SOCK_WRITE then Some (WWrite false p (resource_id q) (payload_view q))
  else if kind =? IOURINGD_TASK_KIND_FILE_WRITE then Some (WWrite true p (resource_id q) (payload_view q))
  else if kind =? IOURINGD_TASK_KIND_POLL then Some (WPoll p (resource_id q) (poll_mask q))
  else if kind =? IOURINGD_TASK_KIND_CONNECT then Some (WConnect p (resource_id q) (payload_view q))
  else if kind =? IOURINGD_TASK_KIND_ACCEPT then Some (WAccept p (resource_id q) (io_length q))
  else if kind =? IOURINGD_TASK_KIND_OPENAT then
    Some (WOpenat p (open_flags q) (open_mode q) (payload_view q))
  else if kind =? IOURINGD_TASK_KIND_CLOSE then Some (WClose p (resource_id q))
  else if kind =? IOURINGD_TASK_KIND_SOCK_READ_FIXED then
    Some (WFixed false p (resource_id q) (buffer_resource_id q) (io_length q))
  else if kind =? IOURINGD_TASK_KIND_SOCK_WRITE_FIXED then
    Some (WFixed true p (resource_id q) (buffer_resource_id q) (io_length q))
  else if kind =? IOURINGD_REQUEST_KIND_REGISTER_FD then Some WRegisterFd
  else if kind =? IOURINGD_REQUEST_KIND_REGISTER_BUFFER then Some (WRegisterBuffer (payload_view q))
  else if kind =? IOURINGD_REQUEST_KIND_RELEASE_RESOURCE then Some (WRelease (resource_id q))
  else if kind =? IOURINGD_REQUEST_KIND_GET_STATS then Some WGetStats
  else if kind =? IOURINGD_REQUEST_KIND_GET_TRACE then
    Some (WGetTrace (trace_after_sequence q) (trace_max_events q))
  else None.

(** ** The client's input side as a reader of a byte stream *)

(** The read of the missing bytes from the front of a stream. *)
Definition deliver (c : client) (stream : bytes) : client * bytes :=
  let b := c_in c in
  let n := Z.to_nat (expected_input b - input_len b) in
  let got := take n stream in
  (c <| c_in := b <| input := blit (Z.to_nat (input_len b)) got (input b) |>
                  <| input_len := input_len b + Z.of_nat (length got) |> |>,
   drop n stream).

(** Reads and parser rounds until the parser is done; [None] when [fuel] rounds
    do not complete a request. *)
Fixpoint read_request (fuel : nat) (c : client) (stream : bytes)
    : option (outcome client * bytes) :=
  match fuel with
  | O => None
  | S fuel' =>
      let '(c1, rest) := deliver c stream in
      let '(rc, c2) := iouringd_process_submit_input c1 in
      match rc with
      | Err e => Some (Err e, rest)
      | Ok true => Some (Ok c2, rest)
      | Ok false => read_request fuel' c2 rest
      end
  end.

(** ** Parsing what was encoded *)

(** The first [n] bytes of [stream] are in the buffer, and [total] are wanted. *)
Record holds (c : client) (stream : bytes) (n : nat) : Prop := {
  ho_len : input_len (c_in c) = Z.of_nat n;
  ho_array : length (input (c_in c)) = IOURINGD_MAX_REQUEST_BYTES;
  ho_n : (n <= IOURINGD_MAX_REQUEST_BYTES)%nat;
  ho_bytes : take n (input (c_in c)) = take n stream;
}.

(** A client between two requests. *)
Record idle_client (c : client) : Prop := {
  ic_len : input_len (c_in c) = 0;
  ic_expected : expected_input (c_in c) = Z.of_nat (wire_size submit_request);
  ic_array : length (input (c_in c)) = IOURINGD_MAX_REQUEST_BYTES;
  ic_payload : length (io_payload (c_req c)) = IOURINGD_MAX_IO_BYTES;
  ic_received : c_received_fd c < 0;
  ic_max : 0 <= c_io_bytes_max c <= Z.of_nat IOURINGD_MAX_IO_BYTES;
}.

Lemma dec_take ws bs n : (sum_list ws <= n)%nat -> dec ws (take n bs) = dec ws bs.
Proof.
  revert bs n. induction ws as [|w ws IH]; intros bs n Hn; cbn [dec]; [done|].
  simpl in Hn. rewrite take_take, Nat.min_l by lia. f_equal.
  replace n with (w + (n - w))%nat by lia. rewrite <- take_drop_commute. apply IH. lia.
Qed.

Lemma holds_of_wire {A} `{Wire A} c stream n :
  holds c stream n -> (wire_size A <= n)%nat ->
  of_wire (A := A) (input (c_in c)) = of_wire stream.
Proof.
  intros Hh Hn. unfold of_wire. f_equal. rewrite <- (dec_take _ _ n) by exact Hn.
  rewrite (ho_bytes _ _ _ Hh). by apply dec_take.
Qed.

Lemma holds_slice c stream n off len :
  holds c stream n -> (off + len <= n)%nat ->
  slice off len (input (c_in c)) = slice off len stream.
Proof.
  intros Hh Hn. unfold slice.
  assert (E : forall l : bytes, take len (drop off l) = take len (drop off (take n l))).
  { intros l. replace n with (off + (n - off))%nat by lia.
    rewrite <- take_drop_commute, take_take, Nat.min_l by lia. done. }
  rewrite (E (input _)), (E stream), (ho_bytes _ _ _ Hh). done.
Qed.

(** The parts of a client the parser's rounds depend on besides the buffer. *)
Record parse_env (c : client) : Prop := {
  pe_payload : length (io_payload (c_req c)) = IOURINGD_MAX_IO_BYTES;
  pe_received : c_received_fd c < 0;
  pe_max : 0 <= c_io_bytes_max c <= Z.of_nat IOURINGD_MAX_IO_BYTES;
}.

(** A round starts: [n] bytes are in, [m] are wanted. *)
Record wants (c : client) (stream : bytes) (n m : nat) (bytes_max : Z) : Prop := {
  wa_holds : holds c stream n;
  wa_expected : expected_input (c_in c) = Z.of_nat m;
  wa_env : parse_env c;
  wa_max : c_io_bytes_max c = bytes_max;
}.

Lemma idle_wants c stream : idle_client c -> wants c stream 0 16 (c_io_bytes_max c).
Proof.
  intros [H1 H2 H3 H4 H5 H6]. constructor; [constructor|..]; try done.
  unfold IOURINGD_MAX_REQUEST_BYTES. lia.
Qed.

Lemma deliver_wants c stream n m B :
  wants c stream n m B -> (n <= m <= length stream)%nat -> (m <= IOURINGD_MAX_REQUEST_BYTES)%nat ->
  exists c', deliver c (drop n stream) = (c', drop m stream) /\ wants c' stream m m B.
Proof.
  intros [[H1 H2 H3 H4] He [P1 P2 P3] HB] Hnm Hm. unfold deliver. rewrite H1, He.
  replace (Z.to_nat (Z.of_nat m - Z.of_nat n)) with (m - n)%nat by lia.
  rewrite drop_drop. replace (n + (m - n))%nat with m by lia.
  eexists. split; [reflexivity|].
  assert (Hl : length (take (m - n) (drop n stream)) = (m - n)%nat)
    by (rewrite length_take, length_drop; lia).
  constructor; [constructor|..]; simpl; rewrite ?Hl, ?Nat2Z.id; try done.
  - lia.
  - rewrite length_blit; [done|]. rewrite Hl. lia.
  - replace m with (n + length (take (m - n) (drop n stream)))%nat at 1 by lia.
    rewrite take_blit by lia. rewrite H4.
    rewrite take_take_drop. f_equal. lia.
Qed.


(** The header is read again in every round. *)
Lemma process_wants c stream n B h :
  wants c stream n n B -> (16 <= n)%nat -> of_wire stream = h ->
  iouringd_request_header_is_valid h = true ->
  iouringd_process_submit_input c =
    process_by_kind (sq_task_kind h) (c <| c_req := c_req c <| request := h |> |>) /\
  wants (c <| c_req := c_req c <| request := h |> |>) stream n n B.
Proof.
  intros [Hh He [P1 P2 P3] HB] Hn Hw Hv. split.
  - unfold iouringd_process_submit_input. rewrite (ho_len _ _ _ Hh).
    change (wire_size submit_request) with 16%nat.
    destruct (_ <? _) eqn:E; bool_hyps; [lia|].
    rewrite (holds_of_wire c stream n Hh), Hw by exact Hn. by rewrite Hv.
  - destruct Hh. constructor; [constructor|..]; done.
Qed.

Lemma need_more c stream n B m k :
  wants c stream n n B -> (n < m)%nat ->
  exists c', need (Z.of_nat m) c k = (Ok false, c') /\ wants c' stream n m B.
Proof.
  intros [Hh He [P1 P2 P3] HB] Hm. unfold need. simpl. rewrite (ho_len _ _ _ Hh).
  destruct (_ <? _) eqn:E; bool_hyps; [|lia]. eexists. split; [reflexivity|].
  destruct Hh. constructor; [constructor|..]; done.
Qed.

Lemma need_done c stream n B m k :
  wants c stream n n B -> (m <= n)%nat ->
  exists c', need (Z.of_nat m) c k = k c' /\ wants c' stream n m B /\
             c' = c <| c_in := c_in c <| expected_input := Z.of_nat m |> |>.
Proof.
  intros [Hh He [P1 P2 P3] HB] Hm. unfold need. simpl. rewrite (ho_len _ _ _ Hh).
  destruct (_ <? _) eqn:E; bool_hyps; [lia|]. eexists. split; [reflexivity|]. split; [|done].
  destruct Hh. constructor; [constructor|..]; done.
Qed.


(** The parser's success: the request is ready, it is [r], and the input side
    is back between two requests. *)
Record parsed (c : client) (r : wire_request) : Prop := {
  pa_ready : request_ready (c_req c) = true;
  pa_view : request_view (c_req c) = Some r;
  pa_len : input_len (c_in c) = 0;
  pa_expected : expected_input (c_in c) = Z.of_nat (wire_size submit_request);
}.

Lemma read_request_more fuel c stream n m m' B :
  wants c stream n m B -> (n <= m <= length stream)%nat -> (m <= IOURINGD_MAX_REQUEST_BYTES)%nat ->
  (forall c1, wants c1 stream m m B ->
     exists c2, iouringd_process_submit_input c1 = (Ok false, c2) /\ wants c2 stream m m' B) ->
  exists c2, read_request (S fuel) c (drop n stream) = read_request fuel c2 (drop m stream) /\
             wants c2 stream m m' B.
Proof.
  intros Hw Hn Hm Hp. destruct (deliver_wants _ _ _ _ _ Hw Hn Hm) as (c1 & Hd & Hw1).
  destruct (Hp c1 Hw1) as (c2 & Hpr & Hw2). exists c2. split; [|done].
  cbn [read_request]. by rewrite Hd, Hpr.
Qed.

Lemma read_request_done fuel c stream n m B r :
  wants c stream n m B -> (n <= m <= length stream)%nat -> (m <= IOURINGD_MAX_REQUEST_BYTES)%nat ->
  (forall c1, wants c1 stream m m B ->
     exists c2, iouringd_process_submit_input c1 = (Ok true, c2) /\ parsed c2 r) ->
  exists c2, read_request (S fuel) c (drop n stream) = Some (Ok c2, drop m stream) /\ parsed c2 r.
Proof.
  intros Hw Hn Hm Hp. destruct (deliver_wants _ _ _ _ _ Hw Hn Hm) as (c1 & Hd & Hw1).
  destruct (Hp c1 Hw1) as (c2 & Hpr & Hr). exists c2. split; [|done].
  cbn [read_request]. by rewrite Hd, Hpr.
Qed.

(** The last step, once every byte is in. *)
Lemma finish_parsed c r q' :
  request (c_req c) = wire_head r -> c_received_fd c < 0 ->
  iouringd_request_priority_is_valid (wire_head r) = true ->
  finish_by_kind (wire_kind r) (c_in c) (c_io_bytes_max c) (c_req c) = (Ok tt, q') ->
  request_ready q' = true -> request_view q' = Some r ->
  exists c2, finish_processed c = (Ok true, c2) /\ parsed c2 r.
Proof.
  intros Hq Hrc Hpr Hf Hr Hv. unfold finish_processed, iouringd_finish_submit_request.
  rewrite Hq, Hpr. change (sq_task_kind (wire_head r)) with (wire_kind r).
  replace (0 <=? c_received_fd c) with false by (symmetry; apply Z.leb_gt; lia).
  rewrite andb_false_r. change (iouringd_request_header_is_valid (wire_head r)) with true.
  cbn [negb]. rewrite Hf. eexists. split; [reflexivity|]. constructor; done.
Qed.

Lemma priority_ok r p :
  1 <= wire_kind r < 15 -> wire_priority r = p -> iouringd_submit_priority_is_valid p = true ->
  iouringd_request_priority_is_valid (wire_head r) = true.
Proof.
  intros Hk Hp Hv. unfold iouringd_request_priority_is_valid.
  change (sq_task_kind (wire_head r)) with (wire_kind r).
  change (sq_priority (wire_head r)) with (wire_priority r). rewrite Hp.
  unfold IOURINGD_TASK_KIND_NOP, IOURINGD_TASK_KIND_MAX_V1.
  destruct (1 <=? wire_kind r) eqn:E1, (wire_kind r <? 15) eqn:E2; bool_hyps; try lia. exact Hv.
Qed.

Lemma priority_fits p : iouringd_submit_priority_is_valid p = true -> 0 <= p < 3.
Proof.
  unfold iouringd_submit_priority_is_valid, IOURINGD_SUBMIT_PRIORITY_NORMAL,
    IOURINGD_SUBMIT_PRIORITY_LOW, IOURINGD_SUBMIT_PRIORITY_HIGH.
  intros H. repeat rewrite orb_true_iff in H. rewrite !Z.eqb_eq in H. lia.
Qed.

Lemma valid_priority B r : 0 <= B -> valid_request B r ->
  iouringd_request_priority_is_valid (wire_head r) = true /\ 0 <= wire_priority r < 3.
Proof.
  intros HB Hv.
  destruct r; simpl in Hv |- *; destruct_and?; try (split; [reflexivity|lia]);
    (split; [eapply priority_ok; [|reflexivity|eassumption]|by apply priority_fits]);
    try destruct file; try destruct write; by vm_compute.
Qed.

Lemma encode_prefix r : exists tail, encode r = to_wire (wire_head r) ++ tail.
Proof. destruct r; eexists; try reflexivity. Qed.

Lemma max_request_bytes : IOURINGD_MAX_REQUEST_BYTES = 4120%nat.
Proof. reflexivity. Qed.

Section Rounds.
Context (stream : bytes) (B : Z) (r : wire_request).
Context (Hhead : of_wire stream = wire_head r).

Lemma header_valid_head : iouringd_request_header_is_valid (wire_head r) = true.
Proof. reflexivity. Qed.

(** A request that is its header alone. *)
Lemma one_round c :
  wants c stream 0 16 B -> (16 <= length stream)%nat ->
  (forall c1, wants c1 stream 16 16 B -> request (c_req c1) = wire_head r ->
     exists c2, process_by_kind (wire_kind r) c1 = (Ok true, c2) /\ parsed c2 r) ->
  exists c2, read_request 3 c stream = Some (Ok c2, drop 16 stream) /\ parsed c2 r.
Proof.
  intros Hw Hl Hk. change (read_request 3 c stream) with (read_request 3 c (drop 0 stream)).
  apply (read_request_done 2 c stream 0 16 B r Hw); [lia|rewrite max_request_bytes; lia|].
  intros c1 Hw1.
  destruct (process_wants c1 stream 16 B _ Hw1 ltac:(lia) Hhead header_valid_head) as [-> Hw2].
  by apply Hk.
Qed.

Context (sz : nat) (k : client -> processed).
Context (Hkind : forall c, process_by_kind (wire_kind r) c = need (Z.of_nat sz) c k).
Context (Hsz : (16 < sz)%nat) (Hmax : (sz <= 32)%nat).

Lemma first_round c :
  wants c stream 0 16 B -> (16 <= length stream)%nat ->
  exists c1, read_request 3 c stream = read_request 2 c1 (drop 16 stream) /\
             wants c1 stream 16 sz B.
Proof.
  intros Hw Hl. change (read_request 3 c stream) with (read_request 3 c (drop 0 stream)).
  apply (read_request_more 2 c stream 0 16 sz B Hw);
    [lia|rewrite max_request_bytes; lia|].
  intros c1 Hw1.
  destruct (process_wants c1 stream 16 B _ Hw1 ltac:(lia) Hhead header_valid_head) as [-> Hw2].
  change (sq_task_kind (wire_head r)) with (wire_kind r). rewrite Hkind.
  apply need_more; [done|lia].
Qed.

(** A request of a fixed size. *)
Lemma two_rounds c :
  wants c stream 0 16 B -> (sz <= length stream)%nat ->
  (forall c1, wants c1 stream sz sz B -> request (c_req c1) = wire_head r ->
     exists c2, k c1 = (Ok true, c2) /\ parsed c2 r) ->
  exists c2, read_request 3 c stream = Some (Ok c2, drop sz stream) /\ parsed c2 r.
Proof.
  intros Hw Hl Hk. destruct (first_round c Hw ltac:(lia)) as (c1 & -> & Hw1).
  apply (read_request_done 1 c1 stream 16 sz B r Hw1);
    [lia|rewrite max_request_bytes; lia|].
  intros c2 Hw2.
  destruct (process_wants c2 stream sz B _ Hw2 ltac:(lia) Hhead header_valid_head) as [-> Hw3].
  change (sq_task_kind (wire_head r)) with (wire_kind r). rewrite Hkind.
  destruct (need_done _ stream sz B sz k Hw3 ltac:(lia)) as (c3 & -> & Hw4 & ->).
  by apply Hk.
Qed.

(** A fixed part with a payload of [len] bytes behind it. *)
Context (len : nat) (Hlen : (len <= IOURINGD_MAX_IO_BYTES)%nat).
Context (Htot : (sz + len <= IOURINGD_MAX_REQUEST_BYTES)%nat).
Context (Hpay : forall n c1, (sz <= n)%nat -> wants c1 stream n sz B ->
                k c1 = need_payload sz (Z.of_nat len) c1).

Lemma need_payload_need c1 :
  need_payload sz (Z.of_nat len) c1 = need (Z.of_nat (sz + len)) c1 finish_processed.
Proof.
  unfold need_payload. unfold IOURINGD_MAX_IO_BYTES in *.
  rewrite u64_id by lia. rewrite <- Nat2Z.inj_add.
  destruct (_ <? _) eqn:E; bool_hyps; [lia|done].
Qed.

Lemma three_rounds c :
  wants c stream 0 16 B -> (sz + len <= length stream)%nat ->
  (forall c1, holds c1 stream (sz + len) -> parse_env c1 -> c_io_bytes_max c1 = B ->
     request (c_req c1) = wire_head r ->
     exists c2, finish_processed c1 = (Ok true, c2) /\ parsed c2 r) ->
  exists c2, read_request 3 c stream = Some (Ok c2, drop (sz + len) stream) /\ parsed c2 r.
Proof.
  intros Hw Hl Hk. destruct (first_round c Hw ltac:(lia)) as (c1 & -> & Hw1).
  assert (Hround : forall n c2, (sz <= n)%nat -> wants c2 stream n n B ->
    exists c3, iouringd_process_submit_input c2 =
                 need (Z.of_nat (sz + len)) c3 finish_processed /\
               wants c3 stream n sz B /\ request (c_req c3) = wire_head r).
  { intros n c2 Hn Hw2.
    destruct (process_wants c2 stream n B _ Hw2 ltac:(lia) Hhead header_valid_head) as [-> Hw3].
    change (sq_task_kind (wire_head r)) with (wire_kind r). rewrite Hkind.
    destruct (need_done _ stream n B sz k Hw3 ltac:(lia)) as (c3 & -> & Hw4 & Ec3).
    exists c3. rewrite (Hpay n c3 Hn Hw4), need_payload_need. split_and!; [done|done|].
    by rewrite Ec3. }
  destruct (decide (len = 0)%nat) as [E0|E0].
  - rewrite E0, Nat.add_0_r in *. apply (read_request_done 1 c1 stream 16 sz B r Hw1); [lia|lia|].
    intros c2 Hw2. destruct (Hround sz c2 ltac:(lia) Hw2) as (c3 & -> & Hw3 & Hr3).
    destruct (need_done c3 stream sz B sz finish_processed Hw3 ltac:(lia)) as (c4 & -> & Hw4 & ->).
    destruct Hw4. by apply Hk.
  - destruct (read_request_more 1 c1 stream 16 sz (sz + len) B Hw1) as (c2 & -> & Hw2); [lia|lia| |].
    { intros c2 Hw2. destruct (Hround sz c2 ltac:(lia) Hw2) as (c3 & -> & Hw3 & _).
      apply need_more; [done|lia]. }
    apply (read_request_done 0 c2 stream sz (sz + len) B r Hw2); [lia|lia|].
    intros c3 Hw3. destruct (Hround (sz + len)%nat c3 ltac:(lia) Hw3) as (c4 & -> & Hw4 & Hr4).
    destruct Hw4 as [H1 H2 H3 H4]. unfold need. simpl. rewrite (ho_len _ _ _ H1).
    destruct (_ <? _) eqn:E; bool_hyps; [lia|]. apply Hk; [| |done|done].
    + destruct H1. by constructor.
    + destruct H3. by constructor.
Qed.
End Rounds.

(** Solves [wire_fit] of a struct whose fields the context bounds. *)
Ltac fit_tac :=
  unfold fits, fits_i32 in *; cbv beta; try (split; [|cbn; lia]); unfold wire_fit; cbn;
  repeat (apply Forall2_cons_2; [first [lia|apply u32_fits|by vm_compute]|]);
  apply Forall2_nil_2.

Lemma head_of_wire_priority r rest :
  0 <= wire_priority r < 3 -> of_wire (encode r ++ rest) = wire_head r.
Proof.
  intros Hp. destruct (encode_prefix r) as [tail ->]. rewrite <- app_assoc.
  apply of_to_wire.
  assert (Hk : 0 <= wire_kind r < 261)
    by (destruct r; try destruct file; try destruct write; by vm_compute).
  fit_tac.
Qed.

Lemma head_of_wire B r rest : 0 <= B -> valid_request B r ->
  of_wire (encode r ++ rest) = wire_head r.
Proof. intros HB Hv. apply head_of_wire_priority. by apply (valid_priority B). Qed.

Lemma fixed_kind_parsed c1 stream n m B r q' :
  wants c1 stream n m B -> request (c_req c1) = wire_head r -> 0 <= B -> valid_request B r ->
  finish_by_kind (wire_kind r) (c_in c1) (c_io_bytes_max c1) (c_req c1) = (Ok tt, q') ->
  request_ready q' = true -> request_view q' = Some r ->
  exists c2, finish_processed c1 = (Ok true, c2) /\ parsed c2 r.
Proof.
  intros Hw Hr HB Hv Hf Hq Hview. eapply finish_parsed; try eassumption.
  - apply (pe_received _ (wa_env _ _ _ _ _ Hw)).
  - by apply (valid_priority B).
Qed.

Lemma payload_copied c1 stream n len off q :
  holds c1 stream n -> (off + len <= n)%nat -> (len <= IOURINGD_MAX_IO_BYTES)%nat ->
  length (io_payload q) = IOURINGD_MAX_IO_BYTES -> io_length q = Z.of_nat len ->
  take len (io_payload (copy_payload (c_in c1) off q)) = slice off len stream.
Proof.
  intros Hh Hn Hl Hp He. unfold copy_payload. simpl. rewrite He, Nat2Z.id.
  rewrite (holds_slice c1 stream n off len Hh Hn).
  assert (Hs : length (slice off len stream) = len).
  { rewrite <- (holds_slice c1 stream n off len Hh Hn). apply length_slice.
    destruct Hh as [_ Ha Hm _]. lia. }
  rewrite <- Hs at 1. apply (take_blit 0). lia.
Qed.

Lemma slice_payload (head payload rest : bytes) :
  slice (length head) (length payload) (head ++ payload ++ rest) = payload.
Proof. unfold slice. rewrite drop_app_length. apply take_app_length. Qed.

Lemma lookup_last_payload (l : bytes) n b :
  last (take n l) = Some b -> (1 <= n <= length l)%nat -> l !!! (n - 1)%nat = b.
Proof.
  intros Hl Hn. rewrite last_lookup, length_take, Nat.min_l in Hl by lia.
  replace (Nat.pred n) with (n - 1)%nat in Hl by lia.
  rewrite lookup_take_lt in Hl by lia. by apply list_lookup_total_correct.
Qed.

Section Roundtrip.
Context (c : client) (rest : bytes) (Hidle : idle_client c).

Abbreviation B := (c_io_bytes_max c).

(** What is left to prove of one kind of request. *)
Definition parses (r : wire_request) : Prop :=
  exists c', read_request 3 c (encode r ++ rest) = Some (Ok c', rest) /\ parsed c' r.

Lemma parses_intro r n :
  length (encode r) = n ->
  (exists c', read_request 3 c (encode r ++ rest) = Some (Ok c', drop n (encode r ++ rest)) /\
              parsed c' r) -> parses r.
Proof.
  intros Hn (c' & Hc & Hp). exists c'. split; [|done].
  by rewrite drop_app_length' in Hc by done.
Qed.

Lemma B_bounds : 0 <= B <= 4096.
Proof. apply (ic_max _ Hidle). Qed.

Lemma parses_header r :
  valid_request B r -> length (encode r) = 16%nat ->
  (forall c1, process_by_kind (wire_kind r) c1 = finish_processed c1) \/
  (forall c1, process_by_kind (wire_kind r) c1 = need (Z.of_nat 16) c1 finish_processed) ->
  (forall b m q, request q = wire_head r -> exists q',
     finish_by_kind (wire_kind r) b m q = (Ok tt, q') /\
     request_ready q' = true /\ request_view q' = Some r) ->
  parses r.
Proof.
  intros Hv Hlen Hk Hf. pose proof B_bounds. apply (parses_intro r 16 Hlen).
  eapply (one_round _ B); [by apply (head_of_wire B); [lia|]|by apply idle_wants| |].
  { rewrite length_app. lia. }
  intros c1 Hw Hr. destruct Hk as [Hk|Hk]; rewrite Hk.
  - destruct (Hf (c_in c1) (c_io_bytes_max c1) _ Hr) as (q' & H1 & H2 & H3).
    eapply fixed_kind_parsed; eauto; lia.
  - destruct (need_done c1 _ 16 B 16 finish_processed Hw ltac:(lia)) as (c3 & -> & Hw3 & ->).
    destruct (Hf (c_in c1 <| expected_input := Z.of_nat 16 |>) (c_io_bytes_max c1) _ Hr)
      as (q' & H1 & H2 & H3).
    eapply fixed_kind_parsed; eauto; lia.
Qed.

Lemma parses_fixed r sz k :
  valid_request B r -> length (encode r) = sz -> (16 < sz <= 32)%nat ->
  (forall c1, process_by_kind (wire_kind r) c1 = need (Z.of_nat sz) c1 k) ->
  (forall c1, wants c1 (encode r ++ rest) sz sz B -> request (c_req c1) = wire_head r ->
     k c1 = finish_processed c1 /\
     exists q', finish_by_kind (wire_kind r) (c_in c1) (c_io_bytes_max c1) (c_req c1) = (Ok tt, q') /\
                request_ready q' = true /\ request_view q' = Some r) ->
  parses r.
Proof.
  intros Hv Hlen Hsz Hk Hf. pose proof B_bounds. apply (parses_intro r sz Hlen).
  eapply (two_rounds _ B r); [by apply (head_of_wire B); [lia|]|exact Hk|lia|lia
                             |by apply idle_wants| |].
  { rewrite length_app. lia. }
  intros c1 Hw Hr. destruct (Hf c1 Hw Hr) as (-> & q' & H1 & H2 & H3).
  eapply fixed_kind_parsed; eauto; lia.
Qed.

Lemma parses_payload r sz k payload head :
  valid_request B r -> encode r = head ++ payload -> length head = sz -> (16 < sz <= 28)%nat ->
  (sz + length payload <= IOURINGD_MAX_REQUEST_BYTES)%nat -> Z.of_nat (length payload) <= B ->
  (forall c1, process_by_kind (wire_kind r) c1 = need (Z.of_nat sz) c1 k) ->
  (forall c1 n, (sz <= n)%nat -> wants c1 (encode r ++ rest) n sz B ->
     k c1 = need_payload sz (Z.of_nat (length payload)) c1) ->
  (forall c1, holds c1 (encode r ++ rest) (sz + length payload) -> parse_env c1 ->
     c_io_bytes_max c1 = B -> request (c_req c1) = wire_head r ->
     exists q', finish_by_kind (wire_kind r) (c_in c1) (c_io_bytes_max c1) (c_req c1) = (Ok tt, q') /\
                request_ready q' = true /\ request_view q' = Some r) ->
  parses r.
Proof.
  intros Hv Henc Hhead Hsz Htot HlenB Hk Hp Hf. pose proof B_bounds.
  assert (Hlen : length (encode r) = (sz + length payload)%nat)
    by (rewrite Henc, length_app; lia).
  apply (parses_intro r _ Hlen).
  eapply (three_rounds _ B r); [by apply (head_of_wire B); [lia|]|exact Hk|lia|lia
    |unfold IOURINGD_MAX_IO_BYTES; lia|lia| |by apply idle_wants| |].
  { intros n c1 Hn Hw. by apply (Hp c1 n). }
  { rewrite length_app. lia. }
  intros c1 Hh Henv HB Hr. destruct (Hf c1 Hh Henv HB Hr) as (q' & H1 & H2 & H3).
  refine (finish_parsed c1 r q' Hr (pe_received _ Henv) _ H1 H2 H3).
  apply (valid_priority B); [lia|done].
Qed.

(** The struct is the one that was encoded. *)
Ltac read_struct A Hh n :=
  match type of Hh with
  | holds ?c1 _ _ =>
      let Hx := fresh "Hx" in
      let sz := eval vm_compute in (wire_size A) in
      pose proof (holds_of_wire (A := A) c1 _ n Hh
                    ltac:(apply (Nat.le_trans _ sz); [by apply Nat.leb_le|lia])) as Hx;
      cbn [encode] in Hx; rewrite <- ?app_assoc in Hx; rewrite of_to_wire in Hx by fit_tac
  end.

Ltac parses_fixed_tac sz k A :=
  apply (parses_fixed _ sz k); [assumption|reflexivity|lia|reflexivity|];
  intros c1 Hw Hr; pose proof (wa_holds _ _ _ _ _ Hw) as Hh; read_struct A Hh sz.

Ltac view_tac :=
  eexists; split; [reflexivity|]; split; reflexivity.

Lemma parses_plain r :
  valid_request B r ->
  match r with WNop _ | WRegisterFd | WGetStats => True | _ => False end -> parses r.
Proof.
  intros Hv Hr. destruct r; try done;
    (apply parses_header; [done|reflexivity|first [left; reflexivity|right; reflexivity]|]);
    intros b m q Hq; (eexists; split; [reflexivity|]); split; try reflexivity;
    unfold request_view; cbn; by rewrite Hq.
Qed.

Lemma parses_timeout p nsec : valid_request B (WTimeout p nsec) -> parses (WTimeout p nsec).
Proof.
  intros Hv. pose proof (priority_fits p (proj1 Hv)). pose proof (proj2 Hv) as Hn.
  parses_fixed_tac 24%nat finish_processed timeout_request.
  split; [done|]. cbn. unfold finish_timeout. rewrite Hx. view_tac.
Qed.

Lemma parses_cancel p target : valid_request B (WCancel p target) -> parses (WCancel p target).
Proof.
  intros Hv. pose proof (priority_fits p (proj1 Hv)). pose proof (proj2 Hv) as Hn.
  parses_fixed_tac 24%nat finish_processed cancel_request.
  split; [done|]. cbn. unfold finish_cancel. rewrite Hx. view_tac.
Qed.

Lemma parses_read f p rid len : valid_request B (WRead f p rid len) -> parses (WRead f p rid len).
Proof.
  intros Hv. pose proof (priority_fits p (proj1 Hv)). pose proof (proj2 Hv) as [Hn1 Hn2].
  destruct f; parses_fixed_tac 24%nat finish_processed rw_request;
    (split; [done|]); cbn; unfold finish_read; rewrite Hx; view_tac.
Qed.

Lemma parses_poll p rid mask : valid_request B (WPoll p rid mask) -> parses (WPoll p rid mask).
Proof.
  intros Hv. pose proof (priority_fits p (proj1 Hv)). pose proof (proj2 Hv) as [Hn1 Hn2].
  eapply (parses_fixed _ 24%nat); [assumption|reflexivity|lia|reflexivity|].
  intros c1 Hw Hr. pose proof (wa_holds _ _ _ _ _ Hw) as Hh. read_struct poll_request Hh 24%nat.
  cbv beta. rewrite Hx. split; [reflexivity|]. cbn. unfold finish_poll. rewrite Hx. view_tac.
Qed.

Lemma parses_accept p rid len : valid_request B (WAccept p rid len) -> parses (WAccept p rid len).
Proof.
  intros Hv. pose proof (priority_fits p (proj1 Hv)). pose proof (proj2 Hv) as [Hn1 Hn2].
  pose proof B_bounds.
  eapply (parses_fixed _ 24%nat); [assumption|reflexivity|lia|reflexivity|].
  intros c1 Hw Hr. pose proof (wa_holds _ _ _ _ _ Hw) as Hh. read_struct rw_request Hh 24%nat.
  cbv beta zeta. rewrite Hx, (wa_max _ _ _ _ _ Hw). cbn [rq_length].
  replace (B <? len) with false by (symmetry; apply Z.ltb_ge; lia).
  replace (UINT16_MAX <? len) with false by (symmetry; apply Z.ltb_ge; unfold UINT16_MAX; lia).
  split; [reflexivity|]. cbn. unfold finish_accept. rewrite Hx. view_tac.
Qed.

Lemma parses_close p rid : valid_request B (WClose p rid) -> parses (WClose p rid).
Proof.
  intros Hv. pose proof (priority_fits p (proj1 Hv)). pose proof (proj2 Hv) as Hn1.
  eapply (parses_fixed _ 24%nat); [assumption|reflexivity|lia|reflexivity|].
  intros c1 Hw Hr. pose proof (wa_holds _ _ _ _ _ Hw) as Hh. read_struct close_request Hh 24%nat.
  cbv beta. rewrite Hx. split; [reflexivity|]. cbn. unfold finish_close. rewrite Hx. view_tac.
Qed.

Lemma parses_fixed_io w p frid brid len :
  valid_request B (WFixed w p frid brid len) -> parses (WFixed w p frid brid len).
Proof.
  intros Hv. pose proof (priority_fits p (proj1 Hv)). pose proof (proj2 Hv) as (Hn1 & Hn2 & Hn3).
  destruct w; parses_fixed_tac 28%nat finish_processed fixed_request;
    (split; [done|]); cbn; unfold finish_fixed; rewrite Hx; view_tac.
Qed.

Lemma parses_release rid : valid_request B (WRelease rid) -> parses (WRelease rid).
Proof.
  intros Hv. assert (Hn : fits 32 rid) by exact Hv.
  parses_fixed_tac 24%nat finish_processed release_resource_request.
  split; [done|]. cbn. unfold finish_release. rewrite Hx.
  eexists. split; [reflexivity|]. split; [reflexivity|]. unfold request_view. cbn. by rewrite Hr.
Qed.

Lemma parses_get_trace a m : valid_request B (WGetTrace a m) -> parses (WGetTrace a m).
Proof.
  intros Hv. pose proof Hv as [Hn1 Hn2]. change (Z.of_nat IOURINGD_TRACE_CAPACITY) with 256 in Hn2.
  eapply (parses_fixed _ 32%nat); [assumption|reflexivity|lia|reflexivity|].
  intros c1 Hw Hr. pose proof (wa_holds _ _ _ _ _ Hw) as Hh.
  read_struct get_trace_request Hh 32%nat.
  cbv beta zeta. rewrite Hx. cbn [gq_max_events gq_reserved2].
  replace (Z.of_nat IOURINGD_TRACE_CAPACITY <? m) with false
    by (symmetry; apply Z.ltb_ge; unfold IOURINGD_TRACE_CAPACITY; lia).
  split; [reflexivity|]. cbn. unfold finish_get_trace. rewrite Hx.
  eexists. split; [reflexivity|]. split; [reflexivity|]. unfold request_view. cbn. by rewrite Hr.
Qed.

(** The payload in the request is the one behind the fixed part. *)
Lemma payload_view_copied c1 head payload off q q' :
  holds c1 ((head ++ payload) ++ rest) (off + length payload) -> length head = off ->
  Z.of_nat (length payload) <= B ->
  io_length q = Z.of_nat (length payload) ->
  io_payload q' = io_payload (copy_payload (c_in c1) off q) -> io_length q' = io_length q ->
  length (io_payload q) = IOURINGD_MAX_IO_BYTES ->
  payload_view q' = payload.
Proof.
  intros Hh <- HB Hl Ep El Hp. unfold payload_view. rewrite Ep, El, Hl, Nat2Z.id.
  pose proof B_bounds.
  rewrite (payload_copied c1 _ (length head + length payload) (length payload) (length head) q Hh
             ltac:(lia) ltac:(unfold IOURINGD_MAX_IO_BYTES; lia) Hp Hl).
  rewrite <- app_assoc. apply slice_payload.
Qed.

(** A payload within the client's limit. *)
Lemma ltb_max len : Z.of_nat len <= B -> (B <? Z.of_nat len) = false.
Proof. intros Hl. apply Z.ltb_ge. exact Hl. Qed.

(** The round that reads the fixed part, and the one that has the payload. *)
Ltac fixed_part_tac A Hw Hn n :=
  let Hh := fresh "Hh" in
  pose proof (wa_holds _ _ _ _ _ Hw) as Hh; read_struct A Hh n; cbv beta zeta;
  match goal with Hx : of_wire _ = _ |- _ => rewrite Hx end;
  cbn [rq_length oq_path_length bq_length bq_reserved2];
  rewrite (wa_max _ _ _ _ _ Hw), ltb_max by lia.

(** What the payload branches leave, as a copy into assigned fields. *)
Lemma copied_parsed r c1 head payload off q q' :
  encode r = head ++ payload -> length head = off -> Z.of_nat (length payload) <= B ->
  holds c1 (encode r ++ rest) (off + length payload) ->
  io_payload q' = io_payload (copy_payload (c_in c1) off q) -> io_length q' = io_length q ->
  io_length q = Z.of_nat (length payload) -> length (io_payload q) = IOURINGD_MAX_IO_BYTES ->
  payload_view q' = payload.
Proof.
  intros Henc Hhd HlB Hh Ep El Hl Hp. rewrite Henc in Hh.
  by eapply payload_view_copied.
Qed.

Lemma finish_write_ok b m q x :
  of_wire (input b) = x -> rq_length x <= m ->
  finish_write b m q =
    (Ok tt, ready_request 0 (copy_payload b 24
              (assign_request (q <| request := rq_submit x |>) 0 IOURINGD_TASK_ID_INVALID
                 (rq_resource x) IOURINGD_RESOURCE_ID_INVALID (rq_length x)))).
Proof.
  intros <- Hl. unfold finish_write. cbv zeta.
  match goal with |- context [m <? ?l] => replace (m <? l) with false by (symmetry; by apply Z.ltb_ge) end.
  reflexivity.
Qed.

Lemma view_write q f p rid payload :
  request q = wire_head (WWrite f p rid payload) -> resource_id q = rid ->
  payload_view q = payload -> request_view q = Some (WWrite f p rid payload).
Proof. intros Hq <- <-. unfold request_view. rewrite Hq. by destruct f. Qed.

Lemma parses_write f p rid payload :
  valid_request B (WWrite f p rid payload) -> parses (WWrite f p rid payload).
Proof.
  intros Hv. pose proof (priority_fits p (proj1 Hv)). pose proof (proj2 Hv) as (Hn1 & Hlen).
  pose proof B_bounds.
  eapply (parses_payload _ 24%nat process_write_rest);
    [assumption|reflexivity|reflexivity|lia|rewrite max_request_bytes; lia|lia| | |].
  - intros c1. by destruct f.
  - intros c1 n Hn Hw. unfold process_write_rest. destruct f; fixed_part_tac rw_request Hw Hn n.
    all: replace (Z.of_nat (length payload) =? 0) with false by (symmetry; apply Z.eqb_neq; lia);
      reflexivity.
  - intros c1 Hh Henv HB Hr.
    assert (Hx : of_wire (input (c_in c1)) =
                 mk_rw_request (wire_head (WWrite f p rid payload)) rid (Z.of_nat (length payload)))
      by (destruct f; read_struct rw_request Hh (24 + length payload)%nat; exact Hx).
    set (q1 := assign_request (c_req c1 <| request := wire_head (WWrite f p rid payload) |>) 0
                 IOURINGD_TASK_ID_INVALID rid IOURINGD_RESOURCE_ID_INVALID
                 (Z.of_nat (length payload))).
    exists (ready_request 0 (copy_payload (c_in c1) 24 q1)).
    split; [|split; [reflexivity|]].
    + replace (finish_by_kind _ _ _ _) with (finish_write (c_in c1) (c_io_bytes_max c1) (c_req c1))
        by (by destruct f).
      rewrite HB. exact (finish_write_ok _ _ _ _ Hx (proj2 Hlen)).
    + apply view_write; [reflexivity|reflexivity|].
      eapply (copied_parsed (WWrite f p rid payload) c1 _ _ 24 q1);
        [reflexivity|reflexivity|lia|exact Hh|apply ready_payload|reflexivity|reflexivity|].
      exact (pe_payload _ Henv).
Qed.

Lemma finish_connect_ok b m q x :
  of_wire (input b) = x -> rq_length x <= m ->
  finish_connect b m q =
    (Ok tt, ready_request 0 (put_poll_mask 0 (copy_payload b 24
              (assign_request (q <| request := rq_submit x |>) 0 IOURINGD_TASK_ID_INVALID
                 (rq_resource x) IOURINGD_RESOURCE_ID_INVALID (rq_length x))))).
Proof.
  intros <- Hl. unfold finish_connect. cbv zeta.
  match goal with |- context [m <? ?l] => replace (m <? l) with false by (symmetry; by apply Z.ltb_ge) end.
  reflexivity.
Qed.

Lemma view_connect q p rid payload :
  request q = wire_head (WConnect p rid payload) -> resource_id q = rid ->
  payload_view q = payload -> request_view q = Some (WConnect p rid payload).
Proof. intros Hq <- <-. unfold request_view. by rewrite Hq. Qed.

Lemma parses_connect p rid payload :
  valid_request B (WConnect p rid payload) -> parses (WConnect p rid payload).
Proof.
  intros Hv. pose proof (priority_fits p (proj1 Hv)). pose proof (proj2 Hv) as (Hn1 & Hlen).
  pose proof B_bounds.
  eapply (parses_payload _ 24%nat process_connect_rest);
    [assumption|reflexivity|reflexivity|lia|rewrite max_request_bytes; lia|lia|reflexivity| |].
  - intros c1 n Hn Hw. unfold process_connect_rest. fixed_part_tac rw_request Hw Hn n.
    replace (Z.of_nat (length payload) =? 0) with false by (symmetry; apply Z.eqb_neq; lia).
    replace (UINT16_MAX <? Z.of_nat (length payload)) with false
      by (symmetry; apply Z.ltb_ge; unfold UINT16_MAX; lia).
    reflexivity.
  - intros c1 Hh Henv HB Hr. read_struct rw_request Hh (24 + length payload)%nat.
    set (q1 := assign_request (c_req c1 <| request := wire_head (WConnect p rid payload) |>) 0
                 IOURINGD_TASK_ID_INVALID rid IOURINGD_RESOURCE_ID_INVALID
                 (Z.of_nat (length payload))).
    exists (ready_request 0 (put_poll_mask 0 (copy_payload (c_in c1) 24 q1))).
    split; [|split; [reflexivity|]].
    + rewrite HB. exact (finish_connect_ok _ _ (c_req c1) _ Hx (proj2 Hlen)).
    + apply view_connect; [reflexivity|reflexivity|].
      eapply (copied_parsed (WConnect p rid payload) c1 _ _ 24 q1);
        [reflexivity|reflexivity|lia|exact Hh| |reflexivity|reflexivity|].
      * by rewrite ready_payload, put_poll_mask_payload.
      * exact (pe_payload _ Henv).
Qed.

Lemma finish_register_buffer_ok b m q x :
  of_wire (input b) = x -> bq_length x <= m ->
  let q1 := assign_request q 0 IOURINGD_TASK_ID_INVALID IOURINGD_RESOURCE_ID_INVALID
              IOURINGD_RESOURCE_ID_INVALID (bq_length x) in
  finish_register_buffer b m q =
    (Ok tt, ready_request IOURINGD_REQUEST_KIND_REGISTER_BUFFER
              (if negb (bq_length x =? 0) then copy_payload b 24 q1 else q1)).
Proof.
  intros <- Hl. unfold finish_register_buffer. cbv zeta.
  match goal with |- context [m <? ?l] => replace (m <? l) with false by (symmetry; by apply Z.ltb_ge) end.
  reflexivity.
Qed.

Lemma view_register_buffer q content :
  request q = wire_head (WRegisterBuffer content) ->
  payload_view q = content -> request_view q = Some (WRegisterBuffer content).
Proof. intros Hq <-. unfold request_view. by rewrite Hq. Qed.

Lemma parses_register_buffer content :
  valid_request B (WRegisterBuffer content) -> parses (WRegisterBuffer content).
Proof.
  intros Hv. assert (Hlen : Z.of_nat (length content) <= B) by exact Hv. pose proof B_bounds.
  eapply (parses_payload _ 24%nat process_register_buffer_rest);
    [assumption|reflexivity|reflexivity|lia|rewrite max_request_bytes; lia|lia|reflexivity| |].
  - intros c1 n Hn Hw. unfold process_register_buffer_rest.
    fixed_part_tac register_buffer_request Hw Hn n. reflexivity.
  - intros c1 Hh Henv HB Hr. read_struct register_buffer_request Hh (24 + length content)%nat.
    set (q1 := assign_request (c_req c1) 0 IOURINGD_TASK_ID_INVALID IOURINGD_RESOURCE_ID_INVALID
                 IOURINGD_RESOURCE_ID_INVALID (Z.of_nat (length content))).
    pose proof (finish_register_buffer_ok (c_in c1) B (c_req c1) _ Hx Hlen) as Hf.
    cbv zeta in Hf. cbn [bq_length] in Hf. fold q1 in Hf.
    eexists. split; [rewrite HB; exact Hf|].
    destruct (Z.of_nat (length content) =? 0) eqn:E0; bool_hyps; cbn [negb];
      (split; [reflexivity|]); (apply view_register_buffer; [exact Hr|]).
    + destruct content; [reflexivity|]. cbn [length] in E0. lia.
    + eapply (copied_parsed (WRegisterBuffer content) c1 _ _ 24 q1);
        [reflexivity|reflexivity|lia|exact Hh|apply ready_payload|reflexivity|reflexivity|].
      exact (pe_payload _ Henv).
Qed.

Lemma finish_openat_ok b m q x :
  of_wire (input b) = x -> 2 <= oq_path_length x <= m ->
  let q1 := assign_request (q <| request := oq_submit x |>) 0 IOURINGD_TASK_ID_INVALID
              IOURINGD_RESOURCE_ID_INVALID IOURINGD_RESOURCE_ID_INVALID (oq_path_length x)
              <| open_flags := oq_open_flags x |> <| open_mode := oq_open_mode x |> in
  io_payload (copy_payload b 28 q1) !!! Z.to_nat (oq_path_length x - 1) = 0 ->
  finish_openat b m q = (Ok tt, ready_request 0 (put_poll_mask 0 (copy_payload b 28 q1))).
Proof.
  intros <- Hl q1 Hz. unfold finish_openat. cbv zeta. fold q1.
  change (io_length q1) with (oq_path_length (of_wire (input b))).
  change (wire_size openat_request) with 28%nat.
  change (io_length (copy_payload b 28 q1)) with (oq_path_length (of_wire (input b))).
  set (len := oq_path_length (of_wire (input b))) in *.
  replace (m <? len) with false by (symmetry; apply Z.ltb_ge; lia).
  replace (len <? 2) with false by (symmetry; apply Z.ltb_ge; lia).
  rewrite Hz. reflexivity.
Qed.

Lemma view_openat q p flags mode path :
  request q = wire_head (WOpenat p flags mode path) -> open_flags q = flags -> open_mode q = mode ->
  payload_view q = path -> request_view q = Some (WOpenat p flags mode path).
Proof. intros Hq <- <- <-. unfold request_view. by rewrite Hq. Qed.

Lemma parses_openat p flags mode path :
  valid_request B (WOpenat p flags mode path) -> parses (WOpenat p flags mode path).
Proof.
  intros Hv. pose proof (priority_fits p (proj1 Hv)).
  pose proof (proj2 Hv) as (Hn1 & Hn2 & Hlen & Hlast & Htot). pose proof B_bounds.
  change (wire_size openat_request) with 28%nat in Htot.
  eapply (parses_payload _ 28%nat process_openat_rest);
    [assumption|reflexivity|reflexivity|lia|lia|lia|reflexivity| |].
  - intros c1 n Hn Hw. unfold process_openat_rest. fixed_part_tac openat_request Hw Hn n.
    replace (Z.of_nat (length path) <? 2) with false by (symmetry; apply Z.ltb_ge; lia).
    reflexivity.
  - intros c1 Hh Henv HB Hr. read_struct openat_request Hh (28 + length path)%nat.
    set (q1 := assign_request (c_req c1 <| request := wire_head (WOpenat p flags mode path) |>) 0
                 IOURINGD_TASK_ID_INVALID IOURINGD_RESOURCE_ID_INVALID
                 IOURINGD_RESOURCE_ID_INVALID (Z.of_nat (length path))
                 <| open_flags := flags |> <| open_mode := mode |>).
    set (q2 := copy_payload (c_in c1) 28 q1).
    assert (Hview : payload_view q2 = path).
    { eapply (copied_parsed (WOpenat p flags mode path) c1 _ _ 28 q1);
        [reflexivity|reflexivity|lia|exact Hh|reflexivity|reflexivity|reflexivity|].
      exact (pe_payload _ Henv). }
    assert (Hz : io_payload q2 !!! Z.to_nat (Z.of_nat (length path) - 1) = 0).
    { unfold payload_view in Hview. replace (io_length q2) with (Z.of_nat (length path)) in Hview
        by reflexivity. rewrite Nat2Z.id in Hview.
      replace (Z.to_nat (Z.of_nat (length path) - 1)) with (length path - 1)%nat by lia.
      apply lookup_last_payload; [by rewrite Hview|].
      apply (f_equal length) in Hview. rewrite length_take in Hview. lia. }
    exists (ready_request 0 (put_poll_mask 0 q2)). split; [|split; [reflexivity|]].
    + rewrite HB. exact (finish_openat_ok _ _ (c_req c1) _ Hx Hlen Hz).
    + apply view_openat; [reflexivity|reflexivity|reflexivity|exact Hview].
Qed.

Lemma parses_valid r : valid_request B r -> parses r.
Proof.
  destruct r; intros Hv;
    [by apply parses_plain|by apply parses_timeout|by apply parses_cancel|by apply parses_read
    |by apply parses_write|by apply parses_poll|by apply parses_connect|by apply parses_accept
    |by apply parses_openat|by apply parses_close|by apply parses_fixed_io|by apply parses_plain
    |by apply parses_register_buffer|by apply parses_release|by apply parses_plain
    |by apply parses_get_trace].
Qed.
End Roundtrip.

(** C13: parsing inverts encoding on a stream.  For every request the protocol allows, a client
    between two requests whose socket delivers the request's bytes followed by
    anything ends, within three reads, with exactly that request ready (kind,
    priority, ids, lengths and payload), and with everything behind the request
    still unread: the parser asks for all of the request and for no byte more. *)
Theorem read_request_roundtrip c r rest :
  idle_client c -> valid_request (c_io_bytes_max c) r ->
  exists c', read_request 3 c (encode r ++ rest) = Some (Ok c', rest) /\ parsed c' r.
Proof. intros Hi Hv. exact (parses_valid c rest Hi r Hv). Qed.

(** C36: a path that the advertised limit allows and the input array does not: the array is
    sized for the 24-byte header of REGISTER_BUFFER, an OPENAT header has 28
    bytes, so a path of 4093 bytes or more, with its terminator, is answered by an
    [EPROTO] that drops the client, although a limit of 4093 to 4096 (the default)
    allows it. *)
Theorem openat_long_path_dropped c p flags mode path rest :
  idle_client c -> c_io_bytes_max c <= Z.of_nat IOURINGD_MAX_IO_BYTES ->
  iouringd_submit_priority_is_valid p = true -> fits_i32 flags -> fits 32 mode ->
  4093 <= Z.of_nat (length path) <= c_io_bytes_max c ->
  read_request 3 c (encode (WOpenat p flags mode path) ++ rest) = Some (Err EPROTO, path ++ rest).
Proof.
  intros Hidle HB Hp Hf Hm Hlen. pose proof (priority_fits p Hp).
  unfold IOURINGD_MAX_IO_BYTES in HB.
  set (r := WOpenat p flags mode path).
  pose proof (head_of_wire_priority r rest ltac:(done)) as Hhead.
  destruct (first_round _ (c_io_bytes_max c) r Hhead 28 process_openat_rest ltac:(reflexivity)
              ltac:(lia) ltac:(lia) c (idle_wants _ _ Hidle)) as (c1 & -> & Hw1);
    [rewrite length_app; cbn; lia|].
  destruct (deliver_wants _ _ 16 28 _ Hw1) as (c2 & Hd & Hw2);
    [rewrite length_app; cbn; lia|rewrite max_request_bytes; lia|].
  cbn [read_request]. rewrite Hd.
  destruct (process_wants c2 _ 28 _ _ Hw2 ltac:(lia) Hhead (header_valid_head r)) as [-> Hw3].
  change (sq_task_kind (wire_head r)) with (wire_kind r).
  change (process_by_kind (wire_kind r)) with process_openat. unfold process_openat.
  destruct (need_done _ _ 28 _ (wire_size openat_request) process_openat_rest Hw3
              ltac:(by apply Nat.leb_le))
    as (c3 & -> & Hw4 & Ec3).
  unfold process_openat_rest. cbv zeta.
  rewrite (holds_of_wire (A := openat_request) c3 _ 28 (wa_holds _ _ _ _ _ Hw4))
    by (by apply Nat.leb_le).
  change (encode r) with (to_wire (mk_openat_request (wire_head r) flags mode
                                     (Z.of_nat (length path))) ++ path).
  rewrite <- app_assoc, of_to_wire by fit_tac. cbn [oq_path_length].
  rewrite (wa_max _ _ _ _ _ Hw4).
  replace (Z.of_nat (length path) <? 2) with false by (symmetry; apply Z.ltb_ge; lia).
  replace (c_io_bytes_max c <? _) with false by (symmetry; apply Z.ltb_ge; lia).
  cbn [orb]. unfold need_payload. change (wire_size openat_request) with 28%nat.
  rewrite u64_id by lia.
  rewrite max_request_bytes.
  replace (_ <? _) with true by (symmetry; apply Z.ltb_lt; lia). reflexivity.
Qed.

(** ** The hypotheses can hold *)

Definition idle_example : client :=
  init_client <| c_fd := 9 |> <| c_phase := IOURINGD_CLIENT_PHASE_SUBMIT |>.

Lemma idle_example_idle : idle_client idle_example.
Proof. constructor; vm_compute; try reflexivity; split; congruence. Qed.

Lemma read_request_roundtrip_witness :
  exists c', read_request 3 idle_example (encode (WWrite false 2 7 [104; 105]) ++ [1; 2; 3])
             = Some (Ok c', [1; 2; 3]) /\ parsed c' (WWrite false 2 7 [104; 105]).
Proof.
  apply (read_request_roundtrip idle_example (WWrite false 2 7 [104; 105]) [1; 2; 3]
           idle_example_idle).
  repeat split; try reflexivity; vm_compute; congruence.
Defined.

Lemma openat_long_path_dropped_witness :
  let path := replicate 4095 97 ++ [0] in
  read_request 3 idle_example (encode (WOpenat 0 0 0 path) ++ []) = Some (Err EPROTO, path ++ []).
Proof.
  intros path.
  apply (openat_long_path_dropped idle_example 0 0 0 path [] idle_example_idle);
    try reflexivity; try (vm_compute; split; congruence).
Defined.
