(* ===== verification/Reader.v ===== *)
(** * Safety of the input side

    The invariant of a client's input buffer and its preservation by the
    parser, the socket reads and the service loop of [src/daemon/main.c]; the
    sufficiency of the loops' bounds; what happens to passed descriptors. *)

From S2P Require Import Prelude Wire Kernel Ring State Output Resources Trace Daemon Input Request.

(** The window of received bytes is inside the part that is wanted, which is
    inside the array; the limits fit the arrays they protect. *)
Record input_wf (c : client) : Prop := {
  iw_window : 0 <= input_len (c_in c) <= expected_input (c_in c);
  iw_expected : 16 <= expected_input (c_in c) <= Z.of_nat IOURINGD_MAX_REQUEST_BYTES;
  iw_array : length (input (c_in c)) = IOURINGD_MAX_REQUEST_BYTES;
  iw_bytes : Forall is_byte (input (c_in c));
  iw_payload : length (io_payload (c_req c)) = IOURINGD_MAX_IO_BYTES;
  iw_max : 0 <= c_io_bytes_max c <= Z.of_nat IOURINGD_MAX_IO_BYTES;
}.

(** What a request that was made ready is known to satisfy. *)
Definition request_sane (c : client) : Prop :=
  let q := c_req c in
  iouringd_request_header_is_valid (request q) = true /\
  iouringd_request_priority_is_valid (request q) = true /\
  is_Some (request_view q) /\
  (sq_task_kind (request q) <> IOURINGD_REQUEST_KIND_REGISTER_FD -> c_received_fd c < 0).

(** A buffer that is to be registered is no longer than [m]. *)
Definition buffer_fits (m : Z) (q : client_request) : Prop :=
  control_op q = IOURINGD_REQUEST_KIND_REGISTER_BUFFER -> io_length q <= m.

(** What a parser round that starts with [n] bytes promises. *)
Definition round_ok (n : Z) (pr : processed) : Prop :=
  match pr with
  | (Ok true, c') =>
      input_wf c' /\ input_len (c_in c') = 0 /\ request_ready (c_req c') = true /\
      buffer_fits (c_io_bytes_max c') (c_req c')
  | (Ok false, c') =>
      input_wf c' /\ input_len (c_in c') = n /\ n < expected_input (c_in c')
  | (Err e, _) => e = EPROTO \/ e = EMSGSIZE
  end.

Lemma le_combine_nonneg bs : Forall is_byte bs -> 0 <= le_combine bs.
Proof. intros H. by apply le_combine_bound. Qed.

(** The parser's rounds change the wanted length, the request fields and, at the
    end, the window: all other facts carry over. *)
Lemma input_wf_expect c m :
  input_wf c -> input_len (c_in c) <= m -> 16 <= m <= Z.of_nat IOURINGD_MAX_REQUEST_BYTES ->
  input_wf (expect m c).
Proof. intros [H1 H2 H3 H4 H5 H6] Hm Hr. constructor; simpl; try done; lia. Qed.

(** The facts a finishing branch needs, without the window. *)
Record finish_env (c : client) : Prop := {
  fe_array : length (input (c_in c)) = IOURINGD_MAX_REQUEST_BYTES;
  fe_bytes : Forall is_byte (input (c_in c));
  fe_payload : length (io_payload (c_req c)) = IOURINGD_MAX_IO_BYTES;
  fe_max : 0 <= c_io_bytes_max c <= Z.of_nat IOURINGD_MAX_IO_BYTES;
}.

Lemma input_wf_env c : input_wf c -> finish_env c.
Proof. intros []. by constructor. Qed.

Lemma length_copy_payload b off q :
  length (io_payload q) = IOURINGD_MAX_IO_BYTES ->
  io_length q <= Z.of_nat IOURINGD_MAX_IO_BYTES ->
  length (io_payload (copy_payload b off q)) = IOURINGD_MAX_IO_BYTES.
Proof.
  intros Hp Hl. unfold copy_payload. cbn [io_payload put put_io_payload].
  rewrite length_blit; [done|]. rewrite Nat.add_0_l. unfold slice. rewrite length_take.
  unfold IOURINGD_MAX_IO_BYTES in *. lia.
Qed.

(** The finishing branches keep the payload array and report what they did. *)
Definition branch_ok (m : Z) (f : finished) : Prop :=
  length (io_payload (snd f)) = IOURINGD_MAX_IO_BYTES /\
  match fst f with
  | Ok _ => request_ready (snd f) = true /\ buffer_fits m (snd f)
  | Err e => e = EPROTO \/ e = EMSGSIZE
  end.

Ltac payload_tac := cbn [fst snd put]; autorewrite with payload.

Lemma copy_branch_ok m op b off q g :
  (forall q, io_payload (g q) = io_payload q) -> (forall q, io_length (g q) = io_length q) ->
  length (io_payload q) = IOURINGD_MAX_IO_BYTES -> m <= Z.of_nat IOURINGD_MAX_IO_BYTES ->
  io_length q <= m -> branch_ok m (Ok tt, ready_request op (g (copy_payload b off q))).
Proof.
  intros Hg Hgl Hp Hm Hl. split; [|split; [reflexivity|]].
  - payload_tac. rewrite Hg. apply length_copy_payload; [done|lia].
  - intros _. change (io_length (g (copy_payload b off q)) <= m). by rewrite Hgl.
Qed.

Lemma plain_branch_ok m op q q' :
  io_payload q' = io_payload q -> length (io_payload q) = IOURINGD_MAX_IO_BYTES ->
  op <> IOURINGD_REQUEST_KIND_REGISTER_BUFFER \/ io_length q' <= m ->
  branch_ok m (Ok tt, ready_request op q').
Proof.
  intros E Hp Hop. split; [payload_tac; by rewrite E|]. split; [reflexivity|].
  intros Eop. by destruct Hop.
Qed.

Lemma error_branch_ok m e q q' :
  io_payload q' = io_payload q -> length (io_payload q) = IOURINGD_MAX_IO_BYTES ->
  e = EPROTO \/ e = EMSGSIZE -> branch_ok m (Err e, q').
Proof. intros E Hp He. split; [|exact He]. cbn [fst snd]. by rewrite E. Qed.

Section Branches.
Context (b : inbuf) (m : Z) (q : client_request).
Context (Hp : length (io_payload q) = IOURINGD_MAX_IO_BYTES).
Context (Hm : m <= Z.of_nat IOURINGD_MAX_IO_BYTES).

(** The test on the length, and the copy it allows. *)
Lemma length_test_ok q1 (f : finished) :
  io_payload q1 = io_payload q -> (io_length q1 <= m -> branch_ok m f) ->
  branch_ok m (if m <? io_length q1 then (Err EMSGSIZE, q1) else f).
Proof.
  intros E Hf. destruct (m <? io_length q1) eqn:El; bool_hyps; [|by apply Hf].
  apply (error_branch_ok _ _ q); auto.
Qed.

Lemma finish_write_branch : branch_ok m (finish_write b m q).
Proof.
  unfold finish_write. cbv zeta. apply length_test_ok; [by payload_tac|]. intros Hl.
  apply (copy_branch_ok _ _ _ _ _ id); [done|done|by payload_tac|done|done].
Qed.

Lemma finish_connect_branch : branch_ok m (finish_connect b m q).
Proof.
  unfold finish_connect. cbv zeta. apply length_test_ok; [by payload_tac|]. intros Hl.
  apply (copy_branch_ok _ _ _ _ _ (put_poll_mask 0)); [intros; by payload_tac|done|by payload_tac|done|done].
Qed.

Lemma finish_register_buffer_branch : branch_ok m (finish_register_buffer b m q).
Proof.
  unfold finish_register_buffer. cbv zeta. apply length_test_ok; [by payload_tac|]. intros Hl.
  destruct (negb _).
  - apply (copy_branch_ok _ _ _ _ _ id); [done|done|by payload_tac|done|done].
  - apply (plain_branch_ok _ _ q); [by payload_tac|done|by right].
Qed.

Lemma finish_openat_branch : branch_ok m (finish_openat b m q).
Proof.
  unfold finish_openat. cbv zeta. apply length_test_ok; [by payload_tac|]. intros Hl.
  match goal with |- context [copy_payload b ?o ?q1] => set (q0 := q1) in * end.
  destruct (_ || _).
  - split; [|by left]. cbn [snd]. apply length_copy_payload; [unfold q0; by payload_tac|lia].
  - apply (copy_branch_ok _ _ _ _ _ (put_poll_mask 0)); [intros; by payload_tac|done| |done|done].
    unfold q0. by payload_tac.
Qed.

Lemma finish_by_kind_ok kind : branch_ok m (finish_by_kind kind b m q).
Proof.
  unfold finish_by_kind.
  repeat match goal with |- context [if ?k =? ?n then _ else _] => destruct (k =? n) end;
    lazymatch goal with
    | |- branch_ok _ (finish_write _ _ _) => apply finish_write_branch
    | |- branch_ok _ (finish_connect _ _ _) => apply finish_connect_branch
    | |- branch_ok _ (finish_openat _ _ _) => apply finish_openat_branch
    | |- branch_ok _ (finish_register_buffer _ _ _) => apply finish_register_buffer_branch
    | |- branch_ok _ (Err _, _) => apply (error_branch_ok _ _ q); [done|done|by left]
    | |- _ =>
        unfold finish_nop, finish_timeout, finish_cancel, finish_read, finish_poll,
          finish_accept, finish_close, finish_fixed, finish_register_fd, finish_release,
          finish_get_stats, finish_get_trace;
        cbv zeta; apply (plain_branch_ok _ _ q); [by payload_tac|done|by left]
    end.
Qed.
End Branches.

Lemma finish_processed_ok n c : finish_env c -> round_ok n (finish_processed c).
Proof.
  intros [Ha Hb Hp Hm]. unfold finish_processed, iouringd_finish_submit_request.
  split_ifs; try (by left).
  pose proof (finish_by_kind_ok (c_in c) (c_io_bytes_max c) (c_req c) Hp ltac:(lia)
                (sq_task_kind (request (c_req c)))) as [H1 H2].
  destruct (finish_by_kind _ _ _ _) as [[[]|e] q']; cbn [fst snd] in *; [|exact H2].
  destruct H2 as [H2 H3]. split_and!; [|done|exact H2|exact H3].
  constructor; cbn -[IOURINGD_MAX_REQUEST_BYTES IOURINGD_MAX_IO_BYTES]; done.
Qed.

Section Process.
Context (c : client) (Hc : input_wf c).
Abbreviation n := (input_len (c_in c)).

Lemma need_ok m k :
  16 <= m <= Z.of_nat IOURINGD_MAX_REQUEST_BYTES ->
  (m <= n -> round_ok n (k (expect m c))) -> round_ok n (need m c k).
Proof.
  intros Hm Hk. unfold need. cbn [c_in expect put put_c_in input_len put_expected_input].
  destruct (n <? m) eqn:E; bool_hyps; [|by apply Hk].
  split_and!; [|done|done]. apply input_wf_expect; [done|lia|done].
Qed.

Lemma env_expect m : finish_env (expect m c).
Proof. destruct Hc. by constructor. Qed.
End Process.

Lemma need_payload_ok c n size len :
  finish_env c -> input_len (c_in c) = n -> 0 <= n -> 16 <= Z.of_nat size <= 32 -> 0 <= len <= 4096 ->
  round_ok n (need_payload size len c).
Proof.
  intros He Hn H0 Hs Hl. unfold need_payload. rewrite u64_id by lia.
  destruct (_ <? _) eqn:E; bool_hyps; [by left|]. unfold need.
  cbn [c_in expect put put_c_in input_len put_expected_input]. rewrite Hn.
  destruct (n <? _) eqn:E2; bool_hyps.
  - destruct He as [Ha Hb Hp Hm]. split_and!; [|done|done].
    constructor; cbn -[IOURINGD_MAX_REQUEST_BYTES IOURINGD_MAX_IO_BYTES]; try done; lia.
  - apply finish_processed_ok. destruct He. by constructor.
Qed.

(** A field read from bytes is not negative. *)
Lemma dec_nth_nonneg ws bs k : Forall is_byte bs -> 0 <= nth k (dec ws bs) 0.
Proof.
  revert bs k. induction ws as [|w ws IH]; intros bs [|k] H; cbn [dec nth]; try lia.
  - apply le_combine_nonneg, Forall_take, H.
  - apply IH, Forall_drop, H.
Qed.

Lemma rq_length_nonneg bs : Forall is_byte bs -> 0 <= rq_length (of_wire bs).
Proof. exact (dec_nth_nonneg (wire_layout rw_request) bs 7). Qed.
Lemma oq_path_length_nonneg bs : Forall is_byte bs -> 0 <= oq_path_length (of_wire bs).
Proof. exact (dec_nth_nonneg (wire_layout openat_request) bs 8). Qed.
Lemma bq_length_nonneg bs : Forall is_byte bs -> 0 <= bq_length (of_wire bs).
Proof. exact (dec_nth_nonneg (wire_layout register_buffer_request) bs 6). Qed.

Ltac size_tac := rewrite ?max_request_bytes; vm_compute; split; congruence.

Lemma process_by_kind_ok c kind :
  input_wf c -> round_ok (input_len (c_in c)) (process_by_kind kind c).
Proof.
  intros Hc. pose proof (iw_window _ Hc) as Hw. pose proof (iw_bytes _ Hc) as Hb.
  pose proof (iw_max _ Hc) as Hm. change (Z.of_nat IOURINGD_MAX_IO_BYTES) with 4096 in Hm.
  assert (Hfin : forall m, round_ok (input_len (c_in c)) (finish_processed (expect m c)))
    by (intros m; apply finish_processed_ok; destruct Hc; by constructor).
  assert (Hpay : forall m size len, 16 <= Z.of_nat size <= 32 -> 0 <= len <= 4096 ->
            round_ok (input_len (c_in c)) (need_payload size len (expect m c)))
    by (intros m size len Hs Hl; apply need_payload_ok; [destruct Hc; by constructor|done|lia|done|done]).
  unfold process_by_kind, process_poll, process_connect, process_accept, process_openat,
    process_close, process_get_trace, process_register_buffer, process_write.
  repeat match goal with |- context [if ?x then _ else _] =>
           lazymatch x with context [kind] => destruct x end end;
    try (apply need_ok; [exact Hc|size_tac|]; intros _;
         unfold process_connect_rest, process_openat_rest, process_register_buffer_rest,
           process_write_rest; cbv zeta;
         cbn [expect c_in input c_io_bytes_max put put_c_in put_expected_input];
         repeat match goal with |- context [if ?x then _ else _] =>
                  let E := fresh "E" in destruct x eqn:E end; bool_hyps;
         first [by left | apply Hfin | apply Hpay; [by vm_compute|]]).
  all: try (split; [apply rq_length_nonneg + apply oq_path_length_nonneg + apply bq_length_nonneg; exact Hb|lia]).
  apply finish_processed_ok, input_wf_env, Hc.
Qed.

(** ** What a ready request satisfies *)

Lemma ready_request_request op q : request (ready_request op q) = request q.
Proof. reflexivity. Qed.
Lemma assign_request_request q nsec target rid brid len :
  request (assign_request q nsec target rid brid len) = request q.
Proof. reflexivity. Qed.
Lemma copy_payload_request b off q : request (copy_payload b off q) = request q.
Proof. reflexivity. Qed.
Lemma put_request_request v q : request (put_request v q) = v.
Proof. reflexivity. Qed.
Lemma put_poll_mask_request v q : request (put_poll_mask v q) = request q.
Proof. reflexivity. Qed.
Lemma put_open_flags_request v q : request (put_open_flags v q) = request q.
Proof. reflexivity. Qed.
Lemma put_open_mode_request v q : request (put_open_mode v q) = request q.
Proof. reflexivity. Qed.
Lemma put_close_fd_request v q : request (put_close_fd v q) = request q.
Proof. reflexivity. Qed.
Lemma put_trace_after_request v q : request (put_trace_after_sequence v q) = request q.
Proof. reflexivity. Qed.
Lemma put_trace_max_request v q : request (put_trace_max_events v q) = request q.
Proof. reflexivity. Qed.
#[local] Hint Rewrite ready_request_request assign_request_request copy_payload_request
  put_request_request put_poll_mask_request put_open_flags_request put_open_mode_request
  put_close_fd_request put_trace_after_request put_trace_max_request : payload.

(** The submit part of each request struct is at its front. *)
Lemma submit_parts (bs : bytes) :
  tq_submit (of_wire bs) = of_wire bs /\ rq_submit (of_wire bs) = of_wire bs /\
  pq_submit (of_wire bs) = of_wire bs /\ oq_submit (of_wire bs) = of_wire bs /\
  lq_submit (of_wire bs) = of_wire bs /\ fq_submit (of_wire bs) = of_wire bs /\
  (let x : cancel_request := of_wire bs in
   mk_submit_request (kq_header x) (kq_task_kind x) (kq_reserved0 x) (kq_reserved1 x) = of_wire bs).
Proof. repeat split. Qed.

Lemma finish_by_kind_request kind b m q q' :
  request q = of_wire (input b) -> finish_by_kind kind b m q = (Ok tt, q') ->
  request q' = request q.
Proof.
  intros Hq. destruct (submit_parts (input b)) as (E1 & E2 & E3 & E4 & E5 & E6 & E7).
  cbv zeta in E7. unfold finish_by_kind.
  repeat match goal with |- context [if ?k =? ?n then _ else _] => destruct (k =? n) end;
    unfold finish_nop, finish_timeout, finish_cancel, finish_read, finish_write, finish_poll,
      finish_connect, finish_accept, finish_openat, finish_close, finish_fixed,
      finish_register_fd, finish_register_buffer, finish_release, finish_get_stats,
      finish_get_trace; cbv zeta;
    repeat match goal with |- context [if ?x then _ else _] => destruct x end;
    intros E; try discriminate E; apply (f_equal snd) in E; cbn [snd] in E; rewrite <- E;
    cbn [put]; autorewrite with payload; congruence.
Qed.

Lemma finish_by_kind_known kind b m q q' :
  finish_by_kind kind b m q = (Ok tt, q') -> sq_task_kind (request q') = kind ->
  is_Some (request_view q').
Proof.
  unfold finish_by_kind, request_view. intros E ->.
  repeat match goal with |- context [if kind =? ?n then _ else _] =>
           destruct (kind =? n); [by eexists|] end.
  discriminate E.
Qed.

(** A round that makes a request ready ends in the finishing function, on the
    same bytes and request fields. *)
Definition finishes (c : client) (pr : processed) : Prop :=
  forall c', pr = (Ok true, c') ->
  exists c1, input (c_in c1) = input (c_in c) /\ c_req c1 = c_req c /\
             c_received_fd c1 = c_received_fd c /\
             iouringd_finish_submit_request c1 = (Ok tt, c').

Lemma finishes_processed c c1 :
  input (c_in c1) = input (c_in c) -> c_req c1 = c_req c -> c_received_fd c1 = c_received_fd c ->
  finishes c (finish_processed c1).
Proof.
  intros H1 H2 H3 c' E. exists c1. split_and!; try done. unfold finish_processed in E.
  destruct (iouringd_finish_submit_request c1) as [[[]|e] c2]; congruence.
Qed.

Lemma finishes_need c c0 m k :
  (forall m', finishes c (k (expect m' c0))) -> finishes c (need m c0 k).
Proof. intros Hk c'. unfold need. destruct (_ <? _); [done|]. apply Hk. Qed.

Lemma finishes_need_payload c m size len : finishes c (need_payload size len (expect m c)).
Proof.
  intros c'. unfold need_payload. destruct (_ <? _); [done|].
  apply finishes_need. intros m'. by apply finishes_processed.
Qed.

Lemma finishes_by_kind c kind : finishes c (process_by_kind kind c).
Proof.
  unfold process_by_kind, process_poll, process_connect, process_accept, process_openat,
    process_close, process_get_trace, process_register_buffer, process_write.
  repeat match goal with |- context [if ?x then _ else _] =>
           lazymatch x with context [kind] => destruct x end end;
    try (apply finishes_need; intros m';
         unfold process_connect_rest, process_openat_rest, process_register_buffer_rest,
           process_write_rest; cbv zeta;
         repeat match goal with |- context [if ?x then _ else _] => destruct x end;
         first [ by intros c' | apply finishes_need_payload | by apply finishes_processed ]).
  by apply finishes_processed.
Qed.

(** One round of the parser, on any bytes. *)
Lemma process_input_ok c :
  input_wf c ->
  let '(rc, c') := iouringd_process_submit_input c in
  match rc with
  | Ok true => input_wf c' /\ input_len (c_in c') = 0 /\ request_ready (c_req c') = true /\
               request_sane c' /\ buffer_fits (c_io_bytes_max c') (c_req c')
  | Ok false => input_wf c' /\ input_len (c_in c') = input_len (c_in c) /\
                input_len (c_in c) < expected_input (c_in c')
  | Err e => e = EPROTO \/ e = EMSGSIZE
  end.
Proof.
  intros Hc. unfold iouringd_process_submit_input. change (wire_size submit_request) with 16%nat.
  destruct (_ <? _) eqn:E16; bool_hyps.
  { split_and!; [|done|cbn; lia]. apply input_wf_expect; [done|lia|].
    rewrite max_request_bytes. lia. }
  set (q := of_wire (input (c_in c)) : submit_request). cbv zeta.
  set (c1 := c <| c_req := c_req c <| request := q |> |>).
  destruct (iouringd_request_header_is_valid q) eqn:Hv; cbn [negb]; [|by left].
  assert (Hc1 : input_wf c1) by (destruct Hc; by constructor).
  pose proof (process_by_kind_ok c1 (sq_task_kind q) Hc1) as Hok.
  pose proof (finishes_by_kind c1 (sq_task_kind q)) as Hfin.
  destruct (process_by_kind (sq_task_kind q) c1) as [[[]|e] c'] eqn:Ep; [|exact Hok|exact Hok].
  destruct Hok as (H1 & H2 & H3 & H4). split_and!; try done.
  destruct (Hfin c' eq_refl) as (c2 & Ei & Er & Ed & Ef). clear Hfin Ep.
  unfold iouringd_finish_submit_request in Ef. rewrite Er, Ed in Ef.
  change (request (c_req c1)) with q in Ef. rewrite Hv in Ef. cbn [negb] in Ef.
  destruct (iouringd_request_priority_is_valid q) eqn:Hp; cbn [negb] in Ef; [|discriminate].
  destruct (negb _ && _) eqn:Hrd in Ef; [discriminate|].
  destruct (finish_by_kind _ _ _ _) as [[[]|e] q'] eqn:Ek; [|discriminate]. injection Ef as <-.
  assert (Eq : request q' = q).
  { change q with (request (c_req c1)). eapply finish_by_kind_request; [|exact Ek]. by rewrite Ei. }
  unfold request_sane. cbn [c_req c_received_fd put put_c_req put_c_in].
  rewrite Eq. split_and!; [done|done| |].
  - eapply finish_by_kind_known; [exact Ek|]. by rewrite Eq.
  - intros Hne. rewrite Ed.
    apply andb_false_iff in Hrd as [Hrd|Hrd]; bool_hyps; [done|exact Hrd].
Qed.

(** C14: the parser is safe and sound on any bytes.  From a well-formed buffer one round never
    moves the window outside the array; it reports a protocol error, asks for
    more bytes than it has (so that reading goes on), or makes a request ready
    whose header and priority are valid, whose kind is one the protocol knows,
    and that carries no descriptor unless it registers one. *)
Theorem process_submit_input_safe c :
  input_wf c ->
  let '(rc, c') := iouringd_process_submit_input c in
  match rc with
  | Ok true => input_wf c' /\ input_len (c_in c') = 0 /\ request_ready (c_req c') = true /\
               request_sane c'
  | Ok false => input_wf c' /\ input_len (c_in c') = input_len (c_in c) /\
                input_len (c_in c) < expected_input (c_in c')
  | Err e => e = EPROTO \/ e = EMSGSIZE
  end.
Proof.
  intros Hc. pose proof (process_input_ok c Hc) as Hok.
  destruct (iouringd_process_submit_input c) as [[[]|e] c']; [|exact Hok|exact Hok].
  destruct Hok as (H1 & H2 & H3 & H4 & _). done.
Qed.

(** ** The socket reads *)

Section Reads.
Context {W : Type} `{Kernel W}.

(** [recvmsg(2)] returns at most as many bytes as there is room for. *)
Definition recv_documented : Prop :=
  forall w fd len m w', k_recvmsg w fd len = (Ok m, w') ->
  (length (msg_data m) <= len)%nat /\ Forall is_byte (msg_data m).

Context (Hrecv : recv_documented).

Lemma Forall_blit (P : Z -> Prop) off (bs buf : bytes) :
  Forall P bs -> Forall P buf -> Forall P (blit off bs buf).
Proof.
  intros H1 H2. unfold blit. apply Forall_app. split; [by apply Forall_take|].
  apply Forall_app. split; [done|by apply Forall_drop].
Qed.

(** What a read leaves of the client: the wanted length, the request and the
    limits stay, and the buffer is well-formed. *)
Record read_keeps (c c' : client) : Prop := {
  rk_wf : input_wf c';
  rk_expected : expected_input (c_in c') = expected_input (c_in c);
  rk_len : input_len (c_in c) <= input_len (c_in c');
  rk_req : c_req c' = c_req c;
  rk_phase : c_phase c' = c_phase c;
  rk_fd : c_fd c' = c_fd c;
}.

Lemma read_round_keeps w c r c' closed w' :
  input_wf c -> input_len (c_in c) < expected_input (c_in c) ->
  read_round w c = (r, c', closed, w') ->
  read_keeps c c' /\ r <> Some (Ok ReadDone) /\
  (r = None -> input_len (c_in c) < input_len (c_in c')).
Proof.
  intros Hc Hlt E. pose proof Hc as [Hw He Ha Hb Hp Hm]. rewrite max_request_bytes in *.
  assert (Hself : read_keeps c c) by (constructor; done).
  unfold read_round in E. destruct (k_recvmsg _ _ _) as [[m|e] w1] eqn:Ek.
  2: { injection E as <- <- <- <-. split; [done|]. split; [by destruct (e =? EAGAIN)|done]. }
  destruct (Hrecv _ _ _ _ _ Ek) as [Hl Hbs].
  destruct (_ =? _)%nat eqn:E0; [apply Nat.eqb_eq in E0|apply Nat.eqb_neq in E0].
  { injection E as <- <- <- <-. split; [done|]. split; [by destruct (_ =? 0)|done]. }
  set (b := c_in c) in *.
  assert (Hk : forall fd n, input_len b <= n <= expected_input b ->
    read_keeps c (c <| c_in := b <| input := blit (Z.to_nat (input_len b)) (msg_data m) (input b) |>
                                 <| input_len := n |> |> <| c_received_fd := fd |>)).
  { intros fd n Hn. constructor; try done; [|cbn; fold b; lia].
    constructor; cbn -[IOURINGD_MAX_REQUEST_BYTES IOURINGD_MAX_IO_BYTES]; try done; try lia.
    - rewrite length_blit; [by rewrite max_request_bytes|]. lia.
    - by apply Forall_blit. }
  specialize (Hk (c_received_fd c) (input_len b) ltac:(lia)) as Hk0.
  destruct (msg_ctrunc m).
  { injection E as <- <- <- <-. split; [|done].
    destruct Hk0 as [K1 K2 K3 K4 K5 K6]. constructor; try done; destruct K1; by constructor. }
  destruct (take_cmsgs _ _) as [[[u|e] fd] cl]; injection E as <- <- <- <-.
  - pose proof (Hk fd (input_len b + Z.of_nat (length (msg_data m))) ltac:(lia)) as [K1 K2 K3 K4 K5 K6].
    split; [constructor; try done|].
    + destruct K1 as [J1 J2 J3 J4 J5 J6].
      constructor; cbn -[IOURINGD_MAX_REQUEST_BYTES IOURINGD_MAX_IO_BYTES] in *;
        rewrite ?u64_id by lia; try done.
    + cbn in *. rewrite u64_id by lia. done.
    + split; [done|]. intros _. cbn. rewrite u64_id by lia. lia.
  - split; [|done]. pose proof (Hk fd (input_len b) ltac:(lia)) as [K1 K2 K3 K4 K5 K6].
    constructor; try done; destruct K1; by constructor.
Qed.

Lemma read_keeps_trans a b c : read_keeps a b -> read_keeps b c -> read_keeps a c.
Proof. intros [] []. constructor; congruence || (try done); lia. Qed.

(** The bound on the rounds is enough, and a read that is done has every byte
    that was wanted. *)
Lemma read_loop_keeps fuel w c rc c' closed w' :
  input_wf c -> expected_input (c_in c) - input_len (c_in c) < Z.of_nat fuel ->
  read_loop fuel w c = (rc, c', closed, w') ->
  read_keeps c c' /\
  (rc = Ok ReadDone -> input_len (c_in c') = expected_input (c_in c)) /\
  (forall extra, read_loop (fuel + extra) w c = (rc, c', closed, w')).
Proof.
  revert w c rc c' closed w'. induction fuel as [|fuel IH]; intros w c rc c' closed w' Hc Hf E.
  { destruct Hc. lia. }
  cbn [read_loop Nat.add] in *. destruct (_ <? _) eqn:El; bool_hyps.
  2: { injection E as <- <- <- <-. split_and!; [by constructor| |done].
       intros _. destruct Hc. lia. }
  destruct (read_round w c) as [[[r c1] cl1] w1] eqn:Er.
  destruct (read_round_keeps _ _ _ _ _ _ Hc El Er) as (K1 & Hnd & Hlt).
  destruct r as [rc1|].
  - injection E as <- <- <- <-. split_and!; [done|intros ->; done|done].
  - destruct (read_loop fuel w1 c1) as [[[rc2 c2] cl2] w2] eqn:Elp.
    injection E as <- <- <- <-.
    specialize (Hlt eq_refl). pose proof (rk_expected _ _ K1) as Hex.
    destruct (IH _ _ _ _ _ _ (rk_wf _ _ K1) ltac:(lia) Elp) as (K2 & Hd & Hx).
    split_and!; [by eapply read_keeps_trans|intros ->; rewrite Hd by done; lia|].
    intros extra. by rewrite Hx.
Qed.

(** The client after a read, in the daemon's state. *)
Lemma read_client_input_keeps i (s : sys W) rc s' :
  (i < length (rt_clients (s_rt s)))%nat -> input_wf (the_client s i) ->
  read_client_input i s = (rc, s') ->
  read_keeps (the_client s i) (the_client s' i) /\
  length (rt_clients (s_rt s')) = length (rt_clients (s_rt s)) /\
  (rc = Ok ReadDone -> input_len (c_in (the_client s' i)) = expected_input (c_in (the_client s i))).
Proof.
  intros Hi Hc E. unfold read_client_input, iouringd_read_client_input in E.
  destruct (read_loop _ _ _) as [[[rc0 c'] cl] w'] eqn:El. injection E as <- <-.
  eapply read_loop_keeps in El as (K & Hd & _); [|exact Hc|destruct Hc; lia].
  match goal with |- read_keeps _ (the_client ?s1 i) /\ _ =>
    assert (Ec : the_client s1 i = c') by (by apply insert_total_eq) end.
  rewrite Ec. split_and!; [done| |done]. apply length_insert.
Qed.

Lemma process_submit_input_client i (s : sys W) rc s' :
  (i < length (rt_clients (s_rt s)))%nat -> process_submit_input i s = (rc, s') ->
  iouringd_process_submit_input (the_client s i) = (rc, the_client s' i) /\
  length (rt_clients (s_rt s')) = length (rt_clients (s_rt s)).
Proof.
  intros Hi E. unfold process_submit_input in E.
  destruct (iouringd_process_submit_input _) as [rc0 c'] eqn:Ep. injection E as <- <-.
  unfold the_client. cbn [s_rt put put_s_rt rt_clients put_rt_clients].
  by rewrite insert_total_eq, length_insert.
Qed.

(** The runs of the loop of [iouringd_service_client_readable], without a bound: a
    round returns, whatever would come next, or the loop goes on in the state the
    round leaves. *)
Inductive serviced (i : nat) : bool -> sys W -> outcome bool * sys W -> Prop :=
| serviced_last p s r : (forall next, service_round next i p s = r) -> serviced i p s r
| serviced_next p s s' r :
    (forall next, service_round next i p s = next s') -> serviced i true s' r -> serviced i p s r.

(** A round returns, or a longer part of the request is wanted than before. *)
Lemma service_round_cases i p (s : sys W) :
  (i < length (rt_clients (s_rt s)))%nat -> input_wf (the_client s i) ->
  (exists r, forall next, service_round next i p s = r) \/
  (exists s', (forall next, service_round next i p s = next s') /\
     (i < length (rt_clients (s_rt s')))%nat /\ input_wf (the_client s' i) /\
     expected_input (c_in (the_client s i)) < expected_input (c_in (the_client s' i))).
Proof.
  intros Hi Hc. unfold service_round, get_client, mget, mbnd, mtry, mret.
  destruct (negb _); [by left; eexists|].
  destruct (read_client_input i s) as [rc s1] eqn:Er.
  destruct (read_client_input_keeps i s rc s1 Hi Hc Er) as (K1 & Hl1 & Hd).
  destruct rc as [[]|e]; try (by left; eexists). destruct (c_phase (the_client s1 i)); [by left; eexists|].
  destruct (process_submit_input i s1) as [pr s2] eqn:Ep.
  destruct (process_submit_input_client i s1 pr s2 ltac:(lia) Ep) as [Ep' Hl2].
  pose proof (process_input_ok _ (rk_wf _ _ K1)) as Hsafe. rewrite Ep' in Hsafe.
  destruct pr as [b|e]; [|by left; eexists]. destruct (request_ready (c_req (the_client s2 i))) eqn:Hr; [by left; eexists|].
  right. destruct b; [destruct Hsafe as (_ & _ & Hr' & _); congruence|].
  destruct Hsafe as (Hc2 & Hn2 & Hlt). specialize (Hd eq_refl).
  exists s2. split_and!; [done|lia|done|lia].
Qed.

Lemma service_loop_serviced fuel i p (s : sys W) :
  (i < length (rt_clients (s_rt s)))%nat -> input_wf (the_client s i) ->
  Z.of_nat IOURINGD_MAX_REQUEST_BYTES - expected_input (c_in (the_client s i)) < Z.of_nat fuel ->
  serviced i p s (service_loop fuel i p s).
Proof.
  revert p s. induction fuel as [|fuel IH]; intros p s Hi Hc Hf; [destruct Hc; lia|].
  cbn [service_loop]. destruct (service_round_cases i p s Hi Hc) as [[r Hr]|(s' & Hn & Hi' & Hc' & Hlt)].
  - rewrite (Hr (service_loop fuel i true)). by apply serviced_last.
  - rewrite Hn. eapply serviced_next; [exact Hn|]. apply IH; [done|done|lia].
Qed.


(** A message with data and two descriptors. *)
Definition two_descriptors (m : message) (a b : Z) : Prop :=
  msg_data m <> [] /\ msg_ctrunc m = false /\ msg_cmsgs m = [CmsgRights [a; b]].

(** C37: descriptors can be lost.  The control buffer has room for two descriptors (the size is
    rounded up to 24 bytes); a message that carries two is refused with
    [EPROTO] without closing them: the service call drops the client, closes
    its socket and the descriptor received before, if any, and nothing else,
    so the two installed descriptors stay open in the daemon for ever. *)
Theorem two_descriptors_leak i (s : sys W) m w' a b :
  (i < length (rt_clients (s_rt s)))%nat ->
  0 <= c_fd (the_client s i) -> request_ready (c_req (the_client s i)) = false ->
  input_len (c_in (the_client s i)) < expected_input (c_in (the_client s i)) ->
  k_recvmsg (s_world s) (c_fd (the_client s i))
    (Z.to_nat (expected_input (c_in (the_client s i)) - input_len (c_in (the_client s i))))
    = (Ok m, w') ->
  two_descriptors m a b ->
  exists s', iouringd_service_client_readable i s = (Ok true, s') /\
    s_closed s' = s_closed s ++ [c_fd (the_client s i)]
                  ++ close_if_open (c_received_fd (the_client s i)) /\
    c_fd (the_client s' i) = -1 /\ c_received_fd (the_client s' i) < 0.
Proof.
  intros Hi Hfd Hr Hlt Hk (Hne & Htr & Hcm). unfold iouringd_service_client_readable.
  cbn [service_loop]. unfold service_round. unfold mbnd at 1. cbn [get_client mget]. rewrite Hr.
  replace (0 <=? c_fd (the_client s i)) with true by (symmetry; by apply Z.leb_le). cbn [andb negb].
  unfold mbnd at 1, mtry, read_client_input, iouringd_read_client_input. cbn [read_loop].
  replace (_ <? _) with true by (symmetry; by apply Z.ltb_lt).
  unfold read_round. rewrite Hk, Htr, Hcm. cbn [take_cmsgs].
  replace (length (msg_data m) =? 0)%nat with false
    by (symmetry; apply Nat.eqb_neq; by destruct (msg_data m)).
  unfold mbnd, close_client, get_client, mget, close_fds, mod_client, mod_rt, mmod, mret.
  eexists. split; [reflexivity|].
  unfold the_client.
  cbn [s_rt s_world s_closed put put_s_rt put_s_world put_s_closed rt_clients put_rt_clients].
  rewrite !insert_total_eq by (rewrite ?length_insert; done).
  unfold iouringd_close_client. cbn -[close_if_open].
  split_and!; [|done|].
  - rewrite app_nil_r. f_equal. unfold close_if_open at 1.
    by replace (0 <=? _) with true by (symmetry; by apply Z.leb_le).
  - destruct (0 <=? _) eqn:E; bool_hyps; [lia|done].
Qed.
End Reads.

(** ** The hypotheses can hold *)

(** A kernel that delivers the bytes of a NOP request with two descriptors. *)
Definition two_fd_message : message := mk_message (encode (WNop 0)) false [CmsgRights [11; 12]].

Definition listening (w : script) : sys script :=
  mk_sys (iouringd_init_runtime <| rt_clients := [idle_example] |>) w [].

Lemma idle_example_wf : input_wf idle_example.
Proof.
  constructor; try (by vm_compute).
  apply Forall_replicate. unfold is_byte. lia.
Qed.

Lemma two_descriptors_leak_witness :
  exists s', iouringd_service_client_readable 0
               (listening (quiet <| sc_recv := [Ok two_fd_message] |>)) = (Ok true, s') /\
             s_closed s' = [9].
Proof.
  destruct (two_descriptors_leak 0 (listening (quiet <| sc_recv := [Ok two_fd_message] |>))
              two_fd_message quiet 11 12) as (s' & H1 & H2 & _);
    [apply Nat.ltb_lt; reflexivity|vm_compute; congruence|reflexivity|reflexivity|reflexivity
    |split_and!; [vm_compute; congruence|reflexivity|reflexivity]|].
  exists s'. split; [exact H1|exact H2].
Defined.

Lemma script_recv_documented : recv_documented (W := script).
Proof.
  intros w fd len m w' E. cbn in E. destruct (sc_recv w) as [|[m0|e] rest]; simplify_eq.
  cbn [msg_data]. rewrite length_fmap, length_take. split; [lia|].
  apply Forall_fmap, Forall_true. intros z. apply (wrap_range 8). lia.
Qed.


Lemma process_submit_input_safe_witness :
  let c := idle_example <| c_in := mk_inbuf 16 16 (encode (WNop 2) ++ replicate 4104 0) |> in
  exists c', iouringd_process_submit_input c = (Ok true, c') /\ request_ready (c_req c') = true.
Proof.
  intros c.
  assert (Hc : input_wf c).
  { constructor; try (by vm_compute). apply Forall_app. split.
    - apply enc_bytes.
    - apply Forall_replicate. unfold is_byte. lia. }
  pose proof (process_submit_input_safe c Hc) as (_ & _ & H & _).
  eexists. split; [reflexivity|exact H].
Defined.
