(* ===== verification/Dispatch.v ===== *)
(** * Dispatching a request

    Models [iouringd_dispatch_client_request] of [src/daemon/main.c]: the
    control requests (register, release, stats, trace), the guards every task
    request passes in the order of the source, and the four ways a task is
    started (openat, close, operations on a registered file, and nop, timeout
    and cancel), each with the undo of its error paths. *)

From S2P Require Import Prelude Wire Kernel Ring State Output Resources Trace Daemon Input.

Definition req_kind (c : client) : Z := sq_task_kind (request (c_req c)).
Definition req_priority (c : client) : Z := sq_priority (request (c_req c)).

(** ** The guards *)

(** [uses_credit] *)
Definition uses_credit (c : client) : bool := negb (req_kind c =? IOURINGD_TASK_KIND_CANCEL).

Definition credit_guards (rt : runtime) (c : client) : option Z :=
  if uses_credit c && (rt_task_capacity rt <=? rt_outstanding_credit_tasks rt) then Some EAGAIN
  else if uses_credit c && (rt_per_client_credit_limit rt <=? outstanding_credit_tasks (c_res c))
  then Some EAGAIN
  else if negb (uses_credit c) && (rt_ring_capacity rt <=? rt_outstanding_tasks rt) then Some EAGAIN
  else None.

(** [(runtime->capabilities.op_mask & bit) == 0u] *)
Definition lacks (rt : runtime) (bit : Z) : bool := Z.land (cap_op_mask (rt_capabilities rt)) bit =? 0.

Definition support_guards (rt : runtime) (c : client) : option Z :=
  let kind := req_kind c in
  if (kind =? IOURINGD_TASK_KIND_CANCEL) && lacks rt IOURINGD_CAPABILITY_OP_ASYNC_CANCEL
  then Some ENOTSUP
  else if (kind =? IOURINGD_TASK_KIND_CANCEL) &&
          ((cancel_target_id (c_req c) =? IOURINGD_TASK_ID_INVALID) ||
           (IOURINGD_TASK_ID_RESERVED_MIN <=? cancel_target_id (c_req c)))
  then Some EINVAL
  else if ((kind =? IOURINGD_TASK_KIND_SOCK_READ) || (kind =? IOURINGD_TASK_KIND_FILE_READ)) &&
          lacks rt IOURINGD_CAPABILITY_OP_READV
  then Some ENOTSUP
  else if ((kind =? IOURINGD_TASK_KIND_SOCK_WRITE) || (kind =? IOURINGD_TASK_KIND_FILE_WRITE)) &&
          lacks rt IOURINGD_CAPABILITY_OP_WRITEV
  then Some ENOTSUP
  else if (kind =? IOURINGD_TASK_KIND_POLL) && lacks rt IOURINGD_CAPABILITY_OP_POLL
  then Some ENOTSUP
  else if (kind =? IOURINGD_TASK_KIND_CONNECT) && lacks rt IOURINGD_CAPABILITY_OP_CONNECT
  then Some ENOTSUP
  else if (kind =? IOURINGD_TASK_KIND_ACCEPT) && lacks rt IOURINGD_CAPABILITY_OP_ACCEPT
  then Some ENOTSUP
  else if (kind =? IOURINGD_TASK_KIND_OPENAT) && lacks rt IOURINGD_CAPABILITY_OP_OPENAT
  then Some ENOTSUP
  else if (kind =? IOURINGD_TASK_KIND_CLOSE) && lacks rt IOURINGD_CAPABILITY_OP_CLOSE
  then Some ENOTSUP
  else if (kind =? IOURINGD_TASK_KIND_SOCK_READ_FIXED) && lacks rt IOURINGD_CAPABILITY_OP_READ_FIXED
  then Some ENOTSUP
  else if (kind =? IOURINGD_TASK_KIND_SOCK_WRITE_FIXED) && lacks rt IOURINGD_CAPABILITY_OP_WRITE_FIXED
  then Some ENOTSUP
  else None.

Definition argument_guards (c : client) : option Z :=
  let kind := req_kind c in
  let q := c_req c in
  let no_resource := resource_id q =? IOURINGD_RESOURCE_ID_INVALID in
  let too_long := c_io_bytes_max c <? io_length q in
  if ((kind =? IOURINGD_TASK_KIND_SOCK_READ) || (kind =? IOURINGD_TASK_KIND_SOCK_WRITE) ||
      (kind =? IOURINGD_TASK_KIND_FILE_READ) || (kind =? IOURINGD_TASK_KIND_FILE_WRITE)) &&
     (no_resource || (io_length q =? 0) || too_long)
  then Some EINVAL
  else if (kind =? IOURINGD_TASK_KIND_POLL) && (no_resource || (poll_mask q =? 0))
  then Some EINVAL
  else if (kind =? IOURINGD_TASK_KIND_CONNECT) &&
          (no_resource || (io_length q =? 0) || too_long || (UINT16_MAX <? io_length q))
  then Some EINVAL
  else if (kind =? IOURINGD_TASK_KIND_ACCEPT) &&
          (no_resource || too_long || (UINT16_MAX <? io_length q))
  then Some EINVAL
  else if (kind =? IOURINGD_TASK_KIND_OPENAT) &&
          ((io_length q <? 2) || too_long ||
           negb (io_payload q !!! Z.to_nat (io_length q - 1) =? 0))
  then Some EINVAL
  else if (kind =? IOURINGD_TASK_KIND_CLOSE) && no_resource
  then Some EINVAL
  else if ((kind =? IOURINGD_TASK_KIND_SOCK_READ_FIXED) ||
           (kind =? IOURINGD_TASK_KIND_SOCK_WRITE_FIXED)) &&
          (no_resource || (buffer_resource_id q =? IOURINGD_RESOURCE_ID_INVALID) ||
           (io_length q =? 0) || too_long)
  then Some EINVAL
  else None.

Definition submit_guards (rt : runtime) (c : client) : option Z :=
  match credit_guards rt c with
  | Some e => Some e
  | None => match support_guards rt c with
            | Some e => Some e
            | None => argument_guards c
            end
  end.

(** The fields every new task gets after [iouringd_clear_task_slot]. *)
Definition new_task (rt : runtime) (c : client) (i : nat) : task_slot :=
  iouringd_clear_task_slot
    <| t_active := true |> <| t_consumes_credit := uses_credit c |>
    <| t_task_id := rt_next_task_id rt |> <| t_task_kind := req_kind c |>
    <| t_submit_priority := req_priority c |> <| t_client_index := i |>
    <| t_client_generation := c_generation c |>.

(** [memcpy(task->io_buffer, client->io_payload, n)]; both arrays have
    [IOURINGD_MAX_IO_BYTES] bytes, and [n] is within them (the guards and
    [memory_safe] of [Safety]), so that [take] cuts nothing off. *)
Definition copy_to_task (c : client) (n : Z) (t : task_slot) : task_slot :=
  t <| t_io_buffer := blit 0 (take (Z.to_nat n) (io_payload (c_req c))) (t_io_buffer t) |>.

(** A slot reserved for the descriptor an openat or accept will return. *)
Definition reserved_file_slot (rid : Z) : resource_slot := mk_resource_slot rid (-1) 1 false false.

Definition task_openat (rt : runtime) (c : client) (i j : nat) (rid : Z) : task_slot :=
  copy_to_task c (io_length (c_req c))
    (new_task rt c i <| t_result_file_slot_index := Z.of_nat j |> <| t_result_resource_id := rid |>
       <| t_open_flags := open_flags (c_req c) |> <| t_open_mode := open_mode (c_req c) |>
       <| t_io_length := io_length (c_req c) |>).

Definition task_close (rt : runtime) (c : client) (i j : nat) (fd : Z) : task_slot :=
  new_task rt c i <| t_file_slot_index := Z.of_nat j |> <| t_resource_id := resource_id (c_req c) |>
    <| t_close_fd := fd |>.

Definition task_io (rt : runtime) (c : client) (i j : nat) (bj : option nat) : task_slot :=
  let q := c_req c in
  new_task rt c i <| t_file_slot_index := Z.of_nat j |> <| t_resource_id := resource_id q |>
    <| t_buffer_resource_id := buffer_resource_id q |> <| t_io_length := io_length q |>
    <| t_poll_mask := poll_mask q |> <| t_sockaddr_length := io_length q |>
    <| t_iov_len := io_length q |>
    <| t_buffer_slot_index := match bj with Some b => Z.of_nat b | None => -1 end |>.

Definition AT_FDCWD : Z := -100.
Definition SOCK_CLOEXEC : Z := 524288.
Definition SOCK_NONBLOCK : Z := 2048.

Section Dispatch.
Context {W : Type} `{Kernel W}.
Abbreviation DM := (DM (W := W)).

Definition finish_true (i : nat) : DM bool := iouringd_finish_client_request i ;;; mret true.

(** [if (iouringd_reject_submit(runtime, client, -e) != 0) return -1;
    iouringd_finish_client_request(client); return 1;] *)
Definition reject (i : nat) (e : Z) : DM bool := iouringd_reject_submit i (- e) ;;; finish_true i.

(** The same with a resource result and the given number of free slots. *)
Definition resource_reply (i : nat) (rid res : Z) (avail : client -> Z) : DM unit :=
  c <- get_client i ;; iouringd_queue_resource_result i rid res (avail c).
Definition refuse (i : nat) (e : Z) (avail : client -> Z) : DM bool :=
  resource_reply i IOURINGD_RESOURCE_ID_INVALID (- e) avail ;;; finish_true i.

(** [close(client->received_fd); client->received_fd = -1;] *)
Definition drop_received_fd (i : nat) : DM unit :=
  c <- get_client i ;;
  close_fds [c_received_fd c] ;;;
  mod_client i (fun c => c <| c_received_fd := -1 |>).

Definition allocate_id (i : nat) : DM Z :=
  c <- get_client i ;;
  let '(rid, a) := iouringd_allocate_resource_id (c_res c) in
  set_res i (fun _ => a) ;;; mret rid.

Definition resource_event (i : nat) (event rid : Z) : DM unit :=
  rt <- get_rt ;;
  emit_trace i event 0 IOURINGD_SUBMIT_PRIORITY_NORMAL IOURINGD_TASK_ID_INVALID rid 0
    (iouringd_available_credits rt).

(** ** Control requests *)

Definition dispatch_register_fd (i : nat) : DM bool :=
  c <- get_client i ;;
  if c_received_fd c <? 0 then refuse i EINVAL iouringd_available_file_resources
  else
    match iouringd_find_free_file_slot (c_res c) with
    | None =>
        resource_reply i IOURINGD_RESOURCE_ID_INVALID (- EAGAIN)
          iouringd_available_file_resources ;;;
        drop_received_fd i ;;; finish_true i
    | Some j =>
        rid <- allocate_id i ;;
        if rid =? IOURINGD_RESOURCE_ID_INVALID then
          resource_reply i IOURINGD_RESOURCE_ID_INVALID (- EOVERFLOW)
            iouringd_available_file_resources ;;;
          drop_received_fd i ;;; finish_true i
        else
          rt <- get_rt ;;
          r <- mtry (ring_update_file (iouringd_global_file_index rt i j) (c_received_fd c)) ;;
          match r with
          | Err e =>
              drop_received_fd i ;;;
              resource_reply i IOURINGD_RESOURCE_ID_INVALID (- e)
                iouringd_available_file_resources ;;;
              finish_true i
          | Ok _ =>
              set_file_slot i j (fun _ => mk_resource_slot rid (c_received_fd c) 0 true false) ;;;
              mod_client i (fun c => c <| c_received_fd := -1 |>) ;;;
              resource_reply i rid 0 iouringd_available_file_resources ;;;
              resource_event i IOURINGD_TRACE_EVENT_RESOURCE_REGISTER rid ;;;
              finish_true i
          end
    end.

Definition dispatch_register_buffer (i : nat) : DM bool :=
  c <- get_client i ;;
  match iouringd_find_free_buffer_slot (c_res c) with
  | None => refuse i EAGAIN iouringd_available_buffer_resources
  | Some j =>
      rid <- allocate_id i ;;
      if rid =? IOURINGD_RESOURCE_ID_INVALID then
        refuse i EOVERFLOW iouringd_available_buffer_resources
      else
        let len := io_length (c_req c) in
        (if negb (len =? 0) then
           mod_rt (fun rt => rt <| rt_storage :=
                     blit (Z.to_nat (iouringd_buffer_storage_at rt i j))
                       (take (Z.to_nat len) (io_payload (c_req c))) (rt_storage rt) |>)
         else mret tt) ;;;
        set_buffer_slot i j (fun _ => mk_buffer_slot rid 0 true false len) ;;;
        resource_reply i rid 0 iouringd_available_buffer_resources ;;;
        resource_event i IOURINGD_TRACE_EVENT_RESOURCE_REGISTER rid ;;;
        finish_true i
  end.

Definition dispatch_release (i : nat) : DM bool :=
  c <- get_client i ;;
  let id := resource_id (c_req c) in
  if id =? IOURINGD_RESOURCE_ID_INVALID then refuse i EINVAL (fun _ => 0)
  else
    match iouringd_find_file_slot (c_res c) id with
    | Some j =>
        s <- get_file_slot i j ;;
        if negb (rs_in_flight s =? 0) then refuse i EBUSY iouringd_available_file_resources
        else
          set_file_slot i j (fun s => s <| rs_closing := true |>) ;;;
          iouringd_try_release_file_slot i j ;;;
          resource_reply i (rs_resource_id s) 0 iouringd_available_file_resources ;;;
          resource_event i IOURINGD_TRACE_EVENT_RESOURCE_RELEASE (rs_resource_id s) ;;;
          finish_true i
    | None =>
        match iouringd_find_buffer_slot (c_res c) id with
        | Some j =>
            s <- get_buffer_slot i j ;;
            if negb (bs_in_flight s =? 0) then refuse i EBUSY iouringd_available_buffer_resources
            else
              set_buffer_slot i j (fun s => s <| bs_closing := true |>) ;;;
              iouringd_try_release_buffer_slot i j ;;;
              resource_reply i (bs_resource_id s) 0 iouringd_available_buffer_resources ;;;
              resource_event i IOURINGD_TRACE_EVENT_RESOURCE_RELEASE (bs_resource_id s) ;;;
              finish_true i
        | None => refuse i ENOENT (fun _ => 0)
        end
    end.

(** ** Accounting of a started task *)

Definition count_task (rt_delta : Z) (credit : bool) (rt : runtime) : runtime :=
  rt <| rt_outstanding_tasks := u64 (rt_outstanding_tasks rt + rt_delta) |>
     <| rt_outstanding_credit_tasks :=
          if credit then u64 (rt_outstanding_credit_tasks rt + rt_delta)
          else rt_outstanding_credit_tasks rt |>.
Definition count_client_task (delta : Z) (credit : bool) (a : client_resources) : client_resources :=
  a <| outstanding_tasks := u64 (outstanding_tasks a + delta) |>
    <| outstanding_credit_tasks :=
         if credit then u64 (outstanding_credit_tasks a + delta)
         else outstanding_credit_tasks a |>.

Definition account_task (i : nat) (delta : Z) (credit : bool) : DM unit :=
  mod_rt (count_task delta credit) ;;; set_res i (count_client_task delta credit).

Definition clear_task (k : nat) : DM unit := mod_task k (fun _ => iouringd_clear_task_slot).

(** The task in slot [k] is in the ring: it is counted and the client is told;
    when the reply does not fit, [undo] and the error. *)
Definition accept_task (i k : nat) (credit : bool) (undo : DM unit) : DM bool :=
  mod_rt (fun rt => rt <| rt_next_task_id := u64 (rt_next_task_id rt + 1) |>) ;;;
  account_task i 1 credit ;;;
  mod_rt (fun rt => rt <| rt_accepted_submits := u64 (rt_accepted_submits rt + 1) |>) ;;;
  t <- get_task k ;;
  r <- mtry (iouringd_queue_submit_result i (t_task_id t) IOURINGD_COMPLETION_RES_OK) ;;
  match r with
  | Err e => account_task i (-1) credit ;;; undo ;;; clear_task k ;;; mfail e
  | Ok _ =>
      rt <- get_rt ;;
      emit_trace i IOURINGD_TRACE_EVENT_SUBMIT_ACCEPT (t_task_kind t) (t_submit_priority t)
        (t_task_id t) (t_resource_id t) IOURINGD_COMPLETION_RES_OK
        (iouringd_available_credits rt) ;;;
      finish_true i
  end.

(** The submission failed with [e]: [undo], the task slot cleared, the client
    told. *)
Definition abandon_task (i k : nat) (e : Z) (undo : DM unit) : DM bool :=
  undo ;;; clear_task k ;;; reject i e.

Definition dec_file (i j : nat) : DM unit :=
  set_file_slot i j (fun s => s <| rs_in_flight := u32 (rs_in_flight s - 1) |>).
Definition inc_file (i j : nat) : DM unit :=
  set_file_slot i j (fun s => s <| rs_in_flight := u32 (rs_in_flight s + 1) |>).
Definition dec_buffer (i : nat) (bj : option nat) : DM unit :=
  match bj with
  | Some b => set_buffer_slot i b (fun s => s <| bs_in_flight := u32 (bs_in_flight s - 1) |>)
  | None => mret tt
  end.
Definition inc_buffer (i : nat) (bj : option nat) : DM unit :=
  match bj with
  | Some b => set_buffer_slot i b (fun s => s <| bs_in_flight := u32 (bs_in_flight s + 1) |>)
  | None => mret tt
  end.

(** [if (slot->in_flight != 0u) slot->in_flight -= 1u;
    iouringd_clear_file_slot(slot);] *)
Definition drop_result_slot (i j : nat) : DM unit :=
  set_file_slot i j (fun s => if negb (rs_in_flight s =? 0)
                              then s <| rs_in_flight := u32 (rs_in_flight s - 1) |> else s) ;;;
  clear_file_slot i j.

Definition unallocate_id (i : nat) (rid : Z) : DM unit :=
  set_res i (fun a => iouringd_unallocate_resource_id a rid).

(** ** OPENAT

    The parts of a task request are given the runtime and the client as they are
    when the guards have passed; nothing changes either in between. *)

Definition dispatch_openat (i : nat) (rt : runtime) (c : client) : DM bool :=
  if IOURINGD_TASK_ID_RESERVED_MIN <=? rt_next_task_id rt then reject i EOVERFLOW
  else
    match iouringd_find_free_file_slot (c_res c) with
    | None => reject i EAGAIN
    | Some j =>
        rid <- allocate_id i ;;
        if rid =? IOURINGD_RESOURCE_ID_INVALID then reject i EOVERFLOW
        else
          match iouringd_find_free_task_slot rt with
          | None => reject i EAGAIN
          | Some k =>
              mod_task k (fun _ => task_openat rt c i j rid) ;;;
              set_file_slot i j (fun _ => reserved_file_slot rid) ;;;
              t <- get_task k ;;
              r <- mtry (with_ring (fun w r =>
                     iouringd_ring_submit_openat w r (t_task_id t) AT_FDCWD
                       (Some (PTaskIoBuffer k)) (t_open_flags t) (t_open_mode t)
                       (t_submit_priority t))) ;;
              match r with
              | Err e => abandon_task i k e (drop_result_slot i j ;;; unallocate_id i rid)
              | Ok _ => accept_task i k true (drop_result_slot i j)
              end
          end
    end.

(** ** CLOSE *)

Definition reopen_slot (i j : nat) (fd : Z) : DM unit :=
  set_file_slot i j (fun s => s <| rs_daemon_fd := fd |> <| rs_registered := true |>
                                <| rs_closing := false |> <| rs_in_flight := 0 |>) ;;;
  rt <- get_rt ;;
  ring_update_file (iouringd_global_file_index rt i j) fd.

Definition dispatch_close (i : nat) (rt : runtime) (c : client) : DM bool :=
  match iouringd_find_file_slot (c_res c) (resource_id (c_req c)) with
  | None => reject i ENOENT
  | Some j =>
      s <- get_file_slot i j ;;
      if rs_closing s then reject i ENOENT
      else if negb (rs_in_flight s =? 0) || (rs_daemon_fd s <? 0) then reject i EBUSY
      else if IOURINGD_TASK_ID_RESERVED_MIN <=? rt_next_task_id rt then reject i EOVERFLOW
      else
        match iouringd_find_free_task_slot rt with
        | None => reject i EAGAIN
        | Some k =>
            let fd := rs_daemon_fd s in
            ring_update_file (iouringd_global_file_index rt i j) (-1) ;;;
            mod_task k (fun _ => task_close rt c i j fd) ;;;
            set_file_slot i j (fun s => s <| rs_daemon_fd := -1 |> <| rs_registered := false |>
                                          <| rs_closing := true |> <| rs_in_flight := 1 |>) ;;;
            t <- get_task k ;;
            r <- mtry (with_ring (fun w r =>
                   iouringd_ring_submit_close w r (t_task_id t) fd (t_submit_priority t))) ;;
            match r with
            | Err e => abandon_task i k e (reopen_slot i j fd)
            | Ok _ => accept_task i k true (reopen_slot i j fd)
            end
        end
  end.

(** ** Operations on a registered file *)

Definition kind_is_io (kind : Z) : bool :=
  (kind =? IOURINGD_TASK_KIND_SOCK_READ) || (kind =? IOURINGD_TASK_KIND_SOCK_WRITE) ||
  (kind =? IOURINGD_TASK_KIND_FILE_READ) || (kind =? IOURINGD_TASK_KIND_FILE_WRITE) ||
  (kind =? IOURINGD_TASK_KIND_POLL) || (kind =? IOURINGD_TASK_KIND_CONNECT) ||
  (kind =? IOURINGD_TASK_KIND_ACCEPT) || (kind =? IOURINGD_TASK_KIND_SOCK_READ_FIXED) ||
  (kind =? IOURINGD_TASK_KIND_SOCK_WRITE_FIXED).

(** The buffer slot of a fixed-buffer operation, or the error it is rejected
    with; no slot for the other kinds. *)
Definition io_buffer_slot (c : client) : outcome (option nat) :=
  let kind := req_kind c in
  if (kind =? IOURINGD_TASK_KIND_SOCK_READ_FIXED) || (kind =? IOURINGD_TASK_KIND_SOCK_WRITE_FIXED)
  then
    match iouringd_find_buffer_slot (c_res c) (buffer_resource_id (c_req c)) with
    | None => Err ENOENT
    | Some b =>
        let s := buffer_resources (c_res c) !!! b in
        if bs_closing s then Err ENOENT
        else if (kind =? IOURINGD_TASK_KIND_SOCK_WRITE_FIXED) &&
                (bs_valid_length s <? io_length (c_req c)) then Err EINVAL
        else Ok (Some b)
    end
  else Ok None.

(** The slot an accept returns its descriptor in: reserved, or the error. *)
Definition reserve_result (i k : nat) : DM unit :=
  c <- get_client i ;;
  match iouringd_find_free_file_slot (c_res c) with
  | None => mfail EAGAIN
  | Some j =>
      rid <- allocate_id i ;;
      if rid =? IOURINGD_RESOURCE_ID_INVALID then mfail EOVERFLOW
      else
        set_file_slot i j (fun _ => reserved_file_slot rid) ;;;
        mod_task k (fun t => t <| t_result_file_slot_index := Z.of_nat j |>
                               <| t_result_resource_id := rid |>)
  end.

(** The submission of the task in slot [k] on file slot [j]. *)
Definition submit_io (i k j : nat) : DM unit :=
  c <- get_client i ;; t <- get_task k ;; rt <- get_rt ;; s <- get_file_slot i j ;;
  let kind := t_task_kind t in
  let id := t_task_id t in
  let prio := t_submit_priority t in
  let file := iouringd_global_file_index rt i j in
  let b := Z.to_nat (t_buffer_slot_index t) in
  let buffer := iouringd_global_buffer_index rt i b in
  let at_ := Some (PStorage (iouringd_buffer_storage_at rt i b)) in
  if (kind =? IOURINGD_TASK_KIND_SOCK_WRITE) || (kind =? IOURINGD_TASK_KIND_FILE_WRITE) then
    mod_task k (copy_to_task c (t_io_length t)) ;;;
    with_ring (fun w r => iouringd_ring_submit_writev w r id file (Some (PTaskIov k)) 1 prio)
  else if (kind =? IOURINGD_TASK_KIND_SOCK_READ) || (kind =? IOURINGD_TASK_KIND_FILE_READ) then
    with_ring (fun w r => iouringd_ring_submit_readv w r id file (Some (PTaskIov k)) 1 prio)
  else if kind =? IOURINGD_TASK_KIND_CONNECT then
    mod_task k (copy_to_task c (t_io_length t)) ;;;
    with_ring (fun w r => iouringd_ring_submit_connect w r id (rs_daemon_fd s)
                            (Some (PTaskIoBuffer k)) (t_io_length t) prio)
  else if kind =? IOURINGD_TASK_KIND_ACCEPT then
    let some {A} (p : A) := if negb (t_io_length t =? 0) then Some p else None in
    with_ring (fun w r => iouringd_ring_submit_accept w r id (rs_daemon_fd s)
                            (some (PTaskIoBuffer k)) (some (PTaskSockaddrLength k))
                            (Z.lor SOCK_CLOEXEC SOCK_NONBLOCK) prio)
  else if kind =? IOURINGD_TASK_KIND_POLL then
    with_ring (fun w r => iouringd_ring_submit_poll w r id file (t_poll_mask t) prio)
  else if kind =? IOURINGD_TASK_KIND_SOCK_WRITE_FIXED then
    with_ring (fun w r => iouringd_ring_submit_write_fixed w r id file buffer at_
                            (t_io_length t) prio)
  else
    with_ring (fun w r => iouringd_ring_submit_read_fixed w r id file buffer at_
                            (t_io_length t) prio).

(** The undo of a failed submission. *)
Definition undo_submit_io (i k j : nat) (bj : option nat) : DM unit :=
  t <- get_task k ;;
  dec_file i j ;;;
  (if t_task_kind t =? IOURINGD_TASK_KIND_ACCEPT then
     drop_result_slot i (Z.to_nat (t_result_file_slot_index t)) ;;;
     unallocate_id i (t_result_resource_id t)
   else dec_buffer i bj).

(** The undo when the reply does not fit. *)
Definition undo_reply_io (i k j : nat) (bj : option nat) : DM unit :=
  t <- get_task k ;; c <- get_client i ;;
  dec_file i j ;;;
  (if (0 <=? t_result_file_slot_index t) &&
      (t_result_file_slot_index t <? i32 (file_slot_limit (c_res c)))
   then drop_result_slot i (Z.to_nat (t_result_file_slot_index t)) else mret tt) ;;;
  dec_buffer i bj.

(** A task slot is found: the task is filled in, takes its references, and is
    submitted. *)
Definition start_io (i : nat) (rt : runtime) (c : client) (k j : nat) (bj : option nat) : DM bool :=
  mod_task k (fun _ => task_io rt c i j bj) ;;;
  inc_file i j ;;; inc_buffer i bj ;;;
  rr <- mtry (if req_kind c =? IOURINGD_TASK_KIND_ACCEPT then reserve_result i k else mret tt) ;;
  match rr with
  | Err e => abandon_task i k e (dec_file i j)
  | Ok _ =>
      r <- mtry (submit_io i k j) ;;
      match r with
      | Err e => abandon_task i k e (undo_submit_io i k j bj)
      | Ok _ => accept_task i k true (undo_reply_io i k j bj)
      end
  end.

Definition dispatch_io (i : nat) (rt : runtime) (c : client) : DM bool :=
  match iouringd_find_file_slot (c_res c) (resource_id (c_req c)) with
  | None => reject i ENOENT
  | Some j =>
      s <- get_file_slot i j ;;
      if rs_closing s then reject i ENOENT
      else if (req_kind c =? IOURINGD_TASK_KIND_CONNECT) && (rs_daemon_fd s <? 0) then reject i EBADF
      else if (req_kind c =? IOURINGD_TASK_KIND_ACCEPT) && (rs_daemon_fd s <? 0) then reject i EBADF
      else
        match io_buffer_slot c with
        | Err e => reject i e
        | Ok bj =>
            if IOURINGD_TASK_ID_RESERVED_MIN <=? rt_next_task_id rt then reject i EOVERFLOW
            else
              match iouringd_find_free_task_slot rt with
              | None => reject i EAGAIN
              | Some k => start_io i rt c k j bj
              end
        end
  end.

(** ** NOP, TIMEOUT and CANCEL *)

(** The task's own fields, by its kind, and its submission. *)
Definition submit_simple (i k : nat) : DM unit :=
  c <- get_client i ;; t <- get_task k ;;
  if t_task_kind t =? IOURINGD_TASK_KIND_TIMEOUT then
    mod_task k (fun t => t <| t_timeout := (timeout_nsec (c_req c) / 1000000000,
                                            timeout_nsec (c_req c) mod 1000000000) |>) ;;;
    with_ring (fun w r => iouringd_ring_submit_timeout w r (t_task_id t) (Some (PTaskTimeout k))
                            (t_submit_priority t))
  else if t_task_kind t =? IOURINGD_TASK_KIND_CANCEL then
    mod_task k (fun t => t <| t_cancel_target_id := cancel_target_id (c_req c) |>) ;;;
    with_ring (fun w r => iouringd_ring_submit_cancel w r (t_task_id t)
                            (cancel_target_id (c_req c)) (t_submit_priority t))
  else
    with_ring (fun w r => iouringd_ring_submit_nop w r (t_task_id t) (t_submit_priority t)).

Definition dispatch_simple (i : nat) (rt : runtime) (c : client) : DM bool :=
  if IOURINGD_TASK_ID_RESERVED_MIN <=? rt_next_task_id rt then reject i EOVERFLOW
  else
    match iouringd_find_free_task_slot rt with
    | None => reject i EAGAIN
    | Some k =>
        mod_task k (fun _ => new_task rt c i) ;;;
        r <- mtry (submit_simple i k) ;;
        match r with
        | Err e => abandon_task i k e (mret tt)
        | Ok _ => accept_task i k (uses_credit c) (mret tt)
        end
    end.

(** A task request that passed the guards. *)
Definition dispatch_task (i : nat) (rt : runtime) (c : client) : DM bool :=
  if req_kind c =? IOURINGD_TASK_KIND_OPENAT then dispatch_openat i rt c
  else if req_kind c =? IOURINGD_TASK_KIND_CLOSE then dispatch_close i rt c
  else if kind_is_io (req_kind c) then dispatch_io i rt c
  else dispatch_simple i rt c.

Definition iouringd_dispatch_client_request (i : nat) : DM bool :=
  c <- get_client i ;;
  let op := control_op (c_req c) in
  if negb (request_ready (c_req c)) then mret false
  else if op =? IOURINGD_REQUEST_KIND_REGISTER_FD then dispatch_register_fd i
  else if op =? IOURINGD_REQUEST_KIND_REGISTER_BUFFER then dispatch_register_buffer i
  else if op =? IOURINGD_REQUEST_KIND_RELEASE_RESOURCE then dispatch_release i
  else if op =? IOURINGD_REQUEST_KIND_GET_STATS then
    iouringd_queue_stats_result i ;;; finish_true i
  else if op =? IOURINGD_REQUEST_KIND_GET_TRACE then
    iouringd_queue_trace_result i ;;; finish_true i
  else
    rt <- get_rt ;;
    match submit_guards rt c with
    | Some e => reject i e
    | None => dispatch_task i rt c
    end.
End Dispatch.
