(* ===== verification/Complete.v ===== *)
(** * Completions

    Models the completion side of [src/daemon/main.c]: the descriptors that
    accept and openat return ([iouringd_prepare_accept_completion],
    [iouringd_prepare_openat_completion]), [iouringd_complete_task],
    [iouringd_reap_completions] and [iouringd_sweep_closing_resources]. *)

From S2P Require Import Prelude Wire Kernel Ring State Output Resources Trace Daemon Input Dispatch.

Definition set_cr_res (res : Z) (x : completion_record) : completion_record :=
  mk_completion_record (cr_header x) (cr_task x) res (cr_task_kind x) (cr_payload_length x).
Definition set_cr_payload_length (n : Z) (x : completion_record) : completion_record :=
  mk_completion_record (cr_header x) (cr_task x) (cr_res x) (cr_task_kind x) n.

Definition kind_is_read (kind : Z) : bool :=
  (kind =? IOURINGD_TASK_KIND_SOCK_READ) || (kind =? IOURINGD_TASK_KIND_SOCK_READ_FIXED) ||
  (kind =? IOURINGD_TASK_KIND_FILE_READ).

(** The completion record before the descriptors are looked at. *)
Definition initial_completion (t : task_slot) (res : Z) : completion_record :=
  mk_completion_record protocol_header_v1 (t_task_id t) res (t_task_kind t)
    (if kind_is_read (t_task_kind t) && (0 <? res) then u16 res else 0).

(** [index >= 0 && index < (int)limit] *)
Definition slot_index_ok (index limit : Z) : bool := (0 <=? index) && (index <? i32 limit).

Section Complete.
Context {W : Type} `{Kernel W}.
Abbreviation DM := (DM (W := W)).

(** The slot an accept or openat reserved takes the descriptor, unless the
    client it was reserved for is gone or the table update fails; the result
    for the completion record, and whether the descriptor was installed. *)
Definition install_result (t : task_slot) (fd : Z) : DM (Z * bool) :=
  let i := t_client_index t in
  let j := Z.to_nat (t_result_file_slot_index t) in
  c <- get_client i ;; rt <- get_rt ;;
  if (c_fd c <? 0) || negb (c_generation c =? t_client_generation t) then
    close_fds [fd] ;;; mret (fd, false)
  else
    r <- mtry (ring_update_file (iouringd_global_file_index rt i j) fd) ;;
    match r with
    | Err e => close_fds [fd] ;;; mret (- e, false)
    | Ok _ =>
        set_file_slot i j (fun s => s <| rs_resource_id := t_result_resource_id t |>
                                      <| rs_daemon_fd := fd |> <| rs_registered := true |>
                                      <| rs_closing := false |>) ;;;
        mret (i32 (t_result_resource_id t), true)
    end.

Definition result_id_bad (t : task_slot) : bool :=
  (t_result_resource_id t =? IOURINGD_RESOURCE_ID_INVALID) ||
  (INT32_MAX <? t_result_resource_id t).

(** The record and the payload it points to. *)
Definition iouringd_prepare_accept_completion (t : task_slot) (x : completion_record)
    : DM (completion_record * option bytes) :=
  if negb (t_task_kind t =? IOURINGD_TASK_KIND_ACCEPT) || (cr_res x <? 0) then mret (x, None)
  else
    let fd := cr_res x in
    rt <- get_rt ;;
    if (max_clients (rt_limits rt) <=? Z.of_nat (t_client_index t)) ||
       (t_result_file_slot_index t <? 0)
    then close_fds [fd] ;;; mret (set_cr_res (- EIO) x, None)
    else
      c <- get_client (t_client_index t) ;;
      if i32 (file_slot_limit (c_res c)) <=? t_result_file_slot_index t then
        close_fds [fd] ;;; mret (set_cr_res (- EIO) x, None)
      else if (t_io_length t <? t_sockaddr_length t) || result_id_bad t then
        close_fds [fd] ;;; mret (set_cr_res (- EPROTO) x, None)
      else
        r <- install_result t fd ;;
        let '(res, installed) := r in
        if installed && negb (t_sockaddr_length t =? 0) then
          mret (set_cr_payload_length (u16 (t_sockaddr_length t)) (set_cr_res res x),
                Some (t_io_buffer t))
        else mret (set_cr_res res x, None).

Definition iouringd_prepare_openat_completion (t : task_slot) (x : completion_record)
    : DM completion_record :=
  if negb (t_task_kind t =? IOURINGD_TASK_KIND_OPENAT) || (cr_res x <? 0) then mret x
  else
    let fd := cr_res x in
    rt <- get_rt ;;
    if (max_clients (rt_limits rt) <=? Z.of_nat (t_client_index t)) ||
       (t_result_file_slot_index t <? 0)
    then close_fds [fd] ;;; mret (set_cr_res (- EIO) x)
    else
      c <- get_client (t_client_index t) ;;
      if (i32 (file_slot_limit (c_res c)) <=? t_result_file_slot_index t) || result_id_bad t then
        close_fds [fd] ;;; mret (set_cr_res (- EPROTO) x)
      else
        r <- install_result t fd ;; mret (set_cr_res (fst r) x).

(** The payload of a read; a fixed read also sets the buffer's valid length. *)
Definition read_payload (t : task_slot) (res : Z) (payload : option bytes) : DM (option bytes) :=
  let i := t_client_index t in
  c <- get_client i ;; rt <- get_rt ;;
  if ((t_task_kind t =? IOURINGD_TASK_KIND_SOCK_READ) ||
      (t_task_kind t =? IOURINGD_TASK_KIND_FILE_READ)) && (0 <? res)
  then mret (Some (t_io_buffer t))
  else if (t_task_kind t =? IOURINGD_TASK_KIND_SOCK_READ_FIXED) &&
          slot_index_ok (t_buffer_slot_index t) (buffer_slot_limit (c_res c))
  then
    let b := Z.to_nat (t_buffer_slot_index t) in
    (if 0 <=? res then set_buffer_slot i b (fun s => s <| bs_valid_length := u32 res |>)
     else mret tt) ;;;
    mret (if 0 <? res
          then Some (drop (Z.to_nat (iouringd_buffer_storage_at rt i b)) (rt_storage rt))
          else payload)
  else mret payload.

(** The record and its payload go to the client the task was started for.  The payload has
    at least the announced number of bytes: [completion_delivered_once] of [Delivery]
    says that exactly so many are queued. *)
Definition completion_reply (t : task_slot) (x : completion_record) (payload : option bytes)
    : DM unit :=
  let i := t_client_index t in
  c <- get_client i ;;
  if (0 <=? c_fd c) && (c_generation c =? t_client_generation t) then
    queue_output i (to_wire x) ;;;
    match payload with
    | Some p =>
        if negb (cr_payload_length x =? 0)
        then queue_output i (take (Z.to_nat (cr_payload_length x)) p) else mret tt
    | None => mret tt
    end
  else mret tt.

(** [if (slot->in_flight != 0u) slot->in_flight -= 1u;] *)
Definition unref_file (i j : nat) : DM unit :=
  set_file_slot i j (fun s => if negb (rs_in_flight s =? 0)
                              then s <| rs_in_flight := u32 (rs_in_flight s - 1) |> else s).
Definition unref_buffer (i j : nat) : DM unit :=
  set_buffer_slot i j (fun s => if negb (bs_in_flight s =? 0)
                                then s <| bs_in_flight := u32 (bs_in_flight s - 1) |> else s).

Definition complete_file_slot (t : task_slot) : DM unit :=
  let i := t_client_index t in
  c <- get_client i ;;
  if slot_index_ok (t_file_slot_index t) (file_slot_limit (c_res c)) then
    let j := Z.to_nat (t_file_slot_index t) in
    unref_file i j ;;;
    s <- get_file_slot i j ;;
    if rs_closing s then iouringd_try_release_file_slot i j else mret tt
  else mret tt.

Definition complete_result_slot (t : task_slot) : DM unit :=
  let i := t_client_index t in
  c <- get_client i ;;
  if slot_index_ok (t_result_file_slot_index t) (file_slot_limit (c_res c)) then
    let j := Z.to_nat (t_result_file_slot_index t) in
    unref_file i j ;;;
    s <- get_file_slot i j ;;
    if negb (rs_registered s) || rs_closing s then iouringd_try_release_file_slot i j
    else mret tt
  else mret tt.

Definition complete_buffer_slot (t : task_slot) : DM unit :=
  let i := t_client_index t in
  c <- get_client i ;;
  if slot_index_ok (t_buffer_slot_index t) (buffer_slot_limit (c_res c)) then
    let j := Z.to_nat (t_buffer_slot_index t) in
    unref_buffer i j ;;;
    s <- get_buffer_slot i j ;;
    if bs_closing s then iouringd_try_release_buffer_slot i j else mret tt
  else mret tt.

(** The counters; the client's are decremented unless they are zero. *)
Definition complete_account (t : task_slot) : DM unit :=
  let i := t_client_index t in
  rt <- get_rt ;;
  let known := Z.of_nat i <? max_clients (rt_limits rt) in
  (if t_consumes_credit t then
     mod_rt (fun rt => rt <| rt_outstanding_credit_tasks :=
                               u64 (rt_outstanding_credit_tasks rt - 1) |>) ;;;
     (if known then
        set_res i (fun a => if negb (outstanding_credit_tasks a =? 0)
                            then a <| outstanding_credit_tasks :=
                                       u64 (outstanding_credit_tasks a - 1) |> else a)
      else mret tt)
   else mret tt) ;;;
  mod_rt (fun rt => rt <| rt_completions := u64 (rt_completions rt + 1) |>
                       <| rt_outstanding_tasks := u64 (rt_outstanding_tasks rt - 1) |>) ;;;
  (if known then
     set_res i (fun a => if negb (outstanding_tasks a =? 0)
                         then a <| outstanding_tasks := u64 (outstanding_tasks a - 1) |> else a)
   else mret tt).

Definition iouringd_complete_task (k : nat) (res : Z) : DM unit :=
  t <- get_task k ;;
  xp <- iouringd_prepare_accept_completion t (initial_completion t res) ;;
  x <- iouringd_prepare_openat_completion t (fst xp) ;;
  rt <- get_rt ;;
  (if Z.of_nat (t_client_index t) <? max_clients (rt_limits rt) then
     payload <- read_payload t res (snd xp) ;;
     completion_reply t x payload ;;;
     complete_file_slot t ;;;
     complete_result_slot t ;;;
     complete_buffer_slot t
   else mret tt) ;;;
  complete_account t ;;;
  rt' <- get_rt ;;
  let rid := if ((t_task_kind t =? IOURINGD_TASK_KIND_ACCEPT) ||
                 (t_task_kind t =? IOURINGD_TASK_KIND_OPENAT)) && (0 <=? cr_res x)
             then t_result_resource_id t else t_resource_id t in
  emit_trace (t_client_index t) IOURINGD_TRACE_EVENT_COMPLETION (t_task_kind t)
    (t_submit_priority t) (t_task_id t) rid (cr_res x) (iouringd_available_credits rt') ;;;
  clear_task k.

(** ** Reaping *)

Definition peek_completion : DM (option cqe) :=
  fun s =>
    let '(oc, r, w) := iouringd_ring_peek_completion (s_world s) (rt_ring (s_rt s)) in
    (Ok oc, s <| s_rt := s_rt s <| rt_ring := r |> |> <| s_world := w |>).

(** What the kernel had written for the operation by the time its completion is
    visible: the bytes read, or the accepted peer's address and its length, in
    the memory the submission named, and no more of them than the submission
    allowed: the length of the I/O vector, the initial value of [sockaddr_length]
    (which is [io_length]), or the length of the fixed read. *)
Definition kernel_writes (k : nat) (e : cqe) : DM unit :=
  t <- get_task k ;;
  let data n := take (Z.to_nat n) (cqe_data e) in
  if (t_task_kind t =? IOURINGD_TASK_KIND_SOCK_READ) ||
     (t_task_kind t =? IOURINGD_TASK_KIND_FILE_READ)
  then mod_task k (fun t' => t' <| t_io_buffer := blit 0 (data (t_iov_len t)) (t_io_buffer t') |>)
  else if (t_task_kind t =? IOURINGD_TASK_KIND_ACCEPT) && negb (t_io_length t =? 0)
  then mod_task k (fun t' => t' <| t_io_buffer := blit 0 (data (t_io_length t)) (t_io_buffer t') |>
                                <| t_sockaddr_length := cqe_addrlen e |>)
  else if t_task_kind t =? IOURINGD_TASK_KIND_SOCK_READ_FIXED
  then mod_rt (fun rt => rt <| rt_storage :=
         blit (Z.to_nat (iouringd_buffer_storage_at rt (t_client_index t)
                           (Z.to_nat (t_buffer_slot_index t)))) (data (t_io_length t)) (rt_storage rt) |>)
  else mret tt.

(** The loop, [fuel] rounds; [None] when more rounds are needed. *)
Fixpoint reap_loop (fuel : nat) (progress : bool) : DM (option bool) :=
  match fuel with
  | O => mret None
  | S fuel' =>
      oc <- peek_completion ;;
      match oc with
      | None => mret (Some progress)
      | Some e =>
          rt <- get_rt ;;
          match iouringd_find_task_slot rt (cqe_user_data e) with
          | None => mfail EPROTO
          | Some k =>
              kernel_writes k e ;;;
              iouringd_complete_task k (cqe_res e) ;;;
              reap_loop fuel' true
          end
      end
  end.

Definition iouringd_reap_completions (fuel : nat) : DM (option bool) := reap_loop fuel false.

(** ** The sweep *)

(** [for (j = 0; j < n; ++j) body(j)] with the progress it reports. *)
Fixpoint for_each (n : nat) (body : nat -> DM bool) : DM bool :=
  match n with
  | O => mret false
  | S m =>
      p <- for_each m body ;;
      q <- body m ;;
      mret (p || q)
  end.

Definition sweep_file (i j : nat) : DM bool :=
  s <- get_file_slot i j ;;
  if negb (rs_closing s) || negb (rs_in_flight s =? 0) then mret false
  else iouringd_try_release_file_slot i j ;;; mret true.
Definition sweep_buffer (i j : nat) : DM bool :=
  s <- get_buffer_slot i j ;;
  if negb (bs_closing s) || negb (bs_in_flight s =? 0) then mret false
  else iouringd_try_release_buffer_slot i j ;;; mret true.

Definition sweep_client (i : nat) : DM bool :=
  c <- get_client i ;;
  p <- for_each (Z.to_nat (file_slot_limit (c_res c))) (sweep_file i) ;;
  q <- for_each (Z.to_nat (buffer_slot_limit (c_res c))) (sweep_buffer i) ;;
  mret (p || q).

Definition iouringd_sweep_closing_resources : DM bool :=
  rt <- get_rt ;; for_each (Z.to_nat (max_clients (rt_limits rt))) sweep_client.
End Complete.
