(* ===== verification/Sched.v ===== *)
(** * The main loop

    Models the scheduling part of [src/daemon/main.c]: the dispatch of ready
    requests in priority bands with a rotating cursor, the service of readable
    clients, the flush of outputs, the poll set, and one round of
    [iouringd_run]. *)

From S2P Require Import Prelude Wire Kernel Ring State Output Resources Trace Daemon Input Dispatch Complete.

Definition dispatch_bands : list Z := [3; 2; 1; 0].

(** The band of a ready client. *)
Definition client_band (c : client) : Z :=
  if negb (control_op (c_req c) =? 0) then 3
  else if req_priority c =? IOURINGD_SUBMIT_PRIORITY_HIGH then 2
  else if req_priority c =? IOURINGD_SUBMIT_PRIORITY_NORMAL then 1
  else 0.

Definition iouringd_client_wants_read (c : client) : bool :=
  negb ((c_fd c <? 0) || c_close_after_flush c || request_ready (c_req c)).

Definition POLLIN : Z := 1.
Definition POLLOUT : Z := 4.
Definition POLLERR : Z := 8.
Definition POLLHUP : Z := 16.
Definition POLLNVAL : Z := 32.

(** What an entry of the poll set stands for: -1, -2, or a client's index. *)
Inductive poll_slot := PollServer | PollRing | PollClient (i : nat).

Definition client_events (c : client) : Z :=
  Z.lor (if iouringd_client_wants_read c then POLLIN else 0)
        (if iouringd_client_has_output (c_out c) then POLLOUT else 0).

(** The entries of the poll set, in order: descriptor, events, slot. *)
Fixpoint client_pollfds (i : nat) (cs : list client) : list (Z * Z * poll_slot) :=
  match cs with
  | [] => []
  | c :: rest =>
      let tail := client_pollfds (S i) rest in
      if negb (iouringd_client_is_active c) then tail
      else if client_events c =? 0 then tail
      else (c_fd c, client_events c, PollClient i) :: tail
  end.

Definition iouringd_build_pollfds (rt : runtime) : list (Z * Z * poll_slot) :=
  (if 0 <=? rt_server_fd rt then [(rt_server_fd rt, POLLIN, PollServer)] else []) ++
  (if negb (rt_outstanding_tasks rt =? 0) then [(ring_fd (rt_ring rt), POLLIN, PollRing)] else []) ++
  client_pollfds 0 (live_clients rt).

Section Sched.
Context {W : Type} `{Kernel W}.
Abbreviation DM := (DM (W := W)).

(** One step of the scan of a band: the slot at [offset] from the cursor, as
    the cursor is now. *)
Definition dispatch_at (band : Z) (offset : nat) : DM bool :=
  rt <- get_rt ;;
  let n := Z.to_nat (max_clients (rt_limits rt)) in
  let index := ((rt_dispatch_cursor rt + offset) mod n)%nat in
  c <- get_client index ;;
  if negb (iouringd_client_is_active c) || negb (request_ready (c_req c)) then mret false
  else if negb (client_band c =? band) then mret false
  else
    done <- iouringd_dispatch_client_request index ;;
    (if done then mod_rt (fun rt => rt <| rt_dispatch_cursor := ((index + 1) mod n)%nat |>)
     else mret tt) ;;;
    mret done.

Definition dispatch_band (band : Z) : DM bool :=
  rt <- get_rt ;;
  for_each (Z.to_nat (max_clients (rt_limits rt))) (dispatch_at band).

Fixpoint dispatch_in_bands (bands : list Z) : DM bool :=
  match bands with
  | [] => mret false
  | b :: rest => p <- dispatch_band b ;; q <- dispatch_in_bands rest ;; mret (p || q)
  end.

Definition iouringd_dispatch_ready_requests : DM bool := dispatch_in_bands dispatch_bands.

Definition service_at (i : nat) : DM bool :=
  c <- get_client i ;;
  if negb (iouringd_client_is_active c) then mret false
  else iouringd_service_client_readable i.

Definition iouringd_service_ready_inputs : DM bool :=
  rt <- get_rt ;; for_each (Z.to_nat (max_clients (rt_limits rt))) service_at.

(** [iouringd_flush_client_output] on a client of the runtime. *)
Definition flush_client_output (i : nat) : DM unit :=
  fun s =>
    let c := the_client s i in
    let '(rc, b, w) := iouringd_flush_client_output (s_world s) (c_fd c) (c_out c) in
    (rc, s <| s_rt := s_rt s <| rt_clients := <[i := c <| c_out := b |>]> (rt_clients (s_rt s)) |> |>
           <| s_world := w |>).

(** A flush, and the close when it fails or was asked for; whether the client
    was closed. *)
Definition flush_or_close (i : nat) : DM bool :=
  rc <- mtry (flush_client_output i) ;;
  match rc with
  | Err _ => close_client i ;;; mret true
  | Ok _ =>
      c <- get_client i ;;
      if c_close_after_flush c then close_client i ;;; mret true else mret false
  end.

Definition flush_at (i : nat) : DM bool :=
  c <- get_client i ;;
  if negb (iouringd_client_is_active c) || negb (iouringd_client_has_output (c_out c))
  then mret false
  else flush_or_close i.

Definition iouringd_flush_client_outputs : DM bool :=
  rt <- get_rt ;; for_each (Z.to_nat (max_clients (rt_limits rt))) flush_at.

(** ** One round of [iouringd_run] *)

(** [RunMore]: an inner loop was given too few rounds. *)
Inductive run_status := RunContinue | RunStop | RunMore.

Definition has_event (revents mask : Z) : bool := negb (Z.land revents mask =? 0).

(** What the loop does with one entry that [poll] reported. *)
Definition poll_client_event (i : nat) (revents : Z) : DM unit :=
  c <- get_client i ;;
  closed <- (if has_event revents POLLOUT && iouringd_client_is_active c
             then flush_or_close i else mret false) ;;
  if closed then mret tt
  else
    c' <- get_client i ;;
    if has_event revents POLLIN && iouringd_client_is_active c' then
      iouringd_service_client_readable i ;;; mret tt
    else if has_event revents (Z.lor POLLERR (Z.lor POLLHUP POLLNVAL)) &&
            iouringd_client_is_active c'
    then close_client i
    else mret tt.

Definition poll_event (fuel : nat) (slot : poll_slot) (revents : Z) : DM bool :=
  if revents =? 0 then mret true
  else
    match slot with
    | PollServer =>
        if has_event revents POLLIN then
          r <- iouringd_accept_clients fuel ;; mret (negb (is_null r))
        else mret true
    | PollRing =>
        if has_event revents POLLIN then
          r <- iouringd_reap_completions fuel ;; mret (negb (is_null r))
        else mret true
    | PollClient i => poll_client_event i revents ;;; mret true
    end.

Fixpoint poll_events (fuel : nat) (l : list (poll_slot * Z)) : DM bool :=
  match l with
  | [] => mret true
  | (slot, revents) :: rest =>
      ok <- poll_event fuel slot revents ;;
      if ok then poll_events fuel rest else mret false
  end.

Definition run_poll (fuel : nat) : DM run_status :=
  rt <- get_rt ;;
  let fds := iouringd_build_pollfds rt in
  if (length fds =? 0)%nat then mret RunContinue
  else
    rc <- mtry (fun s => let '(rc, w) := k_poll (s_world s) (fst <$> fds) in
                         (rc, s <| s_world := w |>)) ;;
    match rc with
    | Err e =>
        stop <- mget (fun s => k_stop (s_world s)) ;;
        if stop && (e =? EINTR) then mret RunStop
        else if e =? EINTR then mret RunContinue
        else mfail e
    | Ok revents =>
        ok <- poll_events fuel (zip (snd <$> fds) revents) ;;
        mret (if ok then RunContinue else RunMore)
    end.

Definition run_round (fuel : nat) : DM run_status :=
  p1 <- iouringd_service_ready_inputs ;;
  p2 <- iouringd_dispatch_ready_requests ;;
  p3 <- iouringd_reap_completions fuel ;;
  match p3 with
  | None => mret RunMore
  | Some p3 =>
      p4 <- iouringd_sweep_closing_resources ;;
      p5 <- iouringd_flush_client_outputs ;;
      stop <- mget (fun s => k_stop (s_world s)) ;;
      if stop then mret RunStop
      else if p1 || p2 || p3 || p4 || p5 then mret RunContinue
      else run_poll fuel
  end.

(** [iouringd_run], [rounds] rounds of it. *)
Fixpoint iouringd_run (rounds fuel : nat) : DM run_status :=
  match rounds with
  | O => mret RunMore
  | S n =>
      r <- run_round fuel ;;
      match r with
      | RunContinue => iouringd_run n fuel
      | _ => mret r
      end
  end.
End Sched.
