(* ===== verification/Session.v ===== *)
(** * Scripted sessions

    Concrete runs of the daemon against the scripted kernel: a client connects,
    shakes hands and sends requests.  They are the examples on which the
    theorems about all runs are instantiated, and the runs that show what the
    daemon does in the corner cases its documentation does not mention. *)

From Stdlib Require Import String.
From S2P Require Import Prelude Wire Kernel Ring State Output Resources Trace Daemon Startup Input Request Dispatch Complete Sched.

(** A ring of [n] entries, all operations supported. *)
Definition session_ring (n : nat) : ring :=
  mk_ring 3 0 0 0 0 (Z.of_nat n - 1) (Z.of_nat n) (replicate n sqe_zero) (replicate n 0) 0 0
    (Z.of_nat (2 * n) - 1) (replicate (2 * n) cqe_zero).
Definition session_caps : capability_descriptor :=
  mk_capability_descriptor 36 0 0 0 IOURINGD_CAPABILITY_OP_MASK_V1 0 0 0 0.

(** Room for [clients] clients with two files and a buffer each. *)
Definition session_arguments (clients : Z) : arguments :=
  mk_arguments (mk_iouringd_limits clients 2 1 4 16 2) false None "/s"%string.

(** The daemon at the start of its main loop. *)
Definition session (clients : Z) (n : nat) (w : script) : sys script :=
  mk_sys (configured (session_arguments clients) (session_ring n) session_caps
            <| rt_server_fd := 4 |>) w [].

Definition bytes_message (bs : bytes) : outcome message := Ok (mk_message bs false []).
Definition hello : bytes :=
  to_wire (mk_handshake_request protocol_header_v1 IOURINGD_ABI_V1_MAJOR IOURINGD_ABI_V1_MINOR 0).

(** What the client's socket delivers for a request: its fixed head, then the
    rest. *)
Definition send (r : wire_request) : list (outcome message) :=
  let bs := encode r in
  bytes_message (take (wire_size submit_request) bs) ::
  match drop (wire_size submit_request) bs with
  | [] => []
  | rest => [bytes_message rest]
  end.

(** [n] rounds of the main loop; the state after them. *)
Fixpoint after (n fuel : nat) (s : sys script) : sys script :=
  match n with
  | O => s
  | S m => snd (run_round fuel (after m fuel s))
  end.

(** One client: it connects, shakes hands, and starts a timeout that does not
    expire in the session. *)
Definition one_timeout : script :=
  quiet <| sc_poll := [Ok [POLLIN]; Ok [0; 0; POLLIN]] |> <| sc_accept := [Ok 7] |>
        <| sc_recv := [bytes_message hello] ++ send (WTimeout 0 1000) ++ [Err EAGAIN] ++
                      send (WCancel 0 1) |>.
