(* ===== verification/Corners.v ===== *)
(** * Corner cases

    Five runs of the daemon that end where its design does not intend: each is a
    concrete session against the scripted kernel, which answers only what a real
    kernel can answer.  [Hazards] and [Schedule] have general statements behind
    three of them. *)

From S2P Require Import Prelude Wire Kernel Ring State Output Resources Trace Daemon Startup Input Request Dispatch Complete Sched Session.

(** The kernel publishes a completion. *)
Definition deliver (task_id res : Z) (s : sys script) : sys script :=
  s <| s_world := s_world s <| sc_cq := [mk_cqe task_id res [] 0] |> |>.

(** The ids of the submissions the kernel has not taken yet. *)
Definition waiting_ids (s : sys script) : list Z := sqe_user_data <$> sq_pending (rt_ring (s_rt s)).

(** ** A failed [io_uring_enter] *)

(** Three nops; the first [io_uring_enter] fails with EAGAIN, which the kernel
    returns when it is short of memory. *)
Definition failing_enter : script :=
  quiet <| sc_poll := [Ok [POLLIN]] |> <| sc_accept := [Ok 7] |> <| sc_enter := [Err EAGAIN] |>
        <| sc_recv := [bytes_message hello] ++ send (WNop 0) ++ send (WNop 0) ++ send (WNop 0) |>.

Definition enter_failed : sys script := after 3 5 (session 2 4 failing_enter).
Definition enter_retried : sys script := after 4 5 (session 2 4 failing_enter).
Definition first_done : sys script := snd (run_round 5 (deliver 1 0 enter_retried)).

(** When io_uring_enter fails, the client is told its request was rejected,
    but the submission stays in the ring under the task id that the next task
    gets: the kernel later runs it, its completion is taken for the next task's,
    and the completion after that has no task, which ends the daemon with
    EPROTO. *)
Example failed_enter_run :
  (rt_rejected_submits (s_rt enter_failed) = 1 /\ rt_outstanding_tasks (s_rt enter_failed) = 0 /\
   waiting_ids enter_failed = [rt_next_task_id (s_rt enter_failed)]) /\
  (t_active (the_task enter_retried 0) = true /\
   waiting_ids enter_retried = [t_task_id (the_task enter_retried 0)]) /\
  fst (run_round 5 (deliver 1 0 first_done)) = Err EPROTO.
Proof. vm_compute. repeat split. Qed.

(** ** A client that does not read *)

(** The client asks for statistics over and over and reads none of the replies:
    every write to its socket fails with EAGAIN. *)
Fixpoint repeat_list {A} (n : nat) (l : list A) : list A :=
  match n with O => [] | S m => l ++ repeat_list m l end.

Definition deaf_client : script :=
  quiet <| sc_poll := [Ok [POLLIN]] |> <| sc_accept := [Ok 7] |>
        <| sc_recv := bytes_message hello :: repeat_list 400 (send WGetStats) |>
        <| sc_write := repeat_list 400 [Err EAGAIN] |>.

(** One client that never reads its replies ends the daemon for every client:
    its output buffer fills up, the next reply does not fit, and the main loop
    returns EOVERFLOW instead of closing that client. *)
Example deaf_client_run :
  fst (iouringd_run 400 5 (session 2 2 deaf_client)) = Err EOVERFLOW.
Proof. vm_compute. reflexivity. Qed.

(** ** A rejected handshake *)

(** The client speaks another protocol version, and its socket is full when the
    daemon first writes to it. *)
Definition wrong_hello : bytes :=
  to_wire (mk_handshake_request protocol_header_v1 (IOURINGD_ABI_V1_MAJOR + 1) IOURINGD_ABI_V1_MINOR 0).
Definition wrong_client : script :=
  quiet <| sc_poll := [Ok [POLLIN]] |> <| sc_accept := [Ok 7] |>
        <| sc_recv := [bytes_message wrong_hello] |> <| sc_write := [Err EAGAIN] |>.

Definition wrong_refused : sys script := after 2 5 (session 2 2 wrong_client).

(** A client whose handshake is rejected while its socket cannot take the
    answer is closed with the answer unsent: nothing was written to it. *)
Theorem rejected_handshake_lost :
  sc_recv (s_world wrong_refused) = [] /\ c_fd (the_client wrong_refused 0) = -1 /\
  s_closed wrong_refused = [7] /\ sc_write (s_world wrong_refused) = [].
Proof. vm_compute. repeat split. Qed.

(** ** Three ready clients *)

Definition three_clients : script :=
  quiet <| sc_poll := [Ok [POLLIN]] |> <| sc_accept := [Ok 7; Ok 8; Ok 9] |>
        <| sc_recv := repeat_list 3 [bytes_message hello] ++
                      send (WNop IOURINGD_SUBMIT_PRIORITY_HIGH) ++
                      send (WNop IOURINGD_SUBMIT_PRIORITY_HIGH) ++
                      send (WNop IOURINGD_SUBMIT_PRIORITY_LOW) |>.

Definition one_pass : sys script := after 3 5 (session 3 4 three_clients).

(** One pass of the dispatcher can start a low-priority task and leave a
    high-priority request of another client waiting, because the scan moves its
    own starting point when it dispatches a request. *)
Theorem high_priority_overtaken :
  request_ready (c_req (the_client one_pass 1)) = true /\
  req_priority (the_client one_pass 1) = IOURINGD_SUBMIT_PRIORITY_HIGH /\
  rt_outstanding_tasks (s_rt one_pass) = 2 /\
  t_client_index (the_task one_pass 1) = 2%nat /\
  t_submit_priority (the_task one_pass 1) = IOURINGD_SUBMIT_PRIORITY_LOW.
Proof. vm_compute. repeat split. Qed.

(** ** A waiting client that is passed over *)

(** Client 0 sends one low-priority request; in every round client 1 asks for the
    statistics and client 2 sends another low-priority request. *)
Definition busy_neighbours (rounds : nat) : script :=
  quiet <| sc_poll := [Ok [POLLIN]] |> <| sc_accept := [Ok 7; Ok 8; Ok 9] |>
        <| sc_recv := repeat_list 3 [bytes_message hello] ++
                      send (WNop IOURINGD_SUBMIT_PRIORITY_LOW) ++
                      repeat_list rounds (send WGetStats ++ send (WNop IOURINGD_SUBMIT_PRIORITY_LOW)) |>.

(** A low-priority request is passed over round after round.  In each of 20
    rounds the request of client 0 is ready and is not dispatched, while one of
    client 2, with the same priority, is: dispatching client 1's request moves the
    start of the scan past client 0, and so it goes on while the two keep sending. *)
Example low_priority_starved :
  let s := after 22 5 (session 3 4 (busy_neighbours 20)) in
  sc_recv (s_world s) = [] /\
  request_ready (c_req (the_client s 0)) = true /\ outstanding_tasks (c_res (the_client s 0)) = 0 /\
  rt_accepted_submits (s_rt s) + rt_rejected_submits (s_rt s) = 20.
Proof. vm_compute. repeat split. Qed.
