(* ===== verification/Books.v ===== *)
(** * The books of the daemon

    The part of the runtime that accounts for tasks: which task slots are
    active and for whom, each client's resource tables, and the counters of
    [struct iouringd_runtime].  [books] is the projection of the runtime to
    that part, and [btrip] a small program logic for the daemon's computations
    that speaks about the books only: everything else (buffers, ring, trace,
    requests) is framed away by the [keeps] rules. *)

From S2P Require Import Prelude Wire Kernel Ring State Output Resources Trace Daemon.

(** What an active task slot holds on to. *)
Record entry := mk_entry {
  e_id : Z;
  e_kind : Z;
  e_credit : bool;
  e_client : nat;
  e_generation : Z;
  e_file : Z;
  e_buffer : Z;
  e_result : Z;
}.

Definition entry_of (t : task_slot) : option entry :=
  if t_active t then
    Some (mk_entry (t_task_id t) (t_task_kind t) (t_consumes_credit t) (t_client_index t)
            (t_client_generation t) (t_file_slot_index t) (t_buffer_slot_index t)
            (t_result_file_slot_index t))
  else None.

(** What the books know of a client slot. *)
Record account := mk_account {
  a_fd : Z;
  a_generation : Z;
  a_res : client_resources;
}.
Definition account_of (c : client) : account := mk_account (c_fd c) (c_generation c) (c_res c).

Record books := mk_books {
  b_tasks : Z;
  b_credits : Z;
  b_next_id : Z;
  b_next_generation : Z;
  b_ring_capacity : Z;
  b_capacity : Z;
  b_credit_limit : Z;
  b_capabilities : capability_descriptor;
  b_limits : iouringd_limits;
  b_accounts : list account;
  b_entries : list (option entry);
}.
Definition eta_books (b : books) : books :=
  mk_books (b_tasks b) (b_credits b) (b_next_id b) (b_next_generation b) (b_ring_capacity b)
    (b_capacity b) (b_credit_limit b) (b_capabilities b) (b_limits b) (b_accounts b) (b_entries b).
#[export] Instance put_b_tasks : Setter b_tasks := ltac:(mk_put eta_books b_tasks).
#[export] Instance put_b_credits : Setter b_credits := ltac:(mk_put eta_books b_credits).
#[export] Instance put_b_next_id : Setter b_next_id := ltac:(mk_put eta_books b_next_id).
#[export] Instance put_b_next_generation : Setter b_next_generation :=
  ltac:(mk_put eta_books b_next_generation).
#[export] Instance put_b_accounts : Setter b_accounts := ltac:(mk_put eta_books b_accounts).
#[export] Instance put_b_entries : Setter b_entries := ltac:(mk_put eta_books b_entries).

Definition books_of (rt : runtime) : books :=
  mk_books (rt_outstanding_tasks rt) (rt_outstanding_credit_tasks rt) (rt_next_task_id rt)
    (rt_next_client_generation rt) (rt_ring_capacity rt) (rt_task_capacity rt)
    (rt_per_client_credit_limit rt) (rt_capabilities rt) (rt_limits rt)
    (account_of <$> rt_clients rt) (entry_of <$> rt_tasks rt).

#[export] Instance account_inhabited : Inhabited account := populate (account_of client_zero).

(** Updates of one account, one resource table, one entry. *)
Definition set_account (i : nat) (a : account) (b : books) : books :=
  b <| b_accounts := <[i := a]> (b_accounts b) |>.
Definition set_account_res (i : nat) (r : client_resources) (b : books) : books :=
  let a := b_accounts b !!! i in set_account i (mk_account (a_fd a) (a_generation a) r) b.
Definition set_entry (k : nat) (e : option entry) (b : books) : books :=
  b <| b_entries := <[k := e]> (b_entries b) |>.
Definition res_of (b : books) (i : nat) : client_resources := a_res (b_accounts b !!! i).

Lemma fmap_total {A B} `{Inhabited A, Inhabited B} (f : A -> B) (l : list A) (i : nat) :
  f inhabitant = inhabitant -> (f <$> l) !!! i = f (l !!! i).
Proof.
  intros Hf. rewrite !list_lookup_total_alt, list_lookup_fmap.
  destruct (l !! i) as [x|]; [reflexivity|]. symmetry. exact Hf.
Qed.

Lemma fmap_insert_same {A B} `{Inhabited A} (f : A -> B) (l : list A) (i : nat) x :
  f x = f (l !!! i) -> f <$> <[i := x]> l = f <$> l.
Proof.
  intros E. rewrite list_fmap_insert, E. destruct (decide (i < length l)%nat) as [Hi|Hi].
  - apply list_insert_id. rewrite list_lookup_fmap, (lookup_total_lt l i Hi). reflexivity.
  - apply list_insert_ge. rewrite length_fmap. lia.
Qed.

Lemma accounts_total rt i : b_accounts (books_of rt) !!! i = account_of (rt_clients rt !!! i).
Proof. by apply (fmap_total account_of). Qed.

Lemma entries_total rt k : b_entries (books_of rt) !!! k = entry_of (rt_tasks rt !!! k).
Proof. by apply (fmap_total entry_of). Qed.

Lemma books_set_task rt k t :
  books_of (rt <| rt_tasks := <[k := t]> (rt_tasks rt) |>) = set_entry k (entry_of t) (books_of rt).
Proof.
  unfold books_of, set_entry, put, put_b_entries. simpl. f_equal. apply list_fmap_insert.
Qed.

Lemma books_set_client rt i c :
  books_of (rt <| rt_clients := <[i := c]> (rt_clients rt) |>) =
  set_account i (account_of c) (books_of rt).
Proof.
  unfold books_of, set_account, put, put_b_accounts. simpl. f_equal. apply list_fmap_insert.
Qed.

(** ** The program logic *)

Section Logic.
Context {W : Type} `{Kernel W}.

(** A run of [m] from books [b] ends in a result and books of [Q]. *)
Definition btrip {A} (m : DM (W := W) A) (b : books) (Q : outcome A -> books -> Prop) : Prop :=
  forall s, books_of (s_rt s) = b -> let '(r, s') := m s in Q r (books_of (s_rt s')).

(** [m] leaves the books as they are. *)
Definition keeps {A} (m : DM (W := W) A) : Prop :=
  forall s r s', m s = (r, s') -> books_of (s_rt s') = books_of (s_rt s).

Lemma btrip_bind {A B} (m : DM (W := W) A) (k : A -> DM (W := W) B) b Q :
  btrip m b (fun r b' => match r with Ok a => btrip (k a) b' Q | Err e => Q (Err e) b' end) ->
  btrip (mbnd m k) b Q.
Proof.
  intros Hm s Hs. specialize (Hm s Hs). unfold mbnd. destruct (m s) as [[a|e] s']; [|exact Hm].
  by apply Hm.
Qed.

Lemma btrip_try {A} (m : DM (W := W) A) b Q :
  btrip m b (fun r b' => Q (Ok r) b') -> btrip (mtry m) b Q.
Proof. intros Hm s Hs. specialize (Hm s Hs). unfold mtry. by destruct (m s). Qed.

Lemma btrip_ret {A} (a : A) b (Q : outcome A -> books -> Prop) : Q (Ok a) b -> btrip (mret a) b Q.
Proof. intros HQ s Hs. simpl. by rewrite Hs. Qed.

Lemma btrip_fail {A} e b (Q : outcome A -> books -> Prop) : Q (Err e) b -> btrip (mfail e) b Q.
Proof. intros HQ s Hs. simpl. by rewrite Hs. Qed.

Lemma btrip_keeps {A} (m : DM (W := W) A) b Q :
  keeps m -> (forall r, Q r b) -> btrip m b Q.
Proof.
  intros Hk HQ s Hs. destruct (m s) as [r s'] eqn:E. rewrite (Hk _ _ _ E), Hs. apply HQ.
Qed.

Lemma btrip_weaken {A} (m : DM (W := W) A) b (Q Q' : outcome A -> books -> Prop) :
  btrip m b Q -> (forall r b', Q r b' -> Q' r b') -> btrip m b Q'.
Proof. intros Hm HQ s Hs. specialize (Hm s Hs). destruct (m s). by apply HQ. Qed.

Lemma btrip_get_rt b (Q : outcome runtime -> books -> Prop) :
  (forall rt, books_of rt = b -> Q (Ok rt) b) -> btrip get_rt b Q.
Proof. intros HQ s Hs. simpl. rewrite Hs. by apply HQ. Qed.

Lemma btrip_get_client i b (Q : outcome client -> books -> Prop) :
  (forall c, account_of c = b_accounts b !!! i -> Q (Ok c) b) -> btrip (get_client i) b Q.
Proof.
  intros HQ s Hs. simpl. rewrite Hs. apply HQ. rewrite <- Hs. symmetry. apply accounts_total.
Qed.

Lemma btrip_get_task k b (Q : outcome task_slot -> books -> Prop) :
  (forall t, entry_of t = b_entries b !!! k -> Q (Ok t) b) -> btrip (get_task k) b Q.
Proof.
  intros HQ s Hs. simpl. rewrite Hs. apply HQ. rewrite <- Hs. symmetry. apply entries_total.
Qed.

Lemma btrip_get_file_slot i j b (Q : outcome resource_slot -> books -> Prop) :
  Q (Ok (file_resources (res_of b i) !!! j)) b -> btrip (get_file_slot i j) b Q.
Proof.
  intros HQ s <-. simpl. unfold res_of in HQ. rewrite accounts_total in HQ. exact HQ.
Qed.

Lemma btrip_get_buffer_slot i j b (Q : outcome buffer_slot -> books -> Prop) :
  Q (Ok (buffer_resources (res_of b i) !!! j)) b -> btrip (get_buffer_slot i j) b Q.
Proof.
  intros HQ s <-. simpl. unfold res_of in HQ. rewrite accounts_total in HQ. exact HQ.
Qed.

Lemma btrip_mod_task k f b (Q : outcome unit -> books -> Prop) :
  (forall t, entry_of t = b_entries b !!! k -> Q (Ok tt) (set_entry k (entry_of (f t)) b)) ->
  btrip (mod_task k f) b Q.
Proof.
  intros HQ s <-. unfold mod_task, mod_rt, mmod. cbn [s_rt put put_s_rt].
  rewrite books_set_task. apply HQ. symmetry. apply entries_total.
Qed.

Lemma btrip_mod_client i f b (Q : outcome unit -> books -> Prop) :
  (forall c, account_of c = b_accounts b !!! i -> Q (Ok tt) (set_account i (account_of (f c)) b)) ->
  btrip (mod_client i f) b Q.
Proof.
  intros HQ s <-. unfold mod_client, mod_rt, mmod. cbn [s_rt put put_s_rt].
  rewrite books_set_client. apply HQ. symmetry. apply accounts_total.
Qed.

Lemma btrip_set_res i f b (Q : outcome unit -> books -> Prop) :
  Q (Ok tt) (set_account_res i (f (res_of b i)) b) -> btrip (set_res i f) b Q.
Proof.
  intros HQ. apply btrip_mod_client. intros c Hc. unfold set_account_res, res_of in HQ.
  rewrite <- Hc in HQ. exact HQ.
Qed.

Lemma btrip_mod_rt f g b (Q : outcome unit -> books -> Prop) :
  (forall rt, books_of (f rt) = g (books_of rt)) -> Q (Ok tt) (g b) -> btrip (mod_rt f) b Q.
Proof. intros Hf HQ s Hs. simpl. rewrite Hf, Hs. exact HQ. Qed.

(** ** Computations that keep the books *)

Lemma keeps_ret {A} (a : A) : keeps (mret a).
Proof. intros s r s' E. by injection E as <- <-. Qed.

Lemma keeps_fail {A} e : keeps (A := A) (mfail e).
Proof. intros s r s' E. by injection E as <- <-. Qed.

Lemma keeps_get {A} (f : sys W -> A) : keeps (mget f).
Proof. intros s r s' E. by injection E as <- <-. Qed.

Lemma keeps_bind {A B} (m : DM (W := W) A) (k : A -> DM (W := W) B) :
  keeps m -> (forall a, keeps (k a)) -> keeps (mbnd m k).
Proof.
  intros Hm Hk s r s' E. unfold mbnd in E. destruct (m s) as [[a|e] s1] eqn:Em.
  - rewrite (Hk _ _ _ _ E). by apply (Hm _ _ _ Em).
  - injection E as <- <-. by apply (Hm _ _ _ Em).
Qed.

Lemma keeps_try {A} (m : DM (W := W) A) : keeps m -> keeps (mtry m).
Proof.
  intros Hm s r s' E. unfold mtry in E. destruct (m s) as [r1 s1] eqn:Em.
  injection E as <- <-. by apply (Hm _ _ _ Em).
Qed.

Lemma keeps_mod_client i f :
  (forall c, account_of (f c) = account_of c) -> keeps (mod_client i f).
Proof.
  intros Hf s r s' E. injection E as <- <-. unfold books_of. simpl. f_equal.
  apply fmap_insert_same. apply Hf.
Qed.

Lemma keeps_mod_task k f : (forall t, entry_of (f t) = entry_of t) -> keeps (mod_task k f).
Proof.
  intros Hf s r s' E. injection E as <- <-. unfold books_of. simpl. f_equal.
  apply fmap_insert_same. apply Hf.
Qed.

Lemma keeps_mod_rt f : (forall rt, books_of (f rt) = books_of rt) -> keeps (mod_rt f).
Proof. intros Hf s r s' E. injection E as <- <-. apply Hf. Qed.

Lemma keeps_set_req i f : keeps (set_req i f).
Proof. by apply keeps_mod_client. Qed.

Lemma keeps_close_fds fds : keeps (close_fds fds).
Proof. intros s r s' E. by injection E as <- <-. Qed.

Lemma keeps_with_ring f : keeps (with_ring f).
Proof. intros s r s' E. unfold with_ring in E. destruct (f _ _) as [[rc rg] w]. by injection E as <- <-. Qed.

Lemma keeps_ring_update_file i fd : keeps (ring_update_file i fd).
Proof.
  intros s r s' E. unfold ring_update_file in E.
  destruct (iouringd_ring_update_registered_file _ _ _ _) as [rc w]. by injection E as <- <-.
Qed.

Lemma keeps_emit_trace i ek tk p tid rid res cr : keeps (emit_trace i ek tk p tid rid res cr).
Proof. intros s r s' E. unfold emit_trace in E. destruct (k_clock _). by injection E as <- <-. Qed.

Lemma keeps_queue_output i buf : keeps (queue_output i buf).
Proof.
  intros s r s' E. unfold queue_output in E. destruct (iouringd_queue_client_output _ _) as [rc b].
  injection E as <- <-. unfold books_of. simpl. f_equal. by apply fmap_insert_same.
Qed.
End Logic.

Create HintDb keeps.
#[export] Hint Resolve keeps_ret keeps_fail keeps_get keeps_try keeps_set_req keeps_close_fds
  keeps_with_ring keeps_ring_update_file keeps_emit_trace keeps_queue_output : keeps.

(** Decomposes a computation and closes its parts with the database. *)
Ltac keeps_tac :=
  repeat lazymatch goal with
         | |- keeps (mbnd _ _) => apply keeps_bind; [|intros ?]
         | |- keeps (match ?x with _ => _ end) => destruct x
         | |- keeps (let '(_, _) := ?x in _) => destruct x
         | |- keeps (mod_client _ _) => apply keeps_mod_client; intros ?; reflexivity
         | |- keeps (mod_task _ _) => apply keeps_mod_task; intros ?; reflexivity
         | |- keeps (mod_rt _) => apply keeps_mod_rt; intros ?; reflexivity
         | |- keeps get_rt => apply keeps_get
         | |- keeps (get_client _) => apply keeps_get
         | |- keeps (get_task _) => apply keeps_get
         | |- keeps (get_file_slot _ _) => apply keeps_get
         | |- keeps (get_buffer_slot _ _) => apply keeps_get
         | |- keeps _ => solve [auto with keeps]
         end.

Section Replies.
Context {W : Type} `{Kernel W}.

Lemma keeps_queue_submit_result i tid res :
  keeps (W := W) (iouringd_queue_submit_result i tid res).
Proof. unfold iouringd_queue_submit_result. keeps_tac. Qed.

Lemma keeps_reject_submit i res : keeps (W := W) (iouringd_reject_submit i res).
Proof.
  unfold iouringd_reject_submit. keeps_tac. apply keeps_queue_submit_result.
Qed.

Lemma keeps_queue_resource_result i rid res n :
  keeps (W := W) (iouringd_queue_resource_result i rid res n).
Proof. apply keeps_queue_output. Qed.

Lemma keeps_queue_stats_result i : keeps (W := W) (iouringd_queue_stats_result i).
Proof. unfold iouringd_queue_stats_result. keeps_tac. Qed.

Lemma keeps_queue_events i l : keeps (W := W) (queue_events i l).
Proof. induction l as [|e l IH]; cbn [queue_events]; keeps_tac. Qed.

Lemma keeps_queue_trace_result i : keeps (W := W) (iouringd_queue_trace_result i).
Proof. unfold iouringd_queue_trace_result. keeps_tac. apply keeps_queue_events. Qed.

Lemma keeps_queue_handshake_result i q : keeps (W := W) (iouringd_queue_handshake_result i q).
Proof.
  unfold iouringd_queue_handshake_result. keeps_tac.
  apply keeps_mod_client. intros c. by destruct (handshake_request_ok q).
Qed.

Lemma keeps_finish_client_request i : keeps (W := W) (iouringd_finish_client_request i).
Proof. apply keeps_set_req. Qed.
End Replies.

#[export] Hint Resolve keeps_queue_submit_result keeps_reject_submit keeps_queue_resource_result
  keeps_queue_stats_result keeps_queue_events keeps_queue_trace_result
  keeps_queue_handshake_result keeps_finish_client_request : keeps.
