(* ===== verification/Ledger.v ===== *)
(** * The invariant of the books

    [books_ok] says that every counter of the daemon is the number of task
    slots it counts: the outstanding tasks and credits, in total and per
    client, and the in-flight count of every file and buffer slot; that active
    tasks are where the searches look, belong to a known client slot of the
    generation they were started in, and have distinct ids; that all slot
    indices are in range; that no client holds more credits than its limit.  The update lemmas say which changes of one task slot
    and one account keep it. *)

From S2P Require Import Prelude Wire Kernel Ring State Output Resources Trace Daemon Books.

(** ** What an entry counts for *)

Definition one (oe : option entry) : Z := match oe with Some _ => 1 | None => 0 end.
Definition one_credit (oe : option entry) : Z :=
  match oe with Some e => Z.b2z (e_credit e) | None => 0 end.
Definition for_client (i : nat) (oe : option entry) : Z :=
  match oe with Some e => Z.b2z (e_client e =? i)%nat | None => 0 end.
Definition credit_for_client (i : nat) (oe : option entry) : Z :=
  match oe with Some e => Z.b2z ((e_client e =? i)%nat && e_credit e) | None => 0 end.
(** The references of a task to file slot [j] of client [i]: as the file it works
    on and as the slot its result goes to. *)
Definition file_refs (i j : nat) (oe : option entry) : Z :=
  match oe with
  | Some e => if (e_client e =? i)%nat
              then Z.b2z (e_file e =? Z.of_nat j) + Z.b2z (e_result e =? Z.of_nat j) else 0
  | None => 0
  end.
Definition buffer_refs (i j : nat) (oe : option entry) : Z :=
  match oe with
  | Some e => if (e_client e =? i)%nat then Z.b2z (e_buffer e =? Z.of_nat j) else 0
  | None => 0
  end.

(** ** The invariant *)

Definition limits_ok (l : iouringd_limits) : Prop :=
  1 <= max_clients l <= Z.of_nat IOURINGD_MAX_CLIENTS /\
  0 <= registered_fds_per_client l <= Z.of_nat IOURINGD_MAX_REGISTERED_FDS /\
  0 <= registered_buffers_per_client l <= Z.of_nat IOURINGD_MAX_REGISTERED_BUFFERS.

(** The shape of a resource table. *)
Record table_ok (r : client_resources) : Prop := {
  to_files : length (file_resources r) = IOURINGD_MAX_REGISTERED_FDS;
  to_buffers : length (buffer_resources r) = IOURINGD_MAX_REGISTERED_BUFFERS;
  to_file_limit : 0 <= file_slot_limit r <= Z.of_nat IOURINGD_MAX_REGISTERED_FDS;
  to_buffer_limit : 0 <= buffer_slot_limit r <= Z.of_nat IOURINGD_MAX_REGISTERED_BUFFERS;
}.

(** The counters of client slot [i] against the task slots. *)
Record account_ok (es : list (option entry)) (i : nat) (r : client_resources) : Prop := {
  ao_table : table_ok r;
  ao_tasks : outstanding_tasks r = sumz (for_client i) es;
  ao_credits : outstanding_credit_tasks r = sumz (credit_for_client i) es;
  ao_file j s : file_resources r !! j = Some s -> rs_in_flight s = sumz (file_refs i j) es;
  ao_buffer j s : buffer_resources r !! j = Some s -> bs_in_flight s = sumz (buffer_refs i j) es;
}.

(** An active task of client slot [a]. *)
Record entry_ok (next : Z) (a : account) (e : entry) : Prop := {
  eo_generation : e_generation e = a_generation a;
  eo_id : 1 <= e_id e < next;
  eo_file : -1 <= e_file e < file_slot_limit (a_res a);
  eo_result : -1 <= e_result e < file_slot_limit (a_res a);
  eo_buffer : -1 <= e_buffer e < buffer_slot_limit (a_res a);
  eo_distinct : e_file e < 0 \/ e_file e <> e_result e;
}.

Record books_ok (b : books) : Prop := {
  bo_limits : limits_ok (b_limits b);
  bo_capacity : 0 <= b_capacity b <= Z.of_nat IOURINGD_MAX_TASKS;
  bo_accounts_len : length (b_accounts b) = IOURINGD_MAX_CLIENTS;
  bo_entries_len : length (b_entries b) = IOURINGD_MAX_TASKS;
  bo_next : 1 <= b_next_id b <= IOURINGD_TASK_ID_RESERVED_MIN;
  bo_tasks : b_tasks b = sumz one (b_entries b);
  bo_credits : b_credits b = sumz one_credit (b_entries b);
  bo_account i a : b_accounts b !! i = Some a -> account_ok (b_entries b) i (a_res a);
  bo_place k e : b_entries b !! k = Some (Some e) ->
    Z.of_nat k < b_capacity b /\ Z.of_nat (e_client e) < max_clients (b_limits b);
  bo_entry k e a : b_entries b !! k = Some (Some e) -> b_accounts b !! e_client e = Some a ->
    entry_ok (b_next_id b) a e;
  bo_ids k k' e e' : b_entries b !! k = Some (Some e) -> b_entries b !! k' = Some (Some e') ->
    e_id e = e_id e' -> k = k';
  bo_quota_nonneg : 0 <= b_credit_limit b;
  bo_quota i a : b_accounts b !! i = Some a ->
    outstanding_credit_tasks (a_res a) <= b_credit_limit b;
}.

(** ** Changing one task slot and one account *)

(** The new account [r'] of client [i] accounts for the change of one of its task
    slots from [oe] to [oe']. *)
Record balanced (i : nat) (oe oe' : option entry) (r r' : client_resources) : Prop := {
  ba_table : table_ok r';
  ba_file_limit : file_slot_limit r' = file_slot_limit r;
  ba_buffer_limit : buffer_slot_limit r' = buffer_slot_limit r;
  ba_tasks : outstanding_tasks r' = outstanding_tasks r - for_client i oe + for_client i oe';
  ba_credits : outstanding_credit_tasks r' =
               outstanding_credit_tasks r - credit_for_client i oe + credit_for_client i oe';
  ba_file j s s' : file_resources r !! j = Some s -> file_resources r' !! j = Some s' ->
    rs_in_flight s' = rs_in_flight s - file_refs i j oe + file_refs i j oe';
  ba_buffer j s s' : buffer_resources r !! j = Some s -> buffer_resources r' !! j = Some s' ->
    bs_in_flight s' = bs_in_flight s - buffer_refs i j oe + buffer_refs i j oe';
}.

(** The slot's entry, if any, is the client's. *)
Definition owned (i : nat) (oe : option entry) : Prop := forall e, oe = Some e -> e_client e = i.

Lemma account_ok_balanced es i k oe oe' r r' :
  account_ok es i r -> es !! k = Some oe -> balanced i oe oe' r r' ->
  account_ok (<[k := oe']> es) i r'.
Proof.
  intros [Ht H1 H2 H3 H4] Hk [Bt Bfl Bbl B1 B2 B3 B4].
  constructor; [done|..]; rewrite ?(sumz_insert _ _ _ _ _ Hk); [lia|lia|..].
  - intros j s' Hs'. rewrite (sumz_insert _ _ _ _ _ Hk).
    destruct (lookup_lt_is_Some_2 (file_resources r) j) as [s Hs].
    { apply lookup_lt_Some in Hs'. rewrite (to_files _ Bt) in Hs'. by rewrite (to_files _ Ht). }
    rewrite (B3 j s s' Hs Hs'), (H3 j s Hs). lia.
  - intros j s' Hs'. rewrite (sumz_insert _ _ _ _ _ Hk).
    destruct (lookup_lt_is_Some_2 (buffer_resources r) j) as [s Hs].
    { apply lookup_lt_Some in Hs'. rewrite (to_buffers _ Bt) in Hs'. by rewrite (to_buffers _ Ht). }
    rewrite (B4 j s s' Hs Hs'), (H4 j s Hs). lia.
Qed.

(** A client that the change is not about is not affected. *)
Lemma other_client i i' oe : owned i oe -> i' <> i ->
  for_client i' oe = 0 /\ credit_for_client i' oe = 0 /\
  (forall j, file_refs i' j oe = 0) /\ (forall j, buffer_refs i' j oe = 0).
Proof.
  intros Ho Hne. destruct oe as [e|]; [|by split_and!]. rewrite <- (Ho e eq_refl) in Hne.
  unfold for_client, credit_for_client, file_refs, buffer_refs.
  rewrite (proj2 (Nat.eqb_neq _ _)) by congruence. by split_and!.
Qed.

Lemma account_ok_other es i i' k oe oe' r :
  account_ok es i' r -> es !! k = Some oe -> owned i oe -> owned i oe' -> i' <> i ->
  account_ok (<[k := oe']> es) i' r.
Proof.
  intros Ha Hk Ho Ho' Hne. eapply account_ok_balanced; [exact Ha|exact Hk|].
  destruct (other_client i i' oe Ho Hne) as (E1 & E2 & E3 & E4).
  destruct (other_client i i' oe' Ho' Hne) as (F1 & F2 & F3 & F4).
  destruct Ha as [Ht _ _ _ _]. constructor; try done; [lia|lia|..].
  - intros j s s' Hs Hs'. rewrite E3, F3. simplify_eq. lia.
  - intros j s s' Hs Hs'. rewrite E4, F4. simplify_eq. lia.
Qed.

(** The books after the change. *)
Record update (b b' : books) (k i : nat) (oe oe' : option entry) (a a' : account) : Prop := {
  up_entry : b_entries b !! k = Some oe;
  up_account : b_accounts b !! i = Some a;
  up_entries' : b_entries b' = <[k := oe']> (b_entries b);
  up_accounts' : b_accounts b' = <[i := a']> (b_accounts b);
  up_owned : owned i oe;
  up_owned' : owned i oe';
  up_generation : a_generation a' = a_generation a;
  up_balanced : balanced i oe oe' (a_res a) (a_res a');
  up_tasks : b_tasks b' = b_tasks b - one oe + one oe';
  up_credits : b_credits b' = b_credits b - one_credit oe + one_credit oe';
  up_next : b_next_id b <= b_next_id b' <= IOURINGD_TASK_ID_RESERVED_MIN;
  up_limits : b_limits b' = b_limits b;
  up_capacity : b_capacity b' = b_capacity b;
  up_limit : b_credit_limit b' = b_credit_limit b;
  up_quota : outstanding_credit_tasks (a_res a') <= b_credit_limit b;
  up_new e : oe' = Some e -> oe = Some e \/
    (Z.of_nat k < b_capacity b /\ Z.of_nat i < max_clients (b_limits b) /\
     entry_ok (b_next_id b') a' e /\ b_next_id b <= e_id e);
}.

Lemma entry_ok_mono n n' a a' e :
  entry_ok n a e -> n <= n' -> a_generation a' = a_generation a ->
  file_slot_limit (a_res a') = file_slot_limit (a_res a) ->
  buffer_slot_limit (a_res a') = buffer_slot_limit (a_res a) -> entry_ok n' a' e.
Proof. intros [] Hn Hg Hf Hb. constructor; rewrite ?Hg, ?Hf, ?Hb; done || lia. Qed.

Section Update.
Context (b b' : books) (k i : nat) (oe oe' : option entry) (a a' : account).
Context (Hb : books_ok b) (Hu : update b b' k i oe oe' a a').

Lemma update_lookup k' x :
  b_entries b' !! k' = Some x -> (k' = k /\ x = oe') \/ (k' <> k /\ b_entries b !! k' = Some x).
Proof.
  rewrite (up_entries' _ _ _ _ _ _ _ _ Hu). intros Hx.
  destruct (decide (k' = k)) as [->|Hne].
  - left. rewrite list_lookup_insert_eq in Hx; [by simplify_eq|].
    by eapply lookup_lt_Some, (up_entry _ _ _ _ _ _ _ _ Hu).
  - right. by rewrite list_lookup_insert_ne in Hx by done.
Qed.

Lemma update_account i' x :
  b_accounts b' !! i' = Some x ->
  (i' = i /\ x = a') \/ (i' <> i /\ b_accounts b !! i' = Some x).
Proof.
  rewrite (up_accounts' _ _ _ _ _ _ _ _ Hu). intros Hx.
  destruct (decide (i' = i)) as [->|Hne].
  - left. rewrite list_lookup_insert_eq in Hx; [by simplify_eq|].
    by eapply lookup_lt_Some, (up_account _ _ _ _ _ _ _ _ Hu).
  - right. by rewrite list_lookup_insert_ne in Hx by done.
Qed.

(** An entry of the new books is an old one or the new task. *)
Lemma update_entry_cases k' e :
  b_entries b' !! k' = Some (Some e) ->
  b_entries b !! k' = Some (Some e) \/
  (k' = k /\ oe' = Some e /\ Z.of_nat k < b_capacity b /\ Z.of_nat i < max_clients (b_limits b) /\
   entry_ok (b_next_id b') a' e /\ b_next_id b <= e_id e).
Proof.
  intros Hx. destruct (update_lookup k' (Some e) Hx) as [[-> E]|[Hne Hx']]; [|by left].
  destruct (up_new _ _ _ _ _ _ _ _ Hu e (eq_sym E)) as [Eo|Hn]; [left|right].
  - rewrite (up_entry _ _ _ _ _ _ _ _ Hu). by rewrite Eo.
  - destruct Hn as (? & ? & ? & ?). by split_and!.
Qed.

Lemma books_update : books_ok b'.
Proof.
  pose proof (up_entry _ _ _ _ _ _ _ _ Hu) as Hk. pose proof (up_account _ _ _ _ _ _ _ _ Hu) as Hi.
  pose proof (up_balanced _ _ _ _ _ _ _ _ Hu) as Hbal.
  pose proof (up_next _ _ _ _ _ _ _ _ Hu) as Hnx. pose proof (bo_next _ Hb) as Hnext.
  assert (Hold : forall k' e x, b_entries b !! k' = Some (Some e) ->
                   b_accounts b' !! e_client e = Some x -> entry_ok (b_next_id b') x e).
  { intros k' e x He Hx. destruct (update_account _ _ Hx) as [[Ei ->]|[Hne Hx']].
    - eapply entry_ok_mono; [eapply (bo_entry _ Hb); [exact He|by rewrite Ei]|lia|..];
        [apply Hu|apply Hbal|apply Hbal].
    - eapply entry_ok_mono; [by eapply (bo_entry _ Hb)|lia|done|done|done]. }
  constructor; rewrite ?(up_limits _ _ _ _ _ _ _ _ Hu), ?(up_capacity _ _ _ _ _ _ _ _ Hu).
  - apply Hb.
  - apply Hb.
  - rewrite (up_accounts' _ _ _ _ _ _ _ _ Hu), length_insert. apply Hb.
  - rewrite (up_entries' _ _ _ _ _ _ _ _ Hu), length_insert. apply Hb.
  - lia.
  - rewrite (up_entries' _ _ _ _ _ _ _ _ Hu), (sumz_insert _ _ _ _ _ Hk), (up_tasks _ _ _ _ _ _ _ _ Hu),
      (bo_tasks _ Hb). lia.
  - rewrite (up_entries' _ _ _ _ _ _ _ _ Hu), (sumz_insert _ _ _ _ _ Hk), (up_credits _ _ _ _ _ _ _ _ Hu),
      (bo_credits _ Hb). lia.
  - intros i' x Hx. rewrite (up_entries' _ _ _ _ _ _ _ _ Hu).
    destruct (update_account i' x Hx) as [[-> ->]|[Hne Hx']].
    + eapply account_ok_balanced; [by apply (bo_account _ Hb)|exact Hk|exact Hbal].
    + eapply account_ok_other; [by apply (bo_account _ Hb)|exact Hk|apply Hu|apply Hu|exact Hne].
  - intros k' e He. destruct (update_entry_cases k' e He) as [He'|(-> & Eo & H1 & H2 & _)].
    + by apply (bo_place _ Hb).
    + rewrite (up_owned' _ _ _ _ _ _ _ _ Hu e Eo). done.
  - intros k' e x He Hx. destruct (update_entry_cases k' e He) as [He'|(-> & Eo & _ & _ & H3 & _)].
    + by eapply Hold.
    + rewrite (up_owned' _ _ _ _ _ _ _ _ Hu e Eo) in Hx.
      by destruct (update_account i x Hx) as [[_ ->]|[Hne _]].
  - assert (Hlt : forall k1 e1, b_entries b !! k1 = Some (Some e1) -> e_id e1 < b_next_id b).
    { intros k1 e1 He1. destruct (lookup_lt_is_Some_2 (b_accounts b) (e_client e1)) as [x Hx].
      { rewrite (bo_accounts_len _ Hb). pose proof (proj2 (bo_place _ Hb _ _ He1)) as Hc.
        destruct (bo_limits _ Hb) as [Hm _]. unfold IOURINGD_MAX_CLIENTS in *. lia. }
      by apply (bo_entry _ Hb _ _ _ He1 Hx). }
    intros k1 k2 e1 e2 He1 He2 Eid.
    destruct (update_entry_cases k1 e1 He1) as [O1|(-> & E1 & _ & _ & _ & N1)],
      (update_entry_cases k2 e2 He2) as [O2|(-> & E2 & _ & _ & _ & N2)].
    + by eapply (bo_ids _ Hb).
    + specialize (Hlt _ _ O1). lia.
    + specialize (Hlt _ _ O2). lia.
    + done.
  - rewrite (up_limit _ _ _ _ _ _ _ _ Hu). apply Hb.
  - intros i' x Hx. rewrite (up_limit _ _ _ _ _ _ _ _ Hu).
    destruct (update_account i' x Hx) as [[-> ->]|[Hne Hx']]; [apply Hu|by eapply (bo_quota _ Hb)].
Qed.
End Update.

(** ** Changing one account only *)

(** The change does not touch the counters. *)
Abbreviation steady i := (balanced i None None).

Lemma account_ok_steady es i r r' :
  account_ok es i r -> steady i r r' -> account_ok es i r'.
Proof.
  intros [Ht H1 H2 H3 H4] [Bt Bfl Bbl B1 B2 B3 B4]. simpl in *.
  constructor; [done|lia|lia|..].
  - intros j s' Hs'. destruct (lookup_lt_is_Some_2 (file_resources r) j) as [s Hs].
    { apply lookup_lt_Some in Hs'. rewrite (to_files _ Bt) in Hs'. by rewrite (to_files _ Ht). }
    rewrite (B3 j s s' Hs Hs'), (H3 j s Hs). lia.
  - intros j s' Hs'. destruct (lookup_lt_is_Some_2 (buffer_resources r) j) as [s Hs].
    { apply lookup_lt_Some in Hs'. rewrite (to_buffers _ Bt) in Hs'. by rewrite (to_buffers _ Ht). }
    rewrite (B4 j s s' Hs Hs'), (H4 j s Hs). lia.
Qed.

(** An account that is replaced by one that is right for the same tasks. *)
Lemma books_replace b i a a' :
  books_ok b -> b_accounts b !! i = Some a -> account_ok (b_entries b) i (a_res a') ->
  (forall k e, b_entries b !! k = Some (Some e) -> e_client e = i -> entry_ok (b_next_id b) a' e) ->
  outstanding_credit_tasks (a_res a') <= b_credit_limit b ->
  books_ok (set_account i a' b).
Proof.
  intros Hb Hi Ha He Hq. destruct Hb as [B1 B2 B3 B4 B5 B6 B7 B8 B9 B10 B11 B12 B13].
  constructor; simpl; try done.
  - by rewrite length_insert.
  - intros i' x Hx. destruct (decide (i' = i)) as [->|Hne].
    + rewrite list_lookup_insert_eq in Hx; [by simplify_eq|]. by eapply lookup_lt_Some.
    + rewrite list_lookup_insert_ne in Hx by done. by apply B8.
  - intros k e x Hk Hx. destruct (decide (e_client e = i)) as [Ei|Hne].
    + rewrite Ei, list_lookup_insert_eq in Hx; [|by eapply lookup_lt_Some].
      simplify_eq. by eapply He.
    + rewrite list_lookup_insert_ne in Hx by done. by eapply B10.
  - intros i' x Hx. apply list_lookup_insert_Some in Hx as [(-> & <- & _)|(_ & Hx)]; [done|].
    by eapply B13.
Qed.

Lemma books_account b i a a' :
  books_ok b -> b_accounts b !! i = Some a -> a_generation a' = a_generation a ->
  steady i (a_res a) (a_res a') -> books_ok (set_account i a' b).
Proof.
  intros Hb Hi Hg Hs. apply (books_replace b i a a' Hb Hi).
  - eapply account_ok_steady; [by apply (bo_account _ Hb)|exact Hs].
  - intros k e Hk Ei. eapply entry_ok_mono; [eapply (bo_entry _ Hb); [exact Hk|by rewrite Ei]|lia|..];
      [done|apply Hs|apply Hs].
  - pose proof (bo_quota _ Hb _ _ Hi). pose proof (ba_credits _ _ _ _ _ Hs). simpl in *. lia.
Qed.

(** A client slot without tasks can be given away: nothing refers to it. *)
Lemma no_tasks es i :
  sumz (for_client i) es = 0 -> forall k e, es !! k = Some (Some e) -> e_client e <> i.
Proof.
  intros Hs k e Hk Ei.
  pose proof (sumz_zero_inv (for_client i) es k (Some e)
                ltac:(intros [x|]; simpl; [destruct (_ =? _)%nat; simpl|]; lia) Hs Hk) as H0.
  simpl in H0. rewrite Ei, Nat.eqb_refl in H0. discriminate.
Qed.

Lemma unreferenced es i :
  (forall k e, es !! k = Some (Some e) -> e_client e <> i) ->
  sumz (for_client i) es = 0 /\ sumz (credit_for_client i) es = 0 /\
  (forall j, sumz (file_refs i j) es = 0) /\ (forall j, sumz (buffer_refs i j) es = 0).
Proof.
  intros Hn. split_and!; try intros j; apply sumz_zero; intros k [e|] Hk; try reflexivity; simpl;
    by rewrite (proj2 (Nat.eqb_neq _ _) (Hn k e Hk)).
Qed.

(** The resource table of a client that was just opened. *)
Record fresh_table (r : client_resources) : Prop := {
  ft_table : table_ok r;
  ft_tasks : outstanding_tasks r = 0;
  ft_credits : outstanding_credit_tasks r = 0;
  ft_file j s : file_resources r !! j = Some s -> rs_in_flight s = 0;
  ft_buffer j s : buffer_resources r !! j = Some s -> bs_in_flight s = 0;
}.

Lemma books_reset b i a a' :
  books_ok b -> b_accounts b !! i = Some a -> outstanding_tasks (a_res a) = 0 ->
  fresh_table (a_res a') -> books_ok (set_account i a' b).
Proof.
  intros Hb Hi H0 [Ft F1 F2 F3 F4].
  rewrite (ao_tasks _ _ _ (bo_account _ Hb _ _ Hi)) in H0.
  pose proof (no_tasks _ _ H0) as Hn.
  destruct (unreferenced _ _ Hn) as (E1 & E2 & E3 & E4).
  apply (books_replace b i a a' Hb Hi).
  - constructor; rewrite ?E1, ?E2; try done; intros j s Hs; rewrite ?E3, ?E4; eauto.
  - intros k e Hk Ei. by destruct (Hn k e Hk).
  - rewrite F2. apply (bo_quota_nonneg _ Hb).
Qed.
