(* ===== verification/Work.v ===== *)
(** * Working copies

    While a handler starts or completes a task the books are out of balance.
    [work] is the form they have in between: the counters, one client's
    resource table and one task slot replaced.  [shifted] keeps track of how far
    the table's counters are from those of the table it started as, so that a
    handler's steps add up to the balance [books_update] asks for. *)

From S2P Require Import Prelude Wire Kernel Ring State Output Resources Trace Daemon Books Ledger.

(** ** Shifted tables *)

Record delta := mk_delta {
  d_tasks : Z;
  d_credits : Z;
  d_file : nat -> Z;
  d_buffer : nat -> Z;
}.
Definition zero_delta : delta := mk_delta 0 0 (fun _ => 0) (fun _ => 0).

Definition at_file (j : nat) (z : Z) (d : delta) : delta :=
  mk_delta (d_tasks d) (d_credits d) (fun x => if (x =? j)%nat then z else d_file d x) (d_buffer d).
Definition at_buffer (j : nat) (z : Z) (d : delta) : delta :=
  mk_delta (d_tasks d) (d_credits d) (d_file d) (fun x => if (x =? j)%nat then z else d_buffer d x).
Definition at_counts (t c : Z) (d : delta) : delta := mk_delta t c (d_file d) (d_buffer d).

Record shifted (d : delta) (r r' : client_resources) : Prop := {
  sh_table : table_ok r';
  sh_file_limit : file_slot_limit r' = file_slot_limit r;
  sh_buffer_limit : buffer_slot_limit r' = buffer_slot_limit r;
  sh_tasks : outstanding_tasks r' = outstanding_tasks r + d_tasks d;
  sh_credits : outstanding_credit_tasks r' = outstanding_credit_tasks r + d_credits d;
  sh_file j s s' : file_resources r !! j = Some s -> file_resources r' !! j = Some s' ->
    rs_in_flight s' = rs_in_flight s + d_file d j;
  sh_buffer j s s' : buffer_resources r !! j = Some s -> buffer_resources r' !! j = Some s' ->
    bs_in_flight s' = bs_in_flight s + d_buffer d j;
}.

Lemma shifted_refl r : table_ok r -> shifted zero_delta r r.
Proof. intros H. constructor; try done; simpl; try lia; intros; simplify_eq; lia. Qed.

Lemma shifted_next d r r' v : shifted d r r' -> shifted d r (r' <| next_resource_id := v |>).
Proof. intros [[] ? ? ? ? ? ?]. constructor; try done. Qed.

Lemma shifted_counts d r r' t c :
  shifted d r r' -> outstanding_tasks r' = outstanding_tasks r + t ->
  outstanding_credit_tasks r' = outstanding_credit_tasks r + c -> shifted (at_counts t c d) r r'.
Proof. intros [] Ht Hc. by constructor. Qed.

Definition put_file (j : nat) (s : resource_slot) (r : client_resources) : client_resources :=
  r <| file_resources := <[j := s]> (file_resources r) |>.
Definition put_buffer (j : nat) (s : buffer_slot) (r : client_resources) : client_resources :=
  r <| buffer_resources := <[j := s]> (buffer_resources r) |>.

Lemma shifted_file d r r' j s' z :
  shifted d r r' ->
  (forall s, file_resources r !! j = Some s -> rs_in_flight s' = rs_in_flight s + z) ->
  shifted (at_file j z d) r (put_file j s' r').
Proof.
  intros [[T1 T2 T3 T4] ? ? ? ? Hf Hb] Hs.
  constructor; [constructor; simpl; rewrite ?length_insert; done|done..|simpl|exact Hb].
  intros j0 s s0 H1 H2. apply list_lookup_insert_Some in H2 as [(-> & <- & _)|(Hne & H2)].
  - rewrite Nat.eqb_refl. by apply Hs.
  - rewrite (proj2 (Nat.eqb_neq _ _)) by congruence. by eapply Hf.
Qed.

Lemma shifted_buffer d r r' j s' z :
  shifted d r r' ->
  (forall s, buffer_resources r !! j = Some s -> bs_in_flight s' = bs_in_flight s + z) ->
  shifted (at_buffer j z d) r (put_buffer j s' r').
Proof.
  intros [[T1 T2 T3 T4] ? ? ? ? Hf Hb] Hs.
  constructor; [constructor; simpl; rewrite ?length_insert; done|done..|exact Hf|simpl].
  intros j0 s s0 H1 H2. apply list_lookup_insert_Some in H2 as [(-> & <- & _)|(Hne & H2)].
  - rewrite Nat.eqb_refl. by apply Hs.
  - rewrite (proj2 (Nat.eqb_neq _ _)) by congruence. by eapply Hb.
Qed.

(** The current value of a slot, relative to the table it started as. *)
Lemma shifted_file_total d r r' j :
  shifted d r r' -> table_ok r -> (j < IOURINGD_MAX_REGISTERED_FDS)%nat ->
  rs_in_flight (file_resources r' !!! j) = rs_in_flight (file_resources r !!! j) + d_file d j.
Proof.
  intros Hs Ht Hj. eapply (sh_file _ _ _ Hs); apply lookup_total_lt.
  - by rewrite (to_files _ Ht).
  - by rewrite (to_files _ (sh_table _ _ _ Hs)).
Qed.

Lemma shifted_buffer_total d r r' j :
  shifted d r r' -> table_ok r -> (j < IOURINGD_MAX_REGISTERED_BUFFERS)%nat ->
  bs_in_flight (buffer_resources r' !!! j) = bs_in_flight (buffer_resources r !!! j) + d_buffer d j.
Proof.
  intros Hs Ht Hj. eapply (sh_buffer _ _ _ Hs); apply lookup_total_lt.
  - by rewrite (to_buffers _ Ht).
  - by rewrite (to_buffers _ (sh_table _ _ _ Hs)).
Qed.

(** The shift that a change of the client's task slot calls for. *)
Lemma shifted_balanced d i oe oe' r r' :
  shifted d r r' ->
  d_tasks d = for_client i oe' - for_client i oe ->
  d_credits d = credit_for_client i oe' - credit_for_client i oe ->
  (forall j, d_file d j = file_refs i j oe' - file_refs i j oe) ->
  (forall j, d_buffer d j = buffer_refs i j oe' - buffer_refs i j oe) ->
  balanced i oe oe' r r'.
Proof.
  intros [Ht H1 H2 H3 H4 H5 H6] Et Ec Ef Eb. constructor; try done; [lia|lia|..].
  - intros j s s' Hs Hs'. rewrite (H5 j s s' Hs Hs'), Ef. lia.
  - intros j s s' Hs Hs'. rewrite (H6 j s s' Hs Hs'), Eb. lia.
Qed.

(** ** The working copy *)

Section Work.
Context (b : books) (k i : nat).

Definition work (t c n : Z) (r : client_resources) (oe : option entry) : books :=
  let a := b_accounts b !!! i in
  b <| b_tasks := t |> <| b_credits := c |> <| b_next_id := n |>
    <| b_accounts := <[i := mk_account (a_fd a) (a_generation a) r]> (b_accounts b) |>
    <| b_entries := <[k := oe]> (b_entries b) |>.

Context (Hi : (i < length (b_accounts b))%nat) (Hk : (k < length (b_entries b))%nat).

Lemma work_id : b = work (b_tasks b) (b_credits b) (b_next_id b) (res_of b i) (b_entries b !!! k).
Proof.
  unfold work, res_of. rewrite (list_insert_id (b_entries b)) by (by apply lookup_total_lt).
  rewrite list_insert_id; [by destruct b|]. rewrite (lookup_total_lt _ _ Hi).
  by destruct (b_accounts b !!! i).
Qed.

Lemma work_res t c n r oe : res_of (work t c n r oe) i = r.
Proof. unfold res_of, work. simpl. by rewrite insert_total_eq. Qed.

Lemma work_account t c n r oe :
  b_accounts (work t c n r oe) !!! i =
  mk_account (a_fd (b_accounts b !!! i)) (a_generation (b_accounts b !!! i)) r.
Proof. unfold work. simpl. by rewrite insert_total_eq. Qed.

Lemma work_entry t c n r oe : b_entries (work t c n r oe) !!! k = oe.
Proof. unfold work. simpl. by rewrite insert_total_eq. Qed.

Lemma work_set_res t c n r oe r' : set_account_res i r' (work t c n r oe) = work t c n r' oe.
Proof.
  unfold set_account_res. rewrite work_account. simpl. unfold set_account, work. simpl.
  unfold put, put_b_accounts. simpl. by rewrite list_insert_insert_eq.
Qed.

Lemma work_set_entry t c n r oe oe' : set_entry k oe' (work t c n r oe) = work t c n r oe'.
Proof.
  unfold set_entry, work. unfold put, put_b_entries. simpl. by rewrite list_insert_insert_eq.
Qed.

Lemma work_set_tasks t c n r oe t' : work t c n r oe <| b_tasks := t' |> = work t' c n r oe.
Proof. reflexivity. Qed.
Lemma work_set_credits t c n r oe c' : work t c n r oe <| b_credits := c' |> = work t c' n r oe.
Proof. reflexivity. Qed.
Lemma work_set_next t c n r oe n' : work t c n r oe <| b_next_id := n' |> = work t c n' r oe.
Proof. reflexivity. Qed.

(** The end of a handler: the working copy is in balance again. *)
Lemma work_ok d t c n r oe' :
  books_ok b -> shifted d (res_of b i) r ->
  let oe := b_entries b !!! k in
  owned i oe -> owned i oe' ->
  d_tasks d = for_client i oe' - for_client i oe ->
  d_credits d = credit_for_client i oe' - credit_for_client i oe ->
  (forall j, d_file d j = file_refs i j oe' - file_refs i j oe) ->
  (forall j, d_buffer d j = buffer_refs i j oe' - buffer_refs i j oe) ->
  t = b_tasks b - one oe + one oe' -> c = b_credits b - one_credit oe + one_credit oe' ->
  b_next_id b <= n <= IOURINGD_TASK_ID_RESERVED_MIN ->
  outstanding_credit_tasks r <= b_credit_limit b ->
  (forall e, oe' = Some e -> oe = Some e \/
     (Z.of_nat k < b_capacity b /\ Z.of_nat i < max_clients (b_limits b) /\
      entry_ok n (mk_account 0 (a_generation (b_accounts b !!! i)) (res_of b i)) e /\
      b_next_id b <= e_id e)) ->
  books_ok (work t c n r oe').
Proof.
  intros Hb Hs oe Ho Ho' Et Ec Ef Ebf Eqt Eqc Hn Hq Hnew.
  pose proof (shifted_balanced d i oe oe' _ _ Hs Et Ec Ef Ebf) as Hbal.
  apply (books_update b (work t c n r oe') k i oe oe' (b_accounts b !!! i)
           (mk_account (a_fd (b_accounts b !!! i)) (a_generation (b_accounts b !!! i)) r) Hb).
  constructor; try done; try (by apply lookup_total_lt).
  intros e He. destruct (Hnew e He) as [?|(H1 & H2 & H3 & H4)]; [by left|right].
  split_and!; try done. eapply entry_ok_mono; [exact H3|simpl; lia|done|..];
    simpl; apply Hs.
Qed.
End Work.

(** The counters of a slot stay far from the bounds of their type. *)
Lemma sumz_bound {A} (f : A -> Z) (l : list A) m :
  (forall x, 0 <= f x <= m) -> 0 <= sumz f l <= m * Z.of_nat (length l).
Proof.
  intros Hf. induction l as [|x l IH]; cbn [sumz length]; [lia|]. specialize (Hf x). lia.
Qed.

Lemma file_refs_bound i j oe : 0 <= file_refs i j oe <= 2.
Proof.
  destruct oe as [e|]; simpl; [|lia]. destruct (_ =? _)%nat; [|lia].
  destruct (_ =? _), (_ =? _); simpl; lia.
Qed.
Lemma buffer_refs_bound i j oe : 0 <= buffer_refs i j oe <= 1.
Proof.
  destruct oe as [e|]; simpl; [|lia]. destruct (_ =? _)%nat; [|lia]. destruct (_ =? _); simpl; lia.
Qed.
Lemma for_client_bound i oe : 0 <= for_client i oe <= 1.
Proof. destruct oe as [e|]; simpl; [|lia]. destruct (_ =? _)%nat; simpl; lia. Qed.
Lemma credit_for_client_bound i oe : 0 <= credit_for_client i oe <= 1.
Proof. destruct oe as [e|]; simpl; [|lia]. destruct (_ && _); simpl; lia. Qed.
Lemma one_bound oe : 0 <= one oe <= 1.
Proof. destruct oe; simpl; lia. Qed.
Lemma one_credit_bound oe : 0 <= one_credit oe <= 1.
Proof. destruct oe as [e|]; simpl; [|lia]. destruct (e_credit e); simpl; lia. Qed.

Section Bounds.
Context (b : books) (Hb : books_ok b).

Lemma tasks_bound : 0 <= b_tasks b <= 64.
Proof.
  rewrite (bo_tasks _ Hb). pose proof (sumz_bound one (b_entries b) 1 one_bound).
  rewrite (bo_entries_len _ Hb) in *. unfold IOURINGD_MAX_TASKS in *. lia.
Qed.
Lemma credits_bound : 0 <= b_credits b <= 64.
Proof.
  rewrite (bo_credits _ Hb). pose proof (sumz_bound one_credit (b_entries b) 1 one_credit_bound).
  rewrite (bo_entries_len _ Hb) in *. unfold IOURINGD_MAX_TASKS in *. lia.
Qed.

Context (i : nat) (Hi : (i < length (b_accounts b))%nat).

Lemma res_account : account_ok (b_entries b) i (res_of b i).
Proof. apply (bo_account _ Hb). by apply lookup_total_lt. Qed.

Lemma quota_bound : outstanding_credit_tasks (res_of b i) <= b_credit_limit b.
Proof. apply (bo_quota _ Hb i). by apply lookup_total_lt. Qed.

Lemma client_tasks_bound : 0 <= outstanding_tasks (res_of b i) <= 64.
Proof.
  rewrite (ao_tasks _ _ _ res_account).
  pose proof (sumz_bound (for_client i) (b_entries b) 1 (for_client_bound i)).
  rewrite (bo_entries_len _ Hb) in *. unfold IOURINGD_MAX_TASKS in *. lia.
Qed.
Lemma client_credits_bound : 0 <= outstanding_credit_tasks (res_of b i) <= 64.
Proof.
  rewrite (ao_credits _ _ _ res_account).
  pose proof (sumz_bound (credit_for_client i) (b_entries b) 1 (credit_for_client_bound i)).
  rewrite (bo_entries_len _ Hb) in *. unfold IOURINGD_MAX_TASKS in *. lia.
Qed.

Lemma file_count j : (j < IOURINGD_MAX_REGISTERED_FDS)%nat ->
  rs_in_flight (file_resources (res_of b i) !!! j) = sumz (file_refs i j) (b_entries b) /\
  0 <= rs_in_flight (file_resources (res_of b i) !!! j) <= 128.
Proof.
  intros Hj. pose proof res_account as Ha.
  assert (E : rs_in_flight (file_resources (res_of b i) !!! j) = sumz (file_refs i j) (b_entries b)).
  { apply (ao_file _ _ _ Ha), lookup_total_lt. by rewrite (to_files _ (ao_table _ _ _ Ha)). }
  split; [exact E|]. rewrite E.
  pose proof (sumz_bound (file_refs i j) (b_entries b) 2 (file_refs_bound i j)).
  rewrite (bo_entries_len _ Hb) in *. unfold IOURINGD_MAX_TASKS in *. lia.
Qed.

Lemma buffer_count j : (j < IOURINGD_MAX_REGISTERED_BUFFERS)%nat ->
  bs_in_flight (buffer_resources (res_of b i) !!! j) = sumz (buffer_refs i j) (b_entries b) /\
  0 <= bs_in_flight (buffer_resources (res_of b i) !!! j) <= 64.
Proof.
  intros Hj. pose proof res_account as Ha.
  assert (E : bs_in_flight (buffer_resources (res_of b i) !!! j) = sumz (buffer_refs i j) (b_entries b)).
  { apply (ao_buffer _ _ _ Ha), lookup_total_lt. by rewrite (to_buffers _ (ao_table _ _ _ Ha)). }
  split; [exact E|]. rewrite E.
  pose proof (sumz_bound (buffer_refs i j) (b_entries b) 1 (buffer_refs_bound i j)).
  rewrite (bo_entries_len _ Hb) in *. unfold IOURINGD_MAX_TASKS in *. lia.
Qed.
End Bounds.
