(* ===== verification/Accounting.v ===== *)
(** * Dispatching keeps the books

    Every request that [iouringd_dispatch_client_request] handles, whatever its
    outcome, leaves the books of the daemon in balance: a rejected request
    changes nothing, an abandoned task is undone completely, and an accepted
    one is counted exactly once everywhere it is counted. *)

From S2P Require Import Prelude Wire Kernel Ring State Output Resources Trace Daemon Input Dispatch Books Ledger Work.

(** The parameters of the daemon that no operation changes. *)
Record same_config (b b' : books) : Prop := {
  sc_limits : b_limits b' = b_limits b;
  sc_capacity : b_capacity b' = b_capacity b;
  sc_ring_capacity : b_ring_capacity b' = b_ring_capacity b;
  sc_credit_limit : b_credit_limit b' = b_credit_limit b;
  sc_capabilities : b_capabilities b' = b_capabilities b;
}.

Lemma same_config_refl b : same_config b b.
Proof. by constructor. Qed.
Lemma same_config_trans b1 b2 b3 : same_config b1 b2 -> same_config b2 b3 -> same_config b1 b3.
Proof. intros [] []. constructor; congruence. Qed.

(** A computation that returns leaves the books in balance; a failure ends the
    daemon. *)
Definition ends {A} (b : books) (r : outcome A) (b' : books) : Prop :=
  match r with
  | Ok _ => books_ok b' /\ same_config b b'
  | Err _ => True
  end.

(** The references of an entry, as a shift of its client's table. *)
Definition delta_of (i : nat) (oe : option entry) : delta :=
  mk_delta 0 0 (fun j => file_refs i j oe) (fun j => buffer_refs i j oe).

Lemma shifted_ext d d' r r' :
  shifted d r r' -> d_tasks d = d_tasks d' -> d_credits d = d_credits d' ->
  (forall j, d_file d j = d_file d' j) -> (forall j, d_buffer d j = d_buffer d' j) ->
  shifted d' r r'.
Proof.
  intros [] Et Ec Ef Eb. constructor; try done; [lia|lia|..]; intros; rewrite <- ?Ef, <- ?Eb; eauto.
Qed.

(** The client and the runtime a handler reads, against the books. *)
Lemma client_facts b i c :
  account_of c = b_accounts b !!! i ->
  c_res c = res_of b i /\ c_generation c = a_generation (b_accounts b !!! i) /\
  c_fd c = a_fd (b_accounts b !!! i).
Proof. intros E. unfold res_of. by rewrite <- E. Qed.

Lemma find_free_task_slot_books rt k :
  books_ok (books_of rt) -> iouringd_find_free_task_slot rt = Some k ->
  (k < length (b_entries (books_of rt)))%nat /\ Z.of_nat k < b_capacity (books_of rt) /\
  b_entries (books_of rt) !!! k = None.
Proof.
  intros Hb E. apply find_index_Some in E as (t & Ht & Ha & _).
  apply lookup_take_Some in Ht as [Hk Ht]. simpl. rewrite length_fmap.
  pose proof (bo_capacity _ Hb) as Hc. simpl in Hc.
  split_and!; [by eapply lookup_lt_Some|lia|].
  rewrite (fmap_total entry_of) by done. rewrite (list_lookup_total_correct _ _ _ Ht).
  unfold entry_of. apply negb_true_iff in Ha. by rewrite Ha.
Qed.

Lemma allocate_loop_next n a : exists v, snd (allocate_loop n a) = a <| next_resource_id := v |>.
Proof.
  revert a. induction n as [|n IH]; intros a; cbn [allocate_loop].
  - exists (next_resource_id a). by destruct a.
  - destruct (_ =? _); [|destruct (negb _)].
    + destruct (IH (a <| next_resource_id := u32 (next_resource_id a + 1) |>)) as [v ->]. by exists v.
    + by eexists.
    + destruct (IH (a <| next_resource_id := u32 (next_resource_id a + 1) |>)) as [v ->]. by exists v.
Qed.

Lemma shifted_allocate d r r' :
  shifted d r r' -> shifted d r (snd (iouringd_allocate_resource_id r')).
Proof.
  intros Hs. unfold iouringd_allocate_resource_id.
  destruct (allocate_loop_next (Z.to_nat (u32 (file_slot_limit r' + buffer_slot_limit r'))) r')
    as [v ->]. by apply shifted_next.
Qed.

Lemma shifted_unallocate d r r' id :
  shifted d r r' -> shifted d r (iouringd_unallocate_resource_id r' id).
Proof.
  intros Hs. unfold iouringd_unallocate_resource_id. destruct (negb _); [|done].
  by apply shifted_next.
Qed.

(** ** Steps that keep the books *)

Section Keeping.
Context {W : Type} `{Kernel W}.

Lemma keeps_finish_true i : keeps (W := W) (finish_true i).
Proof. unfold finish_true. keeps_tac. Qed.

Lemma keeps_reject i e : keeps (W := W) (reject i e).
Proof. unfold reject. keeps_tac. apply keeps_finish_true. Qed.

Lemma keeps_resource_reply i rid res avail : keeps (W := W) (resource_reply i rid res avail).
Proof. unfold resource_reply. keeps_tac. Qed.

Lemma keeps_refuse i e avail : keeps (W := W) (refuse i e avail).
Proof. unfold refuse. keeps_tac; [apply keeps_resource_reply|apply keeps_finish_true]. Qed.

Lemma keeps_drop_received_fd i : keeps (W := W) (drop_received_fd i).
Proof. unfold drop_received_fd. keeps_tac. Qed.

Lemma keeps_resource_event i ev rid : keeps (W := W) (resource_event i ev rid).
Proof. unfold resource_event. keeps_tac. Qed.

Lemma keeps_submit_io i k j : keeps (W := W) (submit_io i k j).
Proof. unfold submit_io. keeps_tac. Qed.

Lemma keeps_submit_simple i k : keeps (W := W) (submit_simple i k).
Proof. unfold submit_simple. keeps_tac. Qed.

(** The steps that always return. *)
Lemma btrip_close_fds fds b (Q : outcome unit -> books -> Prop) :
  Q (Ok tt) b -> btrip (W := W) (close_fds fds) b Q.
Proof. intros HQ s <-. exact HQ. Qed.
End Keeping.

#[export] Hint Resolve keeps_finish_true keeps_reject keeps_resource_reply keeps_refuse
  keeps_drop_received_fd keeps_resource_event keeps_submit_io keeps_submit_simple : keeps.

(** ** Steps on a working copy *)

Section Steps.
Context {W : Type} `{Kernel W}.
Context (b : books) (k i : nat).
Context (Hi : (i < length (b_accounts b))%nat) (Hk : (k < length (b_entries b))%nat).
Context (t c n : Z) (r : client_resources) (oe : option entry).
Abbreviation now := (work b k i t c n r oe).

Lemma w_get_client Q :
  (forall x, c_res x = r -> c_generation x = a_generation (b_accounts b !!! i) ->
             c_fd x = a_fd (b_accounts b !!! i) -> Q (Ok x) now) ->
  btrip (W := W) (get_client i) now Q.
Proof.
  intros HQ. apply btrip_get_client. intros x Hx. rewrite work_account in Hx by done.
  by apply HQ; injection Hx.
Qed.

Lemma w_get_task Q :
  (forall x, entry_of x = oe -> Q (Ok x) now) -> btrip (W := W) (get_task k) now Q.
Proof. intros HQ. apply btrip_get_task. intros x Hx. rewrite work_entry in Hx by done. by apply HQ. Qed.

Lemma w_mod_task f Q :
  (forall x, entry_of x = oe -> Q (Ok tt) (work b k i t c n r (entry_of (f x)))) ->
  btrip (W := W) (mod_task k f) now Q.
Proof.
  intros HQ. apply btrip_mod_task. intros x Hx. rewrite work_entry in Hx by done.
  rewrite work_set_entry. by apply HQ.
Qed.

Lemma w_set_res f Q :
  Q (Ok tt) (work b k i t c n (f r) oe) -> btrip (W := W) (set_res i f) now Q.
Proof.
  intros HQ. apply btrip_set_res. rewrite work_res, work_set_res by done. exact HQ.
Qed.

Lemma w_set_file j f Q :
  Q (Ok tt) (work b k i t c n (put_file j (f (file_resources r !!! j)) r) oe) ->
  btrip (W := W) (set_file_slot i j f) now Q.
Proof. intros HQ. unfold set_file_slot. apply w_set_res. exact HQ. Qed.

Lemma w_set_buffer j f Q :
  Q (Ok tt) (work b k i t c n (put_buffer j (f (buffer_resources r !!! j)) r) oe) ->
  btrip (W := W) (set_buffer_slot i j f) now Q.
Proof. intros HQ. unfold set_buffer_slot. apply w_set_res. exact HQ. Qed.

Lemma w_get_file_slot j Q :
  Q (Ok (file_resources r !!! j)) now -> btrip (W := W) (get_file_slot i j) now Q.
Proof. intros HQ. apply btrip_get_file_slot. by rewrite work_res. Qed.

Lemma w_get_buffer_slot j Q :
  Q (Ok (buffer_resources r !!! j)) now -> btrip (W := W) (get_buffer_slot i j) now Q.
Proof. intros HQ. apply btrip_get_buffer_slot. by rewrite work_res. Qed.

Lemma w_clear_file j Q :
  Q (Ok tt) (work b k i t c n (put_file j file_slot_free r) oe) ->
  btrip (W := W) (clear_file_slot i j) now Q.
Proof.
  intros HQ. unfold clear_file_slot. apply btrip_bind, w_get_file_slot, btrip_bind, btrip_close_fds.
  by apply w_set_file.
Qed.

End Steps.

Lemma put_file_twice j s s' x : put_file j s (put_file j s' x) = put_file j s x.
Proof. unfold put_file, put, put_file_resources. simpl. by rewrite list_insert_insert_eq. Qed.

(** A computation that cannot return. *)
Definition fails {W A} `{Kernel W} (m : DM (W := W) A) : Prop := forall s, is_ok (fst (m s)) = false.

Section Starting.
Context {W : Type} `{Kernel W}.

Lemma fails_bind {A B} (m : DM (W := W) A) (f : A -> DM (W := W) B) :
  (forall a, fails (f a)) -> fails (mbnd m f).
Proof. intros Hf s. unfold mbnd. destruct (m s) as [[a|e] s']; [apply Hf|done]. Qed.
Lemma fails_fail {A} e : fails (W := W) (A := A) (mfail e).
Proof. by intros s. Qed.
Lemma btrip_fails {A} (m : DM (W := W) A) b b0 : fails m -> btrip m b (ends b0).
Proof. intros Hf s _. specialize (Hf s). destruct (m s) as [[a|e] s']; done. Qed.

Context (b : books) (k i : nat) (Hb : books_ok b).
Context (Hi : (i < length (b_accounts b))%nat) (Hk : (k < length (b_entries b))%nat).

Lemma w_next_id t c n r oe Q :
  Q (Ok tt) (work b k i t c (u64 (n + 1)) r oe) ->
  btrip (W := W) (mod_rt (fun rt => rt <| rt_next_task_id := u64 (rt_next_task_id rt + 1) |>))
    (work b k i t c n r oe) Q.
Proof.
  intros HQ. by apply (btrip_mod_rt _ (fun x => x <| b_next_id := u64 (b_next_id x + 1) |>)).
Qed.

Lemma w_account t c n r oe z credit Q :
  Q (Ok tt) (work b k i (u64 (t + z)) (if credit : bool then u64 (c + z) else c) n
               (count_client_task z credit r) oe) ->
  btrip (W := W) (account_task i z credit) (work b k i t c n r oe) Q.
Proof.
  intros HQ. unfold account_task. apply btrip_bind.
  apply (btrip_mod_rt _ (fun x => x <| b_tasks := u64 (b_tasks x + z) |>
           <| b_credits := if credit then u64 (b_credits x + z) else b_credits x |>)); [done|].
  by apply (w_set_res b k i Hi (u64 (t + z)) (if credit then u64 (c + z) else c) n r oe).
Qed.

(** Dropping the slot reserved for a result leaves it free. *)
Lemma w_drop_result t c n r oe j Q :
  Q (Ok tt) (work b k i t c n (put_file j file_slot_free r) oe) ->
  btrip (W := W) (drop_result_slot i j) (work b k i t c n r oe) Q.
Proof.
  intros HQ. unfold drop_result_slot. apply btrip_bind, w_set_file; [done..|].
  apply w_clear_file; [done..|]. by rewrite put_file_twice.
Qed.

Context (Hfree : b_entries b !!! k = None).
Context (Hplace : Z.of_nat k < b_capacity b) (Hlive : Z.of_nat i < max_clients (b_limits b)).
Context (Hroom : b_next_id b < IOURINGD_TASK_ID_RESERVED_MIN).

(** The task in slot [k] holds the references its client's table counts. *)
Record started (e : entry) (r : client_resources) : Prop := {
  st_client : e_client e = i;
  st_generation : e_generation e = a_generation (b_accounts b !!! i);
  st_id : e_id e = b_next_id b;
  st_file : -1 <= e_file e < file_slot_limit (res_of b i);
  st_result : -1 <= e_result e < file_slot_limit (res_of b i);
  st_buffer : -1 <= e_buffer e < buffer_slot_limit (res_of b i);
  st_distinct : e_file e < 0 \/ e_file e <> e_result e;
  st_quota : e_credit e = true -> outstanding_credit_tasks (res_of b i) < b_credit_limit b;
  st_shifted : shifted (delta_of i (Some e)) (res_of b i) r;
}.

(** The books while the task is being started. *)
Abbreviation starting := (work b k i (b_tasks b) (b_credits b) (b_next_id b)).

Lemma started_counted e r :
  started e r ->
  books_ok (work b k i (b_tasks b + 1) (b_credits b + Z.b2z (e_credit e)) (b_next_id b + 1)
              (count_client_task 1 (e_credit e) r) (Some e)).
Proof.
  intros [S1 S2 S3 S4 S5 S6 S7 S8 S9].
  pose proof (client_tasks_bound b Hb i Hi) as B1. pose proof (client_credits_bound b Hb i Hi) as B2.
  pose proof (bo_next _ Hb) as B3.
  assert (Hs : shifted (at_counts 1 (Z.b2z (e_credit e)) (delta_of i (Some e))) (res_of b i)
                 (count_client_task 1 (e_credit e) r)).
  { destruct S9 as [[T1 T2 T3 T4] H1 H2 H3 H4 H5 H6]. simpl in H3, H4. unfold count_client_task.
    constructor; simpl; try done.
    - rewrite u64_id; lia.
    - destruct (e_credit e); simpl; [rewrite u64_id; lia|lia]. }
  apply (work_ok b k i Hi Hk _ _ _ _ _ (Some e) Hb Hs); rewrite ?Hfree; simpl;
    rewrite ?S1, ?Nat.eqb_refl; simpl; try lia; try done.
  - by intros e0 [= <-].
  - pose proof (sh_credits _ _ _ Hs) as Hc. simpl in Hc. rewrite Hc.
    pose proof (quota_bound b Hb i Hi).
    destruct (e_credit e); simpl; [specialize (S8 eq_refl)|]; lia.
  - intros e0 [= <-]. right. split_and!; [done..| |lia]. constructor; simpl; done || lia.
Qed.

Lemma accept_task_ends e r undo :
  started e r -> btrip (W := W) (accept_task i k (e_credit e) undo) (starting r (Some e)) (ends b).
Proof.
  intros Hs. pose proof (started_counted e r Hs) as Hok.
  pose proof (tasks_bound b Hb) as B1. pose proof (credits_bound b Hb) as B2.
  pose proof (bo_next _ Hb) as B3. change IOURINGD_TASK_ID_RESERVED_MIN with 18446744073709551600 in *.
  unfold accept_task. apply btrip_bind, w_next_id, btrip_bind, w_account.
  replace (u64 (b_tasks b + 1)) with (b_tasks b + 1) by (symmetry; apply u64_id; lia).
  replace (u64 (b_next_id b + 1)) with (b_next_id b + 1) by (symmetry; apply u64_id; lia).
  replace (if e_credit e then u64 (b_credits b + 1) else b_credits b)
    with (b_credits b + Z.b2z (e_credit e))
    by (destruct (e_credit e); simpl; [rewrite u64_id by lia|]; lia).
  apply btrip_bind, btrip_keeps; [by apply keeps_mod_rt|]. intros [[]|e0]; [|done].
  apply btrip_bind, w_get_task; [done|]. intros x Hx.
  apply btrip_bind, btrip_try, btrip_keeps; [auto with keeps|].
  intros [[]|e0]; [|by apply btrip_fails; repeat (apply fails_bind; intros ?); apply fails_fail].
  apply btrip_keeps; [keeps_tac|]. intros [o|e0]; [|done]. split; [exact Hok|by constructor].
Qed.

(** An abandoned task leaves nothing behind, if its undo takes back the
    references. *)
Lemma abandon_task_ends e r err undo :
  btrip (W := W) undo (starting r (Some e))
    (fun o b' => match o with
                 | Ok _ => exists r', b' = starting r' (Some e) /\ shifted zero_delta (res_of b i) r'
                 | Err _ => True
                 end) ->
  btrip (W := W) (abandon_task i k err undo) (starting r (Some e)) (ends b).
Proof.
  intros Hu. unfold abandon_task. apply btrip_bind. eapply btrip_weaken; [exact Hu|].
  intros [[]|e0] b'; [|done]. intros (r' & -> & Hs). unfold clear_task.
  apply btrip_bind, w_mod_task; [done|]. intros x _. apply btrip_keeps; [auto with keeps|].
  intros [o|e0]; [|done]. split; [|by constructor].
  apply (work_ok b k i Hi Hk _ _ _ _ _ None Hb Hs); rewrite ?Hfree; simpl; try lia; try done.
  pose proof (sh_credits _ _ _ Hs) as Hc. simpl in Hc. rewrite Hc.
  pose proof (quota_bound b Hb i Hi). lia.
Qed.
End Starting.

(** ** Changes of one table that move no counter *)

Lemma books_table b i r :
  books_ok b -> (i < length (b_accounts b))%nat -> shifted zero_delta (res_of b i) r ->
  books_ok (set_account_res i r b) /\ same_config b (set_account_res i r b).
Proof.
  intros Hb Hi Hs. split; [|by constructor].
  eapply books_account; [done|by apply lookup_total_lt|done|].
  eapply shifted_balanced; [exact Hs|done..].
Qed.

Lemma btrip_allocate {W} `{Kernel W} i b Q :
  (let a := iouringd_allocate_resource_id (res_of b i) in
   Q (Ok (fst a)) (set_account_res i (snd a) b)) ->
  btrip (W := W) (allocate_id i) b Q.
Proof.
  intros HQ. unfold allocate_id. apply btrip_bind, btrip_get_client. intros c Hc.
  destruct (client_facts _ _ _ Hc) as (-> & _).
  destruct (iouringd_allocate_resource_id (res_of b i)) as [rid a].
  apply btrip_bind, btrip_set_res, btrip_ret. exact HQ.
Qed.

(** ** The four ways to start a task *)

(** The entry of a new task. *)
Definition new_entry (rt : runtime) (c : client) (i : nat) (file buffer result : Z) : entry :=
  mk_entry (rt_next_task_id rt) (req_kind c) (uses_credit c) i (c_generation c) file buffer result.

Lemma eqb_of_nat x j : (Z.of_nat x =? Z.of_nat j) = (j =? x)%nat.
Proof. destruct (Z.eqb_spec (Z.of_nat x) (Z.of_nat j)), (Nat.eqb_spec j x); try done; exfalso; lia. Qed.
Lemma eqb_no_slot j : (-1 =? Z.of_nat j) = false.
Proof. apply Z.eqb_neq. lia. Qed.

(** Compares the shift of a table with the references of an entry. *)
Ltac refs_tac :=
  let x := fresh "x" in
  intros x;
  cbn [delta_of d_file d_buffer at_file at_buffer zero_delta file_refs buffer_refs e_client e_file
       e_buffer e_result new_entry];
  rewrite ?Nat.eqb_refl, ?eqb_no_slot, ?eqb_of_nat;
  repeat (match goal with |- context [(?y =? ?z)%nat] => destruct (Nat.eqb_spec y z) end; simpl);
  try subst; try done; try lia.

Section Tasks.
Context {W : Type} `{Kernel W}.
Context (rt : runtime) (i : nat) (c : client).
Abbreviation b := (books_of rt).
Context (Hb : books_ok b) (Hlive : Z.of_nat i < max_clients (b_limits b)).
Context (Hc : account_of c = b_accounts b !!! i).
Context (Hq : uses_credit c = true -> outstanding_credit_tasks (res_of b i) < b_credit_limit b).

Lemma client_slot_lt : (i < length (b_accounts b))%nat.
Proof.
  rewrite (bo_accounts_len _ Hb). destruct (bo_limits _ Hb) as [Hm _].
  unfold IOURINGD_MAX_CLIENTS in *. lia.
Qed.

Lemma res_table : table_ok (res_of b i).
Proof. apply (res_account b Hb i client_slot_lt). Qed.

Lemma ends_keeps {A} (m : DM (W := W) A) : keeps m -> btrip m b (ends b).
Proof. intros Hm. apply btrip_keeps; [done|]. intros [a|e]; [|done]. by split. Qed.

Section Slot.
Context (k : nat) (Hfind : iouringd_find_free_task_slot rt = Some k).
Context (Hroom : (IOURINGD_TASK_ID_RESERVED_MIN <=? rt_next_task_id rt) = false).

Lemma slot_lt : (k < length (b_entries b))%nat.
Proof. by destruct (find_free_task_slot_books rt k Hb Hfind). Qed.
Lemma slot_free : b_entries b !!! k = None.
Proof. by destruct (find_free_task_slot_books rt k Hb Hfind) as (_ & _ & ?). Qed.

Abbreviation starting := (work b k i (b_tasks b) (b_credits b) (b_next_id b)).

Lemma starting_id : b = starting (res_of b i) None.
Proof. rewrite <- slot_free. apply work_id; [apply client_slot_lt|apply slot_lt]. Qed.

Lemma accept_new file buffer result r undo :
  let e := new_entry rt c i file buffer result in
  -1 <= file < file_slot_limit (res_of b i) ->
  -1 <= result < file_slot_limit (res_of b i) ->
  -1 <= buffer < buffer_slot_limit (res_of b i) ->
  file < 0 \/ file <> result ->
  shifted (delta_of i (Some e)) (res_of b i) r ->
  btrip (W := W) (accept_task i k (uses_credit c) undo) (starting r (Some e)) (ends b).
Proof.
  intros e H1 H2 H3 H4 Hs. destruct (find_free_task_slot_books rt k Hb Hfind) as (Hk & Hp & Hf).
  apply (accept_task_ends b k i Hb client_slot_lt Hk Hf Hp Hlive ltac:(apply Z.leb_gt, Hroom) e).
  destruct (client_facts _ _ _ Hc) as (_ & Hg & _). by constructor.
Qed.

Lemma abandon_new e r err undo :
  btrip (W := W) undo (starting r (Some e))
    (fun o b' => match o with
                 | Ok _ => exists r', b' = starting r' (Some e) /\ shifted zero_delta (res_of b i) r'
                 | Err _ => True
                 end) ->
  btrip (W := W) (abandon_task i k err undo) (starting r (Some e)) (ends b).
Proof.
  intros Hu.
  exact (abandon_task_ends b k i Hb client_slot_lt slot_lt slot_free (proj1 (Z.leb_gt _ _) Hroom)
           e r err undo Hu).
Qed.
End Slot.

Lemma shifted_no_refs e r :
  e_file e = -1 -> e_buffer e = -1 -> e_result e = -1 -> shifted zero_delta (res_of b i) r ->
  shifted (delta_of i (Some e)) (res_of b i) r.
Proof.
  intros E1 E2 E3 Hs. eapply shifted_ext; [exact Hs|done|done|..]; intros j; simpl.
  - rewrite E1, E3, eqb_no_slot. by destruct (_ =? _)%nat.
  - rewrite E2, eqb_no_slot. by destruct (_ =? _)%nat.
Qed.

Lemma dispatch_simple_ends : btrip (W := W) (dispatch_simple i rt c) b (ends b).
Proof.
  unfold dispatch_simple. destruct (_ <=? _) eqn:Hroom; [apply ends_keeps; auto with keeps|].
  destruct (iouringd_find_free_task_slot rt) as [k|] eqn:Hf; [|apply ends_keeps; auto with keeps].
  pose proof client_slot_lt as Hi. pose proof (slot_lt k Hf) as Hk. pose proof res_table as Ht.
  assert (E := starting_id k Hf).
  rewrite E at 1. apply btrip_bind, w_mod_task; [done|]. intros x _.
  change (entry_of _) with (Some (new_entry rt c i (-1) (-1) (-1))).
  apply btrip_bind, btrip_try, btrip_keeps; [auto with keeps|].
  pose proof (to_file_limit _ Ht). pose proof (to_buffer_limit _ Ht). intros [[]|e0].
  - apply accept_new; try done; try lia.
    apply shifted_no_refs; [done..|by apply shifted_refl].
  - apply abandon_new; try done. apply btrip_ret. eexists. split; [reflexivity|].
    by apply shifted_refl.
Qed.

(** The slot [j] is free in the table, so it holds no references. *)
Lemma free_slot_count j :
  iouringd_find_free_file_slot (res_of b i) = Some j ->
  Z.of_nat j < file_slot_limit (res_of b i) /\
  forall s, file_resources (res_of b i) !! j = Some s -> rs_in_flight s = 0.
Proof.
  intros E. apply find_free_file_slot_Some in E as (s & Hs & Hj & _ & _ & H0).
  pose proof (to_file_limit _ res_table). split; [lia|]. intros s' Hs'. congruence.
Qed.

Lemma dispatch_openat_ends :
  uses_credit c = true -> btrip (W := W) (dispatch_openat i rt c) b (ends b).
Proof.
  intros Hcr. unfold dispatch_openat. destruct (client_facts _ _ _ Hc) as (-> & _).
  destruct (_ <=? _) eqn:Hroom; [apply ends_keeps; auto with keeps|].
  destruct (iouringd_find_free_file_slot _) as [j|] eqn:Hj; [|apply ends_keeps; auto with keeps].
  destruct (free_slot_count j Hj) as [Hjl Hj0].
  pose proof client_slot_lt as Hi. pose proof res_table as Ht.
  pose proof (shifted_allocate _ _ _ (shifted_refl _ Ht)) as Ha.
  apply btrip_bind, btrip_allocate. cbv zeta.
  destruct (iouringd_allocate_resource_id (res_of b i)) as [rid r1]. cbn [fst snd] in *.
  pose proof (books_table b i r1 Hb Hi Ha) as Hok.
  destruct (_ =? _); [apply btrip_keeps; [auto with keeps|by intros [?|?]]|].
  destruct (iouringd_find_free_task_slot rt) as [k|] eqn:Hf;
    [|apply btrip_keeps; [auto with keeps|by intros [?|?]]].
  pose proof (slot_lt k Hf) as Hk. clear Hok.
  replace (set_account_res i r1 b) with (work b k i (b_tasks b) (b_credits b) (b_next_id b) r1 None)
    by (rewrite (starting_id k Hf) at 5; by rewrite work_set_res).
  apply btrip_bind, w_mod_task; [done|]. intros x _.
  change (entry_of _) with (Some (new_entry rt c i (-1) (-1) (Z.of_nat j))).
  apply btrip_bind, w_set_file; [done..|].
  apply btrip_bind, w_get_task; [done|]. intros t _.
  apply btrip_bind, btrip_try, btrip_keeps; [auto with keeps|].
  pose proof (to_buffer_limit _ Ht). intros [[]|e0].
  - rewrite <- Hcr. apply accept_new; try done; try lia.
    eapply shifted_ext; [apply (shifted_file _ _ _ _ _ 1 Ha); intros s Hs|done|done|..]; [|refs_tac..].
    by rewrite (Hj0 s Hs).
  - apply abandon_new; try done. apply btrip_bind, w_drop_result; [done..|].
    unfold unallocate_id. apply w_set_res; [done|]. eexists. split; [reflexivity|].
    apply shifted_unallocate. rewrite put_file_twice.
    eapply shifted_ext; [apply (shifted_file _ _ _ _ _ 0 Ha); intros s Hs|done|done|..]; [|refs_tac..].
    by rewrite (Hj0 s Hs).
Qed.

Lemma used_slot_count id j :
  iouringd_find_file_slot (res_of b i) id = Some j ->
  Z.of_nat j < file_slot_limit (res_of b i) /\ (j < IOURINGD_MAX_REGISTERED_FDS)%nat /\
  file_resources (res_of b i) !! j = Some (file_resources (res_of b i) !!! j).
Proof.
  intros E. apply find_file_slot_Some in E as (s & Hs & Hj & _).
  pose proof (to_file_limit _ res_table). split_and!; [lia|lia|].
  by rewrite (list_lookup_total_correct _ _ _ Hs).
Qed.

Lemma dispatch_close_ends :
  uses_credit c = true -> btrip (W := W) (dispatch_close i rt c) b (ends b).
Proof.
  intros Hcr. unfold dispatch_close. destruct (client_facts _ _ _ Hc) as (-> & _).
  destruct (iouringd_find_file_slot _ _) as [j|] eqn:Hj; [|apply ends_keeps; auto with keeps].
  destruct (used_slot_count _ j Hj) as (Hjl & Hjm & Hjs).
  apply btrip_bind, btrip_get_file_slot. set (s := file_resources (res_of b i) !!! j) in *.
  destruct (rs_closing s); [apply ends_keeps; auto with keeps|].
  destruct (_ || _) eqn:Hz; [apply ends_keeps; auto with keeps|]. bool_hyps.
  destruct (_ <=? _) eqn:Hroom; [apply ends_keeps; auto with keeps|].
  destruct (iouringd_find_free_task_slot rt) as [k|] eqn:Hf; [|apply ends_keeps; auto with keeps].
  pose proof client_slot_lt as Hi. pose proof (slot_lt k Hf) as Hk. pose proof res_table as Ht.
  apply btrip_bind, btrip_keeps; [auto with keeps|]. intros [[]|?]; [|done].
  assert (E := starting_id k Hf). rewrite E at 1.
  apply btrip_bind, w_mod_task; [done|]. intros x _.
  change (entry_of _) with (Some (new_entry rt c i (Z.of_nat j) (-1) (-1))).
  apply btrip_bind, w_set_file; [done..|]. apply btrip_bind, w_get_task; [done|]. intros t _.
  apply btrip_bind, btrip_try, btrip_keeps; [auto with keeps|].
  pose proof (to_buffer_limit _ Ht). pose proof (shifted_refl _ Ht) as Ha. intros [[]|e0].
  - rewrite <- Hcr. apply accept_new; try done; try lia.
    eapply shifted_ext; [apply (shifted_file _ _ _ _ _ 1 Ha); intros s' Hs'|done|done|..];
      [|refs_tac..]. simpl. rewrite Hjs in Hs'. injection Hs' as <-. lia.
  - apply abandon_new; try done. unfold reopen_slot. apply btrip_bind, w_set_file; [done..|].
    apply btrip_keeps; [keeps_tac|]. intros [[]|?]; [|done]. eexists. split; [reflexivity|].
    rewrite put_file_twice.
    eapply shifted_ext; [apply (shifted_file _ _ _ _ _ 0 Ha); intros s' Hs'|done|done|..];
      [|refs_tac..]. simpl. rewrite Hjs in Hs'. injection Hs' as <-. lia.
Qed.
(** *** Operations on a registered file *)

Section Io.
Context (k j : nat) (bj : option nat).
Context (Hfind : iouringd_find_free_task_slot rt = Some k).
Context (Hroom : (IOURINGD_TASK_ID_RESERVED_MIN <=? rt_next_task_id rt) = false).
Context (Hj : Z.of_nat j < file_slot_limit (res_of b i)).
Context (Hbj : forall x, bj = Some x -> Z.of_nat x < buffer_slot_limit (res_of b i)).
Abbreviation r0 := (res_of b i).
Abbreviation starting := (work b k i (b_tasks b) (b_credits b) (b_next_id b)).

Definition buffer_index : Z := match bj with Some x => Z.of_nat x | None => -1 end.

(** The shift of the references the task has taken. *)
Definition holding (file buffer : Z) : delta :=
  let d := at_file j file zero_delta in
  match bj with Some x => at_buffer x buffer d | None => d end.

Lemma file_slot_lt : (j < IOURINGD_MAX_REGISTERED_FDS)%nat.
Proof. pose proof (to_file_limit _ res_table). lia. Qed.

Lemma w_shift_file d r oe z Q :
  shifted d r0 r -> -1 <= z <= 1 -> 0 <= d_file d j + z <= 1 ->
  (forall r', shifted (at_file j (d_file d j + z) d) r0 r' -> Q (Ok tt) (starting r' oe)) ->
  btrip (W := W) (set_file_slot i j (fun s => s <| rs_in_flight := u32 (rs_in_flight s + z) |>))
    (starting r oe) Q.
Proof.
  intros Hs Hz Hd HQ. apply w_set_file; [apply client_slot_lt|]. apply HQ.
  apply shifted_file; [exact Hs|]. intros s Ej. simpl.
  pose proof (shifted_file_total _ _ _ _ Hs res_table file_slot_lt) as E.
  destruct (file_count b Hb i client_slot_lt j file_slot_lt) as [_ Hbd].
  rewrite (list_lookup_total_correct _ _ _ Ej) in *. rewrite E, u32_id; lia.
Qed.

Lemma w_shift_buffer d r oe x z Q :
  shifted d r0 r -> bj = Some x -> -1 <= z <= 1 -> 0 <= d_buffer d x + z <= 1 ->
  (forall r', shifted (at_buffer x (d_buffer d x + z) d) r0 r' -> Q (Ok tt) (starting r' oe)) ->
  btrip (W := W) (set_buffer_slot i x (fun s => s <| bs_in_flight := u32 (bs_in_flight s + z) |>))
    (starting r oe) Q.
Proof.
  intros Hs Ex Hz Hd HQ. apply w_set_buffer; [apply client_slot_lt|]. apply HQ.
  pose proof (Hbj x Ex) as Hx. pose proof (to_buffer_limit _ res_table) as Hl.
  assert (Hx' : (x < IOURINGD_MAX_REGISTERED_BUFFERS)%nat) by lia.
  apply shifted_buffer; [exact Hs|]. intros s Ej. simpl.
  pose proof (shifted_buffer_total _ _ _ _ Hs res_table Hx') as E.
  destruct (buffer_count b Hb i client_slot_lt x Hx') as [_ Hbd].
  rewrite (list_lookup_total_correct _ _ _ Ej) in *. rewrite E, u32_id; lia.
Qed.
Lemma holding_file f g x : d_file (holding f g) x = if (x =? j)%nat then f else 0.
Proof. unfold holding. by destruct bj. Qed.
Lemma holding_buffer f g x :
  d_buffer (holding f g) x = match bj with Some y => if (x =? y)%nat then g else 0 | None => 0 end.
Proof. unfold holding. by destruct bj. Qed.
Lemma holding_counts f g : d_tasks (holding f g) = 0 /\ d_credits (holding f g) = 0.
Proof. unfold holding. by destruct bj. Qed.

Lemma shifted_holding d f g r :
  shifted d r0 r -> d_tasks d = 0 -> d_credits d = 0 ->
  (forall x, d_file d x = if (x =? j)%nat then f else 0) ->
  (forall x, d_buffer d x = match bj with Some y => if (x =? y)%nat then g else 0 | None => 0 end) ->
  shifted (holding f g) r0 r.
Proof.
  intros Hs H1 H2 H3 H4. destruct (holding_counts f g) as [E1 E2].
  eapply shifted_ext; [exact Hs|lia|lia|..]; intros x; rewrite ?holding_file, ?holding_buffer; auto.
Qed.

Lemma w_inc_file g r oe Q :
  shifted (holding 0 g) r0 r -> (forall r', shifted (holding 1 g) r0 r' -> Q (Ok tt) (starting r' oe)) ->
  btrip (W := W) (inc_file i j) (starting r oe) Q.
Proof.
  intros Hs HQ. destruct (holding_counts 0 g) as [E1 E2].
  apply (w_shift_file _ _ _ 1 _ Hs); rewrite ?holding_file, ?Nat.eqb_refl; try lia.
  intros r' Hs'. apply HQ. eapply shifted_holding; [exact Hs'|done|done|..]; intros x; simpl;
    rewrite ?holding_file, ?holding_buffer; [|done]. by destruct (x =? j)%nat.
Qed.

Lemma w_dec_file g r oe Q :
  shifted (holding 1 g) r0 r -> (forall r', shifted (holding 0 g) r0 r' -> Q (Ok tt) (starting r' oe)) ->
  btrip (W := W) (dec_file i j) (starting r oe) Q.
Proof.
  intros Hs HQ. destruct (holding_counts 1 g) as [E1 E2].
  apply (w_shift_file _ _ _ (-1) _ Hs); rewrite ?holding_file, ?Nat.eqb_refl; try lia.
  intros r' Hs'. apply HQ. eapply shifted_holding; [exact Hs'|done|done|..]; intros x; simpl;
    rewrite ?holding_file, ?holding_buffer; [|done]. by destruct (x =? j)%nat.
Qed.

Lemma w_inc_buffer f r oe Q :
  shifted (holding f 0) r0 r -> (forall r', shifted (holding f 1) r0 r' -> Q (Ok tt) (starting r' oe)) ->
  btrip (W := W) (inc_buffer i bj) (starting r oe) Q.
Proof.
  intros Hs HQ. destruct (holding_counts f 0) as [E1 E2]. unfold inc_buffer.
  pose proof (holding_buffer f 0) as Eb. case_eq bj; [intros x Ex|intros Ex]; rewrite Ex in Eb.
  - apply (w_shift_buffer _ _ _ x 1 _ Hs Ex); [lia|rewrite Eb, Nat.eqb_refl; lia|].
    intros r' Hs'. apply HQ. eapply shifted_holding; [exact Hs'|done|done|..]; intros y; simpl.
    + by rewrite holding_file.
    + rewrite Ex, !Eb, Nat.eqb_refl. by destruct (y =? x)%nat.
  - apply btrip_ret, HQ. eapply shifted_holding; [exact Hs|done|done|..]; intros y.
    + by rewrite holding_file.
    + by rewrite Ex, Eb.
Qed.

Lemma w_dec_buffer f r oe Q :
  shifted (holding f 1) r0 r -> (forall r', shifted (holding f 0) r0 r' -> Q (Ok tt) (starting r' oe)) ->
  btrip (W := W) (dec_buffer i bj) (starting r oe) Q.
Proof.
  intros Hs HQ. destruct (holding_counts f 1) as [E1 E2]. unfold dec_buffer.
  pose proof (holding_buffer f 1) as Eb. case_eq bj; [intros x Ex|intros Ex]; rewrite Ex in Eb.
  - apply (w_shift_buffer _ _ _ x (-1) _ Hs Ex); [lia|rewrite Eb, Nat.eqb_refl; lia|].
    intros r' Hs'. apply HQ. eapply shifted_holding; [exact Hs'|done|done|..]; intros y; simpl.
    + by rewrite holding_file.
    + rewrite Ex, !Eb, Nat.eqb_refl. by destruct (y =? x)%nat.
  - apply btrip_ret, HQ. eapply shifted_holding; [exact Hs|done|done|..]; intros y.
    + by rewrite holding_file.
    + by rewrite Ex, Eb.
Qed.

(** The references are those of the task's entry. *)
Lemma holding_entry r :
  shifted (holding 1 1) r0 r ->
  shifted (delta_of i (Some (new_entry rt c i (Z.of_nat j) buffer_index (-1)))) r0 r.
Proof.
  intros Hs. destruct (holding_counts 1 1) as [E1 E2].
  eapply shifted_ext; [exact Hs|done|done|..]; intros x; rewrite ?holding_file, ?holding_buffer.
  - revert x. refs_tac.
  - unfold buffer_index. destruct bj as [y|]; revert x; refs_tac.
Qed.

Lemma holding_nothing r : shifted (holding 0 0) r0 r <-> shifted zero_delta r0 r.
Proof.
  destruct (holding_counts 0 0) as [E1 E2].
  split; intros Hs; (eapply shifted_ext; [exact Hs|done|done|..]); intros x;
    rewrite ?holding_file, ?holding_buffer; simpl; try destruct bj; by try destruct (_ =? _)%nat.
Qed.

(** What an accept needs on top: a second file slot for the new descriptor. *)
Abbreviation e1 := (new_entry rt c i (Z.of_nat j) buffer_index (-1)).

Lemma reserve_result_spec r :
  shifted (holding 1 1) r0 r ->
  btrip (W := W) (reserve_result i k) (starting r (Some e1))
    (fun o b' =>
       match o with
       | Ok _ => exists j2 rid r1,
           b' = starting (put_file j2 (reserved_file_slot rid) r1)
                  (Some (new_entry rt c i (Z.of_nat j) buffer_index (Z.of_nat j2))) /\
           j2 <> j /\ Z.of_nat j2 < file_slot_limit r0 /\ shifted (holding 1 1) r0 r1 /\
           (forall s, file_resources r0 !! j2 = Some s -> rs_in_flight s = 0)
       | Err _ => exists r', b' = starting r' (Some e1) /\ shifted (holding 1 1) r0 r'
       end).
Proof.
  intros Hs. pose proof client_slot_lt as Hi. pose proof (slot_lt k Hfind) as Hk.
  unfold reserve_result. apply btrip_bind, w_get_client; [done..|]. intros x -> _ _.
  destruct (iouringd_find_free_file_slot r) as [j2|] eqn:Ef; [|apply btrip_fail; by eexists].
  apply find_free_file_slot_Some in Ef as (s & Es & Hj2 & _ & _ & H0).
  rewrite (sh_file_limit _ _ _ Hs) in Hj2.
  pose proof (to_file_limit _ res_table) as Hl.
  destruct (lookup_lt_is_Some_2 (file_resources r0) j2) as [s0 Es0].
  { rewrite (to_files _ res_table). lia. }
  pose proof (sh_file _ _ _ Hs _ _ _ Es0 Es) as Ec. rewrite holding_file in Ec.
  destruct (file_count b Hb i Hi j2 ltac:(lia)) as [_ Hbd].
  rewrite (list_lookup_total_correct _ _ _ Es0) in Hbd.
  assert (Hne : j2 <> j) by (intros ->; rewrite Nat.eqb_refl in Ec; lia).
  apply btrip_bind, btrip_allocate. cbv zeta. rewrite work_res, work_set_res by done.
  pose proof (shifted_allocate _ _ _ Hs) as Ha.
  destruct (iouringd_allocate_resource_id r) as [rid r1]. cbn [fst snd] in *.
  destruct (_ =? _); [apply btrip_fail; by eexists|].
  apply btrip_bind, w_set_file; [done..|]. apply w_mod_task; [done..|]. intros t Ht.
  exists j2, rid, r1. split_and!; try done; [|lia|].
  - unfold entry_of in Ht. destruct (t_active t) eqn:Eat; [|done]. unfold entry_of. simpl. rewrite Eat.
    by injection Ht as -> -> -> -> -> -> -> _.
  - intros s' Es'. rewrite Es0 in Es'. injection Es' as <-.
    rewrite (proj2 (Nat.eqb_neq _ _) Hne) in Ec. lia.
Qed.
Context (Hacc : req_kind c = IOURINGD_TASK_KIND_ACCEPT -> bj = None).
Context (Hcr : uses_credit c = true).

(** The undo of a failed submission, for the kinds without a result slot. *)
Lemma undo_submit_spec r :
  req_kind c <> IOURINGD_TASK_KIND_ACCEPT -> shifted (holding 1 1) r0 r ->
  btrip (W := W) (undo_submit_io i k j bj) (starting r (Some e1))
    (fun o b' => match o with
                 | Ok _ => exists r', b' = starting r' (Some e1) /\ shifted zero_delta r0 r'
                 | Err _ => True
                 end).
Proof.
  intros Hkind Hs. pose proof (slot_lt k Hfind) as Hk. unfold undo_submit_io.
  apply btrip_bind, w_get_task; [done|]. intros t Ht.
  assert (Et : t_task_kind t = req_kind c).
  { unfold entry_of in Ht. destruct (t_active t); [|done]. by injection Ht. }
  rewrite Et, (proj2 (Z.eqb_neq _ _) Hkind).
  apply btrip_bind, (w_dec_file 1); [done|]. intros r1 H1.
  apply (w_dec_buffer 0); [done|]. intros r2 H2. exists r2. split; [done|]. by apply holding_nothing.
Qed.

(** The undo of a failed accept frees the slot reserved for its result. *)
Lemma undo_accept_spec r1 rid j2 :
  req_kind c = IOURINGD_TASK_KIND_ACCEPT -> j2 <> j -> shifted (holding 1 1) r0 r1 ->
  (forall s, file_resources r0 !! j2 = Some s -> rs_in_flight s = 0) ->
  let e2 := new_entry rt c i (Z.of_nat j) buffer_index (Z.of_nat j2) in
  btrip (W := W) (undo_submit_io i k j bj) (starting (put_file j2 (reserved_file_slot rid) r1) (Some e2))
    (fun o b' => match o with
                 | Ok _ => exists r', b' = starting r' (Some e2) /\ shifted zero_delta r0 r'
                 | Err _ => True
                 end).
Proof.
  intros Hkind Hne Hs H0 e2. pose proof (slot_lt k Hfind) as Hk. pose proof client_slot_lt as Hi.
  unfold undo_submit_io. apply btrip_bind, w_get_task; [done|]. intros t Ht.
  assert (Et : t_task_kind t = req_kind c /\ t_result_file_slot_index t = Z.of_nat j2).
  { unfold entry_of in Ht. destruct (t_active t); [|done]. by injection Ht. }
  destruct Et as [-> ->]. rewrite Hkind, Z.eqb_refl, Nat2Z.id.
  assert (H1 : shifted (at_file j2 1 (holding 1 1)) r0 (put_file j2 (reserved_file_slot rid) r1)).
  { apply shifted_file; [done|]. intros s Es. by rewrite (H0 s Es). }
  apply btrip_bind. apply (w_shift_file _ _ _ (-1) _ H1); simpl;
    rewrite ?(proj2 (Nat.eqb_neq j j2)), ?holding_file, ?Nat.eqb_refl by congruence; try lia.
  intros r2 H2. apply btrip_bind, w_drop_result; [done..|]. unfold unallocate_id.
  apply w_set_res; [done|]. eexists. split; [reflexivity|]. apply shifted_unallocate.
  destruct (holding_counts 1 1) as [E1 E2].
  eapply shifted_ext; [apply (shifted_file _ _ _ _ _ 0 H2); intros s Es|done|done|..].
  - by rewrite (H0 s Es).
  - intros x. simpl. rewrite holding_file. by destruct (x =? j2)%nat, (x =? j)%nat.
  - intros x. simpl. rewrite holding_buffer. by rewrite (Hacc Hkind).
Qed.

Lemma buffer_index_range : -1 <= buffer_index < buffer_slot_limit r0.
Proof.
  pose proof (to_buffer_limit _ res_table) as Hl. unfold buffer_index.
  case_eq bj; [intros x Ex; pose proof (Hbj x Ex)|intros Ex]; lia.
Qed.

Lemma start_io_ends : btrip (W := W) (start_io i rt c k j bj) b (ends b).
Proof.
  pose proof (slot_lt k Hfind) as Hk. pose proof client_slot_lt as Hi. pose proof res_table as Ht.
  pose proof buffer_index_range as Hbi. unfold start_io.
  rewrite (starting_id k Hfind) at 1. apply btrip_bind, w_mod_task; [done|]. intros x _.
  change (entry_of _) with (Some e1).
  apply btrip_bind, (w_inc_file 0); [by apply holding_nothing, shifted_refl|]. intros r1 H1.
  apply btrip_bind, (w_inc_buffer 1); [done|]. intros r2 H2. apply btrip_bind, btrip_try.
  destruct (Z.eqb_spec (req_kind c) IOURINGD_TASK_KIND_ACCEPT) as [Hkind|Hkind].
  - eapply btrip_weaken; [by apply reserve_result_spec|]. intros [[]|e0] b'.
    + intros (j2 & rid & r3 & -> & Hne & Hj2 & H3 & H0).
      apply btrip_bind, btrip_try, btrip_keeps; [auto with keeps|]. intros [[]|e0].
      * rewrite <- Hcr. apply accept_new; try done; try lia.
        eapply shifted_ext; [apply (shifted_file _ _ _ _ _ 1 H3); intros s Es|
          apply holding_counts|apply holding_counts|..].
        -- by rewrite (H0 s Es).
        -- intros y. cbn [at_file d_file]. rewrite holding_file. revert y. refs_tac.
        -- intros y. cbn [at_file d_buffer]. rewrite holding_buffer, (Hacc Hkind).
           unfold buffer_index. rewrite (Hacc Hkind). revert y. refs_tac.
      * apply abandon_new; try done. by apply undo_accept_spec.
    + intros (r3 & -> & H3). apply abandon_new; try done.
      apply (w_dec_file 1); [done|]. intros r4 H4. exists r4. split; [done|].
      apply holding_nothing. eapply shifted_holding; [exact H4|apply holding_counts|apply holding_counts|..]; intros y.
      * by rewrite holding_file.
      * rewrite holding_buffer. by rewrite (Hacc Hkind).
  - apply btrip_ret. apply btrip_bind, btrip_try, btrip_keeps; [auto with keeps|]. intros [[]|e0].
    + rewrite <- Hcr. apply accept_new; try done; try lia. by apply holding_entry.
    + apply abandon_new; try done. by apply undo_submit_spec.
Qed.
End Io.
Lemma io_buffer_slot_spec bj :
  io_buffer_slot c = Ok bj ->
  (forall x, bj = Some x -> Z.of_nat x < buffer_slot_limit (c_res c)) /\
  (req_kind c = IOURINGD_TASK_KIND_ACCEPT -> bj = None).
Proof.
  unfold io_buffer_slot. intros E. destruct (_ || _) eqn:Ek.
  - destruct (iouringd_find_buffer_slot _ _) as [x|] eqn:Ef; [|done].
    apply find_buffer_slot_Some in Ef as (s & Es & Hx & _).
    split_ifs. injection E as <-. split; [intros y [= <-]; lia|].
    intros E. rewrite E in Ek. done.
  - injection E as <-. by split.
Qed.

Lemma dispatch_io_ends :
  uses_credit c = true -> btrip (W := W) (dispatch_io i rt c) b (ends b).
Proof.
  intros Hcr. unfold dispatch_io. destruct (client_facts _ _ _ Hc) as (Er & _). rewrite Er.
  destruct (iouringd_find_file_slot _ _) as [j|] eqn:Hj; [|apply ends_keeps; auto with keeps].
  destruct (used_slot_count _ j Hj) as (Hjl & _).
  apply btrip_bind, btrip_get_file_slot.
  destruct (rs_closing _); [apply ends_keeps; auto with keeps|].
  do 2 (destruct (_ && _); [apply ends_keeps; auto with keeps|]).
  destruct (io_buffer_slot c) as [bj|e] eqn:Eb; [|apply ends_keeps; auto with keeps].
  apply io_buffer_slot_spec in Eb as [Hbj Hacc]. rewrite Er in Hbj.
  destruct (_ <=? _) eqn:Hroom; [apply ends_keeps; auto with keeps|].
  destruct (iouringd_find_free_task_slot rt) as [k|] eqn:Hf; [|apply ends_keeps; auto with keeps].
  by apply start_io_ends.
Qed.

Lemma dispatch_task_ends : btrip (W := W) (dispatch_task i rt c) b (ends b).
Proof.
  assert (Hcr : req_kind c <> IOURINGD_TASK_KIND_CANCEL -> uses_credit c = true).
  { intros Hk. unfold uses_credit. by rewrite (proj2 (Z.eqb_neq _ _) Hk). }
  unfold dispatch_task.
  destruct (Z.eqb_spec (req_kind c) IOURINGD_TASK_KIND_OPENAT) as [E|_].
  { apply dispatch_openat_ends, Hcr. by rewrite E. }
  destruct (Z.eqb_spec (req_kind c) IOURINGD_TASK_KIND_CLOSE) as [E|_].
  { apply dispatch_close_ends, Hcr. by rewrite E. }
  destruct (kind_is_io (req_kind c)) eqn:E; [|apply dispatch_simple_ends].
  apply dispatch_io_ends, Hcr. intros E'. by rewrite E' in E.
Qed.
End Tasks.

(** ** Requests about resources *)

Section Requests.
Context {W : Type} `{Kernel W}.
Context (i : nat).

(** A file or buffer slot without references can be changed, as long as it stays
    without. *)
Lemma shifted_put_file r j s' :
  table_ok r -> (forall s, file_resources r !! j = Some s -> rs_in_flight s' = rs_in_flight s) ->
  shifted zero_delta r (put_file j s' r).
Proof.
  intros Ht Hs. eapply shifted_ext;
    [apply (shifted_file _ _ _ _ _ 0 (shifted_refl _ Ht)); intros s Es; rewrite (Hs s Es); lia|done|done|..];
    intros x; simpl; by try destruct (_ =? _)%nat.
Qed.

Lemma shifted_put_buffer r j s' :
  table_ok r -> (forall s, buffer_resources r !! j = Some s -> bs_in_flight s' = bs_in_flight s) ->
  shifted zero_delta r (put_buffer j s' r).
Proof.
  intros Ht Hs. eapply shifted_ext;
    [apply (shifted_buffer _ _ _ _ _ 0 (shifted_refl _ Ht)); intros s Es; rewrite (Hs s Es); lia|done|done|..];
    intros x; simpl; by try destruct (_ =? _)%nat.
Qed.
(** A handler of client slot [i]: it keeps the books whatever they are. *)
Definition sound {A} (m : DM (W := W) A) : Prop :=
  forall b, books_ok b -> Z.of_nat i < max_clients (b_limits b) -> btrip m b (ends b).

Lemma live_slot_lt b :
  books_ok b -> Z.of_nat i < max_clients (b_limits b) -> (i < length (b_accounts b))%nat.
Proof.
  intros Hb Hl. rewrite (bo_accounts_len _ Hb). destruct (bo_limits _ Hb) as [Hm _].
  unfold IOURINGD_MAX_CLIENTS in *. lia.
Qed.

Lemma btrip_ends_trans {A} (m : DM (W := W) A) b0 b :
  btrip m b (ends b) -> same_config b0 b -> btrip m b (ends b0).
Proof.
  intros Hm Hc. eapply btrip_weaken; [exact Hm|]. intros [a|e] b'; [|done]. intros [? ?].
  split; [done|]. by eapply same_config_trans.
Qed.

Lemma sound_keeps {A} (m : DM (W := W) A) : keeps m -> sound m.
Proof. intros Hm b Hb _. apply btrip_keeps; [done|]. intros [a|e]; [|done]. by split. Qed.

Lemma sound_bind {A B} (m : DM (W := W) A) (f : A -> DM (W := W) B) :
  sound m -> (forall a, sound (f a)) -> sound (mbnd m f).
Proof.
  intros Hm Hf b Hb Hl. apply btrip_bind. eapply btrip_weaken; [by apply Hm|].
  intros [a|e] b'; [|done]. intros [Hb' Hc]. eapply btrip_ends_trans; [|exact Hc].
  apply Hf; [done|]. by rewrite (sc_limits _ _ Hc).
Qed.

Lemma sound_step {A B} (m : DM (W := W) A) (f : A -> DM (W := W) B) :
  keeps m -> (forall a, sound (f a)) -> sound (mbnd m f).
Proof. intros Hm Hf. apply sound_bind; [by apply sound_keeps|done]. Qed.

(** The table may be replaced by one that counts the same. *)
Lemma btrip_table {A} r b (m : DM (W := W) A) :
  books_ok b -> Z.of_nat i < max_clients (b_limits b) -> shifted zero_delta (res_of b i) r ->
  sound m -> btrip m (set_account_res i r b) (ends b).
Proof.
  intros Hb Hl Hs Hm. pose proof (live_slot_lt b Hb Hl) as Hi.
  destruct (books_table b i r Hb Hi Hs) as [Hb' Hc]. eapply btrip_ends_trans; [|exact Hc].
  apply Hm; [done|]. by rewrite (sc_limits _ _ Hc).
Qed.

Lemma live_table b : books_ok b -> Z.of_nat i < max_clients (b_limits b) -> table_ok (res_of b i).
Proof. intros Hb Hl. apply (res_account b Hb i). by apply live_slot_lt. Qed.

Lemma sound_clear_file j :
  forall b, books_ok b -> Z.of_nat i < max_clients (b_limits b) ->
  rs_in_flight (file_resources (res_of b i) !!! j) = 0 ->
  btrip (W := W) (clear_file_slot i j) b (ends b).
Proof.
  intros b Hb Hl H0. unfold clear_file_slot. apply btrip_bind, btrip_get_file_slot, btrip_bind.
  apply btrip_close_fds. unfold set_file_slot. apply btrip_set_res.
  apply (books_table b i); [done|by apply live_slot_lt|]. apply shifted_put_file; [by apply live_table|].
  intros s Es. rewrite (list_lookup_total_correct _ _ _ Es) in H0. by rewrite H0.
Qed.

Lemma sound_release_file j : sound (iouringd_try_release_file_slot i j).
Proof.
  intros b Hb Hl. unfold iouringd_try_release_file_slot. apply btrip_bind, btrip_get_client.
  intros c Hc. destruct (_ <=? _); [by apply btrip_fail|].
  apply btrip_bind, btrip_get_file_slot. destruct (negb (rs_registered _)).
  - destruct (Z.eqb_spec (rs_in_flight (file_resources (res_of b i) !!! j)) 0);
      [by apply sound_clear_file|by apply btrip_ret].
  - destruct (_ || _) eqn:E; [by apply btrip_ret|]. bool_hyps.
    apply btrip_bind, btrip_get_rt. intros rt _. apply btrip_bind, btrip_keeps; [auto with keeps|].
    intros [[]|e]; [|done]. by apply sound_clear_file.
Qed.

Lemma sound_set_buffer j f :
  forall b, books_ok b -> Z.of_nat i < max_clients (b_limits b) ->
  (let s := buffer_resources (res_of b i) !!! j in bs_in_flight (f s) = bs_in_flight s) ->
  btrip (W := W) (set_buffer_slot i j f) b (ends b).
Proof.
  intros b Hb Hl Hf. unfold set_buffer_slot. apply btrip_set_res.
  apply (books_table b i); [done|by apply live_slot_lt|].
  apply shifted_put_buffer; [by apply live_table|].
  intros s Es. cbv zeta in Hf. by rewrite (list_lookup_total_correct _ _ _ Es) in *.
Qed.

Lemma sound_release_buffer j : sound (iouringd_try_release_buffer_slot i j).
Proof.
  intros b Hb Hl. unfold iouringd_try_release_buffer_slot. apply btrip_bind, btrip_get_client.
  intros c Hc. destruct (_ <=? _); [by apply btrip_fail|].
  apply btrip_bind, btrip_get_buffer_slot. destruct (negb (bs_registered _)).
  - destruct (Z.eqb_spec (bs_in_flight (buffer_resources (res_of b i) !!! j)) 0);
      [by apply sound_set_buffer|by apply btrip_ret].
  - destruct (_ || _) eqn:E; [by apply btrip_ret|]. bool_hyps. by apply sound_set_buffer.
Qed.
Lemma sound_set_file j f :
  forall b, books_ok b -> Z.of_nat i < max_clients (b_limits b) ->
  (let s := file_resources (res_of b i) !!! j in rs_in_flight (f s) = rs_in_flight s) ->
  btrip (W := W) (set_file_slot i j f) b (ends b).
Proof.
  intros b Hb Hl Hf. unfold set_file_slot. apply btrip_set_res.
  apply (books_table b i); [done|by apply live_slot_lt|].
  apply shifted_put_file; [by apply live_table|].
  intros s Es. cbv zeta in Hf. by rewrite (list_lookup_total_correct _ _ _ Es) in *.
Qed.

(** A step whose effect on the books is known to be sound, then sound ones. *)
Lemma btrip_then {A B} (m : DM (W := W) A) (f : A -> DM (W := W) B) b :
  btrip m b (ends b) -> Z.of_nat i < max_clients (b_limits b) -> (forall a, sound (f a)) ->
  btrip (mbnd m f) b (ends b).
Proof.
  intros Hm Hl Hf. apply btrip_bind. eapply btrip_weaken; [exact Hm|].
  intros [a|e] b'; [|done]. intros [Hb' Hc]. eapply btrip_ends_trans; [|exact Hc].
  apply Hf; [done|]. by rewrite (sc_limits _ _ Hc).
Qed.

(** What a registration finds after it has allocated an id. *)
Lemma allocated b r1 :
  books_ok b -> Z.of_nat i < max_clients (b_limits b) ->
  r1 = snd (iouringd_allocate_resource_id (res_of b i)) ->
  let b1 := set_account_res i r1 b in
  books_ok b1 /\ same_config b b1 /\ Z.of_nat i < max_clients (b_limits b1) /\
  file_resources (res_of b1 i) = file_resources (res_of b i) /\
  buffer_resources (res_of b1 i) = buffer_resources (res_of b i).
Proof.
  intros Hb Hl -> b1. pose proof (live_slot_lt b Hb Hl) as Hi.
  destruct (books_table b i _ Hb Hi (shifted_allocate _ _ _ (shifted_refl _ (live_table b Hb Hl))))
    as [Hb' Hc].
  assert (E : res_of b1 i = snd (iouringd_allocate_resource_id (res_of b i))).
  { unfold res_of at 1, b1, set_account_res, set_account. simpl. by rewrite insert_total_eq. }
  split_and!; try done; rewrite E; unfold iouringd_allocate_resource_id;
    edestruct allocate_loop_next as [v ->]; done.
Qed.

Lemma sound_register_fd : sound (dispatch_register_fd i).
Proof.
  intros b Hb Hl. unfold dispatch_register_fd. apply btrip_bind, btrip_get_client. intros c Hc.
  destruct (client_facts _ _ _ Hc) as (-> & _).
  destruct (_ <? _); [by apply sound_keeps; auto with keeps|].
  destruct (iouringd_find_free_file_slot _) as [j|] eqn:Ef; [|apply sound_keeps; [keeps_tac|done..]].
  apply find_free_file_slot_Some in Ef as (s & Es & _ & _ & _ & H0).
  apply btrip_bind, btrip_allocate. cbv zeta.
  destruct (allocated b _ Hb Hl eq_refl) as (Hb1 & Hc1 & Hl1 & E1 & _).
  eapply btrip_ends_trans; [|exact Hc1].
  destruct (_ =? _); [apply sound_keeps; [keeps_tac|done..]|].
  apply btrip_bind, btrip_get_rt. intros rt _.
  apply btrip_bind, btrip_try, btrip_keeps; [auto with keeps|].
  intros [[]|e]; [|apply sound_keeps; [keeps_tac|done..]].
  apply btrip_then; [|done|intros _; apply sound_keeps; keeps_tac].
  apply sound_set_file; [done..|]. cbv zeta. rewrite E1, (list_lookup_total_correct _ _ _ Es). done.
Qed.

Lemma sound_register_buffer : sound (dispatch_register_buffer i).
Proof.
  intros b Hb Hl. unfold dispatch_register_buffer. apply btrip_bind, btrip_get_client. intros c Hc.
  destruct (client_facts _ _ _ Hc) as (-> & _).
  destruct (iouringd_find_free_buffer_slot _) as [j|] eqn:Ef; [|apply sound_keeps; [keeps_tac|done..]].
  apply find_free_buffer_slot_Some in Ef as (s & Es & _ & _ & _ & H0).
  apply btrip_bind, btrip_allocate. cbv zeta.
  destruct (allocated b _ Hb Hl eq_refl) as (Hb1 & Hc1 & Hl1 & _ & E1).
  eapply btrip_ends_trans; [|exact Hc1].
  destruct (_ =? _); [apply sound_keeps; [keeps_tac|done..]|].
  apply btrip_bind, btrip_keeps; [keeps_tac|]. intros [[]|e]; [|done].
  apply btrip_then; [|done|intros _; apply sound_keeps; keeps_tac].
  apply sound_set_buffer; [done..|]. cbv zeta. rewrite E1, (list_lookup_total_correct _ _ _ Es). done.
Qed.

Lemma sound_release : sound (dispatch_release i).
Proof.
  intros b Hb Hl. unfold dispatch_release. apply btrip_bind, btrip_get_client. intros c _.
  destruct (_ =? _); [apply sound_keeps; [keeps_tac|done..]|].
  destruct (iouringd_find_file_slot _ _) as [j|].
  { apply btrip_bind, btrip_get_file_slot.
    destruct (negb _); [apply sound_keeps; [keeps_tac|done..]|].
    apply btrip_then; [by apply sound_set_file|done|]. intros _.
    apply sound_bind; [apply sound_release_file|]. intros _. apply sound_keeps. keeps_tac. }
  destruct (iouringd_find_buffer_slot _ _) as [j|]; [|apply sound_keeps; [keeps_tac|done..]].
  apply btrip_bind, btrip_get_buffer_slot.
  destruct (negb _); [apply sound_keeps; [keeps_tac|done..]|].
  apply btrip_then; [by apply sound_set_buffer|done|]. intros _.
  apply sound_bind; [apply sound_release_buffer|]. intros _. apply sound_keeps. keeps_tac.
Qed.

(** The guard against the per-client limit. *)
Lemma guards_quota rt c :
  submit_guards rt c = None -> uses_credit c = true ->
  outstanding_credit_tasks (c_res c) < rt_per_client_credit_limit rt.
Proof.
  unfold submit_guards, credit_guards. intros E Eu. rewrite Eu in E. simpl in E. split_ifs; bool_hyps; lia.
Qed.

Lemma sound_dispatch : sound (iouringd_dispatch_client_request i).
Proof.
  intros b Hb Hl. unfold iouringd_dispatch_client_request. apply btrip_bind, btrip_get_client.
  intros c Hc. cbv zeta. destruct (negb _); [by apply btrip_ret|].
  destruct (_ =? _); [by apply sound_register_fd|].
  destruct (_ =? _); [by apply sound_register_buffer|].
  destruct (_ =? _); [by apply sound_release|].
  destruct (_ =? _); [apply sound_keeps; [keeps_tac|done..]|].
  destruct (_ =? _); [apply sound_keeps; [keeps_tac|done..]|].
  apply btrip_bind, btrip_get_rt. intros rt Hrt.
  destruct (submit_guards rt c) eqn:Eg; [apply sound_keeps; [auto with keeps|done..]|].
  rewrite <- Hrt in *. apply dispatch_task_ends; [done..|]. intros Hu.
  pose proof (guards_quota _ _ Eg Hu). by destruct (client_facts _ _ _ Hc) as (<- & _).
Qed.
End Requests.
