(* ===== verification/Settle.v ===== *)
(** * Completing a task keeps the books

    [iouringd_complete_task] takes back every reference and every count of the
    task it completes, and nothing else; with it the reaping of completions and
    the sweep of closing resources keep the books in balance. *)

From S2P Require Import Prelude Wire Kernel Ring State Output Resources Trace Daemon Input Dispatch Complete Books Ledger Work Accounting.

Section Settle.
Context {W : Type} `{Kernel W}.
Context (b : books) (k : nat) (e : entry).
Context (Hb : books_ok b) (He : b_entries b !! k = Some (Some e)).
Abbreviation i := (e_client e).
Abbreviation r0 := (res_of b i).
Abbreviation settling r := (work b k i (b_tasks b) (b_credits b) (b_next_id b) r (Some e)).

Lemma settle_live : Z.of_nat i < max_clients (b_limits b).
Proof. by apply (bo_place _ Hb k e). Qed.
Lemma settle_slot : (k < length (b_entries b))%nat.
Proof. by eapply lookup_lt_Some. Qed.
Lemma settle_client : (i < length (b_accounts b))%nat.
Proof. apply live_slot_lt; [done|apply settle_live]. Qed.
Lemma settle_table : table_ok r0.
Proof. apply live_table; [done|apply settle_live]. Qed.
Lemma settle_entry : entry_ok (b_next_id b) (b_accounts b !!! i) e.
Proof. eapply (bo_entry _ Hb); [exact He|]. apply lookup_total_lt, settle_client. Qed.

(** The references taken back so far: of the file, the result and the buffer. *)
Definition dropping (f h g : bool) : delta :=
  mk_delta 0 0
    (fun x => - Z.b2z (f && (e_file e =? Z.of_nat x)) - Z.b2z (h && (e_result e =? Z.of_nat x)))
    (fun x => - Z.b2z (g && (e_buffer e =? Z.of_nat x))).

(** A slot that keeps its count may change otherwise. *)
Lemma shifted_same_file d r j s' :
  shifted d r0 r -> rs_in_flight s' = rs_in_flight (file_resources r !!! j) ->
  shifted d r0 (put_file j s' r).
Proof.
  intros Hs E. eapply shifted_ext;
    [apply (shifted_file _ _ _ j s' (d_file d j) Hs)|done|done|..]; intros x.
  - intros Es. rewrite E, (shifted_file_total _ _ _ _ Hs settle_table).
    + by rewrite (list_lookup_total_correct _ _ _ Es).
    + apply lookup_lt_Some in Es. by rewrite (to_files _ settle_table) in Es.
  - simpl. by destruct (Nat.eqb_spec x j) as [->|].
  - done.
Qed.

Lemma shifted_same_buffer d r j s' :
  shifted d r0 r -> bs_in_flight s' = bs_in_flight (buffer_resources r !!! j) ->
  shifted d r0 (put_buffer j s' r).
Proof.
  intros Hs E. eapply shifted_ext;
    [apply (shifted_buffer _ _ _ j s' (d_buffer d j) Hs)|done|done|..]; intros x.
  - intros Es. rewrite E, (shifted_buffer_total _ _ _ _ Hs settle_table).
    + by rewrite (list_lookup_total_correct _ _ _ Es).
    + apply lookup_lt_Some in Es. by rewrite (to_buffers _ settle_table) in Es.
  - done.
  - simpl. by destruct (Nat.eqb_spec x j) as [->|].
Qed.

(** [m] may change the table, but not its counts, and may fail. *)
Definition neutral {A} (m : DM (W := W) A) : Prop :=
  forall d r, shifted d r0 r ->
  btrip m (settling r)
    (fun o b' => match o with
                 | Ok _ => exists r', b' = settling r' /\ shifted d r0 r'
                 | Err _ => True
                 end).

Lemma neutral_keeps {A} (m : DM (W := W) A) : keeps m -> neutral m.
Proof. intros Hm d r Hs. apply btrip_keeps; [done|]. intros [a|x]; [by eexists|done]. Qed.

Lemma neutral_bind {A B} (m : DM (W := W) A) (f : A -> DM (W := W) B) :
  neutral m -> (forall a, neutral (f a)) -> neutral (mbnd m f).
Proof.
  intros Hm Hf d r Hs. apply btrip_bind. eapply btrip_weaken; [by apply Hm|].
  intros [a|x] b'; [|done]. intros (r' & -> & Hs'). by apply Hf.
Qed.

Lemma neutral_set_file j f :
  (forall s, rs_in_flight (f s) = rs_in_flight s) -> neutral (set_file_slot i j f).
Proof.
  intros Hf d r Hs. apply w_set_file; [apply settle_client|]. eexists. split; [reflexivity|].
  by apply shifted_same_file.
Qed.

Lemma neutral_set_buffer j f :
  (forall s, bs_in_flight (f s) = bs_in_flight s) -> neutral (set_buffer_slot i j f).
Proof.
  intros Hf d r Hs. apply w_set_buffer; [apply settle_client|]. eexists. split; [reflexivity|].
  by apply shifted_same_buffer.
Qed.

Lemma neutral_release_file j : neutral (iouringd_try_release_file_slot i j).
Proof.
  intros d r Hs. pose proof settle_client as Hi. unfold iouringd_try_release_file_slot.
  apply btrip_bind, w_get_client; [done|]. intros c -> _ _. destruct (_ <=? _); [by apply btrip_fail|].
  apply btrip_bind, w_get_file_slot; [done|]. destruct (negb (rs_registered _)).
  - destruct (Z.eqb_spec (rs_in_flight (file_resources r !!! j)) 0) as [E|]; [|by apply btrip_ret; eexists].
    apply w_clear_file; [done|]. eexists. split; [reflexivity|]. by apply shifted_same_file.
  - destruct (_ || _) eqn:E; [by apply btrip_ret; eexists|]. bool_hyps.
    apply btrip_bind, btrip_get_rt. intros rt _. apply btrip_bind, btrip_keeps; [auto with keeps|].
    intros [[]|x]; [|done].
    apply w_clear_file; [done|]. eexists. split; [reflexivity|]. by apply shifted_same_file.
Qed.

Lemma neutral_release_buffer j : neutral (iouringd_try_release_buffer_slot i j).
Proof.
  intros d r Hs. pose proof settle_client as Hi. unfold iouringd_try_release_buffer_slot.
  apply btrip_bind, w_get_client; [done|]. intros c -> _ _. destruct (_ <=? _); [by apply btrip_fail|].
  apply btrip_bind, w_get_buffer_slot; [done|]. destruct (negb (bs_registered _)).
  - destruct (Z.eqb_spec (bs_in_flight (buffer_resources r !!! j)) 0) as [E|]; [|by apply btrip_ret; eexists].
    apply w_set_buffer; [done|]. eexists. split; [reflexivity|]. by apply shifted_same_buffer.
  - destruct (_ || _) eqn:E; [by apply btrip_ret; eexists|]. bool_hyps.
    apply w_set_buffer; [done|]. eexists. split; [reflexivity|]. by apply shifted_same_buffer.
Qed.
(** ** The task being completed *)

Context (t : task_slot) (Ht : entry_of t = Some e).

Lemma task_fields :
  t_client_index t = i /\ t_consumes_credit t = e_credit e /\
  t_client_generation t = e_generation e /\ t_file_slot_index t = e_file e /\
  t_buffer_slot_index t = e_buffer e /\ t_result_file_slot_index t = e_result e.
Proof. unfold entry_of in Ht. destruct (t_active t); [|done]. by injection Ht as <-. Qed.

Ltac neutral_tac :=
  repeat lazymatch goal with
         | |- neutral (mbnd _ _) => apply neutral_bind; [|intros ?]
         | |- neutral (match ?x with _ => _ end) => destruct x
         | |- neutral (set_file_slot _ _ _) => by apply neutral_set_file
         | |- neutral (set_buffer_slot _ _ _) => by apply neutral_set_buffer
         | |- neutral _ => solve [apply neutral_keeps; keeps_tac]
         end.

Lemma neutral_install fd : neutral (install_result t fd).
Proof. unfold install_result. destruct task_fields as (-> & _). neutral_tac. Qed.

Lemma neutral_prepare_accept x : neutral (iouringd_prepare_accept_completion t x).
Proof.
  unfold iouringd_prepare_accept_completion. cbv zeta. neutral_tac. apply neutral_install.
Qed.

Lemma neutral_prepare_openat x : neutral (iouringd_prepare_openat_completion t x).
Proof.
  unfold iouringd_prepare_openat_completion. cbv zeta. neutral_tac. apply neutral_install.
Qed.

Lemma neutral_read_payload res p : neutral (read_payload t res p).
Proof. unfold read_payload. destruct task_fields as (-> & _). cbv zeta. neutral_tac. Qed.

Lemma neutral_reply x p : neutral (completion_reply t x p).
Proof. unfold completion_reply. cbv zeta. neutral_tac. Qed.

(** *** The references *)

Lemma w_unref_file d r j Q :
  shifted d r0 r -> (j < IOURINGD_MAX_REGISTERED_FDS)%nat -> d_file d j = 0 ->
  1 <= file_refs i j (Some e) ->
  (forall r', shifted (at_file j (-1) d) r0 r' -> Q (Ok tt) (settling r')) ->
  btrip (W := W) (unref_file i j) (settling r) Q.
Proof.
  intros Hs Hj Hd Hr HQ. unfold unref_file. apply w_set_file; [apply settle_client|]. apply HQ.
  pose proof (shifted_file_total _ _ _ _ Hs settle_table Hj) as E.
  destruct (file_count b Hb i settle_client j Hj) as [Es Hbd].
  pose proof (sumz_elem_le (file_refs i j) _ k (Some e) ltac:(apply file_refs_bound) He) as Hle.
  apply shifted_file; [exact Hs|]. intros s Ej. rewrite (list_lookup_total_correct _ _ _ Ej) in *.
  rewrite Hd in E. destruct (Z.eqb_spec (rs_in_flight (file_resources r !!! j)) 0); simpl; [lia|].
  rewrite E, u32_id; lia.
Qed.

Lemma w_unref_buffer d r j Q :
  shifted d r0 r -> (j < IOURINGD_MAX_REGISTERED_BUFFERS)%nat -> d_buffer d j = 0 ->
  1 <= buffer_refs i j (Some e) ->
  (forall r', shifted (at_buffer j (-1) d) r0 r' -> Q (Ok tt) (settling r')) ->
  btrip (W := W) (unref_buffer i j) (settling r) Q.
Proof.
  intros Hs Hj Hd Hr HQ. unfold unref_buffer. apply w_set_buffer; [apply settle_client|]. apply HQ.
  pose proof (shifted_buffer_total _ _ _ _ Hs settle_table Hj) as E.
  destruct (buffer_count b Hb i settle_client j Hj) as [Es Hbd].
  pose proof (sumz_elem_le (buffer_refs i j) _ k (Some e) ltac:(apply buffer_refs_bound) He) as Hle.
  apply shifted_buffer; [exact Hs|]. intros s Ej. rewrite (list_lookup_total_correct _ _ _ Ej) in *.
  rewrite Hd in E. destruct (Z.eqb_spec (bs_in_flight (buffer_resources r !!! j)) 0); simpl; [lia|].
  rewrite E, u32_id; lia.
Qed.

(** The index test of the code, for an index the books vouch for. *)
Lemma slot_index_ok_spec index limit :
  -1 <= index < limit -> 0 <= limit <= 32 -> slot_index_ok index limit = (0 <=? index).
Proof.
  intros H1 H2. unfold slot_index_ok. rewrite i32_id by lia.
  destruct (Z.leb_spec 0 index); simpl; [|done]. apply Z.ltb_lt. lia.
Qed.

Definition drops {A} (d d' : delta) (m : DM (W := W) A) : Prop :=
  forall r, shifted d r0 r ->
  btrip m (settling r)
    (fun o b' => match o with
                 | Ok _ => exists r', b' = settling r' /\ shifted d' r0 r'
                 | Err _ => True
                 end).

Ltac drop_cases :=
  let x := fresh "x" in
  intros x; simpl;
  repeat match goal with
         | |- context [?y =? Z.of_nat x] => destruct (Z.eqb_spec y (Z.of_nat x))
         | |- context [(x =? ?y)%nat] => destruct (Nat.eqb_spec x y)
         end; simpl; rewrite ?andb_false_r, ?andb_true_r; simpl; lia || (exfalso; lia).

Lemma drops_file g :
  drops (dropping false false g) (dropping true false g) (complete_file_slot t).
Proof.
  intros r Hs. destruct task_fields as (Ei & _ & _ & Ef & _). destruct settle_entry as [_ _ R1 R2 _ R4].
  pose proof (to_file_limit _ settle_table) as Hl. change (Z.of_nat _) with 32 in Hl.
  change (a_res (b_accounts b !!! i)) with r0 in *. unfold complete_file_slot. rewrite Ei, Ef.
  apply btrip_bind, w_get_client; [apply settle_client|]. intros c -> _ _.
  rewrite (sh_file_limit _ _ _ Hs), slot_index_ok_spec by done.
  destruct (Z.leb_spec 0 (e_file e)) as [Hf|Hf].
  - apply btrip_bind, (w_unref_file (dropping false false g));
      [done|unfold IOURINGD_MAX_REGISTERED_FDS; lia|done|..].
    { simpl. rewrite Nat.eqb_refl, Z2Nat.id, Z.eqb_refl by lia. destruct (_ =? _); simpl; lia. }
    intros r1 H1. apply btrip_bind, w_get_file_slot; [apply settle_client|].
    assert (H2 : shifted (dropping true false g) r0 r1).
    { eapply shifted_ext; [exact H1|done|done|..]; drop_cases. }
    destruct (rs_closing _); [by apply neutral_release_file|by apply btrip_ret; eexists].
  - apply btrip_ret. eexists. split; [reflexivity|].
    eapply shifted_ext; [exact Hs|done|done|..]; drop_cases.
Qed.

Lemma drops_result g :
  drops (dropping true false g) (dropping true true g) (complete_result_slot t).
Proof.
  intros r Hs. destruct task_fields as (Ei & _ & _ & _ & _ & Ef).
  destruct settle_entry as [_ _ R1 R2 _ R4].
  pose proof (to_file_limit _ settle_table) as Hl. change (Z.of_nat _) with 32 in Hl.
  change (a_res (b_accounts b !!! i)) with r0 in *. unfold complete_result_slot. rewrite Ei, Ef.
  apply btrip_bind, w_get_client; [apply settle_client|]. intros c -> _ _.
  rewrite (sh_file_limit _ _ _ Hs), slot_index_ok_spec by done.
  destruct (Z.leb_spec 0 (e_result e)) as [Hf|Hf].
  - apply btrip_bind, (w_unref_file (dropping true false g));
      [done|unfold IOURINGD_MAX_REGISTERED_FDS; lia|..].
    { simpl. rewrite Z2Nat.id by lia. destruct (Z.eqb_spec (e_file e) (e_result e)); simpl; lia. }
    { simpl. rewrite Nat.eqb_refl, Z2Nat.id, Z.eqb_refl by lia. destruct (_ =? _); simpl; lia. }
    intros r1 H1. apply btrip_bind, w_get_file_slot; [apply settle_client|].
    assert (H2 : shifted (dropping true true g) r0 r1).
    { eapply shifted_ext; [exact H1|done|done|..]; drop_cases. }
    destruct (_ || _); [by apply neutral_release_file|by apply btrip_ret; eexists].
  - apply btrip_ret. eexists. split; [reflexivity|].
    eapply shifted_ext; [exact Hs|done|done|..]; drop_cases.
Qed.

Lemma drops_buffer :
  drops (dropping true true false) (dropping true true true) (complete_buffer_slot t).
Proof.
  intros r Hs. destruct task_fields as (Ei & _ & _ & _ & Ef & _).
  destruct settle_entry as [_ _ _ _ R3 _].
  pose proof (to_buffer_limit _ settle_table) as Hl. change (Z.of_nat _) with 4 in Hl.
  change (a_res (b_accounts b !!! i)) with r0 in *. unfold complete_buffer_slot. rewrite Ei, Ef.
  apply btrip_bind, w_get_client; [apply settle_client|]. intros c -> _ _.
  rewrite (sh_buffer_limit _ _ _ Hs), slot_index_ok_spec by (done || lia).
  destruct (Z.leb_spec 0 (e_buffer e)) as [Hf|Hf].
  - apply btrip_bind, (w_unref_buffer (dropping true true false));
      [done|unfold IOURINGD_MAX_REGISTERED_BUFFERS; lia|done|..].
    { simpl. by rewrite Nat.eqb_refl, Z2Nat.id, Z.eqb_refl by lia. }
    intros r1 H1. apply btrip_bind, w_get_buffer_slot; [apply settle_client|].
    assert (H2 : shifted (dropping true true true) r0 r1).
    { eapply shifted_ext; [exact H1|done|done|..]; drop_cases. }
    destruct (bs_closing _); [by apply neutral_release_buffer|by apply btrip_ret; eexists].
  - apply btrip_ret. eexists. split; [reflexivity|].
    eapply shifted_ext; [exact Hs|done|done|..]; drop_cases.
Qed.

(** *** The counters *)

(** The client's counters after a completion; they are not zero. *)
Definition uncount (credit : bool) (a : client_resources) : client_resources :=
  a <| outstanding_credit_tasks := outstanding_credit_tasks a - Z.b2z credit |>
    <| outstanding_tasks := outstanding_tasks a - 1 |>.

Lemma client_counts :
  1 <= outstanding_tasks r0 <= 64 /\ Z.b2z (e_credit e) <= outstanding_credit_tasks r0 <= 64 /\
  1 <= b_tasks b <= 64 /\ Z.b2z (e_credit e) <= b_credits b <= 64.
Proof.
  pose proof (client_tasks_bound b Hb i settle_client). pose proof (client_credits_bound b Hb i settle_client).
  pose proof (tasks_bound b Hb). pose proof (credits_bound b Hb).
  pose proof (res_account b Hb i settle_client) as Ha.
  pose proof (sumz_elem_le (for_client i) _ k (Some e) ltac:(apply for_client_bound) He) as L1.
  pose proof (sumz_elem_le (credit_for_client i) _ k (Some e) ltac:(apply credit_for_client_bound) He) as L2.
  pose proof (sumz_elem_le one _ k (Some e) ltac:(apply one_bound) He) as L3.
  pose proof (sumz_elem_le one_credit _ k (Some e) ltac:(apply one_credit_bound) He) as L4.
  rewrite <- (ao_tasks _ _ _ Ha) in L1. rewrite <- (ao_credits _ _ _ Ha) in L2.
  rewrite <- (bo_tasks _ Hb) in L3. rewrite <- (bo_credits _ Hb) in L4.
  simpl in L1, L2, L3, L4. rewrite Nat.eqb_refl in L1, L2. simpl in L1, L2. lia.
Qed.

Lemma w_complete_account d r (Q : outcome unit -> books -> Prop) :
  shifted d r0 r -> d_tasks d = 0 -> d_credits d = 0 ->
  Q (Ok tt) (work b k i (b_tasks b - 1) (b_credits b - Z.b2z (e_credit e)) (b_next_id b)
               (uncount (e_credit e) r) (Some e)) ->
  btrip (W := W) (complete_account t) (settling r) Q.
Proof.
  intros Hs Ht0 Hc0 HQ. destruct task_fields as (Ei & Ec & _). destruct client_counts as (C1 & C2 & C3 & C4).
  pose proof (sh_tasks _ _ _ Hs) as E1. pose proof (sh_credits _ _ _ Hs) as E2.
  rewrite Ht0, Z.add_0_r in E1. rewrite Hc0, Z.add_0_r in E2. pose proof settle_client as Hi.
  unfold complete_account. rewrite Ei, Ec. apply btrip_bind, btrip_get_rt. intros rt Hrt. cbv zeta.
  assert (Hl : (Z.of_nat i <? max_clients (rt_limits rt)) = true).
  { apply Z.ltb_lt. change (rt_limits rt) with (b_limits (books_of rt)). rewrite Hrt.
    apply settle_live. }
  rewrite Hl. clear rt Hrt Hl. apply btrip_bind.
  assert (Hcredit : btrip (W := W)
    (if e_credit e then
       mod_rt (fun rt => rt <| rt_outstanding_credit_tasks := u64 (rt_outstanding_credit_tasks rt - 1) |>) ;;;
       set_res i (fun a => if negb (outstanding_credit_tasks a =? 0)
                           then a <| outstanding_credit_tasks := u64 (outstanding_credit_tasks a - 1) |>
                           else a)
     else mret tt) (settling r)
    (fun o b' => o = Ok tt /\
       b' = work b k i (b_tasks b) (b_credits b - Z.b2z (e_credit e)) (b_next_id b)
              (r <| outstanding_credit_tasks := outstanding_credit_tasks r - Z.b2z (e_credit e) |>)
              (Some e))).
  { destruct (e_credit e); simpl in *.
    - apply btrip_bind, (btrip_mod_rt _ (fun x => x <| b_credits := u64 (b_credits x - 1) |>)); [done|].
      rewrite work_set_credits. apply w_set_res; [done|]. split; [done|].
      simpl. rewrite !u64_id by lia.
      destruct (Z.eqb_spec (outstanding_credit_tasks r) 0); [lia|]. done.
    - apply btrip_ret. split; [done|]. rewrite !Z.sub_0_r. by destruct r. }
  eapply btrip_weaken; [exact Hcredit|]. intros o b' [-> ->].
  apply btrip_bind, (btrip_mod_rt _ (fun x => x <| b_tasks := u64 (b_tasks x - 1) |>)); [done|].
  rewrite work_set_tasks. apply w_set_res; [done|]. simpl. rewrite E1, u64_id by lia.
  destruct (Z.eqb_spec (outstanding_tasks r0) 0); [lia|]. simpl. rewrite u64_id by lia.
  rewrite <- E1. exact HQ.
Qed.

Lemma settled r :
  shifted (dropping true true true) r0 r ->
  books_ok (work b k i (b_tasks b - 1) (b_credits b - Z.b2z (e_credit e)) (b_next_id b)
              (uncount (e_credit e) r) None).
Proof.
  intros Hs. pose proof settle_client as Hi. pose proof settle_slot as Hk.
  destruct client_counts as (C1 & C2 & C3 & C4). pose proof (quota_bound b Hb i Hi) as Hq.
  assert (H1 : shifted (at_counts (-1) (- Z.b2z (e_credit e)) (dropping true true true)) r0
                 (uncount (e_credit e) r)).
  { destruct Hs as [[T1 T2 T3 T4] H1 H2 H3 H4 H5 H6]. simpl in H3, H4.
    constructor; simpl; try done; lia. }
  pose proof (sh_credits _ _ _ Hs) as E2. simpl in E2.
  assert (Eold : b_entries b !!! k = Some e) by by apply list_lookup_total_correct.
  apply (work_ok b k i Hi Hk _ _ _ _ _ None Hb H1); rewrite ?Eold; simpl; rewrite ?Nat.eqb_refl;
    simpl; try lia; try done.
  - by intros x [= <-].
  - pose proof (bo_next _ Hb). lia.
  - destruct (e_credit e); simpl; lia.
Qed.
End Settle.

(** ** The whole completion *)

Section Reap.
Context {W : Type} `{Kernel W}.

Lemma complete_task_ends b k e res :
  books_ok b -> b_entries b !! k = Some (Some e) ->
  btrip (W := W) (iouringd_complete_task k res) b (ends b).
Proof.
  intros Hb He. pose proof (settle_slot b k e He) as Hk. pose proof (settle_client b k e Hb He) as Hi.
  pose proof (work_id b k (e_client e) Hi Hk) as Eb.
  rewrite (list_lookup_total_correct _ _ _ He) in Eb.
  rewrite Eb at 1. unfold iouringd_complete_task.
  apply btrip_bind, w_get_task; [done|]. intros t Ht.
  destruct (task_fields b k e He t Ht) as (Ei & _).
  pose proof (shifted_refl _ (settle_table b k e Hb He)) as H0.
  apply btrip_bind. eapply btrip_weaken; [eapply neutral_prepare_accept; eassumption|].
  intros [xp|x0] b1; [|done]. intros (r1 & -> & H1).
  apply btrip_bind. eapply btrip_weaken; [eapply neutral_prepare_openat; eassumption|].
  intros [x|x0] b2; [|done]. intros (r2 & -> & H2).
  apply btrip_bind, btrip_get_rt. intros rt Hrt.
  replace (Z.of_nat (t_client_index t) <? max_clients (rt_limits rt)) with true.
  2: { symmetry. apply Z.ltb_lt. change (rt_limits rt) with (b_limits (books_of rt)). rewrite Hrt, Ei.
       exact (settle_live b k e Hb He). }
  clear rt Hrt. apply btrip_bind, btrip_bind.
  eapply btrip_weaken; [eapply neutral_read_payload; eassumption|].
  intros [p|x0] b3; [|done]. intros (r3 & -> & H3).
  apply btrip_bind. eapply btrip_weaken; [eapply neutral_reply; eassumption|].
  intros [[]|x0] b4; [|done]. intros (r4 & -> & H4).
  assert (H5 : shifted (dropping e false false false) (res_of b (e_client e)) r4).
  { eapply shifted_ext; [exact H4|done|done|..]; by intros y. }
  apply btrip_bind. eapply btrip_weaken; [eapply drops_file; eassumption|].
  intros [[]|x0] b5; [|done]. intros (r5 & -> & H6).
  apply btrip_bind. eapply btrip_weaken; [eapply drops_result; eassumption|].
  intros [[]|x0] b6; [|done]. intros (r6 & -> & H7).
  eapply btrip_weaken; [eapply drops_buffer; eassumption|].
  intros [[]|x0] b7; [|done]. intros (r7 & -> & H8).
  apply btrip_bind. eapply w_complete_account; [eassumption..|done|done|].
  apply btrip_bind, btrip_get_rt. intros rt _. cbv zeta.
  apply btrip_bind, btrip_keeps; [auto with keeps|]. intros [[]|x0]; [|done].
  unfold clear_task. apply w_mod_task; [done|]. intros t' _.
  split; [|by constructor]. by eapply settled.
Qed.

(** The kernel's writes do not reach the books. *)
Lemma keeps_kernel_writes k x : keeps (W := W) (kernel_writes k x).
Proof. unfold kernel_writes. keeps_tac. Qed.

Lemma keeps_peek : keeps (W := W) peek_completion.
Proof.
  intros s r s' E. unfold peek_completion in E.
  destruct (iouringd_ring_peek_completion _ _) as [[oc r'] w]. by injection E as <- <-.
Qed.

(** The task a completion is routed to is active. *)
Lemma find_task_slot_books rt id k :
  iouringd_find_task_slot rt id = Some k ->
  exists e, b_entries (books_of rt) !! k = Some (Some e) /\ e_id e = id.
Proof.
  intros E. apply find_index_Some in E as (t & Et & Hp & _). apply lookup_take_Some in Et as [_ Et].
  bool_hyps. simpl. rewrite list_lookup_fmap, Et. simpl. unfold entry_of.
  destruct (t_active t); [|done]. eexists. by split; [|].
Qed.

(** A computation that keeps the books whatever they are. *)
Definition always {A} (m : DM (W := W) A) : Prop := forall b, books_ok b -> btrip m b (ends b).

Lemma always_keeps {A} (m : DM (W := W) A) : keeps m -> always m.
Proof. intros Hm b Hb. apply btrip_keeps; [done|]. intros [a|x]; [|done]. by split. Qed.

Lemma always_bind {A B} (m : DM (W := W) A) (f : A -> DM (W := W) B) :
  always m -> (forall a, always (f a)) -> always (mbnd m f).
Proof.
  intros Hm Hf b Hb. apply btrip_bind. eapply btrip_weaken; [by apply Hm|].
  intros [a|x] b'; [|done]. intros [Hb' Hc]. eapply btrip_ends_trans; [|exact Hc]. by apply Hf.
Qed.

Lemma always_reap fuel progress : always (reap_loop fuel progress).
Proof.
  revert progress. induction fuel as [|fuel IH]; intros progress; cbn [reap_loop].
  { apply always_keeps. keeps_tac. }
  apply always_bind; [apply always_keeps, keeps_peek|]. intros [x|]; [|apply always_keeps; keeps_tac].
  intros b Hb. apply btrip_bind, btrip_get_rt. intros rt Hrt.
  destruct (iouringd_find_task_slot rt _) as [k|] eqn:Ef; [|by apply btrip_fail].
  apply find_task_slot_books in Ef as (e & He & _). rewrite Hrt in He.
  apply btrip_bind, btrip_keeps; [apply keeps_kernel_writes|]. intros [[]|x0]; [|done].
  apply btrip_bind. eapply btrip_weaken; [by eapply complete_task_ends|].
  intros [[]|x0] b'; [|done]. intros [Hb' Hc]. eapply btrip_ends_trans; [|exact Hc]. by apply IH.
Qed.

(** ** The sweep *)

(** A loop over the client slots, each body sound for its slot. *)
Lemma for_each_ends n (body : nat -> DM (W := W) bool) b :
  books_ok b -> (forall i, (i < n)%nat -> Z.of_nat i < max_clients (b_limits b)) ->
  (forall i, sound i (body i)) -> btrip (for_each n body) b (ends b).
Proof.
  intros Hb Hn Hbody. induction n as [|n IH]; cbn [for_each]; [by apply btrip_ret|].
  apply btrip_bind. eapply btrip_weaken; [apply IH; intros i Hi; apply Hn; lia|].
  intros [p|x] b'; [|done]. intros [Hb' Hc]. eapply btrip_ends_trans; [|exact Hc].
  assert (Hl : Z.of_nat n < max_clients (b_limits b')) by (rewrite (sc_limits _ _ Hc); apply Hn; lia).
  apply (btrip_then n); [by apply Hbody|done|]. intros q. apply sound_keeps. keeps_tac.
Qed.

(** The loops of the daemon run over [max_clients] slots. *)
Lemma always_clients (body : nat -> DM (W := W) bool) :
  (forall i, sound i (body i)) ->
  always (mbnd get_rt (fun rt => for_each (Z.to_nat (max_clients (rt_limits rt))) body)).
Proof.
  intros Hbody b Hb. apply btrip_bind, btrip_get_rt. intros rt Hrt. rewrite <- Hrt in *.
  apply for_each_ends; [done| |done]. intros i Hi. simpl.
  destruct (bo_limits _ Hb) as [Hm _]. simpl in Hm. lia.
Qed.

Lemma sound_for_each i n (body : nat -> DM (W := W) bool) :
  (forall j, sound i (body j)) -> sound i (for_each n body).
Proof.
  intros Hb. induction n as [|n IH]; cbn [for_each].
  - apply sound_keeps. keeps_tac.
  - apply sound_bind; [done|]. intros p. apply sound_bind; [apply Hb|]. intros q. apply sound_keeps. keeps_tac.
Qed.

Lemma sound_sweep_client i : sound i (sweep_client i).
Proof.
  unfold sweep_client. apply sound_step; [keeps_tac|]. intros c.
  apply sound_bind; [|intros p; apply sound_bind; [|intros q; apply sound_keeps; keeps_tac]];
    apply sound_for_each; intros j; unfold sweep_file, sweep_buffer;
    (apply sound_step; [keeps_tac|]; intros s);
    (destruct (_ || _); [apply sound_keeps; keeps_tac|]);
    (apply sound_bind; [|intros _; apply sound_keeps; keeps_tac]).
  - apply sound_release_file.
  - apply sound_release_buffer.
Qed.

Lemma always_sweep : always iouringd_sweep_closing_resources.
Proof. apply always_clients, sound_sweep_client. Qed.
End Reap.
