(* ===== verification/Invariant.v ===== *)
(** * The daemon keeps its books

    Reading, flushing, opening and closing clients leave the books in balance,
    and with the handlers of [Accounting] and [Settle] so does every round of
    the main loop.  The theorems of this file say what that means for the
    daemon as a whole: from a start-up state on, as long as the main loop runs,
    every counter is exact. *)

From S2P Require Import Prelude Wire Kernel Ring State Output Resources Trace Daemon Input Dispatch Complete Sched Books Ledger Work Accounting Settle.

(** ** Reading *)

(** What reading and parsing leave alone. *)
Definition untouched (c : client) : account * outbuf * (Z * client_phase) :=
  (account_of c, c_out c, (c_io_bytes_max c, c_phase c)).
Definition same_but_input (c : client) (p : processed) : Prop := untouched (snd p) = untouched c.

Lemma finish_processed_untouched c : same_but_input c (finish_processed c).
Proof.
  unfold same_but_input, finish_processed, iouringd_finish_submit_request.
  destruct (negb _); [done|]. destruct (negb _); [done|]. destruct (_ && _); [done|].
  by destruct (finish_by_kind _ _ _ _) as [[[]|e] q'].
Qed.

Lemma need_untouched n c k :
  (forall c', untouched c' = untouched c -> same_but_input c (k c')) -> same_but_input c (need n c k).
Proof. intros Hk. unfold need. cbv zeta. destruct (_ <? _); [done|]. by apply Hk. Qed.

Lemma finish_processed_untouched' c c' :
  untouched c' = untouched c -> same_but_input c (finish_processed c').
Proof. unfold same_but_input. intros <-. apply finish_processed_untouched. Qed.

Lemma need_payload_untouched size n c c' :
  untouched c' = untouched c -> same_but_input c (need_payload size n c').
Proof.
  intros E. unfold need_payload. cbv zeta. destruct (_ <? _); [done|].
  unfold same_but_input. rewrite <- E. apply need_untouched. intros c1 E1.
  by apply finish_processed_untouched'.
Qed.

Lemma process_by_kind_untouched kind c : same_but_input c (process_by_kind kind c).
Proof.
  unfold process_by_kind, process_poll, process_connect, process_accept, process_openat, process_close,
    process_get_trace, process_register_buffer, process_write.
  repeat (match goal with |- same_but_input _ (if ?x then _ else _) => destruct x end);
    try (apply need_untouched; intros c' E;
         unfold process_connect_rest, process_openat_rest, process_register_buffer_rest,
           process_write_rest;
         try (match goal with |- same_but_input _ (if ?x then _ else _) => destruct x; [exact E|] end));
    first [by apply finish_processed_untouched' | by apply need_payload_untouched
          | apply finish_processed_untouched].
Qed.

Lemma process_submit_input_untouched c : same_but_input c (iouringd_process_submit_input c).
Proof.
  unfold iouringd_process_submit_input. destruct (_ <? _); [done|]. cbv zeta.
  destruct (negb _); [done|].
  unfold same_but_input. etransitivity; [apply process_by_kind_untouched|reflexivity].
Qed.

Section Loop.
Context {W : Type} `{Kernel W}.

Lemma read_loop_untouched fuel (w : W) c :
  let '(_, c', _, _) := read_loop fuel w c in untouched c' = untouched c.
Proof.
  revert w c. induction fuel as [|fuel IH]; intros w c; cbn [read_loop]; [done|].
  destruct (_ <? _); [|done].
  destruct (read_round w c) as [[[r c1] cl1] w1] eqn:Er.
  assert (E1 : untouched c1 = untouched c).
  { unfold read_round in Er. destruct (k_recvmsg _ _ _) as [[m|e] w2]; [|by injection Er as <- <- <- <-].
    destruct (_ =? _)%nat; [by injection Er as <- <- <- <-|].
    destruct (msg_ctrunc m); [by injection Er as <- <- <- <-|].
    destruct (take_cmsgs _ _) as [[[u|e] fd] cl]; by injection Er as <- <- <- <-. }
  destruct r as [rc|]; [done|]. specialize (IH w1 c1).
  destruct (read_loop fuel w1 c1) as [[[rc2 c2] cl2] w3]. congruence.
Qed.

Lemma keeps_read_client_input i : keeps (W := W) (read_client_input i).
Proof.
  intros s r s' E. unfold read_client_input, iouringd_read_client_input in E.
  pose proof (read_loop_untouched
    (S (Z.to_nat (expected_input (c_in (the_client s i)) - input_len (c_in (the_client s i)))))
    (s_world s) (the_client s i)) as Ha.
  destruct (read_loop _ _ _) as [[[rc c'] cl] w']. injection E as <- <-.
  unfold books_of. simpl. f_equal. apply fmap_insert_same. exact (f_equal (fun x => fst (fst x)) Ha).
Qed.

Lemma keeps_process_submit_input i : keeps (W := W) (process_submit_input i).
Proof.
  intros s r s' E. unfold process_submit_input in E.
  pose proof (process_submit_input_untouched (the_client s i)) as Ha. unfold same_but_input in Ha.
  destruct (iouringd_process_submit_input _) as [rc c']. injection E as <- <-.
  unfold books_of. simpl. f_equal. apply fmap_insert_same. exact (f_equal (fun x => fst (fst x)) Ha).
Qed.

Lemma keeps_flush i : keeps (W := W) (flush_client_output i).
Proof.
  intros s r s' E. unfold flush_client_output in E.
  destruct (iouringd_flush_client_output _ _ _) as [[rc b] w]. injection E as <- <-.
  unfold books_of. simpl. f_equal. by apply fmap_insert_same.
Qed.

(** ** Closing a client *)

Lemma close_client_steady i c :
  table_ok (c_res c) -> steady i (c_res c) (c_res (fst (iouringd_close_client c))).
Proof.
  intros [T1 T2 T3 T4]. constructor; simpl; try done; try lia.
  - constructor; simpl; rewrite ?length_fmap; done.
  - intros j s s' Hs Hs'. rewrite list_lookup_fmap, Hs in Hs'. injection Hs' as <-.
    unfold mark_file_closing. destruct (rs_registered s); simpl; lia.
  - intros j s s' Hs Hs'. rewrite list_lookup_fmap, Hs in Hs'. injection Hs' as <-.
    unfold mark_buffer_closing. destruct (bs_registered s); simpl; lia.
Qed.

Lemma sound_close_client i : sound (W := W) i (close_client i).
Proof.
  intros b Hb Hl. unfold close_client. apply btrip_bind, btrip_get_client. intros c Hc.
  apply btrip_bind, btrip_close_fds, btrip_mod_client. intros c' Hc'. split; [|by constructor].
  pose proof (live_slot_lt i b Hb Hl) as Hi. destruct (client_facts _ _ _ Hc') as (Er & Eg & _).
  eapply books_account; [done|by apply lookup_total_lt|by simpl|]. simpl.
  change (a_res (b_accounts b !!! i)) with (res_of b i). rewrite <- Er.
  apply close_client_steady. rewrite Er. by apply live_table.
Qed.

Lemma sound_service_loop fuel i progress : sound (W := W) i (service_loop fuel i progress).
Proof.
  revert progress. induction fuel as [|fuel IH]; intros progress; cbn [service_loop]; unfold service_round.
  { apply sound_keeps. keeps_tac. }
  assert (Hclose : forall A (a : A), sound (W := W) i (mbnd (close_client i) (fun _ => mret a))).
  { intros A a. apply sound_bind; [apply sound_close_client|]. intros _. apply sound_keeps. keeps_tac. }
  apply sound_step; [keeps_tac|]. intros c. destruct (negb _); [apply sound_keeps; keeps_tac|].
  apply sound_step; [apply keeps_try, keeps_read_client_input|].
  intros [[ | |]|e]; [apply sound_keeps; keeps_tac| |apply Hclose|apply Hclose].
  apply sound_step; [keeps_tac|]. intros c1. destruct (c_phase c1); [apply sound_keeps; keeps_tac|].
  apply sound_step; [apply keeps_try, keeps_process_submit_input|].
  intros [p|e]; [|apply Hclose]. apply sound_step; [keeps_tac|]. intros c2.
  destruct (request_ready _); [apply sound_keeps; keeps_tac|apply IH].
Qed.

Lemma sound_flush_or_close i : sound (W := W) i (flush_or_close i).
Proof.
  unfold flush_or_close. apply sound_step; [apply keeps_try, keeps_flush|].
  intros [[]|e]; [apply sound_step; [keeps_tac|]; intros c; destruct (c_close_after_flush c);
                  [|apply sound_keeps; keeps_tac]|];
    (apply sound_bind; [apply sound_close_client|intros _; apply sound_keeps; keeps_tac]).
Qed.

Lemma sound_poll_client i revents : sound (W := W) i (poll_client_event i revents).
Proof.
  unfold poll_client_event. apply sound_step; [keeps_tac|]. intros c. apply sound_bind.
  { destruct (_ && _); [apply sound_flush_or_close|apply sound_keeps; keeps_tac]. }
  intros closed. destruct closed; [apply sound_keeps; keeps_tac|].
  apply sound_step; [keeps_tac|]. intros c'. destruct (_ && _).
  { apply sound_bind; [apply sound_service_loop|]. intros _. apply sound_keeps. keeps_tac. }
  destruct (_ && _); [apply sound_close_client|apply sound_keeps; keeps_tac].
Qed.

(** ** Opening clients *)

Lemma keeps_world {A B} (f : sys W -> A * W) (g : A -> outcome B) :
  keeps (fun s => let '(a, w) := f s in (g a, s <| s_world := w |>)).
Proof. intros s r s' E. destruct (f s) as [a w]. by injection E as <- <-. Qed.

Lemma opened_fresh rt fd c : limits_ok (rt_limits rt) -> fresh_table (c_res (opened_client rt fd c)).
Proof.
  intros (L1 & L2 & L3). constructor; cbn -[replicate]; [constructor; cbn; done|done|done|..].
  - intros j s Hs. by apply lookup_replicate in Hs as [-> _].
  - intros j s Hs. by apply lookup_replicate in Hs as [-> _].
Qed.

Lemma books_generation b g : books_ok b -> books_ok (b <| b_next_generation := g |>).
Proof. by intros []. Qed.

Lemma vacant_slot rt i :
  books_ok (books_of rt) -> find_index client_slot_vacant (live_clients rt) = Some i ->
  Z.of_nat i < max_clients (b_limits (books_of rt)) /\
  outstanding_tasks (res_of (books_of rt) i) = 0.
Proof.
  intros Hb E. apply find_index_Some in E as (c & Hc & Hv & _).
  apply lookup_take_Some in Hc as [Hi Hc]. destruct (bo_limits _ Hb) as [Hm _]. simpl in *.
  split; [lia|]. unfold res_of. rewrite accounts_total, (list_lookup_total_correct _ _ _ Hc).
  unfold client_slot_vacant in Hv. by bool_hyps.
Qed.

Lemma always_open_client fd : always (W := W) (iouringd_open_client fd).
Proof.
  intros b Hb. unfold iouringd_open_client.
  apply btrip_bind, btrip_keeps; [apply keeps_try, (keeps_world (fun s => k_set_nonblocking (s_world s) fd) id)|].
  intros [nb|e]; [|done]. destruct (negb _); [apply always_keeps; [keeps_tac|done]|].
  apply btrip_bind, btrip_get_rt. intros rt Hrt.
  destruct (find_index _ _) as [i|] eqn:Ef; [|apply always_keeps; [keeps_tac|done]].
  apply btrip_bind, btrip_keeps; [apply (keeps_world (fun s => k_malloc (s_world s) _) Ok)|].
  intros [mem|e]; [|done]. destruct (negb mem); [apply always_keeps; [keeps_tac|done]|].
  subst b. destruct (vacant_slot rt i Hb Ef) as [Hl H0].
  apply btrip_bind, btrip_mod_client. intros c Hc.
  apply (btrip_mod_rt _ (fun x => x <| b_next_generation := u32 (b_next_generation x + 1) |>)); [done|].
  split; [|by constructor]. apply books_generation.
  eapply books_reset; [done|apply lookup_total_lt; by apply live_slot_lt|exact H0|].
  apply opened_fresh. apply (bo_limits _ Hb).
Qed.

Lemma always_accept_loop fuel progress : always (W := W) (accept_loop fuel progress).
Proof.
  revert progress. induction fuel as [|fuel IH]; intros progress; cbn [accept_loop].
  { apply always_keeps. keeps_tac. }
  apply always_bind.
  { apply always_keeps, keeps_try, (keeps_world (fun s => k_accept (s_world s) _) id). }
  intros rc. apply always_bind; [apply always_keeps; keeps_tac|]. intros stop.
  destruct rc as [fd|e]; [|apply always_keeps; keeps_tac].
  apply always_bind.
  { apply always_keeps, keeps_try, (keeps_world (fun s => k_set_cloexec (s_world s) fd) id). }
  intros [u|e]; [|apply always_keeps; keeps_tac].
  apply always_bind; [apply always_keeps; keeps_tac|]. intros stop'.
  destruct stop'; [apply always_keeps; keeps_tac|].
  apply always_bind; [apply always_open_client|]. intros _. apply IH.
Qed.

(** ** The main loop *)

Lemma always_dispatch_at band offset : always (W := W) (dispatch_at band offset).
Proof.
  intros b Hb. unfold dispatch_at. apply btrip_bind, btrip_get_rt. intros rt Hrt. cbv zeta.
  set (index := Nat.modulo _ _).
  assert (Hl : Z.of_nat index < max_clients (b_limits b)).
  { subst b. destruct (bo_limits _ Hb) as [Hm _]. simpl in *.
    pose proof (Nat.mod_upper_bound (rt_dispatch_cursor rt + offset)
                  (Z.to_nat (max_clients (rt_limits rt))) ltac:(lia)). unfold index. lia. }
  clear Hrt. apply btrip_bind, btrip_get_client. intros c _.
  destruct (_ || _); [by apply btrip_ret|]. destruct (negb _); [by apply btrip_ret|].
  apply (btrip_then index); [by apply sound_dispatch|done|]. intros done0.
  apply sound_keeps. keeps_tac.
Qed.

Lemma always_for_each n (body : nat -> DM (W := W) bool) :
  (forall j, always (body j)) -> always (for_each n body).
Proof.
  intros Hb. induction n as [|n IH]; cbn [for_each].
  - apply always_keeps. keeps_tac.
  - apply always_bind; [done|]. intros p. apply always_bind; [apply Hb|]. intros q.
    apply always_keeps. keeps_tac.
Qed.

Lemma always_dispatch : always (W := W) iouringd_dispatch_ready_requests.
Proof.
  unfold iouringd_dispatch_ready_requests. induction dispatch_bands as [|band l IH]; cbn [dispatch_in_bands].
  { apply always_keeps. keeps_tac. }
  apply always_bind; [|intros p; apply always_bind; [exact IH|]; intros q; apply always_keeps; keeps_tac].
  unfold dispatch_band. apply always_bind; [apply always_keeps; keeps_tac|]. intros rt.
  apply always_for_each. intros j. apply always_dispatch_at.
Qed.

Lemma always_service : always (W := W) iouringd_service_ready_inputs.
Proof.
  apply always_clients. intros i. unfold service_at. apply sound_step; [keeps_tac|]. intros c.
  destruct (negb _); [apply sound_keeps; keeps_tac|apply sound_service_loop].
Qed.

Lemma always_flush : always (W := W) iouringd_flush_client_outputs.
Proof.
  apply always_clients. intros i. unfold flush_at. apply sound_step; [keeps_tac|]. intros c.
  destruct (_ || _); [apply sound_keeps; keeps_tac|apply sound_flush_or_close].
Qed.

(** The slots of the poll set are client slots of the runtime. *)
Definition known_slots (n : Z) (l : list poll_slot) : Prop :=
  forall i, PollClient i ∈ l -> Z.of_nat i < n.

Lemma client_pollfds_slots i cs j :
  PollClient j ∈ (snd <$> client_pollfds i cs) -> (i <= j < i + length cs)%nat.
Proof.
  revert i. induction cs as [|c cs IH]; intros i Hj; cbn [client_pollfds] in Hj; [by apply elem_of_nil in Hj|].
  simpl. destruct (negb _); [specialize (IH _ Hj); lia|].
  destruct (_ =? 0); [specialize (IH _ Hj); lia|].
  rewrite fmap_cons in Hj. apply elem_of_cons in Hj as [Hj|Hj].
  - injection Hj as ->. lia.
  - specialize (IH _ Hj). lia.
Qed.

Lemma pollfds_known rt :
  0 <= max_clients (rt_limits rt) ->
  known_slots (max_clients (rt_limits rt)) (snd <$> iouringd_build_pollfds rt).
Proof.
  intros Hm i Hi. unfold iouringd_build_pollfds in Hi. rewrite !fmap_app in Hi.
  apply elem_of_app in Hi as [Hi|Hi].
  { destruct (_ <=? _); [|by apply elem_of_nil in Hi]. by apply list_elem_of_singleton in Hi. }
  apply elem_of_app in Hi as [Hi|Hi].
  { destruct (negb _); [|by apply elem_of_nil in Hi]. by apply list_elem_of_singleton in Hi. }
  apply client_pollfds_slots in Hi. unfold live_clients in Hi. rewrite length_take in Hi. lia.
Qed.

Lemma poll_events_ends fuel l b :
  books_ok b -> known_slots (max_clients (b_limits b)) (fst <$> l) ->
  btrip (W := W) (poll_events fuel l) b (ends b).
Proof.
  revert b. induction l as [|[slot revents] l IH]; intros b Hb Hk; cbn [poll_events].
  { by apply btrip_ret. }
  assert (Hev : btrip (W := W) (poll_event fuel slot revents) b (ends b)).
  { unfold poll_event. destruct (revents =? 0); [by apply btrip_ret|]. destruct slot as [| |i].
    - destruct (has_event _ _); [|by apply btrip_ret]. apply always_bind; [apply always_accept_loop| |done].
      intros r. apply always_keeps. keeps_tac.
    - destruct (has_event _ _); [|by apply btrip_ret]. apply always_bind; [apply always_reap| |done].
      intros r. apply always_keeps. keeps_tac.
    - assert (Hl : Z.of_nat i < max_clients (b_limits b)) by (apply Hk; apply elem_of_cons; by left).
      apply (btrip_then i); [by apply sound_poll_client|done|]. intros _. apply sound_keeps. keeps_tac. }
  apply btrip_bind. eapply btrip_weaken; [exact Hev|]. intros [ok|e] b'; [|done]. intros [Hb' Hc].
  eapply btrip_ends_trans; [|exact Hc]. destruct ok; [|by apply btrip_ret].
  apply IH; [done|]. rewrite (sc_limits _ _ Hc). intros i Hi. apply Hk. apply elem_of_cons. by right.
Qed.

Lemma fst_zip {A B} (l : list A) (l' : list B) x : x ∈ (fst <$> zip l l') -> x ∈ l.
Proof.
  revert l'. induction l as [|y l IH]; intros [|z l'] Hx; simpl in *; try (by apply elem_of_nil in Hx).
  apply elem_of_cons in Hx as [->|Hx]; apply elem_of_cons; [by left|right]. by eapply IH.
Qed.

Lemma always_poll fuel : always (W := W) (run_poll fuel).
Proof.
  intros b Hb. unfold run_poll. apply btrip_bind, btrip_get_rt. intros rt Hrt. cbv zeta.
  destruct (_ =? _)%nat; [by apply btrip_ret|].
  apply btrip_bind, btrip_keeps; [apply keeps_try, (keeps_world (fun s => k_poll (s_world s) _) id)|].
  intros [[revents|e]|e]; [|apply always_keeps; [keeps_tac|done]|done].
  subst b. apply btrip_bind. eapply btrip_weaken.
  - apply poll_events_ends; [done|]. intros i Hi. apply fst_zip in Hi.
    destruct (bo_limits _ Hb) as [Hm _]. simpl in *. apply (pollfds_known rt); [lia|done].
  - intros [ok|e] b'; [|done]. intros [Hb' Hc]. by apply btrip_ret.
Qed.

Lemma always_round fuel : always (W := W) (run_round fuel).
Proof.
  unfold run_round. apply always_bind; [apply always_service|]. intros p1.
  apply always_bind; [apply always_dispatch|]. intros p2.
  apply always_bind; [apply always_reap|]. intros [p3|]; [|apply always_keeps; keeps_tac].
  apply always_bind; [apply always_sweep|]. intros p4.
  apply always_bind; [apply always_flush|]. intros p5.
  apply always_bind; [apply always_keeps; keeps_tac|]. intros stop.
  destruct stop; [apply always_keeps; keeps_tac|].
  destruct (_ || _); [apply always_keeps; keeps_tac|apply always_poll].
Qed.

Lemma always_run rounds fuel : always (W := W) (iouringd_run rounds fuel).
Proof.
  induction rounds as [|n IH]; cbn [iouringd_run]; [apply always_keeps; keeps_tac|].
  apply always_bind; [apply always_round|]. intros [| |]; [exact IH|..]; apply always_keeps; keeps_tac.
Qed.
End Loop.
