(* ===== verification/Correct.v ===== *)
(** * What the daemon guarantees

    The states the main loop goes through from a start-up on ([reachable]), and
    what the invariant of the books says about every one of them: the counters
    and credits it reports are exact, a completion finds the task it belongs to
    and the task's own client, no client exceeds its credit limit, and no
    resource is given away while a task refers to it. *)

From S2P Require Import Prelude Wire Kernel Ring State Output Resources Trace Daemon Startup Input Dispatch Complete Sched Session Books Ledger Work Accounting Settle Invariant.

(** The books of a state are in balance. *)
Definition consistent {W} (s : sys W) : Prop := books_ok (books_of (s_rt s)).

(** A state at a round of the main loop. *)
Inductive reachable {W} `{Kernel W} : sys W -> Prop :=
| reach_start a r caps fd rt s :
    limits_supported (arg_limits a) -> configure a r caps = Some rt ->
    s_rt s = rt <| rt_server_fd := fd |> -> reachable s
| reach_round fuel s st s' :
    reachable s -> run_round fuel s = (Ok st, s') -> reachable s'.

(** ** Start-up *)

(** What the daemon advertises, apart from the credits free at the moment. *)
Definition configured_capabilities (a : arguments) (r : ring) (caps : capability_descriptor)
    : capability_descriptor :=
  let l := arg_limits a in
  mk_capability_descriptor (cap_struct_size caps) (cap_features caps) (cap_ring_entries caps)
    (cap_cq_entries caps) (cap_op_mask caps) (u32 (u64 (iouringd_ring_capacity r - 1)))
    (registered_fds_per_client l) (registered_buffers_per_client l) (lim_io_bytes_max l).

Lemma configured_books a r caps fd :
  books_of (configured a r caps <| rt_server_fd := fd |>) =
  mk_books 0 0 1 0 (iouringd_ring_capacity r) (u64 (iouringd_ring_capacity r - 1))
    (let c := u64 (iouringd_ring_capacity r - 1) in
     if c <? per_client_credits (arg_limits a) then c else per_client_credits (arg_limits a))
    (configured_capabilities a r caps)
    (arg_limits a) (replicate IOURINGD_MAX_CLIENTS (account_of init_client))
    (replicate IOURINGD_MAX_TASKS None).
Proof. reflexivity. Qed.

Lemma sumz_none f n : f None = 0 -> sumz f (replicate n (None : option entry)) = 0.
Proof. intros Hf. apply sumz_zero. intros k x Hx. by apply lookup_replicate in Hx as [-> _]. Qed.

Lemma init_table : fresh_table (a_res (account_of init_client)).
Proof.
  constructor; try done; intros j s Hs; cbn -[replicate] in Hs; by apply lookup_replicate in Hs as [-> _].
Qed.

Lemma startup_books a r caps fd :
  limits_supported (arg_limits a) -> 2 <= iouringd_ring_capacity r <= 64 ->
  books_ok (books_of (configured a r caps <| rt_server_fd := fd |>)).
Proof.
  intros (L1 & L2 & L3 & L4 & L5 & L6) Hr. rewrite configured_books. cbv zeta.
  rewrite u64_id by lia.
  assert (Hno : forall k e, replicate IOURINGD_MAX_TASKS None !! k = Some (Some e : option entry) -> False).
  { intros k e Hk. by apply lookup_replicate in Hk as [? _]. }
  constructor; cbn [b_limits b_capacity b_accounts b_entries b_next_id b_tasks b_credits b_credit_limit];
    rewrite ?length_replicate, ?sumz_none by done; try done.
  - unfold limits_ok, IOURINGD_MAX_CLIENTS, IOURINGD_MAX_REGISTERED_FDS,
      IOURINGD_MAX_REGISTERED_BUFFERS. lia.
  - unfold IOURINGD_MAX_TASKS. lia.
  - intros i x Hx. apply lookup_replicate in Hx as [-> _]. destruct init_table as [F1 F2 F3 F4 F5].
    constructor; rewrite ?sumz_none by done; try done; intros j s Hs; rewrite sumz_none by done; eauto.
  - intros k e Hk. by destruct (Hno k e Hk).
  - intros k e x Hk. by destruct (Hno k e Hk).
  - intros k k' e e' Hk. by destruct (Hno k e Hk).
  - destruct (_ <? _); lia.
  - intros i x Hx. apply lookup_replicate in Hx as [-> _].
    rewrite (ft_credits _ init_table). destruct (_ <? _); lia.
Qed.

(** ** The main loop *)

Section Correct.
Context {W : Type} `{Kernel W}.

Lemma always_run_state {A} (m : DM (W := W) A) s r s' :
  always m -> consistent s -> m s = (Ok r, s') ->
  consistent s' /\ same_config (books_of (s_rt s)) (books_of (s_rt s')).
Proof. intros Hm Hs E. specialize (Hm _ Hs s eq_refl). by rewrite E in Hm. Qed.

Lemma sound_run_state {A} i (m : DM (W := W) A) s r s' :
  sound i m -> consistent s -> Z.of_nat i < max_clients (rt_limits (s_rt s)) ->
  m s = (Ok r, s') -> consistent s'.
Proof. intros Hm Hs Hl E. specialize (Hm _ Hs Hl s eq_refl). rewrite E in Hm. apply Hm. Qed.

(** The task table is one slot short of the ring. *)
Definition one_spare (rt : runtime) : Prop :=
  rt_ring_capacity rt = rt_task_capacity rt + 1 /\ 1 <= rt_task_capacity rt <= 63.

Lemma reachable_books (s : sys W) : reachable s -> consistent s /\ one_spare (s_rt s).
Proof.
  induction 1 as [a r caps fd rt s Hl Hc Hs|fuel s st s' _ [IH1 IH2] E].
  - apply configure_Some in Hc as [-> Hr]. unfold consistent, one_spare. rewrite Hs.
    split; [by apply startup_books|].
    change (rt_ring_capacity _) with (iouringd_ring_capacity r).
    change (rt_task_capacity _) with (u64 (iouringd_ring_capacity r - 1)).
    rewrite u64_id by lia. lia.
  - destruct (always_run_state _ _ _ _ (always_round fuel) IH1 E) as [H1 H2].
    split; [done|]. unfold one_spare in *.
    pose proof (sc_capacity _ _ H2) as E1. pose proof (sc_ring_capacity _ _ H2) as E2. simpl in E1, E2. lia.
Qed.
End Correct.

(** ** The counts, in terms of the task slots *)

Definition credit_task (t : task_slot) : bool := t_active t && t_consumes_credit t.
Definition task_of (i : nat) (t : task_slot) : bool := t_active t && (t_client_index t =? i)%nat.
(** How often a task refers to file slot [j], and to buffer slot [j], of client [i]. *)
Definition uses_file (i j : nat) (t : task_slot) : Z :=
  if task_of i t
  then Z.b2z (t_file_slot_index t =? Z.of_nat j) + Z.b2z (t_result_file_slot_index t =? Z.of_nat j)
  else 0.
Definition uses_buffer (i j : nat) (t : task_slot) : Z :=
  if task_of i t then Z.b2z (t_buffer_slot_index t =? Z.of_nat j) else 0.

Lemma uses_file_nonneg i j t : 0 <= uses_file i j t.
Proof. unfold uses_file. destruct (task_of i t); [|done]. destruct (_ =? _), (_ =? _); simpl; lia. Qed.
Lemma uses_buffer_nonneg i j t : 0 <= uses_buffer i j t.
Proof. unfold uses_buffer. destruct (task_of i t); [|done]. destruct (_ =? _); simpl; lia. Qed.

Lemma sumz_fmap {A B} (g : A -> B) f l : sumz f (g <$> l) = sumz (fun x => f (g x)) l.
Proof. induction l as [|x l IH]; simpl; [done|]. by rewrite <- IH. Qed.

Section Counts.
Context (rt : runtime).
Abbreviation es := (b_entries (books_of rt)).

Lemma count_tasks : sumz one es = countz t_active (rt_tasks rt).
Proof. simpl. rewrite sumz_fmap. apply sumz_ext. intros k t _. unfold entry_of. by destruct (t_active t). Qed.

Lemma count_credits : sumz one_credit es = countz credit_task (rt_tasks rt).
Proof.
  simpl. rewrite sumz_fmap. apply sumz_ext. intros k t _. unfold entry_of, credit_task.
  by destruct (t_active t).
Qed.

Lemma count_client i : sumz (for_client i) es = countz (task_of i) (rt_tasks rt).
Proof.
  simpl. rewrite sumz_fmap. apply sumz_ext. intros k t _. unfold entry_of, task_of.
  by destruct (t_active t).
Qed.

Lemma count_client_credits i :
  sumz (credit_for_client i) es = countz (fun t => task_of i t && t_consumes_credit t) (rt_tasks rt).
Proof.
  simpl. rewrite sumz_fmap. apply sumz_ext. intros k t _. unfold entry_of, task_of.
  by destruct (t_active t).
Qed.

Lemma count_file i j : sumz (file_refs i j) es = sumz (uses_file i j) (rt_tasks rt).
Proof.
  simpl. rewrite sumz_fmap. apply sumz_ext. intros k t _. unfold entry_of, uses_file, task_of.
  by destruct (t_active t).
Qed.

Lemma count_buffer i j : sumz (buffer_refs i j) es = sumz (uses_buffer i j) (rt_tasks rt).
Proof.
  simpl. rewrite sumz_fmap. apply sumz_ext. intros k t _. unfold entry_of, uses_buffer, task_of.
  by destruct (t_active t).
Qed.

Context (Hb : books_ok (books_of rt)).

Lemma client_account i c :
  rt_clients rt !! i = Some c -> account_ok es i (c_res c).
Proof.
  intros Hc. apply (bo_account _ Hb i (account_of c)). simpl. by rewrite list_lookup_fmap, Hc.
Qed.

(** The entry of an active task. *)
Lemma active_entry k t :
  rt_tasks rt !! k = Some t -> t_active t = true ->
  exists e, es !! k = Some (Some e) /\ entry_of t = Some e.
Proof.
  intros Ht Ha. simpl. rewrite list_lookup_fmap, Ht. simpl. unfold entry_of. rewrite Ha. eauto.
Qed.

Lemma capacity_room : countz t_active (rt_tasks rt) <= rt_task_capacity rt.
Proof.
  pose proof (bo_capacity _ Hb) as Hc. simpl in Hc.
  rewrite <- (take_drop (Z.to_nat (rt_task_capacity rt)) (rt_tasks rt)). unfold countz. rewrite sumz_app.
  rewrite (sumz_zero _ (drop _ _)).
  - pose proof (countz_le_length t_active (take (Z.to_nat (rt_task_capacity rt)) (rt_tasks rt))) as Hl.
    unfold countz in Hl. rewrite length_take in Hl. lia.
  - intros k t Hk. rewrite lookup_drop in Hk. destruct (t_active t) eqn:Ea; [|done].
    destruct (active_entry _ _ Hk Ea) as (e & He & _). apply (bo_place _ Hb) in He as [Hp _].
    simpl in Hp. lia.
Qed.

(** With as many tasks as the table has places, no place is free. *)
Lemma full_table :
  rt_outstanding_tasks rt = rt_task_capacity rt -> iouringd_find_free_task_slot rt = None.
Proof.
  intros Hf. destruct (iouringd_find_free_task_slot rt) as [k|] eqn:E; [|done].
  pose proof (bo_capacity _ Hb) as Hc. pose proof (bo_entries_len _ Hb) as Hl. simpl in Hc, Hl.
  rewrite length_fmap in Hl.
  apply find_index_Some in E as (t & Ht & Ha & _). apply negb_true_iff in Ha.
  pose proof (countz_lt_length t_active _ k t Ht Ha) as Hlt. rewrite length_take in Hlt.
  pose proof (bo_tasks _ Hb) as Ht'. rewrite count_tasks in Ht'. simpl in Ht'.
  rewrite <- (take_drop (Z.to_nat (rt_task_capacity rt)) (rt_tasks rt)) in Ht' at 1.
  unfold countz in *. rewrite sumz_app in Ht'. rewrite (sumz_zero _ (drop _ _)) in Ht'; [lia|].
  intros n x Hx. rewrite lookup_drop in Hx. destruct (t_active x) eqn:Ea; [|done].
  destruct (active_entry _ _ Hx Ea) as (e & He & _). apply (bo_place _ Hb) in He as [Hp _].
  simpl in Hp. lia.
Qed.
End Counts.

(** ** The guarantees *)

Section Guarantees.
Context {W : Type} `{Kernel W}.

(** C2: in every state the main loop goes through, the daemon's counters are
    exact: the outstanding tasks and credits, in total and of every client slot,
    are the numbers of active task slots they stand for, and no counter has
    wrapped. *)
Theorem counters_exact (s : sys W) :
  reachable s ->
  let rt := s_rt s in
  rt_outstanding_tasks rt = countz t_active (rt_tasks rt) /\
  rt_outstanding_credit_tasks rt = countz credit_task (rt_tasks rt) /\
  (forall i c, rt_clients rt !! i = Some c ->
     outstanding_tasks (c_res c) = countz (task_of i) (rt_tasks rt) /\
     outstanding_credit_tasks (c_res c) =
       countz (fun t => task_of i t && t_consumes_credit t) (rt_tasks rt)).
Proof.
  intros [Hb _]%reachable_books rt. split_and!.
  - rewrite <- count_tasks. apply (bo_tasks _ Hb).
  - rewrite <- count_credits. apply (bo_credits _ Hb).
  - intros i c Hc. pose proof (client_account rt Hb i c Hc) as Ha.
    rewrite <- count_client, <- count_client_credits. split; apply Ha.
Qed.

(** C4: in every state the main loop goes through, the in-flight count of every
    file and buffer slot is the number of references active tasks hold to it; in
    particular a slot whose count is zero, which is when the daemon releases or
    reuses it, is referred to by no task. *)
Theorem in_flight_exact (s : sys W) i c :
  reachable s -> rt_clients (s_rt s) !! i = Some c ->
  (forall j x, file_resources (c_res c) !! j = Some x ->
     rs_in_flight x = sumz (uses_file i j) (rt_tasks (s_rt s)) /\
     (rs_in_flight x = 0 -> forall k t, rt_tasks (s_rt s) !! k = Some t -> task_of i t = true ->
        t_file_slot_index t <> Z.of_nat j /\ t_result_file_slot_index t <> Z.of_nat j)) /\
  (forall j x, buffer_resources (c_res c) !! j = Some x ->
     bs_in_flight x = sumz (uses_buffer i j) (rt_tasks (s_rt s)) /\
     (bs_in_flight x = 0 -> forall k t, rt_tasks (s_rt s) !! k = Some t -> task_of i t = true ->
        t_buffer_slot_index t <> Z.of_nat j)).
Proof.
  intros [Hb _]%reachable_books Hc. pose proof (client_account _ Hb i c Hc) as Ha.
  split; intros j x Hx.
  - assert (E : rs_in_flight x = sumz (uses_file i j) (rt_tasks (s_rt s))).
    { rewrite <- count_file. by apply (ao_file _ _ _ Ha). }
    split; [exact E|]. intros H0 k t Ht Hof. rewrite E in H0.
    pose proof (sumz_zero_inv _ _ k t (uses_file_nonneg i j) H0 Ht) as Hz.
    unfold uses_file in Hz. rewrite Hof in Hz.
    destruct (Z.eqb_spec (t_file_slot_index t) (Z.of_nat j)),
      (Z.eqb_spec (t_result_file_slot_index t) (Z.of_nat j)); simpl in Hz; done || lia.
  - assert (E : bs_in_flight x = sumz (uses_buffer i j) (rt_tasks (s_rt s))).
    { rewrite <- count_buffer. by apply (ao_buffer _ _ _ Ha). }
    split; [exact E|]. intros H0 k t Ht Hof. rewrite E in H0.
    pose proof (sumz_zero_inv _ _ k t (uses_buffer_nonneg i j) H0 Ht) as Hz.
    unfold uses_buffer in Hz. rewrite Hof in Hz.
    destruct (Z.eqb_spec (t_buffer_slot_index t) (Z.of_nat j)); simpl in Hz; done || lia.
Qed.

(** C3: in every state the main loop goes through, an active task is found by its
    id, its id was given out before and is not reserved, and the client slot it
    names is still held by the client generation that started it, so that a
    completion is never delivered to a later client of the same slot. *)
Theorem completion_finds_its_task (s : sys W) k t :
  reachable s -> rt_tasks (s_rt s) !! k = Some t -> t_active t = true ->
  iouringd_find_task_slot (s_rt s) (t_task_id t) = Some k /\
  IOURINGD_TASK_ID_INVALID < t_task_id t < rt_next_task_id (s_rt s) /\
  rt_next_task_id (s_rt s) <= IOURINGD_TASK_ID_RESERVED_MIN /\
  exists c, rt_clients (s_rt s) !! t_client_index t = Some c /\
            c_generation c = t_client_generation t.
Proof.
  intros [Hb _]%reachable_books Ht Ha. unfold consistent in Hb. set (rt := s_rt s) in *.
  destruct (active_entry rt k t Ht Ha) as (e & He & Ee).
  pose proof (bo_place _ Hb k e He) as [Hp Hl]. pose proof (bo_capacity _ Hb) as Hc. simpl in Hp, Hl, Hc.
  assert (Ef : e_id e = t_task_id t /\ e_client e = t_client_index t /\
               e_generation e = t_client_generation t).
  { unfold entry_of in Ee. rewrite Ha in Ee. by injection Ee as <-. }
  destruct Ef as (Ei & Ec & Eg).
  pose proof (settle_client _ k e Hb He) as Hi. simpl in Hi. rewrite length_fmap, Ec in Hi.
  destruct (lookup_lt_is_Some_2 _ _ Hi) as [c Hcl].
  assert (Hk : entry_ok (rt_next_task_id rt) (account_of c) e).
  { apply (bo_entry _ Hb k e). - done. - simpl. by rewrite list_lookup_fmap, Ec, Hcl. }
  split_and!.
  - destruct (iouringd_find_task_slot rt (t_task_id t)) as [k'|] eqn:Ef.
    + apply find_task_slot_books in Ef as (e' & He' & Ei').
      by rewrite (bo_ids _ Hb k' k e' e He' He ltac:(congruence)).
    + unfold iouringd_find_task_slot in Ef. rewrite find_index_None in Ef.
      assert (Hx : take (Z.to_nat (rt_task_capacity rt)) (rt_tasks rt) !! k = Some t).
      { apply lookup_take_Some. split; [lia|done]. }
      specialize (Ef k t Hx). simpl in Ef. by rewrite Ha, Z.eqb_refl in Ef.
  - destruct Hk as [_ Hid _ _ _ _]. change IOURINGD_TASK_ID_INVALID with 0. lia.
  - destruct Hk as [_ Hid _ _ _ _]. lia.
  - apply (bo_next _ Hb).
  - exists c. split; [done|]. destruct Hk as [Hg _ _ _ _ _]. simpl in Hg. congruence.
Qed.

(** The credits free at a moment. *)
Lemma available_exact (s : sys W) :
  reachable s ->
  let rt := s_rt s in
  iouringd_available_credits rt = rt_task_capacity rt - countz credit_task (rt_tasks rt) /\
  0 <= iouringd_available_credits rt <= rt_task_capacity rt.
Proof.
  intros [Hb [_ Hcap]]%reachable_books rt. unfold consistent in Hb. fold rt in Hb, Hcap.
  pose proof (capacity_room rt Hb) as Hroom. pose proof (countz_nonneg credit_task (rt_tasks rt)) as H0.
  assert (Hle : countz credit_task (rt_tasks rt) <= countz t_active (rt_tasks rt)).
  { apply sumz_le. intros t. unfold credit_task. destruct (t_active t), (t_consumes_credit t); simpl; lia. }
  assert (E : iouringd_available_credits rt = rt_task_capacity rt - countz credit_task (rt_tasks rt)).
  { unfold iouringd_available_credits. pose proof (bo_credits _ Hb) as Hc. rewrite count_credits in Hc.
    simpl in Hc. rewrite Hc. apply u32_id. lia. }
  rewrite E. split; [done|lia].
Qed.

(** C12: in every state the main loop goes through, the credits the daemon reports
    are the places of the task table not taken by credit-consuming tasks, its
    statistics show the true numbers of tasks and credits in use, and no client
    holds more credits than the configured limit. *)
Theorem credits_exact (s : sys W) :
  reachable s ->
  let rt := s_rt s in
  iouringd_available_credits rt = rt_task_capacity rt - countz credit_task (rt_tasks rt) /\
  0 <= iouringd_available_credits rt <= rt_task_capacity rt /\
  st_outstanding_tasks (stats_of rt) = countz t_active (rt_tasks rt) /\
  st_outstanding_credit_tasks (stats_of rt) = countz credit_task (rt_tasks rt) /\
  st_available_credits (stats_of rt) = iouringd_available_credits rt /\
  (forall i c, rt_clients rt !! i = Some c ->
     countz (fun t => task_of i t && t_consumes_credit t) (rt_tasks rt) <=
     rt_per_client_credit_limit rt).
Proof.
  intros Hs rt. destruct (available_exact s Hs) as [E Hrange].
  destruct (reachable_books s Hs) as [Hb [_ Hcap]]. unfold consistent in Hb. fold rt in Hb, Hcap, E, Hrange.
  pose proof (capacity_room rt Hb) as Hroom. pose proof (countz_nonneg credit_task (rt_tasks rt)) as H0.
  pose proof (countz_nonneg t_active (rt_tasks rt)) as H1.
  pose proof (bo_tasks _ Hb) as Ht. rewrite count_tasks in Ht. simpl in Ht.
  pose proof (bo_credits _ Hb) as Hc. rewrite count_credits in Hc. simpl in Hc.
  split_and!; [done|lia|lia| | |done|].
  { simpl. rewrite Ht. apply u32_id. lia. }
  { simpl. rewrite Hc. apply u32_id. lia. }
  clear Hc. intros i c Hc. rewrite <- count_client_credits.
  rewrite <- (ao_credits _ _ _ (client_account rt Hb i c Hc)).
  apply (bo_quota _ Hb i (account_of c)). simpl. by rewrite list_lookup_fmap, Hc.
Qed.

(** A client slot the daemon gives to a new connection is referred to by no
    task of the connection that held it before. *)
Theorem vacant_slot_unused (s : sys W) i c k t :
  reachable s -> rt_clients (s_rt s) !! i = Some c -> client_slot_vacant c = true ->
  rt_tasks (s_rt s) !! k = Some t -> t_active t = true -> t_client_index t <> i.
Proof.
  intros [Hb _]%reachable_books Hc Hv Ht Ha. unfold consistent in Hb.
  unfold client_slot_vacant in Hv. bool_hyps.
  destruct (active_entry _ k t Ht Ha) as (e & He & Ee).
  assert (Ei : e_client e = t_client_index t).
  { unfold entry_of in Ee. rewrite Ha in Ee. by injection Ee as <-. }
  rewrite <- Ei. eapply no_tasks; [|exact He].
  rewrite <- (ao_tasks _ _ _ (client_account _ Hb i c Hc)). done.
Qed.

(** C32: the slot of the ring that is kept for a cancel is never used: whenever as
    many tasks are active as the task table has places, which is one less than the
    ring holds, a valid cancel request passes the credit guard and is then rejected
    with EAGAIN all the same. *)
Theorem cancel_rejected_when_full (s : sys W) i :
  reachable s ->
  let rt := s_rt s in
  let c := the_client s i in
  request_ready (c_req c) = true -> control_op (c_req c) = 0 ->
  req_kind c = IOURINGD_TASK_KIND_CANCEL -> support_guards rt c = None ->
  rt_next_task_id rt < IOURINGD_TASK_ID_RESERVED_MIN ->
  rt_outstanding_tasks rt = rt_task_capacity rt ->
  credit_guards rt c = None /\ iouringd_dispatch_client_request i s = reject i EAGAIN s.
Proof.
  intros [Hb [Hsp Hcap]]%reachable_books rt c Hr Hop Hk Hsup Hid Hfull. unfold consistent in Hb.
  fold rt in Hb, Hsp, Hcap.
  assert (Hg : credit_guards rt c = None).
  { unfold credit_guards, uses_credit. rewrite Hk. simpl.
    destruct (Z.leb_spec (rt_ring_capacity rt) (rt_outstanding_tasks rt)); [lia|done]. }
  split; [done|]. unfold iouringd_dispatch_client_request, get_client, get_rt, mget, mbnd. fold c rt.
  cbv zeta. rewrite Hr, Hop. simpl negb.
  assert (Hgs : submit_guards rt c = None).
  { unfold submit_guards. rewrite Hg, Hsup. unfold argument_guards. by rewrite Hk. }
  change (0 =? _) with false. do 4 change (0 =? _) with false. cbn [negb]. cbv beta iota.
  fold rt. rewrite Hgs. unfold dispatch_task. rewrite Hk.
  change (dispatch_simple i rt c s = reject i EAGAIN s).
  unfold dispatch_simple. rewrite (proj2 (Z.leb_gt _ _) Hid), (full_table rt Hb Hfull). done.
Qed.
End Guarantees.

(** ** An example state

    The session [one_timeout] on a ring of two entries, after four rounds: the
    timeout holds the only place of the task table, and a cancel request for it
    has been read. *)

Lemma next_reachable {W} `{Kernel W} fuel (s : sys W) :
  reachable s -> is_ok (fst (run_round fuel s)) = true -> reachable (snd (run_round fuel s)).
Proof.
  intros Hs Hok. destruct (run_round fuel s) as [[st|e] s'] eqn:E; [|done]. by eapply reach_round.
Qed.

Lemma session_reachable m n w :
  1 <= m <= 64 -> (2 <= n <= 64)%nat -> reachable (session m n w).
Proof.
  intros Hm Hn. eapply (reach_start (session_arguments m) (session_ring n) session_caps 4);
    [repeat split; simpl; lia| |done].
  unfold configure. change (iouringd_ring_capacity (session_ring n)) with (Z.of_nat n).
  change (Z.of_nat IOURINGD_MAX_TASKS) with 64.
  destruct (Z.leb_spec (Z.of_nat n) 1), (Z.ltb_spec 64 (Z.of_nat n)); try lia. done.
Qed.

Lemma client_lookup {W} (s : sys W) i :
  (i <? length (rt_clients (s_rt s)))%nat = true -> rt_clients (s_rt s) !! i = Some (the_client s i).
Proof. intros Hi%Nat.ltb_lt. by apply lookup_total_lt. Qed.
Lemma task_lookup {W} (s : sys W) k :
  (k <? length (rt_tasks (s_rt s)))%nat = true -> rt_tasks (s_rt s) !! k = Some (the_task s k).
Proof. intros Hk%Nat.ltb_lt. by apply lookup_total_lt. Qed.
Lemma file_lookup {W} (s : sys W) i j :
  (j <? length (file_resources (c_res (the_client s i))))%nat = true ->
  file_resources (c_res (the_client s i)) !! j = Some (file_resources (c_res (the_client s i)) !!! j).
Proof. intros Hj%Nat.ltb_lt. by apply lookup_total_lt. Qed.

Definition busy : sys script := after 4 5 (session 2 2 one_timeout).

Lemma busy_reachable : reachable busy.
Proof.
  unfold busy. cbn [after]. repeat (apply next_reachable; [|vm_compute; reflexivity]).
  apply session_reachable; lia.
Qed.

Lemma counters_exact_witness :
  rt_outstanding_tasks (s_rt busy) = 1 /\ countz t_active (rt_tasks (s_rt busy)) = 1.
Proof.
  destruct (counters_exact busy busy_reachable) as [E _].
  assert (E1 : rt_outstanding_tasks (s_rt busy) = 1) by (vm_compute; reflexivity).
  split; [exact E1|]. rewrite <- E. exact E1.
Defined.

Lemma in_flight_exact_witness :
  rt_clients (s_rt busy) !! 0%nat = Some (the_client busy 0) /\
  rs_in_flight (file_resources (c_res (the_client busy 0)) !!! 1%nat) =
    sumz (uses_file 0 1) (rt_tasks (s_rt busy)).
Proof.
  assert (Hc : rt_clients (s_rt busy) !! 0%nat = Some (the_client busy 0)).
  { apply client_lookup. vm_compute. reflexivity. }
  split; [exact Hc|]. destruct (in_flight_exact busy 0 _ busy_reachable Hc) as [Hf _].
  assert (Hj : (1 <? length (file_resources (c_res (the_client busy 0))))%nat = true)
    by (vm_compute; reflexivity).
  exact (proj1 (Hf 1%nat _ (file_lookup busy 0 1 Hj))).
Defined.

Lemma busy_task : rt_tasks (s_rt busy) !! 0%nat = Some (the_task busy 0).
Proof. apply task_lookup. vm_compute. reflexivity. Qed.
Lemma busy_active : t_active (the_task busy 0) = true.
Proof. vm_compute. reflexivity. Qed.

Lemma completion_finds_its_task_witness :
  t_active (the_task busy 0) = true /\
  iouringd_find_task_slot (s_rt busy) (t_task_id (the_task busy 0)) = Some 0%nat.
Proof.
  split; [exact busy_active|].
  exact (proj1 (completion_finds_its_task busy 0 _ busy_reachable busy_task busy_active)).
Defined.

Lemma credits_exact_witness :
  iouringd_available_credits (s_rt busy) = 0 /\
  rt_task_capacity (s_rt busy) - countz credit_task (rt_tasks (s_rt busy)) = 0.
Proof.
  destruct (credits_exact busy busy_reachable) as [E _].
  assert (E1 : iouringd_available_credits (s_rt busy) = 0) by (vm_compute; reflexivity).
  split; [exact E1|]. rewrite <- E. exact E1.
Defined.

Lemma vacant_slot_unused_witness :
  client_slot_vacant (the_client busy 1) = true /\ t_client_index (the_task busy 0) <> 1%nat.
Proof.
  assert (Hv : client_slot_vacant (the_client busy 1) = true) by (vm_compute; reflexivity).
  split; [exact Hv|]. eapply (vacant_slot_unused busy 1); [exact busy_reachable| |exact Hv|
    exact busy_task|exact busy_active].
  apply client_lookup. vm_compute. reflexivity.
Defined.

Lemma cancel_rejected_when_full_witness :
  credit_guards (s_rt busy) (the_client busy 0) = None /\
  iouringd_dispatch_client_request 0 busy = reject 0 EAGAIN busy.
Proof.
  refine (cancel_rejected_when_full busy 0 busy_reachable _ _ _ _ _ _); vm_compute; reflexivity.
Defined.
