(* ===== verification/Memory.v ===== *)
(** * The daemon stays inside its arrays

    Every copy of [src/daemon/main.c] into an array of fixed size: the input and
    payload arrays of a client, its output buffer, the buffer of a task, the
    registered buffer storage and the trace ring.  In the model a copy past the
    end of an array would lengthen it; the invariant of this file says that no
    array ever changes its length, and that the windows of the buffers stay
    inside them.  This file has the invariant, the logic of computations that
    keep it, and the handlers of requests and completions. *)

From S2P Require Import Prelude Wire Kernel Ring State Output Resources Trace Daemon Startup Input Request Reader Dispatch Complete Sched Session Books Ledger Work Accounting Settle Invariant Correct.

Section Arrays.
Context (L : iouringd_limits).

(** A client slot: its output window, its input window and payload array, and,
    while a client is connected, the limits the copies are checked against. *)
Record client_safe (c : client) : Prop := {
  cs_output : outbuf_wf (c_out c);
  cs_input : input_wf c;
  cs_limits : 0 <= c_fd c ->
    c_io_bytes_max c = lim_io_bytes_max L /\
    buffer_slot_limit (c_res c) = registered_buffers_per_client L;
  cs_request : request_ready (c_req c) = true ->
    0 <= c_fd c /\ buffer_fits (c_io_bytes_max c) (c_req c);
}.

(** The tasks whose buffer is written to, by the daemon or by the kernel. *)
Definition kind_copies (kind : Z) : bool := kind_is_io kind && negb (kind =? IOURINGD_TASK_KIND_POLL).

Record task_safe (t : task_slot) : Prop := {
  ts_buffer : length (t_io_buffer t) = IOURINGD_MAX_IO_BYTES;
  ts_length : kind_copies (t_task_kind t) = true -> t_io_length t <= lim_io_bytes_max L;
  ts_iov : kind_copies (t_task_kind t) = true -> t_iov_len t <= lim_io_bytes_max L;
  ts_place : t_task_kind t = IOURINGD_TASK_KIND_SOCK_READ_FIXED ->
    Z.of_nat (t_client_index t) < max_clients L /\
    0 <= t_buffer_slot_index t < registered_buffers_per_client L;
}.

Record arrays_safe {W} (capacity : Z) (s : sys W) : Prop := {
  as_limits : rt_limits (s_rt s) = L;
  as_capacity : rt_client_output_capacity (s_rt s) = capacity;
  as_storage : Z.of_nat (length (rt_storage (s_rt s))) =
               max_clients L * registered_buffers_per_client L * lim_io_bytes_max L;
  as_trace : length (rt_trace_events (s_rt s)) = IOURINGD_TRACE_CAPACITY;
  as_count : length (rt_clients (s_rt s)) = IOURINGD_MAX_CLIENTS;
  as_clients : Forall client_safe (rt_clients (s_rt s));
  as_tasks : Forall task_safe (rt_tasks (s_rt s));
}.

Lemma clear_task_safe : task_safe iouringd_clear_task_slot.
Proof. by constructor. Qed.
End Arrays.

Section Logic.
Context {W : Type} `{Kernel W} (L : iouringd_limits) (capacity : Z).
Context (HL : limits_supported L) (Hcap : 0 <= capacity < 2 ^ 64).
Abbreviation DM := (DM (W := W)).
Abbreviation safe_state := (arrays_safe (W := W) L capacity).

(** The computation keeps the arrays, and what it returns satisfies [Q]. *)
Definition safe {A} (m : DM A) (Q : A -> Prop) : Prop :=
  forall s, safe_state s ->
  wp m s (fun r s' => safe_state s' /\ match r with Ok a => Q a | Err _ => True end).

(** Nothing is known of the result. *)
Abbreviation secure m := (safe m (fun _ => True)).

Lemma safe_bind {A B} (m : DM A) (k : A -> DM B) P Q :
  safe m P -> (forall a, P a -> safe (k a) Q) -> safe (mbnd m k) Q.
Proof.
  intros Hm Hk s Hs. apply wp_bind. eapply wp_weaken; [by apply Hm|].
  intros [a|e] s1 [H1 H2]; [by apply Hk|done].
Qed.

Lemma safe_try {A} (m : DM A) P :
  safe m P -> safe (mtry m) (fun r => match r with Ok a => P a | Err _ => True end).
Proof. intros Hm s Hs. apply wp_try. eapply wp_weaken; [by apply Hm|]. by intros r s1 []. Qed.

Lemma safe_weaken {A} (m : DM A) (P Q : A -> Prop) : safe m P -> (forall a, P a -> Q a) -> safe m Q.
Proof. intros Hm HPQ s Hs. eapply wp_weaken; [by apply Hm|]. intros [a|e] s1 []; eauto. Qed.

Lemma secure_try {A} (m : DM A) : secure m -> secure (mtry m).
Proof. intros Hm. eapply safe_weaken; [by apply safe_try|done]. Qed.

Lemma safe_ret {A} (a : A) (Q : A -> Prop) : Q a -> safe (mret a) Q.
Proof. by intros Ha s Hs. Qed.
Lemma safe_fail {A} e (Q : A -> Prop) : safe (mfail e) Q.
Proof. by intros s Hs. Qed.
Lemma safe_get {A} (f : sys W -> A) (Q : A -> Prop) :
  (forall s, safe_state s -> Q (f s)) -> safe (mget f) Q.
Proof. intros Hf s Hs. split; [done|]. by apply Hf. Qed.

Lemma safe_get_rt : safe get_rt (fun rt => rt_limits rt = L /\ rt_client_output_capacity rt = capacity).
Proof. apply safe_get. intros s []. done. Qed.
Lemma safe_get_client i : safe (get_client i) (fun c => (i < IOURINGD_MAX_CLIENTS)%nat -> client_safe L c).
Proof.
  apply safe_get. intros s [_ _ _ _ Hn Hc _] Hi. rewrite <- Hn in Hi.
  eapply Forall_forall; [exact Hc|]. apply list_elem_of_lookup. exists i. by apply lookup_total_lt.
Qed.
Lemma safe_get_task k : safe (get_task k) (task_safe L).
Proof.
  apply safe_get. intros s [_ _ _ _ _ _ Ht]. unfold the_task. rewrite list_lookup_total_alt.
  destruct (rt_tasks (s_rt s) !! k) as [t|] eqn:E; [|apply clear_task_safe].
  by eapply Forall_lookup_1.
Qed.

(** The updates. *)
Lemma safe_mod_rt f :
  (forall rt, rt_limits (f rt) = rt_limits rt /\
              rt_client_output_capacity (f rt) = rt_client_output_capacity rt /\
              rt_storage (f rt) = rt_storage rt /\ rt_trace_events (f rt) = rt_trace_events rt /\
              rt_clients (f rt) = rt_clients rt /\ rt_tasks (f rt) = rt_tasks rt) ->
  secure (mod_rt f).
Proof.
  intros Hf s Hs. split; [|done]. destruct (Hf (s_rt s)) as (E1 & E2 & E3 & E4 & E5 & E6).
  destruct Hs. constructor; cbn [s_rt put put_s_rt]; congruence.
Qed.

Lemma safe_set_client i c s :
  safe_state s -> client_safe L c ->
  safe_state (s <| s_rt := s_rt s <| rt_clients := <[i := c]> (rt_clients (s_rt s)) |> |>).
Proof.
  intros [H1 H2 H3 H4 H5 H6 H7] Hc.
  constructor; cbn [s_rt put put_s_rt rt_limits rt_client_output_capacity rt_storage rt_trace_events
    rt_clients rt_tasks put_rt_clients]; rewrite ?length_insert; try done. by apply Forall_insert.
Qed.

(** An update of one client; nothing happens when there is no such client. *)
Lemma safe_update_client i (g : client -> client) s :
  safe_state s -> (client_safe L (the_client s i) -> client_safe L (g (the_client s i))) ->
  safe_state (s <| s_rt := s_rt s <| rt_clients := <[i := g (the_client s i)]> (rt_clients (s_rt s)) |> |>).
Proof.
  intros Hs Hg. destruct (decide (i < length (rt_clients (s_rt s)))%nat) as [Hi|Hi].
  - apply safe_set_client; [done|]. apply Hg. rewrite (as_count _ _ _ Hs) in Hi.
    by apply (safe_get_client i s Hs).
  - rewrite list_insert_ge by lia. destruct Hs. by constructor.
Qed.

Lemma safe_mod_client i f : (forall c, client_safe L c -> client_safe L (f c)) -> secure (mod_client i f).
Proof. intros Hf s Hs. split; [|done]. apply (safe_update_client i f s Hs). apply Hf. Qed.

Lemma safe_mod_task k f : (forall t, task_safe L t -> task_safe L (f t)) -> secure (mod_task k f).
Proof.
  intros Hf s Hs. split; [|done]. destruct (safe_get_task k s Hs) as [_ Ht].
  destruct Hs as [H1 H2 H3 H4 H5 H6 H7].
  constructor; cbn [s_rt put put_s_rt rt_limits rt_client_output_capacity rt_storage rt_trace_events
    rt_clients rt_tasks put_rt_tasks]; try done. apply Forall_insert; [done|]. apply Hf. exact Ht.
Qed.

(** A change of the world, and of the list of closed descriptors. *)
Lemma safe_world s w cl : safe_state s -> safe_state (s <| s_world := w |> <| s_closed := cl |>).
Proof. intros []. by constructor. Qed.

Lemma safe_close_fds fds : secure (close_fds fds).
Proof. intros s []. split; [|done]. by constructor. Qed.
Lemma safe_with_ring f : secure (with_ring f).
Proof.
  intros s Hs. unfold wp, with_ring. destruct (f _ _) as [[[]  r] w]; (split; [|done]);
    destruct Hs; by constructor.
Qed.
Lemma safe_ring_update_file j fd : secure (ring_update_file j fd).
Proof.
  intros s Hs. unfold wp, ring_update_file. destruct (iouringd_ring_update_registered_file _ _ _ _) as [[] w];
    (split; [|done]); destruct Hs; by constructor.
Qed.
Lemma safe_emit_trace i ek tk p tid rid res cr : secure (emit_trace i ek tk p tid rid res cr).
Proof.
  intros s Hs. unfold wp, emit_trace. destruct (k_clock _) as [ts w]. split; [|done].
  destruct Hs as [H1 H2 H3 H4 H5 H6 H7]. constructor; try done. cbn. by rewrite length_insert.
Qed.

Lemma safe_queue_output i buf : secure (queue_output i buf).
Proof.
  intros s Hs. unfold wp, queue_output.
  destruct (iouringd_queue_client_output (c_out (the_client s i)) buf) as [rc b] eqn:E.
  split; [|by destruct rc]. apply (safe_update_client i (fun c => c <| c_out := b |>) s Hs).
  intros [H1 H2 H3 H4]. pose proof (queue_bytes _ buf H1) as Hq. rewrite E in Hq. destruct Hq as [Hq _].
  constructor; try done. by destruct H2.
Qed.

Lemma safe_set_res i f :
  (forall a, buffer_slot_limit (f a) = buffer_slot_limit a) -> secure (set_res i f).
Proof.
  intros Hf. apply safe_mod_client. intros c [H1 H2 H3 H4]. constructor; try done; [by destruct H2|].
  intros Hfd. cbn. rewrite Hf. by apply H3.
Qed.
Lemma safe_set_file_slot i j f : secure (set_file_slot i j f).
Proof. by apply safe_set_res. Qed.
Lemma safe_set_buffer_slot i j f : secure (set_buffer_slot i j f).
Proof. by apply safe_set_res. Qed.
Lemma safe_finish_request i : secure (iouringd_finish_client_request i).
Proof.
  apply safe_mod_client. intros c [H1 H2 H3 H4]. constructor; try done. by destruct H2.
Qed.
Lemma safe_set_received_fd i fd : secure (mod_client i (fun c => c <| c_received_fd := fd |>)).
Proof.
  apply safe_mod_client. intros c [H1 H2 H3 H4]. constructor; try done. by destruct H2.
Qed.
Lemma safe_clear_task k : secure (clear_task k).
Proof. apply safe_mod_task. intros t _. apply clear_task_safe. Qed.
Lemma safe_allocate_id i : secure (allocate_id i).
Proof.
  intros s Hs. unfold wp, allocate_id, mbnd, get_client, mget.
  destruct (iouringd_allocate_resource_id (c_res (the_client s i))) as [rid a] eqn:E.
  split; [|done]. apply (safe_update_client i (fun c => c <| c_res := a |>) s Hs).
  apply allocate_loop_fresh in E as [[v ->] _]. intros [H1 H2 H3 H4]. constructor; try done. by destruct H2.
Qed.
End Logic.

(** One step of a proof of [safe]: a bind, a case, or a step the database knows. *)
Create HintDb safe.
#[export] Hint Constants Opaque : safe.
#[export] Hint Resolve safe_fail safe_close_fds safe_with_ring safe_ring_update_file safe_emit_trace
  safe_queue_output safe_set_file_slot safe_set_buffer_slot safe_finish_request safe_set_received_fd safe_clear_task
  safe_allocate_id : safe.

Ltac safe_step :=
  lazymatch goal with
  | |- safe _ _ (mbnd get_rt _) _ => eapply safe_bind; [apply safe_get_rt|intros ? [? ?]]
  | |- safe _ _ (mbnd (get_client _) _) _ => eapply safe_bind; [apply safe_get_client|intros ? ?]
  | |- safe _ _ (mbnd (get_task _) _) _ => eapply safe_bind; [apply safe_get_task|intros ? ?]
  | |- safe _ _ (mbnd _ _) _ => apply (safe_bind _ _ _ _ (fun _ => True)); [|intros ? _]
  | |- safe _ _ (mtry _) _ => apply secure_try
  | |- safe _ _ (match ?x with _ => _ end) _ => destruct x eqn:?
  | |- safe _ _ (mret _) _ => apply safe_ret; done
  | |- safe _ _ (mget _) _ => apply safe_get; done
  | |- safe _ _ (get_file_slot _ _) _ => apply safe_get; done
  | |- safe _ _ (get_buffer_slot _ _) _ => apply safe_get; done
  | |- safe _ _ (mod_rt _) _ => apply safe_mod_rt; intros ?; split_and!; reflexivity
  | |- safe _ _ (set_res _ _) _ => apply safe_set_res; intros ?; try case_match; reflexivity
  | |- safe _ _ _ _ => solve [eauto with safe]
  end.
Ltac safe_tac := repeat safe_step.

Section Handlers.
Context {W : Type} `{Kernel W} (L : iouringd_limits) (capacity : Z).
Context (HL : limits_supported L) (Hcap : 0 <= capacity < 2 ^ 64).
Abbreviation DM := (DM (W := W)).
Abbreviation secure m := (safe (W := W) L capacity m (fun _ => True)).

(** ** Replies and releases *)

Lemma safe_queue_submit_result i tid res : secure (iouringd_queue_submit_result i tid res).
Proof. unfold iouringd_queue_submit_result. safe_tac. Qed.
Lemma safe_resource_reply i rid res avail : secure (resource_reply i rid res avail).
Proof. unfold resource_reply, iouringd_queue_resource_result. safe_tac. Qed.
Lemma safe_finish_true i : secure (finish_true i).
Proof. unfold finish_true. safe_tac. Qed.
Lemma safe_clear_file_slot i j : secure (clear_file_slot i j).
Proof. unfold clear_file_slot. safe_tac. Qed.
Lemma safe_try_release_buffer i j : secure (iouringd_try_release_buffer_slot i j).
Proof. unfold iouringd_try_release_buffer_slot. safe_tac. Qed.
Lemma safe_drop_received_fd i : secure (drop_received_fd i).
Proof. unfold drop_received_fd. safe_tac. Qed.
Lemma safe_resource_event i ev rid : secure (resource_event i ev rid).
Proof. unfold resource_event. safe_tac. Qed.
Lemma safe_account_task i d cr : secure (account_task i d cr).
Proof. unfold account_task, count_task, count_client_task. safe_tac. Qed.
Lemma safe_unallocate_id i rid : secure (unallocate_id i rid).
Proof. unfold unallocate_id, iouringd_unallocate_resource_id. safe_tac. Qed.
Lemma safe_dec_file i j : secure (dec_file i j).
Proof. apply safe_set_file_slot. Qed.
Lemma safe_inc_file i j : secure (inc_file i j).
Proof. apply safe_set_file_slot. Qed.
Lemma safe_dec_buffer i bj : secure (dec_buffer i bj).
Proof. unfold dec_buffer. safe_tac. Qed.
Lemma safe_inc_buffer i bj : secure (inc_buffer i bj).
Proof. unfold inc_buffer. safe_tac. Qed.
Lemma safe_reopen_slot i j fd : secure (reopen_slot i j fd).
Proof. unfold reopen_slot. safe_tac. Qed.

#[local] Hint Resolve safe_queue_submit_result safe_resource_reply safe_finish_true safe_clear_file_slot
  safe_unallocate_id safe_dec_file safe_dec_buffer safe_account_task : safe.

Lemma safe_reject i e : secure (reject i e).
Proof. unfold reject, iouringd_reject_submit. safe_tac. Qed.
Lemma safe_refuse i e avail : secure (refuse i e avail).
Proof. unfold refuse. safe_tac. Qed.
Lemma safe_try_release_file i j : secure (iouringd_try_release_file_slot i j).
Proof. unfold iouringd_try_release_file_slot. safe_tac. Qed.
Lemma safe_drop_result_slot i j : secure (drop_result_slot i j).
Proof. unfold drop_result_slot. safe_tac. Qed.

#[local] Hint Resolve safe_reject safe_drop_result_slot : safe.

Lemma safe_undo_submit_io i k j bj : secure (undo_submit_io i k j bj).
Proof. unfold undo_submit_io. safe_tac. Qed.
Lemma safe_undo_reply_io i k j bj : secure (undo_reply_io i k j bj).
Proof. unfold undo_reply_io. safe_tac. Qed.
Lemma safe_accept_task i k credit undo : secure undo -> secure (accept_task i k credit undo).
Proof. intros Hu. unfold accept_task. safe_tac. Qed.
Lemma safe_abandon_task i k e undo : secure undo -> secure (abandon_task i k e undo).
Proof. intros Hu. unfold abandon_task. safe_tac. Qed.
End Handlers.

#[export] Hint Resolve safe_queue_submit_result safe_resource_reply safe_finish_true safe_clear_file_slot
  safe_try_release_buffer safe_drop_received_fd safe_resource_event safe_account_task safe_unallocate_id
  safe_dec_file safe_inc_file safe_dec_buffer safe_inc_buffer safe_reopen_slot safe_reject safe_refuse
  safe_try_release_file safe_drop_result_slot safe_undo_submit_io safe_undo_reply_io safe_accept_task
  safe_abandon_task : safe.

(** ** Dispatching *)

(** A task request that passed the guards asks for no more bytes than the limit. *)
Lemma guards_length c :
  argument_guards c = None ->
  kind_copies (req_kind c) = true \/ req_kind c = IOURINGD_TASK_KIND_OPENAT ->
  io_length (c_req c) <= c_io_bytes_max c.
Proof.
  unfold kind_copies, kind_is_io, argument_guards. cbv zeta. intros Hg Hk.
  assert (Hc : forall a b : bool, (a || b) = false -> b = false) by (by intros [] []).
  destruct (c_io_bytes_max c <? io_length (c_req c)) eqn:El; bool_hyps; [exfalso|done].
  destruct Hk as [Hk|Hk]; [|rewrite Hk in Hg; cbn in Hg; by rewrite orb_true_r in Hg].
  apply andb_true_iff in Hk as [Hk Hp]. rewrite !orb_true_iff in Hk.
  repeat destruct Hk as [Hk|Hk]; bool_hyps; rewrite Hk in Hg, Hp; try done; cbn in Hg;
    rewrite ?orb_true_r in Hg; done.
Qed.

Lemma io_buffer_slot_bound c bj :
  io_buffer_slot c = Ok bj -> req_kind c = IOURINGD_TASK_KIND_SOCK_READ_FIXED ->
  exists b, bj = Some b /\ Z.of_nat b < buffer_slot_limit (c_res c).
Proof.
  unfold io_buffer_slot. cbv zeta. intros E Ek. rewrite Ek, Z.eqb_refl in E. cbn [orb] in E.
  destruct (iouringd_find_buffer_slot _ _) as [b|] eqn:Eb; [|done].
  apply find_index_Some in Eb as (x & Hx & _). apply buffer_slots_lookup in Hx as [Hx _].
  destruct (bs_closing _); [done|]. destruct (_ && _); [done|]. injection E as <-.
  exists b. split; [done|lia].
Qed.

Section Dispatching.
Context {W : Type} `{Kernel W} (L : iouringd_limits) (capacity : Z) (i : nat).
Context (HL : limits_supported L) (Hi : Z.of_nat i < max_clients L).
Abbreviation DM := (DM (W := W)).
Abbreviation secure m := (safe (W := W) L capacity m (fun _ => True)).

Lemma live_index : (i < IOURINGD_MAX_CLIENTS)%nat.
Proof. destruct HL as (_ & H2 & _). unfold IOURINGD_MAX_CLIENTS. lia. Qed.

(** A copy into the registered storage of a client. *)
Lemma safe_store j data :
  0 <= Z.of_nat j < registered_buffers_per_client L ->
  Z.of_nat (length data) <= lim_io_bytes_max L ->
  secure (mod_rt (fun rt => rt <| rt_storage :=
            blit (Z.to_nat (iouringd_buffer_storage_at rt i j)) data (rt_storage rt) |>)).
Proof.
  intros Hj Hd s Hs. split; [|done]. destruct HL as (_ & H2 & _ & H4 & _ & H6).
  destruct Hs as [S1 S2 S3 S4 S5 S6 S7]. constructor; try done.
  cbn [s_rt put put_s_rt rt_storage put_rt_storage].
  unfold iouringd_buffer_storage_at, iouringd_global_buffer_index. rewrite S1.
  assert (Hb : 0 <= Z.of_nat i * registered_buffers_per_client L + Z.of_nat j <
               max_clients L * registered_buffers_per_client L) by nia.
  rewrite u32_id by nia. rewrite length_blit; [done|]. nia.
Qed.

(** ** The tasks that are filled in *)

Lemma copy_task_safe c n t : task_safe L t -> n <= lim_io_bytes_max L -> task_safe L (copy_to_task c n t).
Proof.
  intros [H1 H2 H3 H4] Hn. constructor; try done. cbn [copy_to_task t_io_buffer put put_t_io_buffer].
  rewrite length_blit; [done|]. rewrite H1, Nat.add_0_l, length_take.
  destruct HL as (_ & _ & _ & _ & _ & H6). unfold IOURINGD_MAX_IO_BYTES. lia.
Qed.

(** Where the task request of a connected client stands after the guards. *)
Definition admitted (c : client) : Prop :=
  argument_guards c = None /\ c_io_bytes_max c = lim_io_bytes_max L /\
  buffer_slot_limit (c_res c) = registered_buffers_per_client L.

Lemma task_openat_safe rt c j rid :
  admitted c -> req_kind c = IOURINGD_TASK_KIND_OPENAT -> task_safe L (task_openat rt c i j rid).
Proof.
  intros (Hg & Hm & _) Hk. apply copy_task_safe; [|rewrite <- Hm; apply guards_length; [done|by right]].
  constructor; [done|..]; cbn; rewrite Hk; done.
Qed.
Lemma task_close_safe rt c j fd :
  req_kind c = IOURINGD_TASK_KIND_CLOSE -> task_safe L (task_close rt c i j fd).
Proof. intros Hk. constructor; [done|..]; cbn; rewrite Hk; done. Qed.
Lemma task_io_safe rt c j bj :
  admitted c -> io_buffer_slot c = Ok bj -> task_safe L (task_io rt c i j bj).
Proof.
  intros (Hg & Hm & Hb) Es. constructor; [done|..]; cbn.
  - intros Hk. rewrite <- Hm. apply guards_length; [done|by left].
  - intros Hk. rewrite <- Hm. apply guards_length; [done|by left].
  - intros Hk. destruct (io_buffer_slot_bound c bj Es Hk) as (b & -> & Hlt). lia.
Qed.
Lemma new_task_safe rt c : kind_is_io (req_kind c) = false -> task_safe L (new_task rt c i).
Proof.
  intros Hk. constructor; [done|..]; cbn; unfold kind_copies.
  - by rewrite Hk.
  - by rewrite Hk.
  - intros E. rewrite E in Hk. done.
Qed.

(** ** The branches *)

Lemma safe_register_fd : secure (dispatch_register_fd i).
Proof. unfold dispatch_register_fd. safe_tac. Qed.

Lemma safe_release : secure (dispatch_release i).
Proof. unfold dispatch_release. safe_tac. Qed.

Lemma safe_register_buffer (s : sys W) :
  arrays_safe L capacity s -> request_ready (c_req (the_client s i)) = true ->
  control_op (c_req (the_client s i)) = IOURINGD_REQUEST_KIND_REGISTER_BUFFER ->
  wp (dispatch_register_buffer i) s (fun _ s' => arrays_safe L capacity s').
Proof.
  intros Hs Hr Hop. unfold dispatch_register_buffer. apply wp_bind.
  destruct (safe_get_client L capacity i s Hs) as [_ Hc]. specialize (Hc live_index).
  cbn beta in Hc. unfold wp at 1, get_client, mget.
  destruct (cs_request _ _ Hc Hr) as [Hfd Hfit]. specialize (Hfit Hop).
  destruct (cs_limits _ _ Hc Hfd) as [Em Eb]. rewrite Em in Hfit.
  revert Hc Hfd Hfit Em Eb. clear Hr Hop. generalize (the_client s i) as c. intros c Hc Hfd Hfit Em Eb.
  match goal with |- wp ?m s _ => enough (secure m) as Hk end.
  { eapply wp_weaken; [exact (Hk s Hs)|]. by intros r s' []. }
  destruct (iouringd_find_free_buffer_slot (c_res c)) as [j|] eqn:Ej; [|safe_tac].
  apply find_index_Some in Ej as (x & Hx & _). apply buffer_slots_lookup in Hx as [Hx _].
  safe_tac. apply safe_store; [lia|]. rewrite length_take. destruct HL as (_ & _ & _ & _ & _ & Hio). lia.
Qed.

Lemma safe_submit_io k j : secure (submit_io i k j).
Proof.
  unfold submit_io. do 3 safe_step. eapply safe_bind; [by apply (safe_get _ _ _ (fun _ => True))|]. intros sl _.
  cbv zeta. safe_tac.
  all: apply safe_mod_task; intros t Ht; apply copy_task_safe; [done|].
  all: match goal with Hs : task_safe L ?t |- t_io_length ?t <= _ => apply (ts_length _ _ Hs) end.
  all: unfold kind_copies, kind_is_io.
  all: repeat match goal with Hb : (_ || _) = true |- _ => apply orb_true_iff in Hb as [Hb|Hb] end.
  all: match goal with Hb : (t_task_kind _ =? _) = true |- _ => apply Z.eqb_eq in Hb; by rewrite Hb end.
Qed.

Lemma safe_reserve_result k : secure (reserve_result i k).
Proof.
  unfold reserve_result. safe_tac. apply safe_mod_task. intros t [T1 T2 T3 T4]. by constructor.
Qed.

Lemma safe_start_io rt c k j bj :
  admitted c -> io_buffer_slot c = Ok bj -> secure (start_io i rt c k j bj).
Proof.
  intros Ha Hb. unfold start_io. pose proof safe_reserve_result as Hr. pose proof safe_submit_io as Hs.
  safe_tac. apply safe_mod_task. intros t _. by apply task_io_safe.
Qed.

Lemma safe_dispatch_openat rt c :
  admitted c -> req_kind c = IOURINGD_TASK_KIND_OPENAT -> secure (dispatch_openat i rt c).
Proof.
  intros Ha Hk. unfold dispatch_openat. safe_tac.
  - apply safe_mod_task. intros t _. by apply task_openat_safe.
  - apply safe_abandon_task. safe_tac.
Qed.

Lemma safe_dispatch_close rt c :
  req_kind c = IOURINGD_TASK_KIND_CLOSE -> secure (dispatch_close i rt c).
Proof.
  intros Hk. unfold dispatch_close. safe_tac. apply safe_mod_task. intros t _. by apply task_close_safe.
Qed.

Lemma safe_dispatch_io rt c : admitted c -> secure (dispatch_io i rt c).
Proof. intros Ha. unfold dispatch_io. pose proof safe_start_io as Hs. safe_tac. Qed.

Lemma safe_submit_simple k : secure (submit_simple i k).
Proof.
  unfold submit_simple. safe_tac; apply safe_mod_task; intros t [T1 T2 T3 T4]; by constructor.
Qed.

Lemma safe_dispatch_simple rt c : kind_is_io (req_kind c) = false -> secure (dispatch_simple i rt c).
Proof.
  intros Hk. unfold dispatch_simple. pose proof safe_submit_simple as Hs. safe_tac.
  - apply safe_mod_task. intros t _. by apply new_task_safe.
  - apply safe_accept_task. by apply safe_ret.
  - apply safe_abandon_task. by apply safe_ret.
Qed.

Lemma safe_dispatch_task rt c : admitted c -> secure (dispatch_task i rt c).
Proof.
  intros Ha. unfold dispatch_task.
  destruct (_ =? _) eqn:E1; bool_hyps; [by apply safe_dispatch_openat|].
  destruct (req_kind c =? _) eqn:E2; bool_hyps; [by apply safe_dispatch_close|].
  destruct (kind_is_io _) eqn:E3; [by apply safe_dispatch_io|by apply safe_dispatch_simple].
Qed.

Lemma safe_queue_events es : secure (queue_events i es).
Proof. induction es as [|e es IH]; cbn [queue_events]; safe_tac. Qed.

Lemma safe_dispatch_request : secure (iouringd_dispatch_client_request i).
Proof.
  intros s Hs. destruct (safe_get_client L capacity i s Hs) as [_ Hc]. specialize (Hc live_index).
  cbn beta in Hc. unfold iouringd_dispatch_client_request. apply wp_bind.
  unfold wp at 1, get_client, mget. cbv zeta.
  destruct (request_ready _) eqn:Hr; cbn [negb]; [|done].
  destruct (cs_request _ _ Hc Hr) as [Hfd _]. destruct (cs_limits _ _ Hc Hfd) as [Em Eb].
  destruct (_ =? IOURINGD_REQUEST_KIND_REGISTER_FD); [by apply safe_register_fd|].
  destruct (_ =? IOURINGD_REQUEST_KIND_REGISTER_BUFFER) eqn:Eop; bool_hyps.
  { eapply wp_weaken; [by apply safe_register_buffer|]. intros r s' H'. by destruct r. }
  revert Hc Em Eb. generalize (the_client s i) as c. intros c Hc Em Eb.
  match goal with |- wp ?m s _ => enough (secure m) as Hk by exact (Hk s Hs) end.
  destruct (_ =? IOURINGD_REQUEST_KIND_RELEASE_RESOURCE); [apply safe_release|].
  unfold iouringd_queue_stats_result, iouringd_queue_trace_result. pose proof safe_queue_events as He.
  safe_tac. apply safe_dispatch_task. split_and!; [|done|done].
  unfold submit_guards in *. by repeat case_match.
Qed.
End Dispatching.

(** ** Completions *)

Section Completing.
Context {W : Type} `{Kernel W} (L : iouringd_limits) (capacity : Z).
Context (HL : limits_supported L) (Hcap : 0 <= capacity < 2 ^ 64).
Abbreviation secure m := (safe (W := W) L capacity m (fun _ => True)).

Lemma safe_install_result t fd : secure (install_result t fd).
Proof. unfold install_result. safe_tac. Qed.
Lemma safe_complete_account t : secure (complete_account t).
Proof. unfold complete_account. safe_tac. Qed.
Lemma safe_complete_file_slot t : secure (complete_file_slot t).
Proof. unfold complete_file_slot, unref_file. safe_tac. Qed.
Lemma safe_complete_result_slot t : secure (complete_result_slot t).
Proof. unfold complete_result_slot, unref_file. safe_tac. Qed.
Lemma safe_complete_buffer_slot t : secure (complete_buffer_slot t).
Proof. unfold complete_buffer_slot, unref_buffer. safe_tac. Qed.
Lemma safe_completion_reply t x payload : secure (completion_reply t x payload).
Proof. unfold completion_reply. safe_tac. Qed.
Lemma safe_read_payload t res payload : secure (read_payload t res payload).
Proof. unfold read_payload. safe_tac. Qed.

#[local] Hint Resolve safe_install_result safe_complete_account safe_complete_file_slot
  safe_complete_result_slot safe_complete_buffer_slot safe_completion_reply safe_read_payload : safe.

Lemma safe_complete_task k res : secure (iouringd_complete_task k res).
Proof.
  unfold iouringd_complete_task, iouringd_prepare_accept_completion, iouringd_prepare_openat_completion.
  safe_tac.
Qed.

Lemma safe_peek_completion : secure peek_completion.
Proof.
  intros s Hs. unfold wp, peek_completion. destruct (iouringd_ring_peek_completion _ _) as [[oc r] w].
  split; [|done]. destruct Hs. by constructor.
Qed.

(** What the kernel writes fits the buffer the task named. *)
Lemma task_data_safe n e t' :
  n <= lim_io_bytes_max L -> task_safe L t' ->
  task_safe L (t' <| t_io_buffer := blit 0 (take (Z.to_nat n) (cqe_data e)) (t_io_buffer t') |>).
Proof.
  intros Hl [T1 T2 T3 T4]. constructor; try done.
  cbn [t_io_buffer put put_t_io_buffer]. rewrite length_blit; [done|].
  rewrite T1, Nat.add_0_l, length_take. destruct HL as (_ & _ & _ & _ & _ & Hio).
  unfold IOURINGD_MAX_IO_BYTES. lia.
Qed.

Lemma safe_kernel_writes k e : secure (kernel_writes k e).
Proof.
  unfold kernel_writes. eapply safe_bind; [apply safe_get_task|]. intros t Ht. cbv zeta.
  destruct (_ || _) eqn:E1.
  { assert (Hk : kind_copies (t_task_kind t) = true).
    { apply orb_true_iff in E1 as [E1|E1]; apply Z.eqb_eq in E1; by rewrite E1. }
    apply safe_mod_task. intros t' Ht'. apply task_data_safe; [by apply ts_iov|done]. }
  destruct (_ && _) eqn:E2.
  { apply andb_true_iff in E2 as [E2 _]. apply Z.eqb_eq in E2.
    apply safe_mod_task. intros t' Ht'.
    destruct (task_data_safe (t_io_length t) e t') as [T1 T2 T3 T4]; [apply ts_length; [done|by rewrite E2]|done|]. by constructor. }
  destruct (t_task_kind t =? IOURINGD_TASK_KIND_SOCK_READ_FIXED) eqn:E3; [|by apply safe_ret].
  apply Z.eqb_eq in E3.
  destruct (ts_place _ _ Ht E3) as [Hi Hb]. pose proof (ts_length _ _ Ht ltac:(by rewrite E3)) as Hl.
  apply safe_store; [done|done|lia|]. rewrite length_take. destruct HL as (_ & _ & _ & _ & _ & Hio). lia.
Qed.

Lemma safe_reap fuel p : secure (reap_loop fuel p).
Proof.
  pose proof safe_peek_completion as H1. pose proof safe_kernel_writes as H2.
  pose proof safe_complete_task as H3. revert p.
  induction fuel as [|fuel IH]; intros p; cbn [reap_loop]; safe_tac.
Qed.

Lemma safe_for_each n (body : nat -> DM bool) :
  (forall j, (j < n)%nat -> secure (body j)) -> secure (for_each n body).
Proof.
  induction n as [|n IH]; intros Hb; cbn [for_each]; [by apply safe_ret|].
  assert (Hn : secure (for_each n body)) by (apply IH; intros j Hj; apply Hb; lia).
  assert (Hm : secure (body n)) by (apply Hb; lia). safe_tac.
Qed.

Lemma safe_clients (body : nat -> DM bool) :
  (forall i, Z.of_nat i < max_clients L -> secure (body i)) ->
  secure (mbnd get_rt (fun rt => for_each (Z.to_nat (max_clients (rt_limits rt))) body)).
Proof.
  intros Hb. eapply safe_bind; [apply safe_get_rt|]. intros rt [-> _]. apply safe_for_each.
  intros j Hj. apply Hb. lia.
Qed.

Lemma safe_sweep : secure iouringd_sweep_closing_resources.
Proof.
  apply safe_clients. intros i _. unfold sweep_client.
  safe_step. safe_step; [|safe_step].
  - apply safe_for_each. intros j _. unfold sweep_file. safe_tac.
  - apply safe_for_each. intros j _. unfold sweep_buffer. safe_tac.
  - safe_tac.
Qed.
End Completing.
