(* ===== verification/Safety.v ===== *)
(** * Memory safety of the main loop

    Reading, parsing, opening and closing clients keep the arrays of [Memory],
    and with the handlers so does every round of the main loop: [memory_safe]
    shows it of every state the main loop reaches, whatever the clients send. *)

From S2P Require Import Prelude Wire Kernel Ring State Output Resources Trace Daemon Startup Input Request Reader Dispatch Complete Sched Session Books Ledger Work Accounting Settle Invariant Correct Memory.

(** ** Clients *)

Lemma outbuf_wf_closed : outbuf_wf (mk_outbuf [] 0 0 0).
Proof. constructor; cbn; lia. Qed.

(** A reset input buffer. *)
Lemma reset_input_wf c b :
  c_in c = iouringd_reset_client_input b -> length (input b) = IOURINGD_MAX_REQUEST_BYTES ->
  Forall is_byte (input b) -> length (io_payload (c_req c)) = IOURINGD_MAX_IO_BYTES ->
  0 <= c_io_bytes_max c <= Z.of_nat IOURINGD_MAX_IO_BYTES -> input_wf c.
Proof.
  intros E Hl Hb Hp Hm. constructor; rewrite ?E; try done.
Qed.
Lemma zero_bytes n : Forall is_byte (replicate n 0).
Proof. apply Forall_replicate. unfold is_byte. lia. Qed.

(** A closed client is safe whatever its buffers were. *)
Lemma close_client_safe L c :
  0 <= c_io_bytes_max c <= Z.of_nat IOURINGD_MAX_IO_BYTES ->
  client_safe L (fst (iouringd_close_client c)).
Proof.
  intros Hm. constructor; [apply outbuf_wf_closed| |done|done].
  eapply reset_input_wf; [reflexivity|done|apply zero_bytes|done|exact Hm].
Qed.

(** A parser round that asks for more bytes leaves the request as it was. *)
Definition waits (c : client) (pr : processed) : Prop :=
  forall c', pr = (Ok false, c') -> request_ready (c_req c') = request_ready (c_req c).

Lemma waits_processed c c1 : waits c (finish_processed c1).
Proof.
  intros c' E. unfold finish_processed in E. by destruct (iouringd_finish_submit_request c1) as [[[]|e] c2].
Qed.
Lemma waits_need c c0 m k :
  c_req c0 = c_req c -> (forall m', waits c (k (expect m' c0))) -> waits c (need m c0 k).
Proof.
  intros E Hk c'. unfold need. cbv zeta. destruct (_ <? _); [|apply Hk]. intros [= <-]. cbn. by rewrite E.
Qed.
Lemma waits_need_payload c m size len : waits c (need_payload size len (expect m c)).
Proof.
  intros c'. unfold need_payload. cbv zeta. destruct (_ <? _); [done|].
  apply waits_need; [done|]. intros m'. apply waits_processed.
Qed.
Lemma waits_by_kind c kind : waits c (process_by_kind kind c).
Proof.
  unfold process_by_kind, process_poll, process_connect, process_accept, process_openat,
    process_close, process_get_trace, process_register_buffer, process_write.
  repeat match goal with |- context [if ?x then _ else _] =>
           lazymatch x with context [kind] => destruct x end end;
    try (apply waits_need; [done|]; intros m';
         unfold process_connect_rest, process_openat_rest, process_register_buffer_rest,
           process_write_rest; cbv zeta;
         repeat match goal with |- context [if ?x then _ else _] => destruct x end;
         first [ by intros c' | apply waits_need_payload | by apply waits_processed ]).
  by apply waits_processed.
Qed.
Lemma process_submit_input_waits c c' :
  iouringd_process_submit_input c = (Ok false, c') -> request_ready (c_req c') = request_ready (c_req c).
Proof.
  unfold iouringd_process_submit_input. destruct (_ <? _); [by intros [= <-]|]. cbv zeta.
  destruct (negb _); [done|]. intros E%waits_by_kind. exact E.
Qed.

Section Clients.
Context {W : Type} `{Kernel W} (L : iouringd_limits) (capacity : Z).
Context (HL : limits_supported L) (Hcap : 0 <= capacity < 2 ^ 64).
Context (Hrecv : recv_documented (W := W)) (Hwrite : write_documented (W := W)).
Abbreviation secure m := (safe (W := W) L capacity m (fun _ => True)).
Abbreviation safe_state := (arrays_safe (W := W) L capacity).

Lemma safe_close_client i : secure (close_client i).
Proof.
  unfold close_client. safe_tac. apply safe_mod_client. intros c Hc. apply close_client_safe.
  apply (iw_max _ (cs_input _ _ Hc)).
Qed.

Lemma opened_client_safe rt fd c :
  rt_limits rt = L -> rt_client_output_capacity rt = capacity -> client_safe L (opened_client rt fd c).
Proof.
  intros El Ec. destruct HL as (_ & _ & _ & _ & _ & Hio). constructor.
  - cbn. rewrite Ec. constructor; cbn; try lia. rewrite length_replicate. lia.
  - eapply reset_input_wf; [reflexivity|done|apply zero_bytes|done|].
    change (c_io_bytes_max _) with (lim_io_bytes_max (rt_limits rt)). rewrite El.
    unfold IOURINGD_MAX_IO_BYTES. lia.
  - intros _. cbn. by rewrite El.
  - done.
Qed.

(** A call that changes only the world. *)
Lemma safe_world_call {A} (f : sys W -> outcome A * W) :
  secure (fun s => let '(rc, w) := f s in (rc, s <| s_world := w |>)).
Proof.
  intros s Hs. unfold wp. destruct (f s) as [rc w]. split; [|by destruct rc]. destruct Hs. by constructor.
Qed.

Lemma safe_open_client fd : secure (iouringd_open_client fd).
Proof.
  unfold iouringd_open_client. safe_step; [apply secure_try, (safe_world_call (fun s => k_set_nonblocking (s_world s) fd))|].
  safe_step; [safe_tac|]. safe_step. safe_step; [|safe_tac]. safe_step.
  { intros s Hs. unfold wp. destruct (k_malloc _ _) as [ok w]. split; [|done]. destruct Hs. by constructor. }
  safe_tac. apply safe_mod_client. intros c _. by apply opened_client_safe.
Qed.

Lemma safe_accept_loop fuel p : secure (accept_loop fuel p).
Proof.
  pose proof safe_open_client as Ho. revert p.
  induction fuel as [|fuel IH]; intros p; cbn [accept_loop]; [by apply safe_ret|].
  safe_step; [apply secure_try, (safe_world_call (fun s => k_accept (s_world s) _))|].
  safe_step; [safe_tac|]. safe_step; [|safe_tac].
  safe_step; [apply secure_try, (safe_world_call (fun s => k_set_cloexec (s_world s) _))|]. safe_tac.
Qed.

Lemma safe_flush i : secure (flush_client_output i).
Proof.
  intros s Hs. unfold wp, flush_client_output.
  destruct (iouringd_flush_client_output _ _ _) as [[rc b] w] eqn:E.
  split; [|by destruct rc].
  set (s1 := s <| s_rt := s_rt s <| rt_clients := <[i := the_client s i <| c_out := b |>]> (rt_clients (s_rt s)) |> |>).
  assert (H1 : safe_state s1); [|destruct H1; by constructor].
  apply (safe_update_client L capacity i (fun c => c <| c_out := b |>) s Hs).
  intros [C1 C2 C3 C4].
  pose proof (flush_loop_spec (S (Z.to_nat (output_len (c_out (the_client s i)) - output_sent (c_out (the_client s i)))))
    (s_world s) (c_fd (the_client s i)) _ Hwrite C1) as Hf.
  unfold iouringd_flush_client_output in E. rewrite E in Hf.
  destruct Hf as [Hf _]; [destruct C1; lia|]. constructor; try done. by destruct C2.
Qed.

Lemma safe_flush_or_close i : secure (flush_or_close i).
Proof.
  pose proof safe_flush as Hf. pose proof safe_close_client as Hc. unfold flush_or_close. safe_tac.
Qed.

(** ** Reading *)

Lemma safe_read_client_input i : secure (read_client_input i).
Proof.
  intros s Hs. unfold wp, read_client_input, iouringd_read_client_input.
  set (c := the_client s i). set (fuel := S _).
  pose proof (read_loop_untouched fuel (s_world s) c) as Hu.
  destruct (read_loop fuel (s_world s) c) as [[[rc c'] cl] w'] eqn:E.
  split; [|by destruct rc].
  set (s1 := s <| s_rt := s_rt s <| rt_clients := <[i := c']> (rt_clients (s_rt s)) |> |>).
  assert (H1 : safe_state s1); [|destruct H1; by constructor].
  apply (safe_update_client L capacity i (fun _ => c') s Hs). fold c. intros [C1 C2 C3 C4].
  eapply (read_loop_keeps Hrecv) in E as (K & _ & _); [|exact C2|destruct C2; lia].
  injection Hu as Ef Eg Er Eo Em. constructor.
  - by rewrite Eo.
  - apply (rk_wf _ _ K).
  - by rewrite Ef, Em, Er.
  - by rewrite (rk_req _ _ K), Ef, Em.
Qed.

Lemma safe_queue_handshake i q : secure (iouringd_queue_handshake_result i q).
Proof.
  unfold iouringd_queue_handshake_result. safe_step. cbv zeta. safe_step; [|safe_step; [safe_tac|]].
  - apply safe_mod_client. intros c [C1 C2 C3 C4].
    destruct (handshake_request_ok q); constructor; try done; by destruct C2.
  - apply safe_mod_client. intros c [C1 C2 C3 C4]. constructor; try done.
    destruct C2. by eapply reset_input_wf.
Qed.

(** A parsed request, when the client is connected. *)
Lemma processed_safe c b c' :
  client_safe L c -> 0 <= c_fd c -> request_ready (c_req c) = false ->
  iouringd_process_submit_input c = (Ok b, c') -> client_safe L c'.
Proof.
  intros [C1 C2 C3 C4] Hfd Hr E. pose proof (process_submit_input_untouched c) as Hu.
  pose proof (process_input_ok c C2) as Hok. unfold same_but_input in Hu. rewrite E in Hu, Hok.
  cbn [snd] in Hu. injection Hu as Ef Eg Er Eo Em.
  assert (Hw : input_wf c') by (destruct b; apply Hok).
  constructor; [by rewrite Eo|done|by rewrite Ef, Em, Er|].
  intros Hr'. rewrite Ef. split; [done|]. destruct b; [apply Hok|].
  apply process_submit_input_waits in E. congruence.
Qed.

Lemma secure_wp {A} (m : DM A) s : secure m -> safe_state s -> wp m s (fun _ s' => safe_state s').
Proof. intros Hm Hs. eapply wp_weaken; [exact (Hm s Hs)|]. by intros r s' []. Qed.

Lemma close_disordered i c s :
  safe_state s -> (i < IOURINGD_MAX_CLIENTS)%nat ->
  0 <= c_io_bytes_max c <= Z.of_nat IOURINGD_MAX_IO_BYTES ->
  wp (close_client i) (s <| s_rt := s_rt s <| rt_clients := <[i := c]> (rt_clients (s_rt s)) |> |>)
    (fun _ s' => safe_state s').
Proof.
  intros Hs Hi Hm. rewrite <- (as_count _ _ _ Hs) in Hi.
  unfold wp, close_client, mbnd, get_client, mget, close_fds, mod_client, mod_rt, mmod.
  set (c' := fst (iouringd_close_client c)).
  pose proof (safe_set_client L capacity i c' s Hs (close_client_safe L c Hm)) as [S1 S2 S3 S4 S5 S6 S7].
  assert (E : <[i := fst (iouringd_close_client (<[i := c]> (rt_clients (s_rt s)) !!! i))]>
                (<[i := c]> (rt_clients (s_rt s))) = <[i := c']> (rt_clients (s_rt s))).
  { rewrite insert_total_eq by done. apply list_insert_insert_eq. }
  constructor; cbn [s_rt put put_s_rt put_s_closed rt_limits rt_client_output_capacity rt_storage
    rt_trace_events rt_clients rt_tasks put_rt_clients] in *; rewrite ?E; done.
Qed.

(** The service of a readable client: a request that cannot be parsed leaves a
    buffer in disorder, and the client is closed at once. *)
Lemma service_safe fuel i progress s :
  (i < IOURINGD_MAX_CLIENTS)%nat -> safe_state s ->
  wp (service_loop fuel i progress) s (fun _ s' => safe_state s').
Proof.
  intros Hi. revert progress s. induction fuel as [|fuel IH]; intros progress s Hs; cbn [service_loop]; [done|]; unfold service_round; cbn beta.
  apply wp_bind. unfold wp at 1, get_client, mget.
  destruct (_ && _) eqn:Ea; cbn [negb]; [|done].
  apply andb_true_iff in Ea as [Hfd%Z.leb_le Hr%negb_true_iff].
  apply wp_bind, wp_try. pose proof (safe_read_client_input i s Hs) as H1.
  unfold wp in H1 |- * at 1. destruct (read_client_input i s) as [rc s1] eqn:Er. destruct H1 as [H1 _].
  assert (Hclose : wp (mbnd (close_client i) (fun _ => mret true)) s1 (fun _ s' => safe_state s')).
  { apply secure_wp; [|done]. pose proof safe_close_client as Hc. safe_tac. }
  destruct rc as [[]|e]; [done| |done|done]. clear Hclose.
  pose proof (proj2 (safe_get_client L capacity i s Hs) Hi) as C0. cbn beta in C0.
  assert (Hl : (i < length (rt_clients (s_rt s)))%nat) by (by rewrite (as_count _ _ _ Hs)).
  destruct (read_client_input_keeps Hrecv i s _ s1 Hl (cs_input _ _ C0) Er) as (K & Hl1 & _).
  pose proof (proj2 (safe_get_client L capacity i s1 H1) Hi) as C1. cbn beta in C1.
  rewrite <- (rk_fd _ _ K) in Hfd. rewrite <- (rk_req _ _ K) in Hr. clear K Er C0.
  apply wp_bind. unfold wp at 1. destruct (c_phase (the_client s1 i)).
  { apply secure_wp; [|done]. pose proof safe_queue_handshake as Hq. safe_tac. }
  apply wp_bind, wp_try. unfold wp at 1, process_submit_input.
  destruct (iouringd_process_submit_input (the_client s1 i)) as [[b|e] c2] eqn:Ep.
  - assert (C2 : client_safe L c2) by (by eapply processed_safe).
    pose proof (safe_set_client L capacity i c2 s1 H1 C2) as H2.
    apply wp_bind. unfold wp at 1.
    match goal with |- context [if ?ready then _ else _] => destruct ready end; [done|by apply IH].
  - apply wp_bind. eapply wp_weaken; [apply (close_disordered i c2 s1 H1 Hi)|by intros []].
    pose proof (process_submit_input_untouched (the_client s1 i)) as Hu.
    unfold same_but_input in Hu. rewrite Ep in Hu. injection Hu as _ _ _ _ Em. rewrite Em.
    apply (iw_max _ (cs_input _ _ C1)).
Qed.

Lemma safe_service i : Z.of_nat i < max_clients L -> secure (iouringd_service_client_readable i).
Proof.
  intros Hi s Hs. eapply wp_weaken; [apply service_safe; [|exact Hs]|intros r s' H'; by destruct r].
  destruct HL as (_ & Hm & _). unfold IOURINGD_MAX_CLIENTS. lia.
Qed.

(** ** The main loop *)

Lemma safe_dispatch : secure iouringd_dispatch_ready_requests.
Proof.
  unfold iouringd_dispatch_ready_requests. induction dispatch_bands as [|band l IH]; cbn [dispatch_in_bands];
    [by apply safe_ret|].
  safe_step; [|safe_step; [exact IH|safe_tac]]. apply safe_clients. intros offset _. unfold dispatch_at.
  safe_step. cbv zeta. destruct HL as (_ & Hm & _).
  match goal with E : rt_limits ?rt = L |- _ => rewrite E end.
  match goal with |- context [get_client ?n] => set (index := n) end.
  assert (Hi : Z.of_nat index < max_clients L).
  { unfold index. match goal with |- Z.of_nat (?a mod ?n) < _ =>
      pose proof (Nat.mod_upper_bound a n ltac:(lia)) end. lia. }
  pose proof (safe_dispatch_request (W := W) L capacity index HL Hi) as Hd. safe_tac.
Qed.

Lemma safe_poll_client i revents : Z.of_nat i < max_clients L -> secure (poll_client_event i revents).
Proof.
  intros Hi. pose proof (safe_service i Hi) as H1. pose proof safe_close_client as H2.
  pose proof safe_flush_or_close as H3. unfold poll_client_event. safe_tac.
Qed.

Lemma safe_poll_events fuel l : known_slots (max_clients L) (fst <$> l) -> secure (poll_events fuel l).
Proof.
  induction l as [|[slot revents] l IH]; intros Hk; cbn [poll_events]; [by apply safe_ret|].
  assert (Hrest : secure (poll_events fuel l)).
  { apply IH. intros i Hi. apply Hk, elem_of_cons. by right. }
  safe_step; [|safe_tac]. unfold poll_event. destruct (revents =? 0); [by apply safe_ret|].
  destruct slot as [| |i].
  - pose proof safe_accept_loop as Ha. unfold iouringd_accept_clients. safe_tac.
  - pose proof (safe_reap (W := W) L capacity HL) as Ha. unfold iouringd_reap_completions. safe_tac.
  - pose proof (safe_poll_client i revents (Hk i ltac:(apply elem_of_cons; by left))) as Ha. safe_tac.
Qed.

Lemma safe_run_poll fuel : secure (run_poll fuel).
Proof.
  unfold run_poll. eapply safe_bind; [apply safe_get_rt|]. intros rt [El _]. cbv zeta.
  destruct (_ =? _)%nat; [by apply safe_ret|].
  safe_step; [apply secure_try, (safe_world_call (fun s => k_poll (s_world s) _))|].
  safe_step; [|safe_tac]. safe_step; [|safe_tac]. apply safe_poll_events.
  intros i Hi. apply fst_zip in Hi. rewrite <- El. apply pollfds_known; [|exact Hi].
  rewrite El. destruct HL as (_ & Hm & _). lia.
Qed.

Lemma safe_round fuel : secure (run_round fuel).
Proof.
  assert (H1 : secure iouringd_service_ready_inputs).
  { apply safe_clients. intros i Hi. pose proof (safe_service i Hi). unfold service_at. safe_tac. }
  assert (H2 : secure iouringd_flush_client_outputs).
  { apply safe_clients. intros i Hi. pose proof safe_flush_or_close. unfold flush_at. safe_tac. }
  pose proof safe_dispatch as H3. pose proof (safe_reap (W := W) L capacity HL fuel) as H4.
  pose proof (safe_sweep (W := W) L capacity) as H5. pose proof (safe_run_poll fuel) as H6.
  unfold run_round, iouringd_reap_completions. safe_tac.
Qed.
End Clients.

(** ** Every state of the main loop *)

Lemma init_client_safe L : client_safe L init_client.
Proof.
  constructor; [constructor; cbn; lia| |done|done].
  eapply reset_input_wf; [reflexivity|done|apply zero_bytes|done|cbn -[IOURINGD_MAX_IO_BYTES]; lia].
Qed.

Section Safety.
Context {W : Type} `{Kernel W}.

Lemma configured_safe a r caps fd (s : sys W) :
  limits_supported (arg_limits a) -> 2 <= iouringd_ring_capacity r <= 64 ->
  s_rt s = configured a r caps <| rt_server_fd := fd |> ->
  let capacity := client_output_size (arg_limits a) (u64 (iouringd_ring_capacity r - 1)) in
  0 <= capacity < 2 ^ 64 /\ arrays_safe (arg_limits a) capacity s.
Proof.
  intros Hl Hr Hs capacity. pose proof Hl as (L1 & L2 & L3 & L4 & L5 & L6). split.
  { unfold capacity, client_output_size. rewrite u64_id, u32_id by lia.
    change (Z.of_nat (wire_size handshake_result)) with 52.
    change (Z.of_nat (wire_size stats_result)) with 56.
    change (Z.of_nat (wire_size trace_result)) with 24.
    change (Z.of_nat (wire_size trace_event)) with 48.
    change (Z.of_nat (wire_size resource_result)) with 16.
    change (Z.of_nat (wire_size submit_result)) with 16.
    change (Z.of_nat (wire_size completion_record)) with 24.
    change (Z.of_nat IOURINGD_TRACE_CAPACITY) with 256. nia. }
  constructor; rewrite Hs; try reflexivity.
  - assert (E : forall rt, rt_storage (rt <| rt_server_fd := fd |>) = rt_storage rt) by reflexivity.
    rewrite E, configured_storage. nia.
  - apply (Forall_replicate _ IOURINGD_MAX_CLIENTS), init_client_safe.
  - apply (Forall_replicate _ IOURINGD_MAX_TASKS), clear_task_safe.
Qed.

Lemma invariant_safe (s : sys W) :
  recv_documented (W := W) -> write_documented (W := W) -> reachable s ->
  arrays_safe (rt_limits (s_rt s)) (rt_client_output_capacity (s_rt s)) s.
Proof.
  intros Hrecv Hwrite Hs.
  enough (exists L capacity, limits_supported L /\ 0 <= capacity < 2 ^ 64 /\ arrays_safe L capacity s)
    as (L & cap & _ & _ & Ha).
  { rewrite (as_limits _ _ _ Ha), (as_capacity _ _ _ Ha). exact Ha. }
  induction Hs as [a r caps fd rt s Hl Hc Es|fuel s st s' _ (L & cap & Hl & Hcap & IH) E].
  - apply configure_Some in Hc as [-> Hr]. destruct (configured_safe a r caps fd s Hl Hr Es) as [H1 H2].
    eauto.
  - exists L, cap. split; [done|]. split; [done|].
    pose proof (safe_round L cap Hl Hcap Hrecv Hwrite fuel s IH) as H'. unfold wp in H'.
    rewrite E in H'. apply H'.
Qed.

(** C1: the daemon never writes outside its arrays.  In every state of the main loop,
    whatever the clients send, and however the kernel answers within what
    [recvmsg] and [write] document: the window of every client's input and
    output is inside its array, every array that is copied into (the input, the
    payload, the buffer of each task, the registered buffer storage, the trace
    ring) has the size it was created with, and a task that is copied to, by
    the daemon or by the kernel, asks for no more bytes than its buffer has and
    names a buffer slot that exists. *)
Theorem memory_safe (s : sys W) :
  recv_documented (W := W) -> write_documented (W := W) -> reachable s ->
  arrays_safe (rt_limits (s_rt s)) (rt_client_output_capacity (s_rt s)) s.
Proof. exact (invariant_safe s). Qed.
End Safety.

Lemma memory_safe_witness :
  reachable busy /\ arrays_safe (rt_limits (s_rt busy)) (rt_client_output_capacity (s_rt busy)) busy.
Proof.
  split; [exact busy_reachable|].
  exact (memory_safe busy script_recv_documented script_write_documented busy_reachable).
Defined.
