(* ===== verification/Socket.v ===== *)
(** * Sockets, as the client library sees them

    The client library ([src/lib/client.c], [src/lib/submit.c]) and the
    stand-alone handshake ([src/daemon/handshake.c]) use blocking stream
    sockets.  [Socket W] has the calls they make, [SocketOk] the documented
    behaviour of a stream socket in terms of two ghost streams per descriptor
    (the bytes sent so far, the bytes still to be received), [Reliable] the
    further promise that the calls on one descriptor do not fail.  Both are
    discharged for a concrete socket, [pipe].

    Models the transfer loops: [write_full], [write_iov_full],
    [send_fd_with_request], [read_full] and [peek_protocol_header].  They repeat
    a call with the same arguments while it fails with [EINTR]: an operation of
    [Socket] is the first result that is not [EINTR]. *)

From S2P Require Import Prelude Wire.

Class Socket (W : Type) := {
  (** [send(fd, buf, len, MSG_NOSIGNAL)] *)
  k_send : W -> Z -> bytes -> outcome Z * W;
  (** [sendmsg(fd, msg, MSG_NOSIGNAL)]: the I/O vectors, and the descriptor of an
      [SCM_RIGHTS] control message. *)
  k_sendmsg : W -> Z -> list bytes -> option Z -> outcome Z * W;
  (** [recv(fd, buf, len, 0)]; no bytes at the end of the stream *)
  k_recv : W -> Z -> nat -> outcome bytes * W;
  (** [recv(fd, buf, len, MSG_PEEK | MSG_WAITALL)] *)
  k_peek : W -> Z -> nat -> outcome bytes * W;
  (** [malloc(size)]: whether it succeeds *)
  k_alloc : W -> nat -> bool * W;
  (** [socket(AF_UNIX, SOCK_STREAM, 0)], [fcntl(F_GETFD)], [fcntl(F_SETFD)],
      [connect] to a path, [close] *)
  k_socket : W -> outcome Z * W;
  k_getfd : W -> Z -> outcome Z * W;
  k_setfd : W -> Z -> Z -> outcome unit * W;
  k_connect : W -> Z -> bytes -> outcome unit * W;
  k_close : W -> Z -> W;
}.

(** ** The transfer loops

    [fuel] bounds the number of calls; every call that returns moves at least
    one byte, so a fuel of the number of bytes is never used up
    ([write_loop_fuel], [write_iov_fuel], [read_loop_fuel]). *)

Section Transfer.
Context {W : Type} `{Socket W}.

Definition sock {A} (f : W -> outcome A * W) : M W A := f.

Fixpoint write_loop (fuel : nat) (fd : Z) (rest : bytes) : M W unit :=
  match rest, fuel with
  | [], _ => mret tt
  | _, O => mret tt
  | _, S fuel' =>
      (rc <- sock (fun w => k_send w fd rest) ;;
       if rc <=? 0 then mfail EPIPE
       else write_loop fuel' fd (drop (Z.to_nat rc) rest))%iou
  end.
Definition write_full (fd : Z) (buf : bytes) : M W unit := write_loop (length buf) fd buf.

Definition iovecs (first second : bytes) : list bytes :=
  (match first with [] => [] | _ => [first] end) ++
  (match second with [] => [] | _ => [second] end).

Fixpoint write_iov_loop (fuel : nat) (fd : Z) (first second : bytes) : M W unit :=
  match iovecs first second, fuel with
  | [], _ => mret tt
  | _, O => mret tt
  | iov, S fuel' =>
      (rc <- sock (fun w => k_sendmsg w fd iov None) ;;
       if rc <=? 0 then mfail EPIPE
       else if rc <=? Z.of_nat (length first)
       then write_iov_loop fuel' fd (drop (Z.to_nat rc) first) second
       else write_iov_loop fuel' fd [] (drop (Z.to_nat rc - length first) second))%iou
  end.
Definition write_iov_full (fd : Z) (first second : bytes) : M W unit :=
  write_iov_loop (length first + length second) fd first second.

(** One [sendmsg] carries the request and the descriptor together. *)
Definition send_fd_with_request (fd resource_fd : Z) (buf : bytes) : M W unit :=
  (rc <- sock (fun w => k_sendmsg w fd [buf] (Some resource_fd)) ;;
   if rc =? 0 then mfail EPIPE
   else if negb (rc =? Z.of_nat (length buf)) then mfail EPROTO
   else mret tt)%iou.

Fixpoint read_loop (fuel : nat) (fd : Z) (len : nat) : M W bytes :=
  match len, fuel with
  | O, _ => mret []
  | _, O => mret []
  | _, S fuel' =>
      (data <- sock (fun w => k_recv w fd len) ;;
       match data with
       | [] => mfail EPIPE
       | _ => rest <- read_loop fuel' fd (len - length data) ;; mret (data ++ rest)
       end)%iou
  end.
Definition read_full (fd : Z) (len : nat) : M W bytes := read_loop len fd len.

(** The loop of [peek_protocol_header] only repeats on [EINTR]. *)
Definition peek_protocol_header (fd : Z) : M W protocol_header :=
  (data <- sock (fun w => k_peek w fd (wire_size protocol_header)) ;;
   match data with
   | [] => mfail EPIPE
   | _ => if Nat.eqb (length data) (wire_size protocol_header) then mret (of_wire data)
          else mfail EPROTO
   end)%iou.

(** More fuel than bytes makes no difference: the loops end by themselves. *)
Lemma write_loop_fuel fd rest n m w :
  (length rest <= n)%nat -> (length rest <= m)%nat ->
  write_loop n fd rest w = write_loop m fd rest w.
Proof.
  revert rest m w. induction n as [|n IH]; intros [|b rest] m w Hn Hm; simpl in Hn, Hm; try lia;
    destruct m as [|m]; try lia; try done.
  cbn [write_loop]. apply mbnd_ext. intros rc w' _.
  destruct (rc <=? 0) eqn:E; [done|]. apply Z.leb_gt in E.
  apply IH; rewrite length_drop; simpl; lia.
Qed.

Lemma write_iov_fuel fd a b n m w :
  (length a + length b <= n)%nat -> (length a + length b <= m)%nat ->
  write_iov_loop n fd a b w = write_iov_loop m fd a b w.
Proof.
  revert a b m w. induction n as [|n IH]; intros a b m w Hn Hm.
  - destruct a, b; simpl in Hn; try lia. by destruct m.
  - destruct (decide (length a + length b = 0)%nat) as [E|E].
    { destruct a, b; simpl in E; try lia. by destruct m. }
    destruct m as [|m]; [lia|]. cbn [write_iov_loop].
    destruct (iovecs a b) as [|v vs] eqn:Hv; [done|].
    apply mbnd_ext. intros rc w' _. destruct (rc <=? 0) eqn:E1; [done|].
    apply Z.leb_gt in E1. destruct (rc <=? _) eqn:E2; [apply Z.leb_le in E2|apply Z.leb_gt in E2];
      apply IH; rewrite ?length_drop; simpl; lia.
Qed.

Lemma read_loop_fuel fd len n m w :
  (len <= n)%nat -> (len <= m)%nat -> read_loop n fd len w = read_loop m fd len w.
Proof.
  revert len m w. induction n as [|n IH]; intros [|len] m w Hn Hm; try lia;
    destruct m as [|m]; try lia; try done.
  cbn [read_loop]. apply mbnd_ext. intros [|x data] w' _; [done|].
  unfold mbnd. rewrite (IH _ m); [done|simpl; lia|simpl; lia].
Qed.
End Transfer.

(** ** Stream sockets *)

(** How the two streams of every descriptor may change in a call: only the sent
    bytes of [fd] grow by [out] and the bytes to come of [fd] lose [inp]. *)
Record moved {W} (outgoing incoming : W -> Z -> bytes) (w w' : W) (fd : Z) (out inp : bytes) : Prop := {
  mv_out : outgoing w' fd = outgoing w fd ++ out;
  mv_in : incoming w fd = inp ++ incoming w' fd;
  mv_other : forall fd', fd' <> fd ->
    outgoing w' fd' = outgoing w fd' /\ incoming w' fd' = incoming w fd';
}.

Class SocketOk (W : Type) `{Socket W} := {
  outgoing : W -> Z -> bytes;
  incoming : W -> Z -> bytes;
  (** A call that returns [n] has appended the first [n] of the bytes given. *)
  send_law w fd bs r w' : k_send w fd bs = (r, w') ->
    exists n, (n <= length bs)%nat /\ moved outgoing incoming w w' fd (take n bs) [] /\
      match r with Ok z => z = Z.of_nat n | Err _ => n = O end;
  sendmsg_law w fd iov pass r w' : k_sendmsg w fd iov pass = (r, w') ->
    exists n, (n <= length (concat iov))%nat /\
      moved outgoing incoming w w' fd (take n (concat iov)) [] /\
      match r with Ok z => z = Z.of_nat n | Err _ => n = O end;
  (** A receive takes a prefix of the bytes to come, empty only at their end. *)
  recv_law w fd len r w' : k_recv w fd len = (r, w') ->
    match r with
    | Ok data => (length data <= len)%nat /\ moved outgoing incoming w w' fd [] data /\
                 (data = [] -> (0 < len)%nat -> incoming w fd = [])
    | Err _ => moved outgoing incoming w w' fd [] []
    end;
  (** A peek takes nothing. *)
  peek_law w fd len r w' : k_peek w fd len = (r, w') ->
    moved outgoing incoming w w' fd [] [] /\
    match r with
    | Ok data => data `prefix_of` incoming w fd /\ (length data <= len)%nat
    | Err _ => True
    end;
  alloc_law w n ok w' : k_alloc w n = (ok, w') ->
    forall fd, moved outgoing incoming w w' fd [] [];
}.

(** The socket [fd] works: calls on it succeed while there is something to do
    (a receive once everything has arrived fails), and there is memory. *)
Class Reliable (W : Type) `{SocketOk W} (fd : Z) := {
  send_works w bs : bs <> [] -> exists n w', k_send w fd bs = (Ok n, w') /\ 0 < n;
  sendmsg_works w iov pass : concat iov <> [] ->
    exists n w', k_sendmsg w fd iov pass = (Ok n, w') /\ 0 < n;
  sendmsg_whole w iov p n w' : k_sendmsg w fd iov (Some p) = (Ok n, w') ->
    n = Z.of_nat (length (concat iov));
  recv_works w len : incoming w fd <> [] -> is_ok (fst (k_recv w fd len)) = true;
  peek_works w len : (len <= length (incoming w fd))%nat ->
    exists w', k_peek w fd len = (Ok (take len (incoming w fd)), w');
  alloc_works w n : fst (k_alloc w n) = true;
}.

Section Streams.
Context {W : Type} `{SocketOk W}.

(** [moves fd out inp w w']: the bytes [out] were sent and [inp] received on
    [fd], and nothing happened on other descriptors. *)
Definition moves (fd : Z) (out inp : bytes) (w w' : W) : Prop := moved outgoing incoming w w' fd out inp.

Lemma moves_refl fd w : moves fd [] [] w w.
Proof. constructor; [by rewrite app_nil_r|done|done]. Qed.

Lemma moves_trans fd o1 i1 o2 i2 w1 w2 w3 :
  moves fd o1 i1 w1 w2 -> moves fd o2 i2 w2 w3 -> moves fd (o1 ++ o2) (i1 ++ i2) w1 w3.
Proof.
  intros [Ho Hi Hf] [Ho' Hi' Hf']. constructor.
  - by rewrite Ho', Ho, app_assoc.
  - by rewrite Hi, Hi', app_assoc.
  - intros fd' Hn. destruct (Hf fd' Hn) as [<- <-]. by apply Hf'.
Qed.

Lemma moves_incoming fd o i w w' s :
  moves fd o i w w' -> incoming w fd = i ++ s -> incoming w' fd = s.
Proof. intros [_ Hi _] E. rewrite Hi in E. by apply app_inv_head in E. Qed.

Lemma take_drop_prefix {A} n m (l : list A) : take n l ++ take m (drop n l) = take (n + m) l.
Proof. by rewrite take_take_drop. Qed.

(** [write_full] sends a prefix of the buffer, and all of it when it returns 0. *)
Lemma write_full_sent fd bs w r w' :
  write_full fd bs w = (r, w') ->
  exists n, (n <= length bs)%nat /\ moves fd (take n bs) [] w w' /\ (is_ok r = true -> n = length bs).
Proof.
  unfold write_full. generalize (Nat.le_refl (length bs)). generalize (length bs) at 2 3 as fuel.
  intros fuel. revert bs w. induction fuel as [|fuel IH]; intros [|b bs] w Hl E;
    try (simpl in Hl; lia); cbn [write_loop] in E.
  1-2: injection E as <- <-; exists O; split_and!; [done|apply moves_refl|done].
  unfold mbnd, sock in E. destruct (k_send w fd (b :: bs)) as [[rc|e] w1] eqn:Es;
    destruct (send_law _ _ _ _ _ Es) as (n & Hn & Hm & Hr).
  - destruct (rc <=? 0) eqn:Hrc.
    { injection E as <- <-. exists n. by split_and!. }
    apply Z.leb_gt in Hrc.
    destruct (IH (drop (Z.to_nat rc) (b :: bs)) w1) as (m & Hle & Hm2 & Hok);
      [rewrite length_drop; lia|exact E|].
    rewrite length_drop in Hle, Hok. rewrite Hr, Nat2Z.id in *. exists (n + m)%nat. split_and!; [lia| |].
    + rewrite <- take_drop_prefix. exact (moves_trans _ _ [] _ [] _ _ _ Hm Hm2).
    + intros Hr'. specialize (Hok Hr'). lia.
  - injection E as <- <-. exists n. by split_and!.
Qed.

Lemma concat_iovecs a b : concat (iovecs a b) = a ++ b.
Proof. destruct a, b; simpl; by rewrite ?app_nil_r. Qed.

Lemma iovecs_nil a b : iovecs a b = [] -> a = [] /\ b = [].
Proof. by destruct a, b. Qed.

(** [write_iov_full] sends a prefix of the two buffers in order, and all of both
    when it returns 0. *)
Lemma write_iov_full_sent fd a b w r w' :
  write_iov_full fd a b w = (r, w') ->
  exists n, (n <= length (a ++ b))%nat /\ moves fd (take n (a ++ b)) [] w w' /\
            (is_ok r = true -> n = length (a ++ b)).
Proof.
  unfold write_iov_full. generalize (Nat.le_refl (length a + length b)).
  generalize (length a + length b)%nat at 2 3 as fuel.
  intros fuel. revert a b w. induction fuel as [|fuel IH]; intros a b w Hl E.
  { destruct a, b; simpl in Hl; try lia. injection E as <- <-. exists O.
    split_and!; [done|apply moves_refl|done]. }
  cbn [write_iov_loop] in E. destruct (iovecs a b) as [|v vs] eqn:Hv.
  { apply iovecs_nil in Hv as [-> ->]. injection E as <- <-. exists O.
    split_and!; [done|apply moves_refl|done]. }
  rewrite <- Hv in E. unfold mbnd, sock in E.
  destruct (k_sendmsg w fd (iovecs a b) None) as [[rc|e] w1] eqn:Es;
    destruct (sendmsg_law _ _ _ _ _ _ Es) as (n & Hn & Hm & Hr); rewrite concat_iovecs in *.
  2: { injection E as <- <-. exists n. by split_and!. }
  destruct (rc <=? 0) eqn:Hrc.
  { injection E as <- <-. exists n. by split_and!. }
  apply Z.leb_gt in Hrc. rewrite Hr, ?Nat2Z.id in *.
  assert (Hsplit : exists a' b', a' ++ b' = drop n (a ++ b) /\ (length a' + length b' <= fuel)%nat /\
                                 write_iov_loop fuel fd a' b' w1 = (r, w')).
  { rewrite length_app in Hn. rewrite drop_app. destruct (Z.of_nat n <=? _) eqn:E2;
      [apply Z.leb_le in E2|apply Z.leb_gt in E2].
    - exists (drop n a), b. split_and!; [|rewrite length_drop; lia|exact E].
      by replace (n - length a)%nat with O by lia.
    - exists [], (drop (n - length a) b). split_and!; [|rewrite length_drop; simpl; lia|exact E].
      by rewrite (drop_ge a) by lia. }
  destruct Hsplit as (a' & b' & Hab & Hle & E').
  destruct (IH a' b' w1 Hle E') as (m & Hm1 & Hm2 & Hok). rewrite Hab, length_drop in *.
  exists (n + m)%nat. split_and!; [lia| |].
  - rewrite <- take_drop_prefix. exact (moves_trans _ _ [] _ [] _ _ _ Hm Hm2).
  - intros Hr'. specialize (Hok Hr'). lia.
Qed.

Lemma send_fd_sent fd p bs w r w' :
  send_fd_with_request fd p bs w = (r, w') ->
  exists n, (n <= length bs)%nat /\ moves fd (take n bs) [] w w' /\ (is_ok r = true -> n = length bs).
Proof.
  unfold send_fd_with_request, mbnd, sock. intros E.
  destruct (k_sendmsg w fd [bs] (Some p)) as [[rc|e] w1] eqn:Es;
    destruct (sendmsg_law _ _ _ _ _ _ Es) as (n & Hn & Hm & Hr);
    cbn [concat] in Hn, Hm; rewrite app_nil_r in Hn, Hm; exists n.
  - repeat case_match; injection E as <- <-; split_and!; try done. intros _.
    match goal with Hb : negb (_ =? _) = false |- _ => apply negb_false_iff, Z.eqb_eq in Hb; lia end.
  - injection E as <- <-. by split_and!.
Qed.

(** [read_full] takes a prefix of the bytes to come, of the length asked for
    when it returns 0. *)
Lemma read_full_read fd len w r w' :
  read_full fd len w = (r, w') ->
  exists got, (length got <= len)%nat /\ moves fd [] got w w' /\
              match r with Ok data => data = got /\ length got = len | Err _ => True end.
Proof.
  unfold read_full. generalize (Nat.le_refl len). generalize len at 2 3 as fuel.
  intros fuel. revert len w r w'. induction fuel as [|fuel IH]; intros [|len] w r w' Hl E; try lia;
    cbn [read_loop] in E.
  1-2: injection E as <- <-; exists []; split_and!; [done|apply moves_refl|done|done].
  unfold mbnd, sock in E. destruct (k_recv w fd (S len)) as [[data|e] w1] eqn:Er;
    pose proof (recv_law _ _ _ _ _ Er) as Hlaw; cbn in Hlaw.
  - destruct Hlaw as (Hlen & Hm & _). destruct data as [|x data].
    { injection E as <- <-. exists []. by split_and!. }
    destruct (read_loop fuel fd (S len - length (x :: data)) w1) as [r2 w2] eqn:E2.
    destruct (IH (S len - length (x :: data))%nat w1 r2 w2 ltac:(simpl; lia) E2) as (got & Hg & Hm2 & Hr2).
    exists ((x :: data) ++ got).
    assert (moves fd [] ((x :: data) ++ got) w w2) by exact (moves_trans _ [] _ [] _ _ _ _ Hm Hm2).
    destruct r2 as [rest|e]; injection E as <- <-; rewrite length_app; split; [lia| |lia|];
      (split; [done|]); [|done].
    destruct Hr2 as [-> Hl2]. split; [done|lia].
  - injection E as <- <-. exists []. split_and!; [simpl; lia|done|done].
Qed.

(** What the loops do on a socket that works. *)
Context (fd : Z) `{!Reliable W fd}.

Lemma write_full_works bs w :
  exists w', write_full fd bs w = (Ok tt, w') /\ moves fd bs [] w w'.
Proof.
  assert (Hok : is_ok (fst (write_full fd bs w)) = true).
  { unfold write_full. generalize (length bs) as fuel. intros fuel. revert bs w.
    induction fuel as [|fuel IH]; intros [|b bs] w; cbn [write_loop]; try done.
    unfold mbnd, sock. destruct (send_works w (b :: bs)) as (n & w1 & -> & Hn); [done|].
    replace (n <=? 0) with false by (symmetry; apply Z.leb_gt; lia). apply IH. }
  destruct (write_full fd bs w) as [r w'] eqn:E.
  destruct (write_full_sent _ _ _ _ _ E) as (n & _ & Hm & Hn). specialize (Hn Hok). subst n.
  rewrite take_ge in Hm by lia. exists w'. destruct r as [[]|e]; done.
Qed.

Lemma write_iov_full_works a b w :
  exists w', write_iov_full fd a b w = (Ok tt, w') /\ moves fd (a ++ b) [] w w'.
Proof.
  assert (Hok : is_ok (fst (write_iov_full fd a b w)) = true).
  { unfold write_iov_full. generalize (length a + length b)%nat as fuel. intros fuel. revert a b w.
    induction fuel as [|fuel IH]; intros a b w; cbn [write_iov_loop];
      (destruct (iovecs a b) as [|v vs] eqn:Hv; [done|]); [done|].
    unfold mbnd, sock. destruct (sendmsg_works w (iovecs a b) None) as (n & w1 & E & Hn).
    { rewrite concat_iovecs. intros [-> ->]%app_eq_nil. done. }
    rewrite <- Hv, E. replace (n <=? 0) with false by (symmetry; apply Z.leb_gt; lia).
    case_match; apply IH. }
  destruct (write_iov_full fd a b w) as [r w'] eqn:E.
  destruct (write_iov_full_sent _ _ _ _ _ _ E) as (n & _ & Hm & Hn). specialize (Hn Hok). subst n.
  rewrite take_ge in Hm by lia. exists w'. destruct r as [[]|e]; done.
Qed.

Lemma send_fd_works p bs w :
  bs <> [] -> exists w', send_fd_with_request fd p bs w = (Ok tt, w') /\ moves fd bs [] w w'.
Proof.
  intros Hbs. destruct (send_fd_with_request fd p bs w) as [r w'] eqn:E.
  destruct (send_fd_sent _ _ _ _ _ _ E) as (n & _ & Hm & Hn).
  assert (Hr : r = Ok tt).
  { unfold send_fd_with_request, mbnd, sock in E.
    destruct (sendmsg_works w [bs] (Some p)) as (k & w1 & Ek & Hk).
    { cbn. by rewrite app_nil_r. }
    rewrite Ek in E. pose proof (sendmsg_whole _ _ _ _ _ Ek) as Hw. cbn in Hw. rewrite app_nil_r in Hw.
    replace (k =? 0) with false in E by (symmetry; apply Z.eqb_neq; lia).
    rewrite Hw, Z.eqb_refl in E. by injection E as <- _. }
  subst r. specialize (Hn eq_refl). subst n. rewrite take_ge in Hm by lia. by exists w'.
Qed.

Lemma read_full_works data rest w :
  incoming w fd = data ++ rest ->
  exists w', read_full fd (length data) w = (Ok data, w') /\ moves fd [] data w w'.
Proof.
  intros Hin.
  assert (Hok : is_ok (fst (read_full fd (length data) w)) = true).
  { unfold read_full. assert (Hlen : (length data <= length (incoming w fd))%nat)
      by (rewrite Hin, length_app; lia). clear Hin. revert Hlen.
    generalize (length data) at 1 3 as len. generalize (length data) as fuel.
    intros fuel. revert w. induction fuel as [|fuel IH]; intros w [|len] Hlen; cbn [read_loop];
      try done. unfold mbnd, sock.
    pose proof (recv_works w (S len)) as Hw.
    destruct (k_recv w fd (S len)) as [r w1] eqn:Er. pose proof (recv_law _ _ _ _ _ Er) as Hlaw.
    destruct r as [got|e].
    2: { exfalso. assert (incoming w fd <> []) by (intros E0; rewrite E0 in Hlen; simpl in Hlen; lia).
         by specialize (Hw ltac:(done)). }
    cbn in Hlaw. destruct Hlaw as (Hl & Hm & Hnil). destruct got as [|x got].
    { rewrite (Hnil eq_refl ltac:(lia)) in Hlen. simpl in Hlen. lia. }
    specialize (IH w1 (S len - length (x :: got))%nat).
    destruct (read_loop fuel fd (S len - length (x :: got)) w1) as [[rest'|e] w2]; [done|].
    apply IH. rewrite (mv_in _ _ _ _ _ _ _ Hm), length_app in Hlen. lia. }
  destruct (read_full fd (length data) w) as [r w'] eqn:E.
  destruct (read_full_read _ _ _ _ _ E) as (got & _ & Hm & Hr). destruct r as [x|e]; [|done].
  destruct Hr as [-> Hl]. assert (got = data) as ->.
  { pose proof (mv_in _ _ _ _ _ _ _ Hm) as Hi. rewrite Hin in Hi.
    by apply app_inj_1 in Hi as [-> _]. }
  by exists w'.
Qed.

Lemma peek_header_works w :
  (8 <= length (incoming w fd))%nat ->
  exists w', peek_protocol_header fd w = (Ok (of_wire (take 8 (incoming w fd))), w') /\
             moves fd [] [] w w'.
Proof.
  intros Hl. unfold peek_protocol_header, mbnd, sock. change (wire_size protocol_header) with 8%nat.
  destruct (peek_works w 8 Hl) as (w1 & E). pose proof (peek_law _ _ _ _ _ E) as [Hm _]. rewrite E.
  assert (Hlen : length (take 8 (incoming w fd)) = 8%nat) by (rewrite length_take; lia).
  rewrite Hlen. destruct (take 8 (incoming w fd)) eqn:Et; [done|]. exists w1. by rewrite <- Et.
Qed.
End Streams.

(** ** A concrete socket

    [pipe] delivers and takes bytes in pieces of given sizes, whole when the
    sizes are used up; a message with a descriptor is sent in one piece. *)

Record pipe := mk_pipe {
  p_out : Z -> bytes;
  p_in : Z -> bytes;
  p_pieces : list nat;
  p_closed : list Z;
  p_passed : list (Z * nat * Z);    (* socket, position in its stream, descriptor *)
}.

Definition set_stream (f : Z -> bytes) (fd : Z) (bs : bytes) : Z -> bytes :=
  fun x => if x =? fd then bs else f x.

(** The size of the next transfer of at most [len] bytes. *)
Definition piece (p : pipe) (len : nat) : nat :=
  match p_pieces p with n :: _ => Nat.min len (S n) | [] => len end.

Definition pipe_put (p : pipe) (fd : Z) (n : nat) (bs : bytes) (pass : option Z) : outcome Z * pipe :=
  (Ok (Z.of_nat (length (take n bs))),
   mk_pipe (set_stream (p_out p) fd (p_out p fd ++ take n bs)) (p_in p) (tail (p_pieces p)) (p_closed p)
     (p_passed p ++ match pass, take n bs with
                    | Some d, _ :: _ => [(fd, length (p_out p fd), d)]
                    | _, _ => []
                    end)).

#[export] Instance pipe_socket : Socket pipe := {|
  k_send p fd bs := pipe_put p fd (piece p (length bs)) bs None;
  k_sendmsg p fd iov pass :=
    let bs := concat iov in
    pipe_put p fd (match pass with Some _ => length bs | None => piece p (length bs) end) bs pass;
  k_recv p fd len :=
    let n := piece p len in
    (Ok (take n (p_in p fd)),
     mk_pipe (p_out p) (set_stream (p_in p) fd (drop n (p_in p fd))) (tail (p_pieces p)) (p_closed p) (p_passed p));
  k_peek p fd len := (Ok (take len (p_in p fd)), p);
  k_alloc p _ := (true, p);
  k_socket p := (Ok 3, p);
  k_getfd p _ := (Ok 0, p);
  k_setfd p _ _ := (Ok tt, p);
  k_connect p _ _ := (Ok tt, p);
  k_close p fd := mk_pipe (p_out p) (p_in p) (p_pieces p) (fd :: p_closed p) (p_passed p);
|}.

Lemma set_stream_same f fd bs : set_stream f fd bs fd = bs.
Proof. unfold set_stream. by rewrite Z.eqb_refl. Qed.
Lemma set_stream_other f fd fd' bs : fd' <> fd -> set_stream f fd bs fd' = f fd'.
Proof. intros Hn. unfold set_stream. by rewrite (proj2 (Z.eqb_neq _ _) Hn). Qed.

Lemma pipe_put_moved p fd n bs pass r p' :
  pipe_put p fd n bs pass = (r, p') ->
  exists m, (m <= length bs)%nat /\ moved p_out p_in p p' fd (take m bs) [] /\
    match r with Ok z => z = Z.of_nat m | Err _ => m = O end.
Proof.
  intros E. injection E as <- <-. exists (Nat.min n (length bs)). rewrite length_take.
  split_and!; [lia| |done]. constructor; cbn [p_out p_in].
  - rewrite set_stream_same. f_equal. destruct (Nat.min_spec n (length bs)) as [[? ->]|[? ->]]; [done|].
    rewrite !take_ge by lia. done.
  - done.
  - intros fd' Hn. by rewrite set_stream_other.
Qed.

Lemma piece_le p len : (piece p len <= len)%nat /\ ((0 < len)%nat -> (0 < piece p len)%nat).
Proof. unfold piece. destruct (p_pieces p); lia. Qed.

#[export] Instance pipe_ok : SocketOk pipe.
Proof.
  refine {| outgoing := p_out; incoming := p_in |}.
  - intros w fd bs r w' E. by apply pipe_put_moved in E.
  - intros w fd iov pass r w' E. by apply pipe_put_moved in E.
  - intros w fd len r w' E. injection E as <- <-. pose proof (piece_le w len) as [Hle Hpos].
    rewrite length_take. split_and!; [lia| |].
    + constructor; cbn [p_out p_in]; [by rewrite app_nil_r| |].
      * rewrite set_stream_same. by rewrite take_drop.
      * intros fd' Hn. by rewrite set_stream_other.
    + intros Ht Hl. specialize (Hpos Hl). destruct (piece w len); [lia|]. by destruct (p_in w fd).
  - intros w fd len r w' E. injection E as <- <-. split.
    + constructor; [by rewrite app_nil_r|done|done].
    + split; [apply prefix_take|]. rewrite length_take. lia.
  - intros w n ok w' E fd. injection E as <- <-. constructor; [by rewrite app_nil_r|done|done].
Defined.

#[export] Instance pipe_reliable fd : Reliable pipe fd.
Proof.
  constructor.
  - intros w bs Hbs. eexists _, _. split; [reflexivity|]. rewrite length_take.
    pose proof (piece_le w (length bs)) as [_ Hp]. destruct bs; [done|]. simpl in *. lia.
  - intros w iov pass Hbs. eexists _, _. split; [reflexivity|]. rewrite length_take.
    pose proof (piece_le w (length (concat iov))) as [_ Hp].
    destruct (concat iov); [done|]. destruct pass; simpl in *; lia.
  - intros w iov p n w' E. injection E as <- _. by rewrite take_ge.
  - done.
  - intros w len Hl. by exists w.
  - done.
Qed.
