(* ===== verification/Client.v ===== *)
(** * The client library: handshake, buffered completions, replies

    Models [src/lib/client.c] and the receiving half of [src/lib/submit.c].

    Completions and replies share one byte stream, and a completion may arrive
    at any time.  A call that waits for a reply therefore first moves the
    completions in front of it to a list ([buffered_completions]), where
    [iouringd_wait_completion] finds them later; the payload of a completion
    that was handed out waits in a second list ([buffered_payloads]) for
    [iouringd_read_completion_payload].  Both lists are process-wide and keyed
    by descriptor.

    A C out-parameter is a component of the state, [None] when the pointer is
    null; what a failing call has stored there stays there. *)

From S2P Require Import Prelude Wire Kernel Ring State Output Resources Trace Daemon Input Socket.

(** ** The state of the library *)

Record buffered_completion := mk_buffered_completion {
  bc_fd : Z;
  bc_completion : completion_record;
  bc_payload_length : Z;
  bc_payload : bytes;
}.

Record buffered_payload := mk_buffered_payload {
  bp_fd : Z;
  bp_task_id : Z;
  bp_payload_length : Z;
  bp_payload : bytes;
}.

Record lib (W : Type) := mk_lib {
  l_world : W;
  buffered_completions : list buffered_completion;
  buffered_payloads : list buffered_payload;
}.
Arguments mk_lib {W}.
Arguments l_world {W}.
Arguments buffered_completions {W}.
Arguments buffered_payloads {W}.

#[export] Instance put_l_world W : Setter (@l_world W) :=
  fun w l => mk_lib w (buffered_completions l) (buffered_payloads l).
#[export] Instance put_buffered_completions W : Setter (@buffered_completions W) :=
  fun x l => mk_lib (l_world l) x (buffered_payloads l).
#[export] Instance put_buffered_payloads W : Setter (@buffered_payloads W) :=
  fun x l => mk_lib (l_world l) (buffered_completions l) x.

(** ** Validity *)

Definition task_id_is_invalid (task_id : Z) : bool :=
  (task_id =? IOURINGD_TASK_ID_INVALID) || (IOURINGD_TASK_ID_RESERVED_MIN <=? task_id).

Definition resource_id_is_invalid (resource_id : Z) : bool :=
  resource_id =? IOURINGD_RESOURCE_ID_INVALID.

Definition iouringd_submit_request_set_priority (request : option submit_request) (priority : Z)
    : outcome unit * option submit_request :=
  match request with
  | None => (Err EINVAL, None)
  | Some q =>
      if iouringd_submit_priority_is_valid priority
      then (Ok tt, Some (mk_submit_request (sq_header q) (sq_task_kind q) priority (sq_reserved1 q)))
      else (Err EINVAL, Some q)
  end.

Definition iouringd_submit_request_priority (request : option submit_request) : Z :=
  match request with
  | None => IOURINGD_SUBMIT_PRIORITY_NORMAL
  | Some q => sq_priority q
  end.

Definition header_is_v1 (h : protocol_header) : bool :=
  (hdr_magic h =? IOURINGD_PROTOCOL_WIRE_MAGIC) &&
  (hdr_version_major h =? IOURINGD_PROTOCOL_V1_MAJOR) &&
  (hdr_version_minor h =? IOURINGD_PROTOCOL_V1_MINOR).

Definition completion_record_is_valid (x : completion_record) : bool :=
  if negb (header_is_v1 (cr_header x)) || task_id_is_invalid (cr_task x) ||
     (cr_task_kind x <? IOURINGD_TASK_KIND_NOP) || (IOURINGD_TASK_KIND_MAX_V1 <=? cr_task_kind x)
  then false
  else if (cr_task_kind x =? IOURINGD_TASK_KIND_SOCK_READ) ||
          (cr_task_kind x =? IOURINGD_TASK_KIND_SOCK_READ_FIXED) ||
          (cr_task_kind x =? IOURINGD_TASK_KIND_FILE_READ)
  then if cr_res x <? 0 then cr_payload_length x =? 0
       else (cr_res x <=? UINT16_MAX) && (cr_payload_length x =? u16 (cr_res x))
  else if cr_task_kind x =? IOURINGD_TASK_KIND_ACCEPT
  then if cr_res x <? 0 then cr_payload_length x =? 0 else 0 <? cr_res x
  else cr_payload_length x =? 0.

(** [IOURINGD_COMPLETION_RES_IS_ERROR] *)
Definition res_is_error (res : Z) : bool := res <? 0.

Definition submit_result_is_rejection (x : submit_result) : bool :=
  (sr_task x =? IOURINGD_TASK_ID_INVALID) && res_is_error (sr_res x).
Definition submit_result_is_valid (x : submit_result) : bool :=
  submit_result_is_rejection x ||
  ((sr_res x =? IOURINGD_COMPLETION_RES_OK) && negb (task_id_is_invalid (sr_task x))).

Definition resource_result_is_rejection (x : resource_result) : bool :=
  (rr_resource x =? IOURINGD_RESOURCE_ID_INVALID) && res_is_error (rr_res x) && (rr_reserved x =? 0).
Definition resource_result_is_valid (x : resource_result) : bool :=
  resource_result_is_rejection x ||
  ((rr_reserved x =? 0) && (rr_res x =? IOURINGD_COMPLETION_RES_OK) &&
   negb (resource_id_is_invalid (rr_resource x))).

Definition trace_event_is_valid (x : trace_event) : bool :=
  if (te_event_kind x <? IOURINGD_TRACE_EVENT_SUBMIT_ACCEPT) ||
     (IOURINGD_TRACE_EVENT_RESOURCE_RELEASE <? te_event_kind x) then false
  else if IOURINGD_TASK_KIND_MAX_V1 <=? te_task_kind x then false
  else iouringd_submit_priority_is_valid (te_priority x) && (te_reserved1 x =? 0).

(** ** Effects *)

(** No [errno] is negative: the model's mark for a loop that the given number of
    rounds does not finish. *)
Definition UNFINISHED : Z := -1.

Definition lift {S T A} (m : M S A) : M (S * T) A :=
  fun st => let '(r, s) := m (fst st) in (r, (s, snd st)).

Section Library.
Context {W : Type} `{Socket W}.
Abbreviation L := (M (lib W)).
Local Open Scope iou_scope.

Definition on_world {A} (m : M W A) : L A :=
  fun l => let '(r, w) := m (l_world l) in (r, l <| l_world := w |>).
Definition alloc (n : nat) : L bool :=
  fun l => let '(ok, w) := k_alloc (l_world l) n in (Ok ok, l <| l_world := w |>).

(** Read a struct into [*result]: it is written when all of it has arrived.  (Where the
    connection breaks in the middle, the C code has also stored the bytes before the
    break; the caller gets an error and [*result] has no meaning then, and the model
    leaves it as it was.) *)
Definition read_struct (A : Type) `{Wire A} (fd : Z) : L A :=
  data <- on_world (read_full fd (wire_size A)) ;; mret (of_wire data).

(** [*result = x] *)
Definition set_out {A} (x : A) : M (lib W * option A) unit := mmod (fun st => (fst st, Some x)).
Definition out_is_null {A} : M (lib W * option A) bool := mget (fun st => is_null (snd st)).

(** ** Buffers *)

Definition sizeof_buffered_payload : nat := 40.
Definition sizeof_buffered_completion : nat := 56.

Definition store_buffered_payload_owned (fd task_id : Z) (payload : bytes) (payload_length : Z) : L unit :=
  ok <- alloc sizeof_buffered_payload ;;
  if negb ok then mfail ENOMEM
  else mmod (fun l => l <| buffered_payloads :=
                             buffered_payloads l ++
                             [mk_buffered_payload fd task_id payload_length payload] |>).

Definition queue_buffered_completion (fd : Z) (completion : completion_record) (payload : bytes)
    (payload_length : Z) : L unit :=
  ok <- alloc sizeof_buffered_completion ;;
  if negb ok then mfail ENOMEM
  else mmod (fun l => l <| buffered_completions :=
                             buffered_completions l ++
                             [mk_buffered_completion fd completion payload_length payload] |>).

(** The first entry of the descriptor, and the list without it. *)
Fixpoint take_completion (fd : Z) (l : list buffered_completion)
    : option (buffered_completion * list buffered_completion) :=
  match l with
  | [] => None
  | b :: rest =>
      if bc_fd b =? fd then Some (b, rest)
      else match take_completion fd rest with
           | Some (x, rest') => Some (x, b :: rest')
           | None => None
           end
  end.

(** 1 is [true], 0 is [false]. *)
Definition pop_buffered_completion (fd : Z) : M (lib W * option completion_record) bool :=
  l <- mget fst ;;
  match take_completion fd (buffered_completions l) with
  | None => mret false
  | Some (b, rest) =>
      lift (mmod (fun l => l <| buffered_completions := rest |>)) ;;;
      set_out (bc_completion b) ;;;
      (if negb (bc_payload_length b =? 0)
       then lift (store_buffered_payload_owned fd (cr_task (bc_completion b)) (bc_payload b)
                    (bc_payload_length b))
       else mret tt) ;;;
      mret true
  end.

(** [*completion] is written before it is checked; the payload and its length. *)
Definition read_completion_with_payload (fd : Z)
    : M (lib W * option completion_record) (bytes * Z) :=
  x <- lift (read_struct completion_record fd) ;;
  set_out x ;;;
  if negb (completion_record_is_valid x) then mfail EPROTO
  else if cr_payload_length x =? 0 then mret ([], 0)
  else
    ok <- lift (alloc (Z.to_nat (cr_payload_length x))) ;;
    if negb ok then mfail ENOMEM
    else
      payload <- lift (on_world (read_full fd (Z.to_nat (cr_payload_length x)))) ;;
      mret (payload, cr_payload_length x).

(** A call with a local [completion] object. *)
Definition with_local {A B} (m : M (lib W * option A) B) : L (option A * B) :=
  fun l => let '(r, (l', out)) := m (l, None) in
           (match r with Ok b => Ok (out, b) | Err e => Err e end, l').

Fixpoint drain_completion_prefix (rounds : nat) (fd : Z) : L unit :=
  match rounds with
  | O => mfail UNFINISHED
  | S rounds' =>
      header <- on_world (peek_protocol_header fd) ;;
      if negb (header_is_v1 header) then mret tt
      else
        xp <- with_local (read_completion_with_payload fd) ;;
        match xp with
        | (Some x, (payload, payload_length)) =>
            queue_buffered_completion fd x payload payload_length ;;;
            drain_completion_prefix rounds' fd
        | (None, _) => mret tt      (* a read that returns 0 has written the record *)
        end
  end.

(** ** Replies *)

Definition read_submit_result (rounds : nat) (fd : Z) : M (lib W * option submit_result) unit :=
  lift (drain_completion_prefix rounds fd) ;;;
  x <- lift (read_struct submit_result fd) ;;
  set_out x ;;;
  if negb (submit_result_is_valid x) then mfail EPROTO
  else if submit_result_is_rejection x then mfail (- sr_res x)
  else mret tt.

Definition read_resource_result (rounds : nat) (fd : Z) : M (lib W * option resource_result) unit :=
  lift (drain_completion_prefix rounds fd) ;;;
  x <- lift (read_struct resource_result fd) ;;
  set_out x ;;;
  if negb (resource_result_is_valid x) then mfail EPROTO
  else if resource_result_is_rejection x then mfail (- rr_res x)
  else mret tt.

Definition read_stats_result (rounds : nat) (fd : Z) : M (lib W * option stats_result) unit :=
  lift (drain_completion_prefix rounds fd) ;;;
  x <- lift (read_struct stats_result fd) ;;
  set_out x.

(** The three out-parameters of a trace query. *)
Record trace_out := mk_trace_out {
  to_result : option trace_result;
  to_events : option (list trace_event);
  to_count : option Z;
}.
Definition set_to_result (x : trace_result) : M (lib W * trace_out) unit :=
  mmod (fun st => (fst st, mk_trace_out (Some x) (to_events (snd st)) (to_count (snd st)))).
Definition set_to_event (i : nat) (e : trace_event) : M (lib W * trace_out) unit :=
  mmod (fun st => (fst st, mk_trace_out (to_result (snd st)) ((fun l => <[i := e]> l) <$> to_events (snd st))
                             (to_count (snd st)))).
Definition set_to_count (n : Z) : M (lib W * trace_out) unit :=
  mmod (fun st => (fst st, mk_trace_out (to_result (snd st)) (to_events (snd st)) (Some n))).

(** [for (index = i; index < i + n; ++index)] *)
Fixpoint read_events (fd : Z) (i n : nat) : M (lib W * trace_out) unit :=
  match n with
  | O => mret tt
  | S n' =>
      e <- lift (read_struct trace_event fd) ;;
      set_to_event i e ;;;
      if negb (trace_event_is_valid e) then mfail EPROTO else read_events fd (S i) n'
  end.

Definition read_trace_result (rounds : nat) (fd : Z) (event_capacity : Z) : M (lib W * trace_out) unit :=
  o <- mget snd ;;
  if is_null (to_result o) || is_null (to_count o) then mfail EINVAL
  else
    lift (drain_completion_prefix rounds fd) ;;;
    x <- lift (read_struct trace_result fd) ;;
    set_to_result x ;;;
    if negb (tr_reserved x =? 0) then mfail EPROTO
    else if (negb (tr_count x =? 0) && is_null (to_events o)) || (event_capacity <? tr_count x)
    then mfail EOVERFLOW
    else read_events fd 0 (Z.to_nat (tr_count x)) ;;; set_to_count (tr_count x).

(** ** Waiting for completions *)

Definition iouringd_wait_completion (fd : Z) : M (lib W * option completion_record) unit :=
  null <- out_is_null ;;
  if (fd <? 0) || null then mfail EINVAL
  else
    buffered <- pop_buffered_completion fd ;;
    if buffered then mret tt
    else
      pl <- read_completion_with_payload fd ;;
      x <- mget snd ;;
      match x with
      | Some x =>
          if negb (snd pl =? 0)
          then lift (store_buffered_payload_owned fd (cr_task x) (fst pl) (snd pl))
          else mret tt
      | None => mret tt             (* not null, see above *)
      end.

Fixpoint take_payload (fd task_id : Z) (l : list buffered_payload)
    : option (buffered_payload * list buffered_payload) :=
  match l with
  | [] => None
  | b :: rest =>
      if (bp_fd b =? fd) && (bp_task_id b =? task_id) then Some (b, rest)
      else match take_payload fd task_id rest with
           | Some (x, rest') => Some (x, b :: rest')
           | None => None
           end
  end.

(** The out-parameters: the memory from [buf] on, of which the caller owns the
    first [buf_capacity] bytes, and [*payload_length]. *)
Record payload_out := mk_payload_out {
  po_buf : option bytes;
  po_length : option Z;
}.

Definition payload_kind (kind : Z) : bool :=
  (kind =? IOURINGD_TASK_KIND_SOCK_READ) || (kind =? IOURINGD_TASK_KIND_SOCK_READ_FIXED) ||
  (kind =? IOURINGD_TASK_KIND_FILE_READ) || (kind =? IOURINGD_TASK_KIND_ACCEPT).

Definition iouringd_read_completion_payload (fd : Z) (completion : option completion_record)
    (buf_capacity : Z) : M (lib W * payload_out) unit :=
  st <- mget id ;;
  let '(l, o) := st in
  match completion, po_length o with
  | Some x, Some _ =>
      if fd <? 0 then mfail EINVAL
      else if negb (payload_kind (cr_task_kind x)) then mfail EINVAL
      else if cr_payload_length x =? 0 then
        mmod (fun st => (fst st, mk_payload_out (po_buf (snd st)) (Some 0)))
      else
        match po_buf o with
        | None => mfail EMSGSIZE
        | Some buf =>
            if buf_capacity <? cr_payload_length x then mfail EMSGSIZE
            else
              match take_payload fd (cr_task x) (buffered_payloads l) with
              | None => mfail EPROTO
              | Some (b, rest) =>
                  mmod (fun st => (fst st <| buffered_payloads := rest |>,
                                   mk_payload_out
                                     (Some (blit 0 (take (Z.to_nat (bp_payload_length b)) (bp_payload b)) buf))
                                     (Some (bp_payload_length b))))
              end
        end
  | _, _ => mfail EINVAL
  end.
End Library.
