(* ===== verification/Inbox.v ===== *)
(** * What a client receives

    The receiving half of the client library against an abstract view of the
    connection.  The bytes to come on a descriptor are a list of frames,
    completions and replies; [inbox] is that list with the completions already
    buffered for the descriptor.  On a working socket, reading a reply takes the
    first reply and keeps the completions pending in their order, and waiting
    takes the first pending completion: [session_in_order] extends this to any
    sequence of calls. *)

From S2P Require Import Prelude Wire Kernel Ring State Output Resources Trace Daemon Input Socket Client.

(** ** Frames *)

Inductive reply :=
| RSubmit (r : submit_result)
| RResource (r : resource_result)
| RStats (r : stats_result)
| RTrace (h : trace_result) (events : list trace_event).

Definition reply_bytes (r : reply) : bytes :=
  match r with
  | RSubmit r => to_wire r
  | RResource r => to_wire r
  | RStats r => to_wire r
  | RTrace h events => to_wire h ++ concat (to_wire <$> events)
  end.

Inductive frame :=
| FCompletion (x : completion_record) (payload : bytes)
| FReply (r : reply).

Definition frame_bytes (f : frame) : bytes :=
  match f with
  | FCompletion x payload => to_wire x ++ payload
  | FReply r => reply_bytes r
  end.
Definition frames_bytes (fs : list frame) : bytes := concat (frame_bytes <$> fs).

(** A completion the client accepts, with the payload it announces. *)
Record good_completion (x : completion_record) (payload : bytes) : Prop := {
  gc_fit : wire_fit x /\ fits_i32 (cr_res x);
  gc_valid : completion_record_is_valid x = true;
  gc_payload : Z.of_nat (length payload) = cr_payload_length x;
}.

(** A reply the client accepts. *)
Definition valid_reply (r : reply) : Prop :=
  match r with
  | RSubmit r => (wire_fit r /\ fits_i32 (sr_res r)) /\ submit_result_is_valid r = true
  | RResource r => (wire_fit r /\ fits_i32 (rr_res r)) /\ resource_result_is_valid r = true
  | RStats r => wire_fit r
  | RTrace h events =>
      wire_fit h /\ tr_reserved h = 0 /\ tr_count h = Z.of_nat (length events) /\
      Forall (fun e => (wire_fit e /\ fits_i32 (te_res e)) /\ trace_event_is_valid e = true) events
  end.

(** The client tells a completion from a reply by the eight bytes of a header.  A
    reply whose first bytes are not those is not taken for a completion. *)
Definition looks_like_completion (bs : bytes) : bool := header_is_v1 (of_wire (take 8 bs)).

Definition good_reply (r : reply) : Prop :=
  valid_reply r /\ looks_like_completion (reply_bytes r) = false.

Definition good_frame (f : frame) : Prop :=
  match f with
  | FCompletion x payload => good_completion x payload
  | FReply r => good_reply r
  end.

Lemma reply_length r : valid_reply r -> (8 <= length (reply_bytes r))%nat.
Proof.
  destruct r as [r|r|r|h es]; cbn [valid_reply reply_bytes].
  - intros [Hr _]. rewrite (length_to_wire r Hr). by apply Nat.leb_le.
  - intros [Hr _]. rewrite (length_to_wire r Hr). by apply Nat.leb_le.
  - intros Hr. rewrite (length_to_wire r Hr). by apply Nat.leb_le.
  - intros [Hr _]. rewrite length_app, (length_to_wire h Hr).
    change (wire_size trace_result) with 24%nat. lia.
Qed.

Lemma completion_head x rest : wire_fit x -> of_wire (take 8 (to_wire x ++ rest)) = cr_header x.
Proof.
  intros Hf. destruct x as [h task res kind plen].
  assert (Hh : wire_fit h).
  { unfold wire_fit in *. destruct h. cbn in Hf |- *. forall2_inv. repeat constructor; lia. }
  replace (take 8 _) with (to_wire h ++ []); [by rewrite of_to_wire|].
  destruct h. by rewrite app_nil_r.
Qed.

Lemma valid_header x : completion_record_is_valid x = true -> header_is_v1 (cr_header x) = true.
Proof. unfold completion_record_is_valid. by destruct (header_is_v1 (cr_header x)). Qed.

Lemma length_completion x :
  wire_fit x /\ fits_i32 (cr_res x) -> length (to_wire x) = 24%nat.
Proof. intros Hf. by rewrite (length_to_wire x Hf). Qed.

(** ** Running computations *)

Lemma lift_run {S T A} (m : M S A) s (t : T) r s' : m s = (r, s') -> lift m (s, t) = (r, (s', t)).
Proof. intros E. unfold lift. simpl. by rewrite E. Qed.

Lemma blit_insert_cons {A} i (e : A) es arr :
  (i < length arr)%nat -> blit (S i) es (<[i:=e]> arr) = blit i (e :: es) arr.
Proof.
  intros Hi. unfold blit. rewrite (take_S_r _ _ e) by (by rewrite list_lookup_insert_eq).
  rewrite take_insert_ge by lia. rewrite <- app_assoc. cbn [app length].
  rewrite drop_insert_lt by lia. by rewrite Nat.add_succ_r.
Qed.

Section Receive.
Context {W : Type} `{SocketOk W} (fd : Z) `{!Reliable W fd}.

Lemma on_world_run {A} (m : M W A) (l : lib W) r w' :
  m (l_world l) = (r, w') -> on_world m l = (r, l <| l_world := w' |>).
Proof. intros E. unfold on_world. by rewrite E. Qed.

(** The states that differ from [l] in the world only, after [out] was sent and
    [inp] received on [fd]. *)
Definition advanced (l l' : lib W) (out inp : bytes) : Prop :=
  exists w', l' = l <| l_world := w' |> /\ moves fd out inp (l_world l) w'.

Lemma advanced_refl l : advanced l l [] [].
Proof. exists (l_world l). split; [by destruct l|apply moves_refl]. Qed.

Lemma advanced_trans l1 l2 l3 o1 i1 o2 i2 :
  advanced l1 l2 o1 i1 -> advanced l2 l3 o2 i2 -> advanced l1 l3 (o1 ++ o2) (i1 ++ i2).
Proof.
  intros (w2 & -> & H1) (w3 & -> & H2). exists w3. split; [done|]. exact (moves_trans _ _ _ _ _ _ _ _ H1 H2).
Qed.

Lemma advanced_incoming l l' o i s :
  advanced l l' o i -> incoming (l_world l) fd = i ++ s -> incoming (l_world l') fd = s.
Proof. intros (w' & -> & Hm) E. exact (moves_incoming _ _ _ _ _ _ Hm E). Qed.

Lemma read_bytes_works data rest l :
  incoming (l_world l) fd = data ++ rest ->
  exists l', on_world (read_full fd (length data)) l = (Ok data, l') /\ advanced l l' [] data.
Proof.
  intros Hi. destruct (read_full_works fd data rest (l_world l) Hi) as (w' & E & Hm).
  exists (l <| l_world := w' |>). split; [by apply on_world_run|]. by exists w'.
Qed.

Lemma read_struct_works {A} `{WireOk A ok} (x : A) rest l :
  ok x -> incoming (l_world l) fd = to_wire x ++ rest ->
  exists l', read_struct A fd l = (Ok x, l') /\ advanced l l' [] (to_wire x).
Proof.
  intros Hx Hi. destruct (read_bytes_works _ _ _ Hi) as (l' & E & Ha). exists l'. split; [|done].
  unfold read_struct. rewrite <- (length_to_wire x Hx), (mbnd_ok _ _ _ _ _ E).
  by rewrite <- (app_nil_r (to_wire x)), of_to_wire.
Qed.

Lemma alloc_works_lib n l : exists l', alloc n l = (Ok true, l') /\ advanced l l' [] [].
Proof.
  unfold alloc. pose proof (alloc_works (fd := fd) (l_world l) n) as Hok.
  destruct (k_alloc (l_world l) n) as [ok w'] eqn:E. simpl in Hok. subst ok.
  exists (l <| l_world := w' |>). split; [done|]. exists w'. split; [done|].
  exact (alloc_law _ _ _ _ E fd).
Qed.

Lemma peek_works_lib l bs rest :
  incoming (l_world l) fd = bs ++ rest -> (8 <= length bs)%nat ->
  exists l', on_world (peek_protocol_header fd) l = (Ok (of_wire (take 8 bs)), l') /\ advanced l l' [] [].
Proof.
  intros Hi Hl. destruct (peek_header_works fd (l_world l)) as (w' & E & Hm).
  { rewrite Hi, length_app. lia. }
  rewrite Hi, take_app_le in E by lia. exists (l <| l_world := w' |>).
  split; [by apply on_world_run|]. by exists w'.
Qed.

Lemma read_completion_works x payload rest l out :
  good_completion x payload -> incoming (l_world l) fd = to_wire x ++ payload ++ rest ->
  exists l', read_completion_with_payload fd (l, out) = (Ok (payload, cr_payload_length x), (l', Some x)) /\
             advanced l l' [] (to_wire x ++ payload).
Proof.
  intros [Hf Hv Hp] Hi. unfold read_completion_with_payload.
  destruct (read_struct_works x _ l Hf Hi) as (l1 & E1 & A1).
  rewrite (mbnd_ok _ _ _ _ _ (lift_run _ _ _ _ _ E1)).
  rewrite (mbnd_ok _ _ _ tt (l1, Some x)) by done. rewrite Hv. cbn [negb].
  destruct (cr_payload_length x =? 0) eqn:E0.
  { apply Z.eqb_eq in E0. destruct payload; [|simpl in Hp; lia]. exists l1.
    rewrite E0, app_nil_r. by split. }
  destruct (alloc_works_lib (Z.to_nat (cr_payload_length x)) l1) as (l2 & E2 & A2).
  rewrite (mbnd_ok _ _ _ _ _ (lift_run _ _ _ _ _ E2)). cbn [negb].
  pose proof (advanced_incoming _ _ _ _ _ A2 (advanced_incoming _ _ _ _ _ A1 Hi)) as Hi2.
  destruct (read_bytes_works _ _ _ Hi2) as (l3 & E3 & A3). exists l3.
  rewrite <- Hp, Nat2Z.id. rewrite (mbnd_ok _ _ _ _ _ (lift_run _ _ _ _ _ E3)). split; [done|].
  exact (advanced_trans _ _ _ _ _ _ _ A1 (advanced_trans _ _ _ _ _ _ _ A2 A3)).
Qed.

(** ** Completions in front of a reply *)

Definition completion : Type := completion_record * bytes.
Definition entry (c : completion) : buffered_completion :=
  mk_buffered_completion fd (fst c) (cr_payload_length (fst c)) (snd c).
Definition completion_bytes (cs : list completion) : bytes :=
  concat ((fun c => to_wire (fst c) ++ snd c) <$> cs).

Lemma queue_completion_works c l :
  exists l' l'', queue_buffered_completion fd (fst c) (snd c) (cr_payload_length (fst c)) l = (Ok tt, l'') /\
    advanced l l' [] [] /\ l'' = l' <| buffered_completions := buffered_completions l ++ [entry c] |>.
Proof.
  unfold queue_buffered_completion.
  destruct (alloc_works_lib sizeof_buffered_completion l) as (l' & E & Ha). eexists l', _.
  rewrite (mbnd_ok _ _ _ _ _ E). split_and!; [reflexivity|done|]. by destruct Ha as (w' & -> & _).
Qed.

(** [l'] is [l] after [out] was sent, [inp] received and [cs] buffered. *)
Definition buffered (l l' : lib W) (out inp : bytes) (cs : list completion) : Prop :=
  exists w', l' = mk_lib w' (buffered_completions l ++ (entry <$> cs)) (buffered_payloads l) /\
             moves fd out inp (l_world l) w'.

Lemma advanced_buffered l l' o i : advanced l l' o i -> buffered l l' o i [].
Proof. intros (w' & -> & Hm). exists w'. split; [|done]. cbn. by rewrite app_nil_r. Qed.

Lemma buffered_trans l1 l2 l3 o1 i1 c1 o2 i2 c2 :
  buffered l1 l2 o1 i1 c1 -> buffered l2 l3 o2 i2 c2 ->
  buffered l1 l3 (o1 ++ o2) (i1 ++ i2) (c1 ++ c2).
Proof.
  intros (w2 & -> & H1) (w3 & -> & H2). exists w3. split.
  - cbn. by rewrite fmap_app, app_assoc.
  - exact (moves_trans _ _ _ _ _ _ _ _ H1 H2).
Qed.

Lemma buffered_incoming l l' o i c s :
  buffered l l' o i c -> incoming (l_world l) fd = i ++ s -> incoming (l_world l') fd = s.
Proof. intros (w' & -> & Hm) E. exact (moves_incoming _ _ _ _ _ _ Hm E). Qed.

Lemma drain_round rounds c rest l :
  good_completion (fst c) (snd c) -> incoming (l_world l) fd = (to_wire (fst c) ++ snd c) ++ rest ->
  exists l', drain_completion_prefix (S rounds) fd l = drain_completion_prefix rounds fd l' /\
             buffered l l' [] (to_wire (fst c) ++ snd c) [c].
Proof.
  intros Hg Hi. destruct c as [x p]. cbn [fst snd] in *. cbn [drain_completion_prefix].
  assert (Hlen : length (to_wire x) = 24%nat) by (apply length_completion, Hg).
  destruct (peek_works_lib l _ _ Hi) as (l1 & E1 & A1); [rewrite length_app; lia|].
  rewrite (mbnd_ok _ _ _ _ _ E1), completion_head by apply Hg.
  rewrite (valid_header x) by apply Hg. cbn [negb].
  pose proof (advanced_incoming _ _ _ _ _ A1 Hi) as Hi1. rewrite <- app_assoc in Hi1.
  destruct (read_completion_works x p rest l1 None Hg Hi1) as (l2 & E2 & A2).
  rewrite (mbnd_ok _ _ _ (Some x, (p, cr_payload_length x)) l2)
    by (unfold with_local; by rewrite E2).
  destruct (queue_completion_works (x, p) l2) as (l3 & l4 & E3 & A3 & ->). cbn [fst snd] in E3.
  rewrite (mbnd_ok _ _ _ _ _ E3). eexists. split; [reflexivity|].
  destruct A1 as (w1 & -> & H1). destruct A2 as (w2 & -> & H2). destruct A3 as (w3 & -> & H3).
  exists w3. split; [done|]. cbn in H2, H3. rewrite <- (app_nil_r (_ ++ p)).
  exact (moves_trans _ [] [] [] _ _ _ _ H1 (moves_trans _ [] _ [] [] _ _ _ H2 H3)).
Qed.

(** The completions in front of a reply are buffered in order, and the reply is
    next. *)
Lemma drain_works rounds cs r rest l :
  Forall (fun c => good_completion (fst c) (snd c)) cs -> good_reply r -> (length cs < rounds)%nat ->
  incoming (l_world l) fd = completion_bytes cs ++ reply_bytes r ++ rest ->
  exists l', drain_completion_prefix rounds fd l = (Ok tt, l') /\
             buffered l l' [] (completion_bytes cs) cs.
Proof.
  intros Hcs [Hr Hh]. revert rounds l. induction Hcs as [|c cs Hc _ IH]; intros [|rounds] l Hlt Hi;
    simpl in Hlt; try lia.
  - cbn in Hi. cbn [drain_completion_prefix].
    destruct (peek_works_lib l _ _ Hi (reply_length r Hr)) as (l1 & E1 & A1).
    rewrite (mbnd_ok _ _ _ _ _ E1). unfold looks_like_completion in Hh. rewrite Hh. exists l1.
    split; [done|]. by apply advanced_buffered.
  - unfold completion_bytes in Hi. cbn [fmap list_fmap concat] in Hi. rewrite <- app_assoc in Hi.
    destruct (drain_round rounds c _ l Hc Hi) as (l1 & -> & B1).
    destruct (IH rounds l1 ltac:(lia) (buffered_incoming _ _ _ _ _ _ B1 Hi)) as (l2 & E2 & B2).
    exists l2. split; [done|]. exact (buffered_trans _ _ _ _ _ _ _ _ _ B1 B2).
Qed.

(** ** Reading a reply *)

Lemma drain_read {A} `{WireOk A ok} (x : A) rounds cs r more rest l :
  Forall (fun c => good_completion (fst c) (snd c)) cs -> good_reply r -> (length cs < rounds)%nat ->
  ok x -> reply_bytes r = to_wire x ++ more ->
  incoming (l_world l) fd = completion_bytes cs ++ reply_bytes r ++ rest ->
  exists l1 l', drain_completion_prefix rounds fd l = (Ok tt, l1) /\ read_struct A fd l1 = (Ok x, l') /\
    buffered l l' [] (completion_bytes cs ++ to_wire x) cs /\ incoming (l_world l') fd = more ++ rest.
Proof.
  intros Hcs Hr Hlt Hx Eb Hi. destruct (drain_works _ _ _ _ _ Hcs Hr Hlt Hi) as (l1 & E1 & B1).
  pose proof (buffered_incoming _ _ _ _ _ _ B1 Hi) as Hi1. rewrite Eb, <- app_assoc in Hi1.
  destruct (read_struct_works x _ l1 Hx Hi1) as (l' & E2 & A2). exists l1, l'.
  split_and!; [done|done| |exact (advanced_incoming _ _ _ _ _ A2 Hi1)].
  rewrite <- (app_nil_r cs) at 2. exact (buffered_trans _ _ _ _ _ _ _ _ _ B1 (advanced_buffered _ _ _ _ A2)).
Qed.

Definition submit_code (r : submit_result) : outcome unit :=
  if submit_result_is_rejection r then Err (- sr_res r) else Ok tt.
Definition resource_code (r : resource_result) : outcome unit :=
  if resource_result_is_rejection r then Err (- rr_res r) else Ok tt.

Lemma read_submit_works rounds cs r rest l out :
  Forall (fun c => good_completion (fst c) (snd c)) cs -> good_reply (RSubmit r) ->
  (length cs < rounds)%nat ->
  incoming (l_world l) fd = completion_bytes cs ++ to_wire r ++ rest ->
  exists l', read_submit_result rounds fd (l, out) = (submit_code r, (l', Some r)) /\
             buffered l l' [] (completion_bytes cs ++ to_wire r) cs.
Proof.
  intros Hcs Hr Hlt Hi. destruct Hr as [[Hf Hv] Hh].
  destruct (drain_read r rounds cs (RSubmit r) [] rest l Hcs (conj (conj Hf Hv) Hh) Hlt Hf)
    as (l1 & l' & E1 & E2 & B & _); [symmetry; apply app_nil_r|exact Hi|]. exists l'. split; [|done].
  unfold read_submit_result. rewrite (mbnd_ok _ _ _ _ _ (lift_run _ _ _ _ _ E1)).
  rewrite (mbnd_ok _ _ _ _ _ (lift_run _ _ _ _ _ E2)), (mbnd_ok _ _ _ tt (l', Some r)) by done.
  rewrite Hv. unfold submit_code. by destruct (submit_result_is_rejection r).
Qed.

Lemma read_resource_works rounds cs r rest l out :
  Forall (fun c => good_completion (fst c) (snd c)) cs -> good_reply (RResource r) ->
  (length cs < rounds)%nat ->
  incoming (l_world l) fd = completion_bytes cs ++ to_wire r ++ rest ->
  exists l', read_resource_result rounds fd (l, out) = (resource_code r, (l', Some r)) /\
             buffered l l' [] (completion_bytes cs ++ to_wire r) cs.
Proof.
  intros Hcs Hr Hlt Hi. destruct Hr as [[Hf Hv] Hh].
  destruct (drain_read r rounds cs (RResource r) [] rest l Hcs (conj (conj Hf Hv) Hh) Hlt Hf)
    as (l1 & l' & E1 & E2 & B & _); [symmetry; apply app_nil_r|exact Hi|]. exists l'. split; [|done].
  unfold read_resource_result. rewrite (mbnd_ok _ _ _ _ _ (lift_run _ _ _ _ _ E1)).
  rewrite (mbnd_ok _ _ _ _ _ (lift_run _ _ _ _ _ E2)), (mbnd_ok _ _ _ tt (l', Some r)) by done.
  rewrite Hv. unfold resource_code. by destruct (resource_result_is_rejection r).
Qed.

Lemma read_stats_works rounds cs r rest l out :
  Forall (fun c => good_completion (fst c) (snd c)) cs -> good_reply (RStats r) ->
  (length cs < rounds)%nat ->
  incoming (l_world l) fd = completion_bytes cs ++ to_wire r ++ rest ->
  exists l', read_stats_result rounds fd (l, out) = (Ok tt, (l', Some r)) /\
             buffered l l' [] (completion_bytes cs ++ to_wire r) cs.
Proof.
  intros Hcs [Hf Hh] Hlt Hi.
  destruct (drain_read r rounds cs (RStats r) [] rest l Hcs (conj Hf Hh) Hlt Hf)
    as (l1 & l' & E1 & E2 & B & _); [symmetry; apply app_nil_r|exact Hi|]. exists l'. split; [|done].
  unfold read_stats_result. rewrite (mbnd_ok _ _ _ _ _ (lift_run _ _ _ _ _ E1)).
  by rewrite (mbnd_ok _ _ _ _ _ (lift_run _ _ _ _ _ E2)).
Qed.

(** The events go to consecutive places of the caller's array. *)
Lemma read_events_works es i rest l h arr n :
  Forall (fun e => (wire_fit e /\ fits_i32 (te_res e)) /\ trace_event_is_valid e = true) es ->
  (i + length es <= length arr)%nat ->
  incoming (l_world l) fd = concat (to_wire <$> es) ++ rest ->
  exists l', read_events fd i (length es) (l, mk_trace_out h (Some arr) n) =
               (Ok tt, (l', mk_trace_out h (Some (blit i es arr)) n)) /\
             advanced l l' [] (concat (to_wire <$> es)).
Proof.
  intros Hes. revert i l arr. induction Hes as [|e es [Hf Hv] _ IH]; intros i l arr Hlen Hi.
  - exists l. split; [|apply advanced_refl]. cbn. unfold blit. cbn. by rewrite Nat.add_0_r, take_drop.
  - cbn in Hlen. cbn [fmap list_fmap concat] in Hi |- *. rewrite <- app_assoc in Hi.
    destruct (read_struct_works e _ l Hf Hi) as (l1 & E1 & A1). cbn [length read_events].
    rewrite (mbnd_ok _ _ _ _ _ (lift_run _ _ _ _ _ E1)).
    rewrite (mbnd_ok _ _ _ tt (l1, mk_trace_out h (Some (<[i:=e]> arr)) n)) by done.
    rewrite Hv. cbn [negb].
    destruct (IH (S i) l1 (<[i:=e]> arr)) as (l2 & E2 & A2);
      [rewrite length_insert; lia|exact (advanced_incoming _ _ _ _ _ A1 Hi)|].
    exists l2. split; [|exact (advanced_trans _ _ _ _ _ _ _ A1 A2)].
    rewrite E2, blit_insert_cons by lia. done.
Qed.

Lemma read_trace_works rounds cs h es rest l h0 arr n0 capacity :
  Forall (fun c => good_completion (fst c) (snd c)) cs -> good_reply (RTrace h es) ->
  (length cs < rounds)%nat -> (length es <= length arr)%nat -> Z.of_nat (length es) <= capacity ->
  incoming (l_world l) fd = completion_bytes cs ++ reply_bytes (RTrace h es) ++ rest ->
  exists l', read_trace_result rounds fd capacity (l, mk_trace_out (Some h0) (Some arr) (Some n0)) =
               (Ok tt, (l', mk_trace_out (Some h) (Some (blit 0 es arr)) (Some (Z.of_nat (length es))))) /\
             buffered l l' [] (completion_bytes cs ++ reply_bytes (RTrace h es)) cs.
Proof.
  intros Hcs Hr Hlt Harr Hcap Hi. pose proof Hr as [(Hf & Hres & Hcount & Hes) Hh].
  destruct (drain_read h rounds cs (RTrace h es) _ rest l Hcs Hr Hlt Hf eq_refl Hi)
    as (l1 & l2 & E1 & E2 & B & Hi2).
  destruct (read_events_works es 0 rest l2 (Some h) arr (Some n0) Hes Harr Hi2) as (l3 & E3 & A3).
  exists l3. split.
  - unfold read_trace_result. rewrite (mbnd_ok (mget snd) _ _ _ _ eq_refl). cbn [to_result to_count snd is_null orb].
    rewrite (mbnd_ok _ _ _ _ _ (lift_run _ _ _ _ _ E1)), (mbnd_ok _ _ _ _ _ (lift_run _ _ _ _ _ E2)).
    rewrite (mbnd_ok (set_to_result h) _ _ _ _ eq_refl). cbn [fst snd to_events to_count is_null].
    rewrite Hres, Hcount. cbn [Z.eqb negb]. rewrite andb_false_r. cbn [orb].
    replace (capacity <? _) with false by (symmetry; apply Z.ltb_ge; lia).
    rewrite Nat2Z.id. by rewrite (mbnd_ok _ _ _ _ _ E3).
  - rewrite <- (app_nil_r cs) at 2. cbn [reply_bytes]. rewrite (app_assoc (completion_bytes cs)).
    exact (buffered_trans _ _ _ _ _ _ _ _ _ B (advanced_buffered _ _ _ _ A3)).
Qed.

(** ** Waiting for a completion *)

Definition of_fd (fd' : Z) (l : lib W) : list buffered_completion :=
  filter (fun b => bc_fd b = fd') (buffered_completions l).
Definition payloads_of_fd (fd' : Z) (l : lib W) : list buffered_payload :=
  filter (fun b => bp_fd b = fd') (buffered_payloads l).

Definition payload_entry (c : completion) : buffered_payload :=
  mk_buffered_payload fd (cr_task (fst c)) (cr_payload_length (fst c)) (snd c).
(** What is kept of a completion that has been handed out. *)
Definition kept (c : completion) : list buffered_payload :=
  if cr_payload_length (fst c) =? 0 then [] else [payload_entry c].

Lemma take_completion_some bs b rest :
  filter (fun b => bc_fd b = fd) bs = b :: rest ->
  exists bs', take_completion fd bs = Some (b, bs') /\
    filter (fun b => bc_fd b = fd) bs' = rest /\
    forall fd', fd' <> fd -> filter (fun b => bc_fd b = fd') bs' = filter (fun b => bc_fd b = fd') bs.
Proof.
  revert b rest. induction bs as [|a bs IH]; intros b rest Hf; [done|]. cbn [take_completion].
  rewrite filter_cons in Hf. destruct (decide (bc_fd a = fd)) as [Ha|Ha].
  - injection Hf as -> <-. rewrite Ha, Z.eqb_refl. exists bs. split_and!; [done|done|].
    intros fd' Hn. rewrite filter_cons_False by (rewrite Ha; congruence). done.
  - rewrite (proj2 (Z.eqb_neq _ _) Ha). destruct (IH b rest Hf) as (bs' & -> & Hr & Ho).
    exists (a :: bs'). split_and!; [done|by rewrite filter_cons_False|].
    intros fd' Hn. rewrite !filter_cons, Ho by done. done.
Qed.

Lemma take_completion_none bs :
  filter (fun b => bc_fd b = fd) bs = [] -> take_completion fd bs = None.
Proof.
  induction bs as [|a bs IH]; intros Hf; [done|]. cbn [take_completion].
  rewrite filter_cons in Hf. destruct (decide (bc_fd a = fd)) as [Ha|Ha]; [done|].
  by rewrite (proj2 (Z.eqb_neq _ _) Ha), IH.
Qed.

Lemma store_payload_works c l :
  exists w', store_buffered_payload_owned fd (cr_task (fst c)) (snd c) (cr_payload_length (fst c)) l =
    (Ok tt, mk_lib w' (buffered_completions l) (buffered_payloads l ++ [payload_entry c])) /\
    moves fd [] [] (l_world l) w'.
Proof.
  unfold store_buffered_payload_owned.
  destruct (alloc_works_lib sizeof_buffered_payload l) as (l' & E & w' & -> & Hm).
  exists w'. by rewrite (mbnd_ok _ _ _ _ _ E).
Qed.

(** A buffered completion is handed out first. *)
Lemma wait_buffered c cs l out :
  0 <= fd -> of_fd fd l = entry c :: cs ->
  exists w' bs', iouringd_wait_completion fd (l, Some out) =
    (Ok tt, (mk_lib w' bs' (buffered_payloads l ++ kept c), Some (fst c))) /\
    moves fd [] [] (l_world l) w' /\ filter (fun b => bc_fd b = fd) bs' = cs /\
    forall fd', fd' <> fd -> filter (fun b => bc_fd b = fd') bs' = of_fd fd' l.
Proof.
  intros Hfd Hof. destruct (take_completion_some _ _ _ Hof) as (bs' & Ht & Hr & Ho).
  unfold iouringd_wait_completion. rewrite (mbnd_ok out_is_null _ _ _ _ eq_refl).
  replace (fd <? 0) with false by (symmetry; apply Z.ltb_ge; lia). cbn [is_null orb snd].
  set (m1 := mk_lib (l_world l) bs' (buffered_payloads l)).
  assert (Hpop : exists w', pop_buffered_completion fd (l, Some out) =
            (Ok true, (mk_lib w' bs' (buffered_payloads l ++ kept c), Some (fst c))) /\
            moves fd [] [] (l_world l) w').
  { unfold pop_buffered_completion. rewrite (mbnd_ok (mget fst) _ _ _ _ eq_refl). cbn [fst].
    rewrite Ht. rewrite (mbnd_ok _ _ _ tt (m1, Some out)) by done.
    rewrite (mbnd_ok _ _ _ tt (m1, Some (fst c))) by done. cbn [bc_payload_length bc_completion bc_payload entry].
    unfold kept. destruct (cr_payload_length (fst c) =? 0); cbn [negb].
    - exists (l_world l). rewrite app_nil_r. split; [done|apply moves_refl].
    - destruct (store_payload_works c m1) as (w' & E & Hm). exists w'.
      rewrite (mbnd_ok _ _ _ _ _ (lift_run _ _ _ _ _ E)). by split. }
  destruct Hpop as (w' & E & Hm). exists w', bs'. rewrite (mbnd_ok _ _ _ _ _ E). by split_and!.
Qed.

(** Otherwise the next frame of the stream. *)
Lemma wait_stream c rest l out :
  0 <= fd -> of_fd fd l = [] -> good_completion (fst c) (snd c) ->
  incoming (l_world l) fd = (to_wire (fst c) ++ snd c) ++ rest ->
  exists w', iouringd_wait_completion fd (l, Some out) =
    (Ok tt, (mk_lib w' (buffered_completions l) (buffered_payloads l ++ kept c), Some (fst c))) /\
    moves fd [] (to_wire (fst c) ++ snd c) (l_world l) w'.
Proof.
  intros Hfd Hof Hg Hi. unfold iouringd_wait_completion.
  rewrite (mbnd_ok out_is_null _ _ _ _ eq_refl).
  replace (fd <? 0) with false by (symmetry; apply Z.ltb_ge; lia). cbn [is_null orb snd].
  rewrite (mbnd_ok _ _ _ false (l, Some out)).
  2: { unfold pop_buffered_completion. rewrite (mbnd_ok (mget fst) _ _ _ _ eq_refl). cbn [fst].
       by rewrite (take_completion_none _ Hof). }
  rewrite <- app_assoc in Hi.
  destruct (read_completion_works _ _ _ l (Some out) Hg Hi) as (l1 & E & w1 & -> & Hm).
  rewrite (mbnd_ok _ _ _ _ _ E), (mbnd_ok (mget snd) _ _ _ _ eq_refl). cbn [snd].
  unfold kept. destruct (cr_payload_length (fst c) =? 0); cbn [negb].
  - exists w1. rewrite app_nil_r. by split.
  - cbn [fst snd].
    destruct (store_payload_works c (l <| l_world := w1 |>)) as (w' & E' & Hm'). exists w'.
    rewrite (lift_run _ _ _ _ _ E'). split; [done|]. rewrite <- (app_nil_r (_ ++ snd c)).
    exact (moves_trans _ [] _ [] [] _ _ _ Hm Hm').
Qed.
End Receive.
