(* ===== verification/ClientApi.v ===== *)
(** * The client library: connecting and requests

    Models [src/lib/client.c] (connect, handshake) and the requesting half of
    [src/lib/submit.c]: the [*_result] functions, each of which checks its
    arguments, sends one request and reads one reply, and the functions without
    [_result], which return the id only.

    [rounds] bounds the completions that are moved out of the way of a reply. *)

From S2P Require Import Prelude Wire Kernel Ring State Output Resources Trace Daemon Input Socket Client.

Definition SUN_PATH_SIZE : Z := 108.
Definition FD_CLOEXEC : Z := 1.

Definition client_hello : handshake_request :=
  mk_handshake_request protocol_header_v1 IOURINGD_ABI_V1_MAJOR IOURINGD_ABI_V1_MINOR 0.

(** The two tests of [iouringd_client_handshake_fd] on the result. *)
Definition handshake_result_ok (x : handshake_result) : bool :=
  let p := hr_response x in
  let k := hr_capabilities x in
  header_is_v1 (hp_header p) && (hp_abi_major p =? IOURINGD_ABI_V1_MAJOR) &&
  (hp_abi_minor p =? IOURINGD_ABI_V1_MINOR) && (hp_reserved p =? 0) &&
  (hp_status p =? IOURINGD_HANDSHAKE_STATUS_ACCEPT) &&
  (cap_struct_size k =? Z.of_nat (wire_size capability_descriptor)) &&
  negb (cap_ring_entries k =? 0) && negb (cap_cq_entries k =? 0) &&
  negb (cap_op_mask k =? 0) &&
  (Z.land (cap_op_mask k) (u32 (Z.lnot IOURINGD_CAPABILITY_OP_MASK_V1)) =? 0) &&
  negb (cap_submit_credits k =? 0) && negb (cap_ring_entries k <? cap_submit_credits k) &&
  negb (cap_registered_fd_slots k =? 0) && negb (cap_io_bytes_max k =? 0).
Definition handshake_buffers_ok (k : capability_descriptor) : bool :=
  (Z.land (cap_op_mask k) (Z.lor IOURINGD_CAPABILITY_OP_READ_FIXED IOURINGD_CAPABILITY_OP_WRITE_FIXED)
     =? 0) || negb (cap_registered_buffer_slots k =? 0).

Definition init_submit_header (task_kind : Z) : submit_request :=
  mk_submit_request protocol_header_v1 task_kind 0 0.
Definition init_control_header (request_kind : Z) : control_request :=
  mk_control_request protocol_header_v1 request_kind 0 0.

(** The [length] bytes at [buf]. *)
Definition bytes_at (buf : option bytes) (length : Z) : bytes := take (Z.to_nat length) (default [] buf).

Section Api.
Context {W : Type} `{Socket W}.
Local Open Scope iou_scope.

(** ** Connecting *)

Definition set_cloexec (fd : Z) : M W unit :=
  flags <- sock (fun w => k_getfd w fd) ;;
  sock (fun w => k_setfd w fd (Z.lor flags FD_CLOEXEC)).

Definition sock_close (fd : Z) : M W unit := mmod (fun w => k_close w fd).

(** A failure after [socket] closes the descriptor. *)
Definition iouringd_client_connect (socket_path : option bytes) : M W Z :=
  match socket_path with
  | None => mfail EINVAL
  | Some path =>
      fd <- sock k_socket ;;
      r <- mtry (set_cloexec fd) ;;
      match r with
      | Err e => sock_close fd ;;; mfail e
      | Ok _ =>
          if SUN_PATH_SIZE <=? Z.of_nat (length path) then sock_close fd ;;; mfail ENAMETOOLONG
          else
            r <- mtry (sock (fun w => k_connect w fd path)) ;;
            match r with
            | Err e => sock_close fd ;;; mfail e
            | Ok _ => mret fd
            end
      end
  end.

Definition iouringd_client_handshake_fd (fd : Z) : M (W * option handshake_result) unit :=
  null <- mget (fun st => is_null (snd st)) ;;
  if (fd <? 0) || null then mfail EINVAL
  else
    lift (write_full fd (to_wire client_hello)) ;;;
    data <- lift (read_full fd (wire_size handshake_result)) ;;
    let x : handshake_result := of_wire data in
    mmod (fun st => (fst st, Some x)) ;;;
    if negb (handshake_result_ok x) then mfail EPROTO
    else if negb (handshake_buffers_ok (hr_capabilities x)) then mfail EPROTO
    else mret tt.

Definition iouringd_client_handshake (socket_path : option bytes)
    : M (W * option handshake_result) unit :=
  null <- mget (fun st => is_null (snd st)) ;;
  if null then mfail EINVAL
  else
    fd <- lift (iouringd_client_connect socket_path) ;;
    r <- mtry (iouringd_client_handshake_fd fd) ;;
    lift (sock_close fd) ;;;
    match r with Ok _ => mret tt | Err e => mfail e end.

(** ** Requests

    Check the arguments, send, read the reply. *)

Definition submit_call (rounds : nat) (fd : Z) (bad : bool) (send : M W unit)
    : M (lib W * option submit_result) unit :=
  null <- out_is_null ;;
  if (fd <? 0) || null || bad then mfail EINVAL
  else lift (on_world send) ;;; read_submit_result rounds fd.

Definition resource_call (rounds : nat) (fd : Z) (bad : bool) (send : M W unit)
    : M (lib W * option resource_result) unit :=
  null <- out_is_null ;;
  if (fd <? 0) || null || bad then mfail EINVAL
  else lift (on_world send) ;;; read_resource_result rounds fd.

Definition iouringd_submit_nop_result (rounds : nat) (fd : Z) :=
  submit_call rounds fd false (write_full fd (to_wire (init_submit_header IOURINGD_TASK_KIND_NOP))).

Definition iouringd_submit_timeout_result (rounds : nat) (fd timeout_nsec : Z) :=
  submit_call rounds fd false
    (write_full fd (to_wire (mk_timeout_request (init_submit_header IOURINGD_TASK_KIND_TIMEOUT)
                               timeout_nsec))).

Definition iouringd_submit_cancel_result (rounds : nat) (fd target_task_id : Z) :=
  submit_call rounds fd false
    (write_full fd (to_wire (mk_cancel_request protocol_header_v1 IOURINGD_TASK_KIND_CANCEL 0 0
                               target_task_id))).

Definition iouringd_submit_sock_read_result (rounds : nat) (fd resource_id length : Z) :=
  submit_call rounds fd (resource_id_is_invalid resource_id || (length =? 0))
    (write_full fd (to_wire (mk_rw_request (init_submit_header IOURINGD_TASK_KIND_SOCK_READ)
                               resource_id length))).

Definition iouringd_submit_sock_write_result (rounds : nat) (fd resource_id : Z) (buf : option bytes)
    (length : Z) :=
  submit_call rounds fd (is_null buf || resource_id_is_invalid resource_id || (length =? 0))
    (write_iov_full fd (to_wire (mk_rw_request (init_submit_header IOURINGD_TASK_KIND_SOCK_WRITE)
                                   resource_id length)) (bytes_at buf length)).

Definition iouringd_submit_file_read_result (rounds : nat) (fd resource_id length : Z) :=
  submit_call rounds fd (resource_id_is_invalid resource_id || (length =? 0))
    (write_full fd (to_wire (mk_rw_request (init_submit_header IOURINGD_TASK_KIND_FILE_READ)
                               resource_id length))).

Definition iouringd_submit_file_write_result (rounds : nat) (fd resource_id : Z) (buf : option bytes)
    (length : Z) :=
  submit_call rounds fd (is_null buf || resource_id_is_invalid resource_id || (length =? 0))
    (write_iov_full fd (to_wire (mk_rw_request (init_submit_header IOURINGD_TASK_KIND_FILE_WRITE)
                                   resource_id length)) (bytes_at buf length)).

Definition iouringd_submit_poll_result (rounds : nat) (fd resource_id poll_mask : Z) :=
  submit_call rounds fd (resource_id_is_invalid resource_id || (poll_mask =? 0))
    (write_full fd (to_wire (mk_poll_request (init_submit_header IOURINGD_TASK_KIND_POLL)
                               resource_id poll_mask 0))).

Definition iouringd_submit_connect_result (rounds : nat) (fd resource_id : Z)
    (sockaddr_buf : option bytes) (sockaddr_length : Z) :=
  submit_call rounds fd
    (is_null sockaddr_buf || resource_id_is_invalid resource_id || (sockaddr_length =? 0) ||
     (UINT16_MAX <? sockaddr_length))
    (write_iov_full fd (to_wire (mk_rw_request (init_submit_header IOURINGD_TASK_KIND_CONNECT)
                                   resource_id sockaddr_length))
       (bytes_at sockaddr_buf sockaddr_length)).

Definition iouringd_submit_accept_result (rounds : nat) (fd resource_id sockaddr_length : Z) :=
  submit_call rounds fd (resource_id_is_invalid resource_id || (UINT16_MAX <? sockaddr_length))
    (write_full fd (to_wire (mk_rw_request (init_submit_header IOURINGD_TASK_KIND_ACCEPT)
                               resource_id sockaddr_length))).

(** [path] is a C string: the characters before its NUL, which is sent too. *)
Definition path_length (path : option bytes) : Z := u64 (Z.of_nat (length (default [] path)) + 1).

Definition iouringd_submit_openat_result (rounds : nat) (fd : Z) (path : option bytes)
    (open_flags open_mode : Z) :=
  submit_call rounds fd (is_null path || (path_length path <=? 1) || (4096 <? path_length path))
    (write_iov_full fd (to_wire (mk_openat_request (init_submit_header IOURINGD_TASK_KIND_OPENAT)
                                   open_flags open_mode (u32 (path_length path))))
       (default [] path ++ [0])).

Definition iouringd_submit_close_result (rounds : nat) (fd resource_id : Z) :=
  submit_call rounds fd (resource_id_is_invalid resource_id)
    (write_full fd (to_wire (mk_close_request (init_submit_header IOURINGD_TASK_KIND_CLOSE)
                               resource_id 0))).

Definition iouringd_submit_sock_read_fixed_result (rounds : nat)
    (fd file_resource_id buffer_resource_id length : Z) :=
  submit_call rounds fd
    (resource_id_is_invalid file_resource_id || resource_id_is_invalid buffer_resource_id ||
     (length =? 0))
    (write_full fd (to_wire (mk_fixed_request (init_submit_header IOURINGD_TASK_KIND_SOCK_READ_FIXED)
                               file_resource_id buffer_resource_id length))).

Definition iouringd_submit_sock_write_fixed_result (rounds : nat)
    (fd file_resource_id buffer_resource_id length : Z) :=
  submit_call rounds fd
    (resource_id_is_invalid file_resource_id || resource_id_is_invalid buffer_resource_id ||
     (length =? 0))
    (write_full fd (to_wire (mk_fixed_request (init_submit_header IOURINGD_TASK_KIND_SOCK_WRITE_FIXED)
                               file_resource_id buffer_resource_id length))).

Definition iouringd_register_fd_result (rounds : nat) (fd resource_fd : Z) :=
  resource_call rounds fd (resource_fd <? 0)
    (send_fd_with_request fd resource_fd
       (to_wire (init_control_header IOURINGD_REQUEST_KIND_REGISTER_FD))).

Definition iouringd_register_buffer_result (rounds : nat) (fd : Z) (buf : option bytes) (length : Z) :=
  let request := mk_register_buffer_request
                   (init_control_header IOURINGD_REQUEST_KIND_REGISTER_BUFFER) length 0 in
  resource_call rounds fd ((4096 <? length) || (negb (length =? 0) && is_null buf))
    (if length =? 0 then write_full fd (to_wire request)
     else write_iov_full fd (to_wire request) (bytes_at buf length)).

Definition iouringd_release_resource_result (rounds : nat) (fd resource_id : Z) :=
  resource_call rounds fd (resource_id_is_invalid resource_id)
    (write_full fd (to_wire (mk_release_resource_request
                               (init_control_header IOURINGD_REQUEST_KIND_RELEASE_RESOURCE)
                               resource_id 0))).

Definition iouringd_get_stats_result (rounds : nat) (fd : Z) : M (lib W * option stats_result) unit :=
  null <- out_is_null ;;
  if (fd <? 0) || null then mfail EINVAL
  else
    lift (on_world (write_full fd (to_wire (init_control_header IOURINGD_REQUEST_KIND_GET_STATS)))) ;;;
    read_stats_result rounds fd.

Definition iouringd_get_trace_result (rounds : nat) (fd after_sequence max_events event_capacity : Z)
    : M (lib W * trace_out) unit :=
  o <- mget snd ;;
  if (fd <? 0) || is_null (to_result o) || is_null (to_count o) ||
     (negb (max_events =? 0) && (event_capacity <? max_events)) then mfail EINVAL
  else
    lift (on_world (write_full fd (to_wire (mk_get_trace_request
                     (init_control_header IOURINGD_REQUEST_KIND_GET_TRACE)
                     after_sequence max_events 0)))) ;;;
    read_trace_result rounds fd event_capacity.

(** ** The calls that return an id

    [result] is a local object: what it holds before is never looked at. *)

Definition id_of {A} (uninitialised : A) (field : A -> Z) (m : M (lib W * option A) unit)
    : M (lib W * option Z) unit :=
  null <- out_is_null ;;
  if null then mfail EINVAL
  else fun st =>
    let '(r, (l, result)) := m (fst st, Some uninitialised) in
    match r with
    | Ok _ => (Ok tt, (l, field <$> result))
    | Err e => (Err e, (l, snd st))
    end.

Definition as_task := id_of (mk_submit_result 0 0 0) sr_task.
Definition as_resource := id_of (mk_resource_result 0 0 0 0) rr_resource.

Definition iouringd_submit_nop rounds fd := as_task (iouringd_submit_nop_result rounds fd).
Definition iouringd_submit_timeout rounds fd nsec := as_task (iouringd_submit_timeout_result rounds fd nsec).
Definition iouringd_submit_cancel rounds fd target :=
  as_task (iouringd_submit_cancel_result rounds fd target).
Definition iouringd_submit_sock_read rounds fd rid length :=
  as_task (iouringd_submit_sock_read_result rounds fd rid length).
Definition iouringd_submit_sock_write rounds fd rid buf length :=
  as_task (iouringd_submit_sock_write_result rounds fd rid buf length).
Definition iouringd_submit_file_read rounds fd rid length :=
  as_task (iouringd_submit_file_read_result rounds fd rid length).
Definition iouringd_submit_file_write rounds fd rid buf length :=
  as_task (iouringd_submit_file_write_result rounds fd rid buf length).
Definition iouringd_submit_poll rounds fd rid mask :=
  as_task (iouringd_submit_poll_result rounds fd rid mask).
Definition iouringd_submit_connect rounds fd rid buf length :=
  as_task (iouringd_submit_connect_result rounds fd rid buf length).
Definition iouringd_submit_accept rounds fd rid length :=
  as_task (iouringd_submit_accept_result rounds fd rid length).
Definition iouringd_submit_openat rounds fd path flags mode :=
  as_task (iouringd_submit_openat_result rounds fd path flags mode).
Definition iouringd_submit_close rounds fd rid := as_task (iouringd_submit_close_result rounds fd rid).
Definition iouringd_submit_sock_read_fixed rounds fd frid brid length :=
  as_task (iouringd_submit_sock_read_fixed_result rounds fd frid brid length).
Definition iouringd_submit_sock_write_fixed rounds fd frid brid length :=
  as_task (iouringd_submit_sock_write_fixed_result rounds fd frid brid length).
Definition iouringd_register_fd rounds fd resource_fd :=
  as_resource (iouringd_register_fd_result rounds fd resource_fd).
Definition iouringd_register_buffer rounds fd buf length :=
  as_resource (iouringd_register_buffer_result rounds fd buf length).
Definition iouringd_release_resource rounds fd rid :=
  as_resource (iouringd_release_resource_result rounds fd rid).
Definition iouringd_get_stats rounds fd := iouringd_get_stats_result rounds fd.
Definition iouringd_get_trace rounds fd after max capacity :=
  iouringd_get_trace_result rounds fd after max capacity.
End Api.
