(* ===== verification/Calls.v ===== *)
(** * Requests the client library sends

    The calls of the client library with their arguments ([submit_api],
    [resource_api]) and the request of the protocol each of them stands for.
    [submit_run_call] and [resource_run_call] show that a call with acceptable
    arguments sends exactly the encoding of its request, the encoding that the
    daemon's parser inverts. *)

From S2P Require Import Prelude Wire Kernel Ring State Output Resources Trace Daemon Input Request Socket Client Inbox ClientApi.

Inductive submit_api :=
| SNop
| STimeout (nsec : Z)
| SCancel (target : Z)
| SRead (file : bool) (resource length : Z)
| SWrite (file : bool) (resource : Z) (buf : option bytes) (length : Z)
| SPoll (resource mask : Z)
| SConnect (resource : Z) (buf : option bytes) (length : Z)
| SAccept (resource length : Z)
| SOpenat (path : option bytes) (flags mode : Z)
| SClose (resource : Z)
| SFixed (write : bool) (file_resource buffer_resource length : Z).

Inductive resource_api :=
| ARegisterFd (fd : Z)
| ARegisterBuffer (buf : option bytes) (length : Z)
| ARelease (resource : Z).

(** The request a call stands for; the library does not set priorities. *)
Definition submit_request_of (c : submit_api) : wire_request :=
  match c with
  | SNop => WNop 0
  | STimeout nsec => WTimeout 0 nsec
  | SCancel target => WCancel 0 target
  | SRead file rid len => WRead file 0 rid len
  | SWrite file rid buf len => WWrite file 0 rid (bytes_at buf len)
  | SPoll rid mask => WPoll 0 rid mask
  | SConnect rid buf len => WConnect 0 rid (bytes_at buf len)
  | SAccept rid len => WAccept 0 rid len
  | SOpenat path flags mode => WOpenat 0 flags mode (default [] path ++ [0])
  | SClose rid => WClose 0 rid
  | SFixed write frid brid len => WFixed write 0 frid brid len
  end.

Definition resource_request_of (c : resource_api) : wire_request :=
  match c with
  | ARegisterFd _ => WRegisterFd
  | ARegisterBuffer buf len => WRegisterBuffer (bytes_at buf len)
  | ARelease rid => WRelease rid
  end.

(** [length] bytes can be read at [buf]. *)
Definition readable (buf : option bytes) (len : Z) : Prop :=
  exists bs, buf = Some bs /\ 0 <= len <= Z.of_nat (length bs).
Definition resource_arg (rid : Z) : Prop := 0 < rid < 2 ^ 32.
Definition length_arg (len : Z) : Prop := 0 < len < 2 ^ 32.

(** The arguments the library accepts, in the ranges of their C types. *)
Definition submit_args (c : submit_api) : Prop :=
  match c with
  | SNop => True
  | STimeout nsec => fits 64 nsec
  | SCancel target => fits 64 target
  | SRead _ rid len => resource_arg rid /\ length_arg len
  | SWrite _ rid buf len => resource_arg rid /\ length_arg len /\ readable buf len
  | SPoll rid mask => resource_arg rid /\ 0 < mask < 65536
  | SConnect rid buf len => resource_arg rid /\ 0 < len <= UINT16_MAX /\ readable buf len
  | SAccept rid len => resource_arg rid /\ 0 <= len <= UINT16_MAX
  | SOpenat path flags mode =>
      (exists p, path = Some p /\ 1 <= Z.of_nat (length p) <= 4095) /\ fits_i32 flags /\ fits 32 mode
  | SClose rid => resource_arg rid
  | SFixed _ frid brid len => resource_arg frid /\ resource_arg brid /\ length_arg len
  end.

Definition resource_args (c : resource_api) : Prop :=
  match c with
  | ARegisterFd f => 0 <= f
  | ARegisterBuffer buf len => len = 0 \/ (0 < len <= 4096 /\ readable buf len)
  | ARelease rid => resource_arg rid
  end.

Section Calls.
Context {W : Type} `{SocketOk W}.

Definition submit_run (c : submit_api) (rounds : nat) (fd : Z)
    : M (lib W * option submit_result) unit :=
  match c with
  | SNop => iouringd_submit_nop_result rounds fd
  | STimeout nsec => iouringd_submit_timeout_result rounds fd nsec
  | SCancel target => iouringd_submit_cancel_result rounds fd target
  | SRead file rid len => if file then iouringd_submit_file_read_result rounds fd rid len
                          else iouringd_submit_sock_read_result rounds fd rid len
  | SWrite file rid buf len => if file then iouringd_submit_file_write_result rounds fd rid buf len
                               else iouringd_submit_sock_write_result rounds fd rid buf len
  | SPoll rid mask => iouringd_submit_poll_result rounds fd rid mask
  | SConnect rid buf len => iouringd_submit_connect_result rounds fd rid buf len
  | SAccept rid len => iouringd_submit_accept_result rounds fd rid len
  | SOpenat path flags mode => iouringd_submit_openat_result rounds fd path flags mode
  | SClose rid => iouringd_submit_close_result rounds fd rid
  | SFixed write frid brid len =>
      if write then iouringd_submit_sock_write_fixed_result rounds fd frid brid len
      else iouringd_submit_sock_read_fixed_result rounds fd frid brid len
  end.

Definition resource_run (c : resource_api) (rounds : nat) (fd : Z)
    : M (lib W * option resource_result) unit :=
  match c with
  | ARegisterFd f => iouringd_register_fd_result rounds fd f
  | ARegisterBuffer buf len => iouringd_register_buffer_result rounds fd buf len
  | ARelease rid => iouringd_release_resource_result rounds fd rid
  end.

(** [m] sends [bs] on [fd]: a prefix in any case, all of it when it returns 0,
    and it returns 0 on a socket that works. *)
Record sender (m : M W unit) (fd : Z) (bs : bytes) : Prop := {
  sender_sent w r w' : m w = (r, w') ->
    exists n, (n <= length bs)%nat /\ moves fd (take n bs) [] w w' /\ (is_ok r = true -> n = length bs);
  sender_works : Reliable W fd -> forall w, exists w', m w = (Ok tt, w') /\ moves fd bs [] w w';
}.

Lemma sender_full fd bs : sender (write_full fd bs) fd bs.
Proof.
  constructor.
  - intros w r w' E. exact (write_full_sent _ _ _ _ _ E).
  - intros Hr w. exact (write_full_works fd bs w).
Qed.

Lemma sender_iov fd a b bs : bs = a ++ b -> sender (write_iov_full fd a b) fd bs.
Proof.
  intros ->. constructor.
  - intros w r w' E. exact (write_iov_full_sent _ _ _ _ _ _ E).
  - intros Hr w. exact (write_iov_full_works fd a b w).
Qed.

Lemma sender_fd fd p bs : bs <> [] -> sender (send_fd_with_request fd p bs) fd bs.
Proof.
  intros Hbs. constructor.
  - intros w r w' E. exact (send_fd_sent _ _ _ _ _ _ E).
  - intros Hr w. exact (send_fd_works fd p bs w Hbs).
Qed.

Lemma length_bytes_at buf len : readable buf len -> Z.of_nat (length (bytes_at buf len)) = len.
Proof.
  intros (bs & -> & Hl). unfold bytes_at. cbn [default from_option id]. rewrite length_take. lia.
Qed.

Lemma resource_arg_valid rid : resource_arg rid -> resource_id_is_invalid rid = false.
Proof. intros [Hr _]. apply Z.eqb_neq. unfold IOURINGD_RESOURCE_ID_INVALID. lia. Qed.
Lemma positive_arg len : 0 < len -> (len =? 0) = false.
Proof. intros Hl. apply Z.eqb_neq. lia. Qed.

Lemma submit_call_ext rounds fd bad1 bad2 m1 m2 :
  bad1 = bad2 -> m1 = m2 -> submit_call (W := W) rounds fd bad1 m1 = submit_call rounds fd bad2 m2.
Proof. by intros -> ->. Qed.

(** With acceptable arguments, the guards of a call let it pass. *)
Ltac guards :=
  repeat match goal with
         | Hr : resource_arg _ |- _ => rewrite (resource_arg_valid _ Hr); clear Hr
         | Hl : length_arg _ |- _ => rewrite (positive_arg _ (proj1 Hl)); clear Hl
         | Hl : readable ?b _ |- _ => destruct Hl as (? & -> & ?)
         end; cbn [is_null orb].

Lemma submit_run_call c rounds fd :
  submit_args c ->
  exists send, submit_run c rounds fd = submit_call rounds fd false send /\
               sender send fd (encode (submit_request_of c)).
Proof.
  destruct c as [|nsec|target|file rid len|file rid buf len|rid mask|rid buf len|rid len
                |path flags mode|rid|write frid brid len]; cbn [submit_args submit_run]; intros Ha.
  - eexists. split; [reflexivity|apply sender_full].
  - eexists. split; [reflexivity|apply sender_full].
  - eexists. split; [reflexivity|apply sender_full].
  - destruct Ha as [Hr Hl]. destruct file; eexists; (split; [|apply sender_full]);
      (apply submit_call_ext; [by guards|reflexivity]).
  - destruct Ha as (Hr & Hl & Hb). pose proof (length_bytes_at _ _ Hb) as Hlen.
    destruct file; eexists; (split; [apply submit_call_ext; [by guards|reflexivity]|]);
      apply sender_iov; cbn [submit_request_of encode]; rewrite Hlen; reflexivity.
  - destruct Ha as [Hr Hm]. eexists. split; [|apply sender_full].
    apply submit_call_ext; [|reflexivity]. guards. apply positive_arg. lia.
  - destruct Ha as (Hr & Hl & Hb). pose proof (length_bytes_at _ _ Hb) as Hlen.
    eexists. split; [apply submit_call_ext; [|reflexivity]|].
    + guards. rewrite positive_arg by lia. apply Z.ltb_ge. lia.
    + apply sender_iov. cbn [submit_request_of encode]. rewrite Hlen. reflexivity.
  - destruct Ha as [Hr Hl]. eexists. split; [|apply sender_full].
    apply submit_call_ext; [|reflexivity]. guards. apply Z.ltb_ge. lia.
  - destruct Ha as ((p & -> & Hp) & _ & _).
    assert (Hpl : path_length (Some p) = Z.of_nat (length p) + 1).
    { unfold path_length. cbn [default from_option id]. rewrite u64_id; lia. }
    eexists. split; [apply submit_call_ext; [|reflexivity]|].
    + rewrite Hpl. cbn [is_null orb]. apply orb_false_iff. split; [apply Z.leb_gt|apply Z.ltb_ge]; lia.
    + apply sender_iov. cbn [submit_request_of encode default from_option id].
      rewrite Hpl, u32_id, length_app by lia. cbn [length]. do 3 f_equal. lia.
  - eexists. split; [|apply sender_full]. apply submit_call_ext; [by guards|reflexivity].
  - destruct Ha as (Hf & Hb & Hl). destruct write; eexists; (split; [|apply sender_full]);
      (apply submit_call_ext; [by guards|reflexivity]).
Qed.

Lemma resource_run_call c rounds fd :
  resource_args c ->
  exists send, resource_run c rounds fd = resource_call rounds fd false send /\
               sender send fd (encode (resource_request_of c)).
Proof.
  destruct c as [f|buf len|rid]; cbn [resource_args resource_run]; intros Ha.
  - eexists. split; [|by apply sender_fd]. unfold iouringd_register_fd_result.
    by rewrite (proj2 (Z.ltb_ge f 0)) by lia.
  - unfold iouringd_register_buffer_result. destruct Ha as [->|[Hl Hb]]; eexists.
    + split; [reflexivity|]. replace (encode _) with (to_wire (mk_register_buffer_request
        (init_control_header IOURINGD_REQUEST_KIND_REGISTER_BUFFER) 0 0)); [apply sender_full|].
      cbn [resource_request_of encode]. unfold bytes_at. by rewrite app_nil_r.
    + pose proof (length_bytes_at _ _ Hb) as Hlen. split.
      * rewrite (positive_arg len) by lia. rewrite (proj2 (Z.ltb_ge 4096 len)) by lia.
        destruct Hb as (bs & -> & _). reflexivity.
      * apply sender_iov. cbn [resource_request_of encode]. rewrite Hlen. reflexivity.
  - eexists. split; [|apply sender_full]. unfold iouringd_release_resource_result.
    by rewrite (resource_arg_valid _ Ha).
Qed.
End Calls.
