(* ===== verification/Conversation.v ===== *)
(** * Conversations

    A client uses a connection by a sequence of calls: requests, each answered
    by one reply, and waits for completions, which the daemon sends whenever
    they happen.  [inbox] is the abstract state of the connection on the client's
    side; [answer] says what a call gets from it.  [session_in_order] shows that
    the client library implements it: on a socket that works, whatever the order
    of the calls and however completions and replies interleave on the stream,
    the requests are sent whole and in order, every reply goes to the request
    before it, and the completions come out in the order they were sent. *)

From S2P Require Import Prelude Wire Kernel Ring State Output Resources Trace Daemon Input Request Socket Client Inbox ClientApi Calls.

Record inbox := mk_inbox {
  ib_buffered : list completion;
  ib_frames : list frame;
}.

Inductive op :=
| OpWait
| OpSubmit (c : submit_api)
| OpResource (c : resource_api)
| OpStats
| OpTrace (after max : Z) (events : list trace_event).

Inductive obs :=
| ODone (c : completion)
| OReply (r : reply).

(** The completions in front of the first reply, the reply, and what follows. *)
Fixpoint split_reply (fs : list frame) : option (list completion * reply * list frame) :=
  match fs with
  | [] => None
  | FReply r :: rest => Some ([], r, rest)
  | FCompletion x p :: rest =>
      match split_reply rest with
      | Some (cs, r, rest') => Some ((x, p) :: cs, r, rest')
      | None => None
      end
  end.

(** A request is answered by a reply of its kind, a trace query by at most as
    many events as there is room for. *)
Definition answers (o : op) (r : reply) : bool :=
  match o, r with
  | OpSubmit _, RSubmit _ | OpResource _, RResource _ | OpStats, RStats _ => true
  | OpTrace _ _ events, RTrace _ es => Nat.leb (length es) (length events)
  | _, _ => false
  end.

Definition answer (o : op) (ib : inbox) : option (obs * inbox) :=
  match o with
  | OpWait =>
      match ib_buffered ib, ib_frames ib with
      | c :: cs, fs => Some (ODone c, mk_inbox cs fs)
      | [], FCompletion x p :: fs => Some (ODone (x, p), mk_inbox [] fs)
      | [], _ => None
      end
  | _ =>
      match split_reply (ib_frames ib) with
      | Some (cs, r, fs) =>
          if answers o r then Some (OReply r, mk_inbox (ib_buffered ib ++ cs) fs) else None
      | None => None
      end
  end.

Fixpoint answer_all (os : list op) (ib : inbox) : option (list obs * inbox) :=
  match os with
  | [] => Some ([], ib)
  | o :: rest =>
      match answer o ib with
      | Some (x, ib1) =>
          match answer_all rest ib1 with
          | Some (xs, ib2) => Some (x :: xs, ib2)
          | None => None
          end
      | None => None
      end
  end.

Definition frame_completions (f : frame) : list completion :=
  match f with FCompletion x p => [(x, p)] | FReply _ => [] end.
Definition frame_replies (f : frame) : list reply :=
  match f with FCompletion _ _ => [] | FReply r => [r] end.
Definition obs_completions (x : obs) : list completion :=
  match x with ODone c => [c] | OReply _ => [] end.
Definition obs_replies (x : obs) : list reply :=
  match x with ODone _ => [] | OReply r => [r] end.

(** What is still to come. *)
Definition pending (ib : inbox) : list completion :=
  ib_buffered ib ++ concat (frame_completions <$> ib_frames ib).
Definition pending_replies (ib : inbox) : list reply := concat (frame_replies <$> ib_frames ib).

Lemma split_reply_some fs cs r rest :
  split_reply fs = Some (cs, r, rest) ->
  fs = ((fun c => FCompletion (fst c) (snd c)) <$> cs) ++ FReply r :: rest.
Proof.
  revert cs. induction fs as [|[x p|r'] fs IH]; intros cs E; [done| |].
  - cbn in E. destruct (split_reply fs) as [[[cs' r'] rest']|]; [|done].
    injection E as <- <- <-. by rewrite (IH cs' eq_refl).
  - by injection E as <- <- <-.
Qed.

Lemma frames_of_completions cs :
  frames_bytes ((fun c => FCompletion (fst c) (snd c)) <$> cs) = completion_bytes cs /\
  concat (frame_completions <$> ((fun c => FCompletion (fst c) (snd c)) <$> cs)) = cs /\
  concat (frame_replies <$> ((fun c => FCompletion (fst c) (snd c)) <$> cs)) = [].
Proof.
  induction cs as [|[x p] cs (IH1 & IH2 & IH3)]; [done|]. unfold frames_bytes, completion_bytes in *.
  cbn. rewrite IH1, IH2, IH3. done.
Qed.

Lemma frames_bytes_app fs gs : frames_bytes (fs ++ gs) = frames_bytes fs ++ frames_bytes gs.
Proof. unfold frames_bytes. by rewrite fmap_app, concat_app. Qed.

(** The abstract connection loses and reorders nothing. *)
Lemma answer_conserves o ib x ib' :
  answer o ib = Some (x, ib') ->
  obs_completions x ++ pending ib' = pending ib /\
  obs_replies x ++ pending_replies ib' = pending_replies ib /\
  (length (ib_frames ib') <= length (ib_frames ib))%nat.
Proof.
  intros E. assert (Hreply : forall cs r fs, split_reply (ib_frames ib) = Some (cs, r, fs) ->
    x = OReply r -> ib' = mk_inbox (ib_buffered ib ++ cs) fs ->
    obs_completions x ++ pending ib' = pending ib /\
    obs_replies x ++ pending_replies ib' = pending_replies ib /\
    (length (ib_frames ib') <= length (ib_frames ib))%nat).
  { intros cs r fs Es -> ->. apply split_reply_some in Es. unfold pending, pending_replies.
    cbn [ib_buffered ib_frames]. rewrite Es, !fmap_app, !concat_app.
    destruct (frames_of_completions cs) as (_ & -> & ->). cbn. split_and!; [by rewrite <- app_assoc|done|].
    rewrite length_app. simpl. lia. }
  unfold answer in E. destruct o; try (
    destruct (split_reply (ib_frames ib)) as [[[cs r] fs]|]; [|done];
    destruct (answers _ r); [|done]; injection E as <- <-; by eapply Hreply).
  unfold pending, pending_replies. destruct (ib_buffered ib) as [|c cs].
  - destruct (ib_frames ib) as [|[y p|r] fs]; [done| |done]. injection E as <- <-.
    split_and!; [done|done|simpl; lia].
  - injection E as <- <-. split_and!; [done|done|simpl; lia].
Qed.

Lemma answer_all_conserves os ib xs ib' :
  answer_all os ib = Some (xs, ib') ->
  concat (obs_completions <$> xs) ++ pending ib' = pending ib /\
  concat (obs_replies <$> xs) ++ pending_replies ib' = pending_replies ib.
Proof.
  revert ib xs. induction os as [|o os IH]; intros ib xs E; cbn in E.
  - by injection E as <- <-.
  - destruct (answer o ib) as [[x ib1]|] eqn:E1; [|done].
    destruct (answer_all os ib1) as [[xs' ib2]|] eqn:E2; [|done]. injection E as <- <-.
    destruct (answer_conserves _ _ _ _ E1) as (H1 & H2 & _). destruct (IH _ _ E2) as [H3 H4].
    cbn. rewrite <- !app_assoc, H3, H4. done.
Qed.

(** ** The library implements it *)

Definition op_request (o : op) : bytes :=
  match o with
  | OpWait => []
  | OpSubmit c => encode (submit_request_of c)
  | OpResource c => encode (resource_request_of c)
  | OpStats => encode WGetStats
  | OpTrace after max _ => encode (WGetTrace after max)
  end.

Definition op_args (o : op) : Prop :=
  match o with
  | OpWait | OpStats => True
  | OpSubmit c => submit_args c
  | OpResource c => resource_args c
  | OpTrace after max events => fits 64 after /\ 0 <= max <= Z.of_nat (length events)
  end.

Section Conversation.
Context {W : Type} `{SocketOk W} (fd : Z) (rounds : nat).

(** One call of the library and what it returns.  A completion's payload is not
    returned by the wait: it is kept for [iouringd_read_completion_payload]. *)
Inductive step (l : lib W) : op -> obs -> lib W -> Prop :=
| step_wait c out l' :
    iouringd_wait_completion fd (l, Some out) = (Ok tt, (l', Some (fst c))) ->
    buffered_payloads l' = buffered_payloads l ++ kept fd c ->
    step l OpWait (ODone c) l'
| step_submit c r out l' :
    submit_run c rounds fd (l, Some out) = (submit_code r, (l', Some r)) ->
    step l (OpSubmit c) (OReply (RSubmit r)) l'
| step_resource c r out l' :
    resource_run c rounds fd (l, Some out) = (resource_code r, (l', Some r)) ->
    step l (OpResource c) (OReply (RResource r)) l'
| step_stats r out l' :
    iouringd_get_stats_result rounds fd (l, Some out) = (Ok tt, (l', Some r)) ->
    step l OpStats (OReply (RStats r)) l'
| step_trace after max events h es h0 n0 l' :
    iouringd_get_trace_result rounds fd after max (Z.of_nat (length events))
      (l, mk_trace_out (Some h0) (Some events) (Some n0)) =
      (Ok tt, (l', mk_trace_out (Some h) (Some (blit 0 es events)) (Some (Z.of_nat (length es))))) ->
    step l (OpTrace after max events) (OReply (RTrace h es)) l'.

Inductive steps (l : lib W) : list op -> list obs -> lib W -> Prop :=
| steps_nil : steps l [] [] l
| steps_cons o x l1 os xs l2 :
    step l o x l1 -> steps l1 os xs l2 -> steps l (o :: os) (x :: xs) l2.

Record represents (l : lib W) (ib : inbox) : Prop := {
  rep_buffered : of_fd fd l = entry fd <$> ib_buffered ib;
  rep_frames : incoming (l_world l) fd = frames_bytes (ib_frames ib);
  rep_good : Forall good_frame (ib_frames ib);
}.

(** Nothing of another descriptor has changed. *)
Definition untouched (l l' : lib W) : Prop :=
  forall fd', fd' <> fd ->
    of_fd fd' l' = of_fd fd' l /\ payloads_of_fd fd' l' = payloads_of_fd fd' l /\
    outgoing (l_world l') fd' = outgoing (l_world l) fd' /\
    incoming (l_world l') fd' = incoming (l_world l) fd'.

(** What a call leaves: the request sent, the payload of a completion kept. *)
Record after_op (l l' : lib W) (o : op) (x : obs) (ib' : inbox) : Prop := {
  ao_step : step l o x l';
  ao_represents : represents l' ib';
  ao_sent : outgoing (l_world l') fd = outgoing (l_world l) fd ++ op_request o;
  ao_payloads : payloads_of_fd fd l' =
                payloads_of_fd fd l ++ concat (kept fd <$> obs_completions x);
  ao_untouched : untouched l l';
}.

Lemma filter_entry fd' cs :
  filter (fun b => bc_fd b = fd') (entry fd <$> cs) = if decide (fd' = fd) then entry fd <$> cs else [].
Proof.
  induction cs as [|c cs IH]; [by destruct (decide _)|]. cbn [fmap list_fmap]. rewrite filter_cons.
  cbn [entry bc_fd]. destruct (decide (fd' = fd)) as [->|Hn].
  - rewrite decide_True by done. f_equal. exact IH.
  - rewrite decide_False by congruence. exact IH.
Qed.

Lemma filter_kept fd' c :
  filter (fun b => bp_fd b = fd') (kept fd c) = if decide (fd' = fd) then kept fd c else [].
Proof.
  unfold kept. destruct (_ =? 0); [by destruct (decide _)|]. rewrite filter_cons. cbn [payload_entry bp_fd].
  destruct (decide (fd' = fd)) as [->|Hn]; [by rewrite decide_True|by rewrite decide_False].
Qed.

(** A call that has buffered the completions in front of its reply. *)
Lemma after_reply l l' o r cs fs ib :
  buffered fd l l' (op_request o) (completion_bytes cs ++ reply_bytes r) cs ->
  represents l ib -> split_reply (ib_frames ib) = Some (cs, r, fs) ->
  step l o (OReply r) l' -> after_op l l' o (OReply r) (mk_inbox (ib_buffered ib ++ cs) fs).
Proof.
  intros HB [Hb Hi Hg] Es Hstep. pose proof (split_reply_some _ _ _ _ Es) as Efs.
  assert (Hin : incoming (l_world l') fd = frames_bytes fs).
  { apply (buffered_incoming fd _ _ _ _ _ _ HB). rewrite Hi, Efs, frames_bytes_app.
    destruct (frames_of_completions cs) as (-> & _). by rewrite <- app_assoc. }
  destruct HB as (w' & -> & Hm). constructor.
  - exact Hstep.
  - constructor; cbn [ib_buffered ib_frames].
    + unfold of_fd in *. cbn [buffered_completions]. rewrite filter_app, Hb, filter_entry, fmap_app.
      by rewrite decide_True.
    + exact Hin.
    + rewrite Efs in Hg. apply Forall_app in Hg as [_ Hg]. by inversion Hg.
  - exact (mv_out _ _ _ _ _ _ _ Hm).
  - cbn. by rewrite app_nil_r.
  - intros fd' Hn. destruct (mv_other _ _ _ _ _ _ _ Hm fd' Hn). split_and!; [|done|done|done].
    unfold of_fd. cbn [buffered_completions]. rewrite filter_app, filter_entry, decide_False by done.
    by rewrite app_nil_r.
Qed.

Lemma after_wait l w' bs' c inp ib fs cs out :
  moves fd [] inp (l_world l) w' -> incoming (l_world l) fd = inp ++ frames_bytes fs ->
  represents l ib -> Forall good_frame fs ->
  filter (fun b => bc_fd b = fd) bs' = entry fd <$> cs ->
  (forall fd', fd' <> fd -> filter (fun b => bc_fd b = fd') bs' = of_fd fd' l) ->
  let l' := mk_lib w' bs' (buffered_payloads l ++ kept fd c) in
  iouringd_wait_completion fd (l, Some out) = (Ok tt, (l', Some (fst c))) ->
  after_op l l' OpWait (ODone c) (mk_inbox cs fs).
Proof.
  intros Hm Hi Hrep Hg Hf Ho l' E. constructor.
  - by eapply step_wait.
  - constructor; [exact Hf|exact (moves_incoming _ _ _ _ _ _ Hm Hi)|exact Hg].
  - exact (mv_out _ _ _ _ _ _ _ Hm).
  - unfold payloads_of_fd, l'. cbn [buffered_payloads obs_completions fmap list_fmap concat].
    by rewrite filter_app, filter_kept, decide_True, app_nil_r.
  - intros fd' Hn. destruct (mv_other _ _ _ _ _ _ _ Hm fd' Hn). split_and!; [by apply Ho| |done|done].
    unfold payloads_of_fd, l'. cbn [buffered_payloads].
    by rewrite filter_app, filter_kept, decide_False, app_nil_r.
Qed.

Context `{!Reliable W fd}.
Hypothesis fd_open : 0 <= fd.

(** A working socket takes the request; what is to come stays. *)
Lemma send_request send bs l :
  sender send fd bs ->
  exists l1, on_world send l = (Ok tt, l1) /\ buffered fd l l1 bs [] [] /\
             incoming (l_world l1) fd = incoming (l_world l) fd.
Proof.
  intros Hs. destruct (sender_works _ _ _ Hs _ (l_world l)) as (w' & E & Hm).
  exists (l <| l_world := w' |>). split_and!; [by apply on_world_run| |].
  - apply advanced_buffered. by exists w'.
  - symmetry. exact (mv_in _ _ _ _ _ _ _ Hm).
Qed.

Lemma then_buffered l l1 l' bs inp cs :
  buffered fd l l1 bs [] [] -> buffered fd l1 l' [] inp cs -> buffered fd l l' bs inp cs.
Proof. intros H1 H2. rewrite <- (app_nil_r bs). exact (buffered_trans _ _ _ _ _ _ _ _ _ _ H1 H2). Qed.

Lemma fd_open_ltb : (fd <? 0) = false.
Proof. apply Z.ltb_ge. exact fd_open. Qed.

Lemma submit_works c cs r rest l out :
  submit_args c -> Forall (fun c => good_completion (fst c) (snd c)) cs -> good_reply (RSubmit r) ->
  (length cs < rounds)%nat ->
  incoming (l_world l) fd = completion_bytes cs ++ to_wire r ++ rest ->
  exists l', submit_run c rounds fd (l, Some out) = (submit_code r, (l', Some r)) /\
             buffered fd l l' (encode (submit_request_of c)) (completion_bytes cs ++ to_wire r) cs.
Proof.
  intros Ha Hcs Hr Hlt Hi. destruct (submit_run_call c rounds fd Ha) as (send & -> & Hs).
  destruct (send_request _ _ l Hs) as (l1 & E1 & B1 & Hin). rewrite <- Hin in Hi.
  destruct (read_submit_works fd rounds cs r rest l1 (Some out) Hcs Hr Hlt Hi) as (l' & E2 & B2).
  exists l'. split; [|exact (then_buffered _ _ _ _ _ _ B1 B2)].
  unfold submit_call. rewrite (mbnd_ok out_is_null _ _ _ _ eq_refl), fd_open_ltb. cbn [is_null orb snd].
  by rewrite (mbnd_ok _ _ _ _ _ (lift_run _ _ _ _ _ E1)).
Qed.

Lemma resource_works c cs r rest l out :
  resource_args c -> Forall (fun c => good_completion (fst c) (snd c)) cs -> good_reply (RResource r) ->
  (length cs < rounds)%nat ->
  incoming (l_world l) fd = completion_bytes cs ++ to_wire r ++ rest ->
  exists l', resource_run c rounds fd (l, Some out) = (resource_code r, (l', Some r)) /\
             buffered fd l l' (encode (resource_request_of c)) (completion_bytes cs ++ to_wire r) cs.
Proof.
  intros Ha Hcs Hr Hlt Hi. destruct (resource_run_call c rounds fd Ha) as (send & -> & Hs).
  destruct (send_request _ _ l Hs) as (l1 & E1 & B1 & Hin). rewrite <- Hin in Hi.
  destruct (read_resource_works fd rounds cs r rest l1 (Some out) Hcs Hr Hlt Hi) as (l' & E2 & B2).
  exists l'. split; [|exact (then_buffered _ _ _ _ _ _ B1 B2)].
  unfold resource_call. rewrite (mbnd_ok out_is_null _ _ _ _ eq_refl), fd_open_ltb. cbn [is_null orb snd].
  by rewrite (mbnd_ok _ _ _ _ _ (lift_run _ _ _ _ _ E1)).
Qed.

Lemma stats_works cs r rest l out :
  Forall (fun c => good_completion (fst c) (snd c)) cs -> good_reply (RStats r) ->
  (length cs < rounds)%nat ->
  incoming (l_world l) fd = completion_bytes cs ++ to_wire r ++ rest ->
  exists l', iouringd_get_stats_result rounds fd (l, Some out) = (Ok tt, (l', Some r)) /\
             buffered fd l l' (encode WGetStats) (completion_bytes cs ++ to_wire r) cs.
Proof.
  intros Hcs Hr Hlt Hi.
  destruct (send_request _ _ l (sender_full fd (encode WGetStats))) as (l1 & E1 & B1 & Hin).
  rewrite <- Hin in Hi.
  destruct (read_stats_works fd rounds cs r rest l1 (Some out) Hcs Hr Hlt Hi) as (l' & E2 & B2).
  exists l'. split; [|exact (then_buffered _ _ _ _ _ _ B1 B2)].
  unfold iouringd_get_stats_result. rewrite (mbnd_ok out_is_null _ _ _ _ eq_refl), fd_open_ltb.
  cbn [is_null orb snd].
  change (to_wire (init_control_header IOURINGD_REQUEST_KIND_GET_STATS)) with (encode WGetStats).
  by rewrite (mbnd_ok _ _ _ _ _ (lift_run _ _ _ _ _ E1)).
Qed.

Lemma trace_works after max events cs h es rest l h0 n0 :
  0 <= max <= Z.of_nat (length events) ->
  Forall (fun c => good_completion (fst c) (snd c)) cs -> good_reply (RTrace h es) ->
  (length cs < rounds)%nat -> (length es <= length events)%nat ->
  incoming (l_world l) fd = completion_bytes cs ++ reply_bytes (RTrace h es) ++ rest ->
  exists l', iouringd_get_trace_result rounds fd after max (Z.of_nat (length events))
      (l, mk_trace_out (Some h0) (Some events) (Some n0)) =
      (Ok tt, (l', mk_trace_out (Some h) (Some (blit 0 es events)) (Some (Z.of_nat (length es))))) /\
    buffered fd l l' (encode (WGetTrace after max)) (completion_bytes cs ++ reply_bytes (RTrace h es)) cs.
Proof.
  intros Hmax Hcs Hr Hlt Hes Hi.
  destruct (send_request _ _ l (sender_full fd (encode (WGetTrace after max)))) as (l1 & E1 & B1 & Hin).
  rewrite <- Hin in Hi.
  destruct (read_trace_works fd rounds cs h es rest l1 h0 events n0 (Z.of_nat (length events))
              Hcs Hr Hlt Hes ltac:(lia) Hi) as (l' & E2 & B2).
  exists l'. split; [|exact (then_buffered _ _ _ _ _ _ B1 B2)].
  unfold iouringd_get_trace_result. rewrite (mbnd_ok (mget snd) _ _ _ _ eq_refl), fd_open_ltb.
  cbn [is_null orb snd to_result to_count].
  rewrite (proj2 (Z.ltb_ge _ max)), andb_false_r by lia.
  change (to_wire _) with (encode (WGetTrace after max)).
  by rewrite (mbnd_ok _ _ _ _ _ (lift_run _ _ _ _ _ E1)).
Qed.

(** The frames in front of a reply, as the lemmas above want them. *)
Lemma split_good fs cs r rest :
  split_reply fs = Some (cs, r, rest) -> Forall good_frame fs ->
  Forall (fun c => good_completion (fst c) (snd c)) cs /\ good_reply r /\
  (length cs < length fs)%nat /\ frames_bytes fs = completion_bytes cs ++ reply_bytes r ++ frames_bytes rest.
Proof.
  intros Es Hg. rewrite (split_reply_some _ _ _ _ Es) in Hg |- *.
  apply Forall_app in Hg as [Hcs Hg]. inversion Hg; subst. rewrite frames_bytes_app.
  destruct (frames_of_completions cs) as (-> & _). rewrite length_app, length_fmap.
  rewrite Forall_fmap in Hcs. split_and!; [exact Hcs|done|cbn [length]; unfold completion in *; lia|done].
Qed.

Definition no_submit : submit_result := mk_submit_result 0 0 0.

Lemma wait_answered l ib x ib' :
  represents l ib -> answer OpWait ib = Some (x, ib') -> exists l', after_op l l' OpWait x ib'.
Proof.
  intros Hrep E. pose proof Hrep as [Hb Hi Hg]. set (out := mk_completion_record protocol_header_v1 0 0 0 0).
  unfold answer in E. destruct (ib_buffered ib) as [|c cs].
  - destruct (ib_frames ib) as [|[y p|r] fs] eqn:Ef; [done| |done]. injection E as <- <-.
    inversion Hg as [|? ? Hy Hfs]; subst. change (frames_bytes _) with ((to_wire y ++ p) ++ frames_bytes fs) in Hi.
    destruct (wait_stream fd (y, p) _ l out fd_open Hb Hy Hi) as (w' & E' & Hm).
    eexists. eapply after_wait; [exact Hm|exact Hi|exact Hrep|exact Hfs|exact Hb|done|exact E'].
  - injection E as <- <-.
    destruct (wait_buffered fd c _ l out fd_open Hb) as (w' & bs' & E' & Hm & Hr & Ho).
    eexists. eapply (after_wait _ _ _ _ []); [exact Hm|exact Hi|exact Hrep|exact Hg|exact Hr|exact Ho|exact E'].
Qed.

Lemma reply_answered o l ib cs r fs :
  represents l ib -> (length (ib_frames ib) < rounds)%nat -> op_args o -> o <> OpWait ->
  split_reply (ib_frames ib) = Some (cs, r, fs) -> answers o r = true ->
  exists l', step l o (OReply r) l' /\
             buffered fd l l' (op_request o) (completion_bytes cs ++ reply_bytes r) cs.
Proof.
  intros [_ Hi Hg] Hlt Ha Ho Es Hans. destruct (split_good _ _ _ _ Es Hg) as (Hcs & Hr & Hlen & Hb).
  rewrite Hb in Hi. assert (Hlt' : (length cs < rounds)%nat) by lia.
  destruct o as [|c|c| |after max events], r as [r|r|r|h es]; try done.
  - destruct (submit_works c cs r _ l no_submit Ha Hcs Hr Hlt' Hi) as (l' & E & B).
    exists l'. split; [by eapply step_submit|exact B].
  - destruct (resource_works c cs r _ l (mk_resource_result 0 0 0 0) Ha Hcs Hr Hlt' Hi) as (l' & E & B).
    exists l'. split; [by eapply step_resource|exact B].
  - destruct (stats_works cs r _ l r Hcs Hr Hlt' Hi) as (l' & E & B).
    exists l'. split; [by eapply step_stats|exact B].
  - destruct Ha as [_ Hmax]. apply Nat.leb_le in Hans.
    destruct (trace_works after max events cs h es _ l h 0 Hmax Hcs Hr Hlt' Hans Hi) as (l' & E & B).
    exists l'. split; [by eapply step_trace|exact B].
Qed.

Lemma op_answered o l ib x ib' :
  represents l ib -> (length (ib_frames ib) < rounds)%nat -> op_args o ->
  answer o ib = Some (x, ib') -> exists l', after_op l l' o x ib'.
Proof.
  intros Hrep Hlt Ha E. assert (o = OpWait \/ o <> OpWait) as [->|Ho] by (destruct o; auto);
    [by apply (wait_answered l ib)|].
  assert (E' : exists cs r fs, split_reply (ib_frames ib) = Some (cs, r, fs) /\ answers o r = true /\
                               x = OReply r /\ ib' = mk_inbox (ib_buffered ib ++ cs) fs).
  { destruct o; try done; unfold answer in E;
      (destruct (split_reply (ib_frames ib)) as [[[cs r] fs]|]; [|done]);
      (destruct (answers _ r) eqn:Hans; [|done]); injection E as <- <-; by exists cs, r, fs. }
  destruct E' as (cs & r & fs & Es & Hans & -> & ->).
  destruct (reply_answered o l ib cs r fs Hrep Hlt Ha Ho Es Hans) as (l' & Hstep & B).
  exists l'. exact (after_reply _ _ _ _ _ _ _ B Hrep Es Hstep).
Qed.

Lemma untouched_trans l1 l2 l3 : untouched l1 l2 -> untouched l2 l3 -> untouched l1 l3.
Proof.
  intros H1 H2 fd' Hn. destruct (H1 fd' Hn) as (<- & <- & <- & <-). by apply H2.
Qed.

Lemma session_runs os l ib xs ib' :
  represents l ib -> (length (ib_frames ib) < rounds)%nat -> Forall op_args os ->
  answer_all os ib = Some (xs, ib') ->
  exists l', steps l os xs l' /\ represents l' ib' /\
    outgoing (l_world l') fd = outgoing (l_world l) fd ++ concat (op_request <$> os) /\
    payloads_of_fd fd l' =
      payloads_of_fd fd l ++ concat (kept fd <$> concat (obs_completions <$> xs)) /\
    untouched l l'.
Proof.
  intros Hrep Hlt Ha. revert l ib xs Hrep Hlt. induction Ha as [|o os Ho _ IH]; intros l ib xs Hrep Hlt E.
  - injection E as <- <-. exists l. cbn. rewrite !app_nil_r. split_and!; [constructor|done..].
  - cbn [answer_all] in E. destruct (answer o ib) as [[x ib1]|] eqn:E1; [|done].
    destruct (answer_all os ib1) as [[xs' ib2]|] eqn:E2; [|done]. injection E as <- <-.
    destruct (op_answered o l ib x ib1 Hrep Hlt Ho E1) as (l1 & [Hs Hr1 Hsent Hp Hu]).
    destruct (answer_conserves _ _ _ _ E1) as (_ & _ & Hlen).
    destruct (IH l1 ib1 xs' Hr1 ltac:(lia) E2) as (l' & Hss & Hr & Hsent' & Hp' & Hu').
    exists l'. split_and!; [by econstructor|done| | |exact (untouched_trans _ _ _ Hu Hu')].
    + rewrite Hsent', Hsent. cbn. by rewrite <- app_assoc.
    + rewrite Hp', Hp. cbn [fmap list_fmap concat]. by rewrite fmap_app, concat_app, app_assoc.
Qed.
End Conversation.

(** C10: the client library keeps a connection in order.  On a socket that works, let the
    bytes to come be any interleaving of completions and replies.  Whenever the
    abstract connection can answer a sequence of calls, the library runs the
    sequence with exactly those answers: the requests go out whole and in order,
    each request gets its own reply, the completions come out in the order in
    which they were sent, none lost and none twice, with their payloads kept, and
    nothing that belongs to another descriptor is touched. *)
Theorem session_in_order {W} `{SocketOk W} (fd : Z) `{!Reliable W fd} rounds os (l : lib W) ib xs ib' :
  0 <= fd -> represents fd l ib -> (length (ib_frames ib) < rounds)%nat -> Forall op_args os ->
  answer_all os ib = Some (xs, ib') ->
  (exists l', steps fd rounds l os xs l' /\ represents fd l' ib' /\
     outgoing (l_world l') fd = outgoing (l_world l) fd ++ concat (op_request <$> os) /\
     payloads_of_fd fd l' =
       payloads_of_fd fd l ++ concat (kept fd <$> concat (obs_completions <$> xs)) /\
     untouched fd l l') /\
  concat (obs_completions <$> xs) ++ pending ib' = pending ib /\
  concat (obs_replies <$> xs) ++ pending_replies ib' = pending_replies ib.
Proof.
  intros Hfd Hrep Hlt Ha E. split; [by eapply session_runs|]. exact (answer_all_conserves _ _ _ _ E).
Qed.

(** ** A conversation

    A read completes while a nop is being submitted: its completion is in front
    of the reply.  The bytes arrive in small pieces. *)

Definition read_done : completion_record :=
  mk_completion_record protocol_header_v1 7 2 IOURINGD_TASK_KIND_SOCK_READ 2.
Definition nop_accepted : submit_result := mk_submit_result 8 0 3.
Definition nop_done : completion_record :=
  mk_completion_record protocol_header_v1 8 0 IOURINGD_TASK_KIND_NOP 0.

Definition talk_inbox : inbox :=
  mk_inbox [] [FCompletion read_done [104; 105]; FReply (RSubmit nop_accepted); FCompletion nop_done []].
Definition talk_pipe (bs : bytes) : pipe :=
  mk_pipe (fun _ => []) (fun fd => if fd =? 5 then bs else []) [2; 0; 6; 1; 30]%nat [] [].
Definition talk : lib pipe := mk_lib (talk_pipe (frames_bytes (ib_frames talk_inbox))) [] [].

Lemma fit_by_computation {A} `{Wire A} (a : A) :
  forallb (fun '(w, z) => (0 <=? z) && (z <? 256 ^ Z.of_nat w)) (zip (wire_layout A) (wire_fields a)) = true ->
  length (wire_layout A) = length (wire_fields a) -> wire_fit a.
Proof.
  unfold wire_fit. generalize (wire_fields a) as zs. induction (wire_layout A) as [|w ws IH];
    intros [|z zs] Hb Hl; try done; cbn in Hb; constructor.
  - apply andb_true_iff in Hb as [Hb _]. apply andb_true_iff in Hb as [H1%Z.leb_le H2%Z.ltb_lt]. lia.
  - apply andb_true_iff in Hb as [_ Hb]. apply IH; [exact Hb|]. by injection Hl.
Qed.

Ltac fit_compute := apply fit_by_computation; vm_compute; reflexivity.
Ltac good_compute :=
  constructor; [split; [fit_compute|vm_compute; split; congruence]|vm_compute; reflexivity
               |vm_compute; reflexivity].

Lemma talk_represents : represents 5 talk talk_inbox.
Proof.
  constructor; [reflexivity|reflexivity|]. repeat constructor.
  all: try fit_compute; try (vm_compute; congruence); reflexivity.
Qed.

Lemma session_in_order_witness :
  let xs := [OReply (RSubmit nop_accepted); ODone (read_done, [104; 105]); ODone (nop_done, [])] in
  exists l', steps 5 10 talk [OpSubmit SNop; OpWait; OpWait] xs l' /\
             outgoing (l_world l') 5 = encode (WNop 0) /\
             payloads_of_fd 5 l' = [mk_buffered_payload 5 7 2 [104; 105]].
Proof.
  intros xs.
  destruct (session_in_order 5 10 [OpSubmit SNop; OpWait; OpWait] talk talk_inbox xs (mk_inbox [] []))
    as [(l' & H1 & _ & H2 & H3 & _) _].
  - lia.
  - exact talk_represents.
  - cbn. lia.
  - repeat constructor.
  - reflexivity.
  - exists l'. split_and!; [exact H1|rewrite H2; reflexivity|rewrite H3; reflexivity].
Defined.
