(* ===== verification/Payloads.v ===== *)
(** * Payloads of completions

    [iouringd_wait_completion] hands out a record and keeps its payload for
    [iouringd_read_completion_payload], which finds it by descriptor and task id.
    [wait_then_payload] shows that the pair returns the payload that was sent.
    [stale_payload_overruns] shows what happens when a payload that was never
    asked for is still there when the descriptor and the task id come back on a
    new connection: the old payload is copied, with its own length. *)

From S2P Require Import Prelude Wire Kernel Ring State Output Resources Trace Daemon Input Request Socket Client Inbox ClientApi Calls Conversation.

Lemma take_payload_skip fd task ps b rest :
  Forall (fun b => ~ (bp_fd b = fd /\ bp_task_id b = task)) ps ->
  bp_fd b = fd -> bp_task_id b = task ->
  take_payload fd task (ps ++ b :: rest) = Some (b, ps ++ rest).
Proof.
  intros Hps Hf Ht. induction Hps as [|a ps Ha _ IH]; cbn [take_payload app].
  - by rewrite Hf, Ht, !Z.eqb_refl.
  - destruct ((bp_fd a =? fd) && (bp_task_id a =? task)) eqn:E; [|by rewrite IH].
    apply andb_true_iff in E as [E1%Z.eqb_eq E2%Z.eqb_eq]. by exfalso; apply Ha.
Qed.

Section Payloads.
Context {W : Type} `{Socket W}.

(** The copy: the payload found, with its own length. *)
Lemma read_payload_found fd x (l : lib W) buf n capacity b rest :
  0 <= fd -> payload_kind (cr_task_kind x) = true -> cr_payload_length x <> 0 ->
  cr_payload_length x <= capacity ->
  take_payload fd (cr_task x) (buffered_payloads l) = Some (b, rest) ->
  iouringd_read_completion_payload fd (Some x) capacity (l, mk_payload_out (Some buf) (Some n)) =
    (Ok tt, (l <| buffered_payloads := rest |>,
             mk_payload_out (Some (blit 0 (take (Z.to_nat (bp_payload_length b)) (bp_payload b)) buf))
               (Some (bp_payload_length b)))).
Proof.
  intros Hfd Hk Hn Hc Ht. unfold iouringd_read_completion_payload, mbnd, mget, id. cbn [po_length po_buf].
  rewrite (proj2 (Z.ltb_ge fd 0) Hfd), Hk, (proj2 (Z.eqb_neq _ _) Hn). cbn [negb].
  by rewrite (proj2 (Z.ltb_ge _ _) Hc), Ht.
Qed.
End Payloads.

(** C20: a completion's payload is the one that was sent with it.  When the first pending
    completion of a connection has a payload, and no payload is kept already for this
    descriptor and task id ([stale_payload_overruns] is the other case), the wait returns the record, and asking for the payload with room for it
    copies exactly the bytes sent, changes nothing behind them, reports their
    number, and leaves the kept payloads as they were. *)
Theorem wait_then_payload {W} `{SocketOk W} (fd : Z) `{!Reliable W fd} (l : lib W) ib x p ib' out buf n capacity :
  0 <= fd -> represents fd l ib -> answer OpWait ib = Some (ODone (x, p), ib') ->
  good_completion x p -> payload_kind (cr_task_kind x) = true -> cr_payload_length x <> 0 ->
  Forall (fun b => ~ (bp_fd b = fd /\ bp_task_id b = cr_task x)) (buffered_payloads l) ->
  cr_payload_length x <= capacity ->
  exists l1 l2, iouringd_wait_completion fd (l, Some out) = (Ok tt, (l1, Some x)) /\
    iouringd_read_completion_payload fd (Some x) capacity (l1, mk_payload_out (Some buf) (Some n)) =
      (Ok tt, (l2, mk_payload_out (Some (p ++ drop (length p) buf)) (Some (Z.of_nat (length p))))) /\
    buffered_payloads l2 = buffered_payloads l /\ represents fd l2 ib'.
Proof.
  intros Hfd Hrep E Hg Hk Hn Hps Hc. pose proof Hrep as [Hb Hi Hgs].
  assert (Hwait : exists w' bs', iouringd_wait_completion fd (l, Some out) =
    (Ok tt, (mk_lib w' bs' (buffered_payloads l ++ kept fd (x, p)), Some x)) /\
    represents fd (mk_lib w' bs' (buffered_payloads l)) ib').
  { unfold answer in E. destruct (ib_buffered ib) as [|c cs].
    - destruct (ib_frames ib) as [|[y q|r] fs] eqn:Ef; [done| |done]. injection E as -> -> <-.
      inversion Hgs; subst. change (frames_bytes _) with ((to_wire x ++ p) ++ frames_bytes fs) in Hi.
      destruct (wait_stream fd (x, p) _ l out Hfd Hb Hg Hi) as (w' & Ew & Hm).
      exists w', (buffered_completions l). split; [exact Ew|].
      constructor; [exact Hb|exact (moves_incoming _ _ _ _ _ _ Hm Hi)|done].
    - injection E as -> <-.
      destruct (wait_buffered fd (x, p) _ l out Hfd Hb) as (w' & bs' & Ew & Hm & Hr & _).
      exists w', bs'. split; [exact Ew|].
      constructor; [exact Hr|exact (moves_incoming _ _ _ _ _ _ Hm Hi)|exact Hgs]. }
  destruct Hwait as (w' & bs' & Ew & Hrep').
  eexists _, (mk_lib w' bs' (buffered_payloads l)). split_and!; [exact Ew| |done|exact Hrep'].
  erewrite read_payload_found; [|done|done|done|done|].
  2: { unfold kept. cbn [fst snd buffered_payloads]. rewrite (proj2 (Z.eqb_neq _ _) Hn).
       by apply take_payload_skip. }
  cbn [bp_payload_length bp_payload payload_entry fst snd]. rewrite <- (gc_payload _ _ Hg), Nat2Z.id.
  rewrite take_ge by lia. unfold blit. cbn [take app Nat.add]. by rewrite app_nil_r.
Qed.

(** C40: a kept payload outlives its connection.  When a payload of an earlier connection is
    still kept for the descriptor and the task id, and is longer than the buffer
    the caller offers for the new completion, the copy is not bounded by the
    buffer: the bytes behind the caller's [capacity] bytes are overwritten with
    the tail of the old payload, and the call reports success. *)
Theorem stale_payload_overruns {W} `{Socket W} (fd : Z) x (l : lib W) buf n capacity old rest :
  0 <= fd -> payload_kind (cr_task_kind x) = true -> cr_payload_length x <> 0 ->
  cr_payload_length x <= capacity ->
  buffered_payloads l = mk_buffered_payload fd (cr_task x) (Z.of_nat (length old)) old :: rest ->
  0 <= capacity < Z.of_nat (length old) -> (length old <= length buf)%nat ->
  exists buf', iouringd_read_completion_payload fd (Some x) capacity (l, mk_payload_out (Some buf) (Some n)) =
    (Ok tt, (l <| buffered_payloads := rest |>, mk_payload_out (Some buf') (Some (Z.of_nat (length old))))) /\
    slice (Z.to_nat capacity) (length old - Z.to_nat capacity) buf' = drop (Z.to_nat capacity) old.
Proof.
  intros Hfd Hk Hn Hc Hp Hcap Hbuf. eexists. split.
  - apply (read_payload_found fd x l buf n capacity
             (mk_buffered_payload fd (cr_task x) (Z.of_nat (length old)) old) rest Hfd Hk Hn Hc).
    rewrite Hp. cbn [take_payload bp_fd bp_task_id].
    by rewrite !Z.eqb_refl.
  - cbn [bp_payload_length bp_payload]. rewrite Nat2Z.id, take_ge by lia. unfold blit, slice.
    rewrite take_0, app_nil_l, drop_app_le by lia.
    by rewrite take_app_length' by (rewrite length_drop; lia).
Qed.

(** ** The hypotheses can hold *)

Lemma wait_then_payload_witness :
  let buf := replicate 6 0 in
  exists l1 l2, iouringd_wait_completion 5 (talk, Some nop_done) = (Ok tt, (l1, Some read_done)) /\
    iouringd_read_completion_payload 5 (Some read_done) 4 (l1, mk_payload_out (Some buf) (Some 0)) =
      (Ok tt, (l2, mk_payload_out (Some [104; 105; 0; 0; 0; 0]) (Some 2))).
Proof.
  intros buf.
  destruct (wait_then_payload 5 talk talk_inbox read_done [104; 105]
              (mk_inbox [] (tail (ib_frames talk_inbox))) nop_done buf 0 4)
    as (l1 & l2 & H1 & H2 & _).
  - lia.
  - exact talk_represents.
  - reflexivity.
  - good_compute.
  - reflexivity.
  - done.
  - constructor.
  - cbn. lia.
  - exists l1, l2. by split.
Defined.

(** Two connections on one descriptor.  On the first, a read of eight bytes
    completes as task 7 and its payload is never asked for; the daemon is started
    again, so that task ids start again, and the new connection gets the same
    descriptor.  There a read of two bytes completes as task 7. *)
Definition old_read : completion_record :=
  mk_completion_record protocol_header_v1 7 8 IOURINGD_TASK_KIND_SOCK_READ 8.
Definition old_payload : bytes := [1; 2; 3; 4; 5; 6; 7; 8].

Definition first_wait : lib pipe :=
  fst (snd (iouringd_wait_completion 5
              (mk_lib (talk_pipe (to_wire old_read ++ old_payload)) [] [], Some nop_done))).
Definition reconnected : lib pipe :=
  first_wait <| l_world := talk_pipe (to_wire read_done ++ [104; 105]) |>.
Definition second_wait : lib pipe :=
  fst (snd (iouringd_wait_completion 5 (reconnected, Some nop_done))).

Lemma stale_payload_overruns_witness :
  exists l' buf', iouringd_read_completion_payload 5 (Some read_done) 2
      (second_wait, mk_payload_out (Some (replicate 10 0)) (Some 0)) =
    (Ok tt, (l', mk_payload_out (Some buf') (Some 8))) /\
    slice 2 6 buf' = [3; 4; 5; 6; 7; 8].
Proof.
  destruct (stale_payload_overruns 5 read_done second_wait (replicate 10 0) 0 2 old_payload
              [mk_buffered_payload 5 7 2 [104; 105]]) as (buf' & H1 & H2).
  - lia.
  - reflexivity.
  - done.
  - cbn. lia.
  - vm_compute. reflexivity.
  - cbn. lia.
  - cbn. lia.
  - eexists _, buf'. split; [exact H1|exact H2].
Defined.
