(* ===== verification/Passing.v ===== *)
(** * The descriptors a client passes

    A registration passes a descriptor to the daemon in an [SCM_RIGHTS] control
    message, which the byte streams of [Socket] do not show.  [Passing] adds the
    list of the descriptors passed so far, each with the socket and the position in
    its stream at which it travels; [passless] is the logic of the library's functions
    that pass none, and [register_passes] the one that passes its argument. *)

From S2P Require Import Prelude Wire Kernel Ring State Output Resources Trace Daemon Input Request Socket Client Inbox ClientApi Calls.

Class Passing (W : Type) `{SocketOk W} := {
  passed : W -> list (Z * nat * Z);
  send_passes w fd bs : passed (snd (k_send w fd bs)) = passed w;
  (** A descriptor goes with the first byte of its message, if there is one. *)
  sendmsg_passes w fd iov pass r w' : k_sendmsg w fd iov pass = (r, w') ->
    passed w' = passed w ++ match pass, r with
                            | Some d, Ok n => if 0 <? n then [(fd, length (outgoing w fd), d)] else []
                            | _, _ => []
                            end;
  recv_passes w fd len : passed (snd (k_recv w fd len)) = passed w;
  peek_passes w fd len : passed (snd (k_peek w fd len)) = passed w;
  alloc_passes w n : passed (snd (k_alloc w n)) = passed w;
}.

Section Quiet.
Context {W : Type} `{Passing W}.

(** [m], over a state that has a world, passes no descriptor. *)
Definition passless {S A} (world : S -> W) (m : M S A) : Prop :=
  forall s, passed (world (snd (m s))) = passed (world s).

Lemma passless_run {S A} world (m : M S A) s r s' : passless world m -> m s = (r, s') -> passed (world s') = passed (world s).
Proof. intros Hm E. specialize (Hm s). by rewrite E in Hm. Qed.

Lemma passless_bind {S A B} world (m : M S A) (k : A -> M S B) :
  passless world m -> (forall a, passless world (k a)) -> passless world (mbnd m k).
Proof.
  intros Hm Hk s. specialize (Hm s). unfold mbnd. destruct (m s) as [[a|e] s1]; [|done]. by rewrite Hk.
Qed.
Lemma passless_pure {S A} world (m : M S A) : (forall s, world (snd (m s)) = world s) -> passless world m.
Proof. intros Hm s. by rewrite Hm. Qed.
Lemma passless_lift {S T A} world (m : M S A) : passless world m -> passless (world ∘ fst) (lift (T := T) m).
Proof. intros Hm s. specialize (Hm (fst s)). unfold lift. by destruct (m (fst s)). Qed.
Lemma passless_on_world {A} (m : M W A) : passless id m -> passless l_world (on_world m).
Proof. intros Hm l. specialize (Hm (l_world l)). unfold on_world. by destruct (m (l_world l)). Qed.
Lemma passless_alloc n : passless l_world (alloc n).
Proof. intros l. pose proof (alloc_passes (l_world l) n). unfold alloc. by destruct (k_alloc _ _). Qed.
Lemma passless_with_local {A B} (m : M (lib W * option A) B) : passless (l_world ∘ fst) m -> passless l_world (with_local m).
Proof. intros Hm l. specialize (Hm (l, None)). unfold with_local. by destruct (m (l, None)) as [? []]. Qed.

Lemma passless_sendmsg fd iov : passless id (sock (fun w => k_sendmsg w fd iov None)).
Proof.
  intros w. unfold sock, id. destruct (k_sendmsg w fd iov None) as [r w'] eqn:E.
  rewrite (sendmsg_passes _ _ _ _ _ _ E). apply app_nil_r.
Qed.
Lemma passless_write_loop fuel fd rest : passless id (write_loop fuel fd rest).
Proof.
  revert rest. induction fuel as [|fuel IH]; intros [|b rest]; cbn [write_loop]; try by apply passless_pure.
  apply passless_bind; [intros w; apply send_passes|intros rc]. by case_match; [apply passless_pure|].
Qed.
Lemma passless_write_iov fuel fd a b : passless id (write_iov_loop fuel fd a b).
Proof.
  revert a b. induction fuel as [|fuel IH]; intros a b; cbn [write_iov_loop]; destruct (iovecs a b); try by apply passless_pure.
  apply passless_bind; [apply passless_sendmsg|intros rc]. repeat case_match; [by apply passless_pure|apply IH|apply IH].
Qed.
Lemma passless_read_loop fuel fd len : passless id (read_loop fuel fd len).
Proof.
  revert len. induction fuel as [|fuel IH]; intros [|len]; cbn [read_loop]; try by apply passless_pure.
  apply passless_bind; [intros w; apply recv_passes|intros [|x data]]; [by apply passless_pure|].
  apply passless_bind; [apply IH|intros rest]. by apply passless_pure.
Qed.
Lemma passless_peek fd : passless id (peek_protocol_header fd).
Proof.
  apply passless_bind; [intros w; apply peek_passes|intros [|x data]]; [by apply passless_pure|].
  case_match; by apply passless_pure.
Qed.

Ltac passless_tac :=
  repeat first
    [ solve [auto] | apply passless_write_loop | apply passless_write_iov | apply passless_read_loop | apply passless_peek
    | apply passless_alloc | apply passless_bind; [|intros ?] | apply passless_lift | apply passless_on_world | apply passless_with_local
    | (apply passless_pure; intros ?; done)
    | match goal with
      | |- passless _ (if ?x then _ else _) => destruct x
      | |- passless _ (match ?x with _ => _ end) => destruct x
      end ].

Lemma passless_read_struct A `{Wire A} fd : passless l_world (read_struct A fd).
Proof. unfold read_struct, read_full. passless_tac. Qed.
Lemma passless_store fd t p n : passless l_world (store_buffered_payload_owned fd t p n).
Proof. unfold store_buffered_payload_owned. passless_tac. Qed.
Lemma passless_read_completion fd : passless (l_world ∘ fst) (read_completion_with_payload fd).
Proof. pose proof (passless_read_struct completion_record fd). unfold read_completion_with_payload, read_full. passless_tac. Qed.
Lemma passless_drain rounds fd : passless l_world (drain_completion_prefix rounds fd).
Proof.
  induction rounds as [|rounds IH]; [by apply passless_pure|]. cbn [drain_completion_prefix].
  pose proof (passless_read_completion fd). unfold queue_buffered_completion. passless_tac.
Qed.
Lemma passless_wait fd : passless (l_world ∘ fst) (iouringd_wait_completion fd).
Proof.
  pose proof (passless_read_completion fd). pose proof (passless_store fd).
  unfold iouringd_wait_completion, pop_buffered_completion. passless_tac.
Qed.
Lemma passless_read_payload fd x n : passless (l_world ∘ fst) (iouringd_read_completion_payload fd x n).
Proof.
  apply passless_pure. intros [l o]. unfold iouringd_read_completion_payload, mbnd, mget, id.
  repeat case_match; done.
Qed.

(** A call of the submit group, and one of the resource group, given what is sent. *)
Lemma passless_submit rounds fd bad send : passless id send -> passless (l_world ∘ fst) (submit_call rounds fd bad send).
Proof.
  pose proof (passless_drain rounds fd). pose proof (passless_read_struct submit_result fd).
  intros Hs. unfold submit_call, read_submit_result. passless_tac.
Qed.
Lemma passless_resource_reply rounds fd : passless (l_world ∘ fst) (read_resource_result rounds fd).
Proof.
  pose proof (passless_drain rounds fd). pose proof (passless_read_struct resource_result fd).
  unfold read_resource_result. passless_tac.
Qed.
Lemma passless_submit_run call rounds fd : passless (l_world ∘ fst) (submit_run call rounds fd).
Proof.
  destruct call; cbn [submit_run]; repeat case_match; apply passless_submit;
    solve [apply passless_write_loop|apply passless_write_iov].
Qed.
Lemma passless_handshake fd : passless (id ∘ fst) (iouringd_client_handshake_fd fd).
Proof. unfold iouringd_client_handshake_fd, write_full, read_full. passless_tac. Qed.

(** [iouringd_register_fd] passes its argument with the first byte of the request. *)
Lemma send_fd_passes fd d bs w w' :
  bs <> [] -> send_fd_with_request fd d bs w = (Ok tt, w') -> passed w' = passed w ++ [(fd, length (outgoing w fd), d)].
Proof.
  intros Hbs. unfold send_fd_with_request, mbnd, sock. destruct (k_sendmsg w fd [bs] (Some d)) as [[n|e] w1] eqn:E; [|done].
  destruct (Z.eqb_spec n 0) as [|H0']; [done|].
  pose proof (sendmsg_passes _ _ _ _ _ _ E) as Hp. destruct (Z.eqb_spec n (Z.of_nat (length bs))) as [Hn|]; [|done].
  intros [= <-]. rewrite Hp, (proj2 (Z.ltb_lt 0 n)); [done|lia].
Qed.

Lemma register_passes rounds fd d l l' o o' :
  iouringd_register_fd_result rounds fd d (l, o) = (Ok tt, (l', o')) ->
  passed (l_world l') = passed (l_world l) ++ [(fd, length (outgoing (l_world l) fd), d)].
Proof.
  unfold iouringd_register_fd_result, resource_call.
  rewrite (mbnd_ok out_is_null _ _ _ _ eq_refl). destruct (_ || (d <? 0)); [done|]. unfold mbnd, lift, on_world. cbn [fst snd].
  destruct (send_fd_with_request _ _ _ _) as [[[]|e] w1] eqn:E; [|done]. apply send_fd_passes in E; [|done].
  pose proof (passless_resource_reply rounds fd (l <| l_world := w1 |>, o)) as Hq.
  intros Er. rewrite Er in Hq. exact (eq_trans Hq E).
Qed.
End Quiet.

#[export] Instance pipe_passing : Passing pipe.
Proof.
  refine {| passed := p_passed |}; try done.
  - intros w fd bs. apply app_nil_r.
  - intros w fd iov pass r w' E. injection E as <- <-. cbn [p_passed outgoing pipe_ok].
    destruct pass as [d|]; [|done]. by destruct (take _ (concat iov)).
Defined.
