(* ===== verification/Setup.v ===== *)
(** * Setting up and taking down the ring

    Models the life cycle of [struct iouringd_ring] in [src/daemon/submit.c]:
    [iouringd_ring_init] (the set-up system call with its fallback, the three
    memory mappings, the probe and the operation mask), the registration of the
    fixed file table and buffers, and [iouringd_ring_cleanup].

    [SetupKernel W] has the calls made here.  [SetupOk] gives the documented
    behaviour of mappings and descriptors in terms of two ghost lists of the
    world, the live mappings and the open descriptors; [ring_init_balanced] shows
    that nothing is lost on any path.  The heads, tails and entries in the mapped
    memory are the kernel's ([k_shared]); the pointers into it are the fields of
    [Kernel.ring]. *)

From Stdlib Require Import String.
From S2P Require Import Prelude Wire Kernel Ring.

Definition IORING_SETUP_SINGLE_ISSUER : Z := Z.shiftl 1 12.
Definition IORING_FEAT_SINGLE_MMAP : Z := 1.
Definition IO_URING_OP_SUPPORTED : Z := 1.
Definition PROBE_OPS_LEN : Z := 256.

(** The fields of [struct io_uring_params] that are read. *)
Record params := mk_params {
  pr_features : Z;
  pr_sq_entries : Z;
  pr_cq_entries : Z;
  pr_sq_off_array : Z;
  pr_cq_off_cqes : Z;
}.

(** An entry of [struct io_uring_probe]: [op] and [flags]. *)
Record probe_op := mk_probe_op { po_op : Z; po_flags : Z }.

Inductive map_offset := IORING_OFF_SQ_RING | IORING_OFF_CQ_RING | IORING_OFF_SQES | MAP_ANON.

Class SetupKernel (W : Type) := {
  (** [getenv("IOURINGD_TEST_FAULT")] *)
  k_fault : W -> option string;
  (** [io_uring_setup(entries, params)] with [params.flags]: the descriptor and
      the parameters the kernel filled in. *)
  k_setup : W -> Z -> Z -> outcome (Z * params) * W;
  (** [mmap] of a size at an offset of the ring, or anonymous *)
  k_mmap : W -> Z -> map_offset -> outcome Z * W;
  k_munmap : W -> Z -> Z -> W;
  k_close_fd : W -> Z -> W;
  (** [IORING_REGISTER_PROBE]: the operations reported *)
  k_probe : W -> Z -> Z -> outcome (list probe_op) * W;
  (** [IORING_REGISTER_FILES], [IORING_REGISTER_BUFFERS] (base and length) *)
  k_register_files : W -> Z -> list Z -> outcome unit * W;
  k_register_buffers : W -> Z -> list (Z * Z) -> outcome unit * W;
  (** The rings in the mapped memory, as the kernel has initialised them *)
  k_shared : W -> Z -> ring;
}.

(** ** The operation mask *)

Fixpoint opcode_supported (ops : list probe_op) (opcode : Z) : bool :=
  match ops with
  | [] => false
  | o :: rest =>
      if negb (po_op o =? opcode) then opcode_supported rest opcode
      else negb (Z.land (po_flags o) IO_URING_OP_SUPPORTED =? 0)
  end.

Definition supported_submit_mask (op_mask : Z) : Z := Z.land op_mask IOURINGD_CAPABILITY_OP_MASK_V1.

(** The tests of [iouringd_ring_init], in their order. *)
Definition probe_table : list (Z * Z) :=
  [(IORING_OP_NOP, IOURINGD_CAPABILITY_OP_NOP);
   (IORING_OP_TIMEOUT, IOURINGD_CAPABILITY_OP_TIMEOUT);
   (IORING_OP_READV, IOURINGD_CAPABILITY_OP_READV);
   (IORING_OP_WRITEV, IOURINGD_CAPABILITY_OP_WRITEV);
   (IORING_OP_ASYNC_CANCEL, IOURINGD_CAPABILITY_OP_ASYNC_CANCEL);
   (IORING_OP_READ_FIXED, IOURINGD_CAPABILITY_OP_READ_FIXED);
   (IORING_OP_WRITE_FIXED, IOURINGD_CAPABILITY_OP_WRITE_FIXED);
   (IORING_OP_POLL_ADD, IOURINGD_CAPABILITY_OP_POLL);
   (IORING_OP_CONNECT, IOURINGD_CAPABILITY_OP_CONNECT);
   (IORING_OP_ACCEPT, IOURINGD_CAPABILITY_OP_ACCEPT);
   (IORING_OP_OPENAT, IOURINGD_CAPABILITY_OP_OPENAT);
   (IORING_OP_CLOSE, IOURINGD_CAPABILITY_OP_CLOSE)].

Definition probed_mask (ops : list probe_op) : Z :=
  supported_submit_mask
    (fold_left (fun mask '(opcode, capability) =>
                  if opcode_supported ops opcode then Z.lor mask capability else mask)
       probe_table 0).

(** ** The ring's own fields *)

Record ring_struct := mk_ring_struct {
  rm_fd : Z;
  rm_setup_flags : Z;
  rm_files_count : Z;
  rm_buffers_count : Z;
  rm_sq_ring : option Z;
  rm_cq_ring : option Z;
  rm_sqes : option Z;
  rm_sq_ring_size : Z;
  rm_cq_ring_size : Z;
  rm_sqes_size : Z;
}.
Definition eta_ring_struct (x : ring_struct) : ring_struct :=
  mk_ring_struct (rm_fd x) (rm_setup_flags x) (rm_files_count x) (rm_buffers_count x) (rm_sq_ring x)
    (rm_cq_ring x) (rm_sqes x) (rm_sq_ring_size x) (rm_cq_ring_size x) (rm_sqes_size x).
#[export] Instance put_rm_fd : Setter rm_fd := ltac:(mk_put eta_ring_struct rm_fd).
#[export] Instance put_rm_setup_flags : Setter rm_setup_flags := ltac:(mk_put eta_ring_struct rm_setup_flags).
#[export] Instance put_rm_files_count : Setter rm_files_count := ltac:(mk_put eta_ring_struct rm_files_count).
#[export] Instance put_rm_buffers_count : Setter rm_buffers_count :=
  ltac:(mk_put eta_ring_struct rm_buffers_count).
#[export] Instance put_rm_sq_ring : Setter rm_sq_ring := ltac:(mk_put eta_ring_struct rm_sq_ring).
#[export] Instance put_rm_cq_ring : Setter rm_cq_ring := ltac:(mk_put eta_ring_struct rm_cq_ring).
#[export] Instance put_rm_sqes : Setter rm_sqes := ltac:(mk_put eta_ring_struct rm_sqes).
#[export] Instance put_rm_sq_ring_size : Setter rm_sq_ring_size := ltac:(mk_put eta_ring_struct rm_sq_ring_size).
#[export] Instance put_rm_cq_ring_size : Setter rm_cq_ring_size := ltac:(mk_put eta_ring_struct rm_cq_ring_size).
#[export] Instance put_rm_sqes_size : Setter rm_sqes_size := ltac:(mk_put eta_ring_struct rm_sqes_size).

(** [memset(ring, 0, sizeof *ring); ring->ring_fd = -1;] *)
Definition ring_struct_zero : ring_struct := mk_ring_struct (-1) 0 0 0 None None None 0 0 0.

(** [ring->sq_ring_size] and the others, before a single mapping is considered;
    an entry of the array has 4 bytes, a completion 16, a submission 64. *)
Definition ring_sizes (p : params) (x : ring_struct) : ring_struct :=
  x <| rm_sq_ring_size := u64 (pr_sq_off_array p + pr_sq_entries p * 4) |>
    <| rm_cq_ring_size := u64 (pr_cq_off_cqes p + pr_cq_entries p * 16) |>
    <| rm_sqes_size := u64 (pr_sq_entries p * 64) |>.
Definition single_mmap (p : params) : bool := negb (Z.land (pr_features p) IORING_FEAT_SINGLE_MMAP =? 0).
Definition share_size (x : ring_struct) : ring_struct :=
  if rm_sq_ring_size x <? rm_cq_ring_size x
  then x <| rm_sq_ring_size := rm_cq_ring_size x |> else x <| rm_cq_ring_size := rm_sq_ring_size x |>.

Definition sizeof_probe : Z := 16 + PROBE_OPS_LEN * 8.

(** The capabilities the ring contributes; [main] fills in the rest. *)
Definition ring_capabilities (p : params) (op_mask : Z) : capability_descriptor :=
  mk_capability_descriptor (Z.of_nat (wire_size capability_descriptor)) (pr_features p) (pr_sq_entries p)
    (pr_cq_entries p) op_mask (if 1 <? pr_sq_entries p then pr_sq_entries p - 1 else 0) 0 0 0.

Section Setup.
Context {W : Type} `{SetupKernel W}.
Local Open Scope iou_scope.

Definition RM : Type -> Type := M (W * ring_struct).

Definition call {A} (f : W -> outcome A * W) : RM A :=
  fun s => let '(r, w) := f (fst s) in (r, (w, snd s)).
Definition get_ring : RM ring_struct := mget snd.
Definition mod_ring (f : ring_struct -> ring_struct) : RM unit := mmod (fun s => (fst s, f (snd s))).
Definition unmap (p : option Z) (size : Z) : RM unit :=
  match p with
  | Some a => mmod (fun s => (k_munmap (fst s) a size, snd s))
  | None => mret tt
  end.
Definition close_ring_fd : RM unit :=
  mmod (fun s => (k_close_fd (fst s) (rm_fd (snd s)), snd s <| rm_fd := -1 |>)).
Definition iouringd_test_fault_matches (value : string) : RM bool :=
  mget (fun s => match k_fault (fst s) with Some f => String.eqb f value | None => false end).

(** Two mappings are the same when their addresses are. *)
Definition same_ptr (p q : option Z) : bool :=
  match p, q with
  | Some a, Some b => a =? b
  | None, None => true
  | _, _ => false
  end.

Definition ring_setup_with_flags (entries flags : Z) : RM params :=
  enosys <- iouringd_test_fault_matches "setup_enosys" ;;
  if enosys : bool then mfail ENOSYS
  else
    eperm <- iouringd_test_fault_matches "setup_eperm" ;;
    if eperm : bool then mfail EPERM
    else
      r <- mtry (call (fun w => k_setup w entries flags)) ;;
      match r with
      | Err e => mod_ring (fun x => x <| rm_fd := -1 |>) ;;; mfail e
      | Ok (fd, p) => mod_ring (fun x => x <| rm_fd := fd |>) ;;; mret p
      end.

(** [attempts]: only EINVAL makes it try the next flags; the flags applied. *)
Fixpoint setup_attempts (entries : Z) (attempts : list Z) : RM (params * Z) :=
  match attempts with
  | [] => mfail EINVAL
  | flags :: rest =>
      r <- mtry (ring_setup_with_flags entries flags) ;;
      match r with
      | Ok p => mret (p, flags)
      | Err e =>
          if negb (e =? EINVAL) || is_null (head rest) then mfail e else setup_attempts entries rest
      end
  end.
Definition ring_setup_best_effort (entries : Z) : RM (params * Z) :=
  setup_attempts entries [IORING_SETUP_SINGLE_ISSUER; 0].

(** The completion ring, unless it is the submission ring's mapping. *)
Definition unmap_cq_ring (x : ring_struct) : RM unit :=
  if is_null (rm_cq_ring x) || same_ptr (rm_cq_ring x) (rm_sq_ring x) then mret tt
  else unmap (rm_cq_ring x) (rm_cq_ring_size x).

Definition iouringd_ring_cleanup : RM unit :=
  x <- get_ring ;;
  unmap (rm_sqes x) (rm_sqes_size x) ;;;
  unmap_cq_ring x ;;;
  unmap (rm_sq_ring x) (rm_sq_ring_size x) ;;;
  mod_ring (fun x => x <| rm_sqes := None |> <| rm_cq_ring := None |> <| rm_sq_ring := None |>) ;;;
  if 0 <=? rm_fd x then close_ring_fd else mret tt.

Definition map_sq_ring : RM unit :=
  x <- get_ring ;;
  r <- mtry (call (fun w => k_mmap w (rm_sq_ring_size x) IORING_OFF_SQ_RING)) ;;
  match r with
  | Ok a => mod_ring (fun x => x <| rm_sq_ring := Some a |>)
  | Err e => close_ring_fd ;;; mfail e
  end.

Definition map_cq_ring (p : params) : RM unit :=
  x <- get_ring ;;
  if single_mmap p then mod_ring (fun x => x <| rm_cq_ring := rm_sq_ring x |>)
  else
    r <- mtry (call (fun w => k_mmap w (rm_cq_ring_size x) IORING_OFF_CQ_RING)) ;;
    match r with
    | Ok a => mod_ring (fun x => x <| rm_cq_ring := Some a |>)
    | Err e =>
        unmap (rm_sq_ring x) (rm_sq_ring_size x) ;;;
        mod_ring (fun x => x <| rm_sq_ring := None |> <| rm_cq_ring := None |>) ;;;
        close_ring_fd ;;; mfail e
    end.

Definition map_sqes : RM unit :=
  x <- get_ring ;;
  r <- mtry (call (fun w => k_mmap w (rm_sqes_size x) IORING_OFF_SQES)) ;;
  match r with
  | Ok a => mod_ring (fun x => x <| rm_sqes := Some a |>)
  | Err e =>
      unmap_cq_ring x ;;;
      unmap (rm_sq_ring x) (rm_sq_ring_size x) ;;;
      mod_ring (fun x => x <| rm_sq_ring := None |> <| rm_cq_ring := None |>) ;;;
      close_ring_fd ;;; mfail e
  end.

(** The probe and the mask; a failure takes the ring down. *)
Definition probe_ring (p : params) : RM capability_descriptor :=
  r <- mtry (call (fun w => k_mmap w sizeof_probe MAP_ANON)) ;;
  match r with
  | Err e => iouringd_ring_cleanup ;;; mfail e
  | Ok probe =>
      fault <- iouringd_test_fault_matches "probe_eperm" ;;
      if fault : bool then unmap (Some probe) sizeof_probe ;;; iouringd_ring_cleanup ;;; mfail EPERM
      else
        x <- get_ring ;;
        r <- mtry (call (fun w => k_probe w (rm_fd x) PROBE_OPS_LEN)) ;;
        match r with
        | Err e => unmap (Some probe) sizeof_probe ;;; iouringd_ring_cleanup ;;; mfail e
        | Ok ops =>
            unmap (Some probe) sizeof_probe ;;;
            let op_mask := probed_mask ops in
            if op_mask =? 0 then iouringd_ring_cleanup ;;; mfail ENOTSUP
            else mret (ring_capabilities p op_mask)
        end
  end.

(** [None] when no capabilities are asked for. *)
Definition iouringd_ring_init (entries : Z) (capabilities : bool) : RM (option capability_descriptor) :=
  mod_ring (fun _ => ring_struct_zero) ;;;
  if entries =? 0 then mfail EINVAL
  else
    pf <- ring_setup_best_effort entries ;;
    let '(p, flags) := pf in
    mod_ring (fun x => let x := ring_sizes p (x <| rm_setup_flags := flags |>) in
                       if single_mmap p then share_size x else x) ;;;
    map_sq_ring ;;;
    map_cq_ring p ;;;
    map_sqes ;;;
    if negb capabilities then mret None
    else caps <- probe_ring p ;; mret (Some caps).

(** The table of files is filled with -1 in a mapping of its own. *)
Definition iouringd_ring_init_registered_files (count : Z) : RM unit :=
  x <- get_ring ;;
  if (rm_fd x <? 0) || (count =? 0) then mfail EINVAL
  else
    files <- call (fun w => k_mmap w (u64 (count * 4)) MAP_ANON) ;;
    r <- mtry (call (fun w => k_register_files w (rm_fd x) (replicate (Z.to_nat count) (-1)))) ;;
    unmap (Some files) (u64 (count * 4)) ;;;
    match r with
    | Err e => mfail e
    | Ok _ => mod_ring (fun x => x <| rm_files_count := count |>)
    end.

Definition iouringd_ring_init_registered_buffers (iovecs : option (list (Z * Z))) (count : Z) : RM unit :=
  x <- get_ring ;;
  match iovecs with
  | None => mfail EINVAL
  | Some v =>
      if (rm_fd x <? 0) || (count =? 0) then mfail EINVAL
      else
        call (fun w => k_register_buffers w (rm_fd x) (take (Z.to_nat count) v)) ;;;
        mod_ring (fun x => x <| rm_buffers_count := count |>)
  end.
End Setup.

(** ** Mappings and descriptors *)

Class SetupOk (W : Type) `{SetupKernel W} := {
  live : W -> list (Z * Z);       (* mappings: address and size *)
  opened : W -> list Z;           (* descriptors *)
  setup_law w entries flags r w' : k_setup w entries flags = (r, w') ->
    live w' = live w /\
    match r with
    | Ok (fd, _) => 0 <= fd /\ opened w' = fd :: opened w
    | Err _ => opened w' = opened w
    end;
  (** A mapping gets an address of its own. *)
  mmap_law w size off r w' : k_mmap w size off = (r, w') ->
    opened w' = opened w /\
    match r with
    | Ok a => (a ∉ (fst <$> live w)) /\ live w' = (a, size) :: live w
    | Err _ => live w' = live w
    end;
  munmap_law w a size : (a, size) ∈ live w ->
    (a, size) :: live (k_munmap w a size) ≡ₚ live w /\ opened (k_munmap w a size) = opened w;
  close_law w fd : fd ∈ opened w ->
    fd :: opened (k_close_fd w fd) ≡ₚ opened w /\ live (k_close_fd w fd) = live w;
  probe_law w fd n r w' : k_probe w fd n = (r, w') -> live w' = live w /\ opened w' = opened w;
  files_law w fd v r w' : k_register_files w fd v = (r, w') -> live w' = live w /\ opened w' = opened w;
  buffers_law w fd v r w' : k_register_buffers w fd v = (r, w') -> live w' = live w /\ opened w' = opened w;
}.

Definition mapping (p : option Z) (size : Z) : list (Z * Z) :=
  match p with Some a => [(a, size)] | None => [] end.

(** What a ring owns. *)
Definition owned (x : ring_struct) : list (Z * Z) :=
  mapping (rm_sqes x) (rm_sqes_size x) ++
  (if same_ptr (rm_cq_ring x) (rm_sq_ring x) then [] else mapping (rm_cq_ring x) (rm_cq_ring_size x)) ++
  mapping (rm_sq_ring x) (rm_sq_ring_size x).
Definition owned_fds (x : ring_struct) : list Z := if 0 <=? rm_fd x then [rm_fd x] else [].

Section Balance.
Context {W : Type} `{SetupOk W} (maps : list (Z * Z)) (fds : list Z).

(** The live mappings and descriptors are the ring's and those given. *)
Definition holding (ms : list (Z * Z)) (fs : list Z) (w : W) : Prop :=
  live w ≡ₚ ms ++ maps /\ opened w ≡ₚ fs ++ fds.
Definition balanced (s : W * ring_struct) : Prop := holding (owned (snd s)) (owned_fds (snd s)) (fst s).

Lemma unmap_holding a size ms fs w :
  holding ((a, size) :: ms) fs w -> holding ms fs (k_munmap w a size).
Proof.
  intros [Hm Hf]. destruct (munmap_law w a size) as [Hl Ho].
  { rewrite Hm. by left. }
  split; [|by rewrite Ho]. rewrite Hm in Hl. by apply (inj (cons (a, size))) in Hl.
Qed.

Lemma close_holding fd ms w : holding ms [fd] w -> holding ms [] (k_close_fd w fd).
Proof.
  intros [Hm Hf]. destruct (close_law w fd) as [Ho Hl].
  { rewrite Hf. by left. }
  split; [by rewrite Hl|]. rewrite Hf in Ho. by apply (inj (cons fd)) in Ho.
Qed.

Lemma mmap_holding w size off r w' ms fs :
  k_mmap w size off = (r, w') -> holding ms fs w ->
  match r with
  | Ok a => (a ∉ (fst <$> ms)) /\ holding ((a, size) :: ms) fs w'
  | Err _ => holding ms fs w'
  end.
Proof.
  intros E [Hm Hf]. destruct (mmap_law _ _ _ _ _ E) as [Ho Hr]. destruct r as [a|e].
  - destruct Hr as [Hn Hl]. split.
    + intros Ha. apply Hn. rewrite Hm, fmap_app. by apply elem_of_app; left.
    + split; [by rewrite Hl, Hm|by rewrite Ho].
  - split; [by rewrite Hr|by rewrite Ho].
Qed.

Lemma wp_unmap p size ms fs (s : W * ring_struct) (Q : outcome unit -> W * ring_struct -> Prop) :
  holding (mapping p size ++ ms) fs (fst s) ->
  (forall w', holding ms fs w' -> Q (Ok tt) (w', snd s)) -> wp (unmap p size) s Q.
Proof.
  intros Hh HQ. destruct s as [w x], p as [a|]; [|by apply HQ].
  apply HQ. exact (unmap_holding _ _ _ _ _ Hh).
Qed.

Lemma wp_unmap_cq x ms fs (s : W * ring_struct) (Q : outcome unit -> W * ring_struct -> Prop) :
  holding ((if same_ptr (rm_cq_ring x) (rm_sq_ring x) then []
            else mapping (rm_cq_ring x) (rm_cq_ring_size x)) ++ ms) fs (fst s) ->
  (forall w', holding ms fs w' -> Q (Ok tt) (w', snd s)) -> wp (unmap_cq_ring x) s Q.
Proof.
  intros Hh HQ. destruct s as [w y]. unfold unmap_cq_ring.
  destruct (same_ptr _ _); [rewrite orb_true_r; by apply HQ|]. rewrite orb_false_r.
  destruct (rm_cq_ring x) as [a|]; [exact (wp_unmap _ _ _ _ (w, y) _ Hh HQ)|by apply HQ].
Qed.

(** Taking a ring down gives back exactly what it owns. *)
Lemma cleanup_balanced s :
  balanced s -> wp iouringd_ring_cleanup s (fun r s' => r = Ok tt /\ holding [] [] (fst s') /\
                                                         rm_fd (snd s') < 0).
Proof.
  destruct s as [w x]. unfold balanced, owned. cbn [fst snd]. intros Hb.
  unfold iouringd_ring_cleanup. apply wp_bind. cbn.
  apply wp_bind. eapply wp_unmap; [exact Hb|]. intros w1 Hb1. cbn beta iota.
  apply wp_bind. eapply wp_unmap_cq; [exact Hb1|]. intros w2 Hb2. cbn beta iota.
  apply wp_bind. eapply (wp_unmap _ _ []); [by rewrite app_nil_r|]. intros w3 Hb3. cbn beta iota.
  apply wp_bind. cbn. unfold owned_fds in Hb3. destruct (0 <=? rm_fd x) eqn:E.
  - cbn. split_and!; [done| |lia]. by apply close_holding.
  - apply Z.leb_gt in E. cbn. by split_and!.
Qed.

Abbreviation Post A := (outcome A -> W * ring_struct -> Prop).

(** A failed step has given everything back. *)
Definition given_back (s : W * ring_struct) : Prop := holding [] [] (fst s) /\ rm_fd (snd s) < 0.

(** A step either goes on in a state of [P] or has given everything back. *)
Definition step_to {A} (m : RM A) (s : W * ring_struct) (P : A -> W * ring_struct -> Prop) : Prop :=
  wp m s (fun r s' => match r with Ok a => P a s' | Err _ => given_back s' end).

Lemma step_bind {A B} (m : RM A) (k : A -> RM B) s P Q :
  step_to m s P -> (forall a s', P a s' -> step_to (k a) s' Q) -> step_to (mbnd m k) s Q.
Proof.
  intros Hm Hk. apply wp_bind. eapply wp_weaken; [exact Hm|]. intros [a|e] s' Hs; [by apply Hk|done].
Qed.

Lemma wp_mmap size off ms fs (s : W * ring_struct) (Q : Post Z) :
  holding ms fs (fst s) ->
  (forall a w', a ∉ (fst <$> ms) -> holding ((a, size) :: ms) fs w' -> Q (Ok a) (w', snd s)) ->
  (forall e w', holding ms fs w' -> Q (Err e) (w', snd s)) ->
  wp (call (fun w => k_mmap w size off)) s Q.
Proof.
  intros Hh HQ1 HQ2. unfold wp, call. destruct s as [w x]. cbn [fst snd] in *.
  destruct (k_mmap w size off) as [r w'] eqn:E. pose proof (mmap_holding _ _ _ _ _ _ _ E Hh) as Hr.
  destruct r as [a|e]; [|by apply HQ2]. destruct Hr. by apply HQ1.
Qed.

Lemma wp_mod f (s : W * ring_struct) (Q : Post unit) :
  Q (Ok tt) (fst s, f (snd s)) -> wp (mod_ring f) s Q.
Proof. done. Qed.

Lemma close_given_back fd (w : W) x :
  holding [] [fd] w -> rm_fd x = fd ->
  wp close_ring_fd (w, x) (fun r s' => r = Ok tt /\ given_back s').
Proof.
  intros Hh <-. unfold wp, close_ring_fd, mmod, given_back. cbn. split_and!; [done| |lia].
  by apply close_holding.
Qed.

(** The stages of the set-up: which pointers are set, and what is held. *)
Record stage (p q r : bool) (s : W * ring_struct) : Prop := {
  sg_fd : 0 <= rm_fd (snd s);
  sg_sq : is_null (rm_sq_ring (snd s)) = negb p;
  sg_cq : is_null (rm_cq_ring (snd s)) = negb q;
  sg_sqes : is_null (rm_sqes (snd s)) = negb r;
  sg_held : balanced s;
}.

Lemma stage_held p q r s :
  stage p q r s -> holding (owned (snd s)) [rm_fd (snd s)] (fst s).
Proof.
  intros [Hfd _ _ _ Hb]. unfold balanced, owned_fds in Hb. by rewrite (proj2 (Z.leb_le _ _) Hfd) in Hb.
Qed.

Lemma setup_with_flags_stage entries flags s :
  holding [] [] (fst s) -> rm_fd (snd s) = -1 -> owned (snd s) = [] ->
  rm_sq_ring (snd s) = None -> rm_cq_ring (snd s) = None -> rm_sqes (snd s) = None ->
  wp (ring_setup_with_flags entries flags) s (fun r s' =>
    match r with
    | Ok _ => stage false false false s'
    | Err _ => holding [] [] (fst s') /\ snd s' = snd s
    end).
Proof.
  destruct s as [w x]. cbn [fst snd]. intros Hh Hfd Ho Hsq Hcq Hsqes. unfold ring_setup_with_flags.
  apply wp_bind. cbn. destruct (match k_fault w with Some f => String.eqb f _ | None => false end); [done|].
  apply wp_bind. cbn. destruct (match k_fault w with Some f => String.eqb f _ | None => false end); [done|].
  apply wp_bind, wp_try. unfold wp at 1, call. cbn [fst snd].
  destruct (k_setup w entries flags) as [r w'] eqn:E. destruct (setup_law _ _ _ _ _ E) as [Hl Hr].
  destruct Hh as [Hm Hf]. destruct r as [[fd p]|e].
  - destruct Hr as [Hpos Hop]. apply wp_bind. cbn. constructor; cbn; try by rewrite ?Hsq, ?Hcq, ?Hsqes.
    unfold balanced, owned, owned_fds. cbn. rewrite Hsq, Hcq, Hsqes, (proj2 (Z.leb_le _ _) Hpos). cbn.
    split; [by rewrite Hl, Hm|by rewrite Hop, Hf].
  - apply wp_bind. cbn. split; [split; [by rewrite Hl|by rewrite Hr]|]. destruct x. cbn in *. by rewrite Hfd.
Qed.

Lemma setup_attempts_stage entries attempts s :
  holding [] [] (fst s) -> snd s = ring_struct_zero ->
  step_to (setup_attempts entries attempts) s (fun _ s' => stage false false false s').
Proof.
  revert s. induction attempts as [|flags rest IH]; intros [w x] Hh Hx; cbn [fst snd] in *; subst x.
  - split; [done|cbn; lia].
  - cbn [setup_attempts]. unfold step_to. apply wp_bind, wp_try.
    eapply wp_weaken; [by apply setup_with_flags_stage|]. intros [p|e] [w' x'] Hs; [exact Hs|].
    destruct Hs as [Hh' Hx']. cbn [fst snd] in *. subst x'.
    destruct (_ || _); [split; [done|cbn; lia]|by apply IH].
Qed.

Lemma sizes_stage p flags s :
  stage false false false s ->
  stage false false false
    (fst s, let x := ring_sizes p (snd s <| rm_setup_flags := flags |>) in
            if single_mmap p then share_size x else x).
Proof.
  destruct s as [w x]. intros [Hfd H1 H2 H3 Hb]. unfold balanced, owned, owned_fds in Hb. cbn in *.
  destruct (rm_sq_ring x) eqn:E1, (rm_cq_ring x) eqn:E2, (rm_sqes x) eqn:E3; try done.
  destruct (single_mmap p); [unfold share_size; destruct (_ <? _)|];
    constructor; unfold balanced, owned, owned_fds; cbn; rewrite ?E1, ?E2, ?E3; done.
Qed.

Lemma map_sq_stage s :
  stage false false false s -> step_to map_sq_ring s (fun _ s' => stage true false false s').
Proof.
  intros Hs. pose proof (stage_held _ _ _ _ Hs) as Hh. destruct Hs as [Hfd H1 H2 H3 _], s as [w x].
  unfold owned in Hh. cbn in *.
  destruct (rm_sq_ring x) eqn:E1, (rm_cq_ring x) eqn:E2, (rm_sqes x) eqn:E3; try done. cbn in Hh.
  unfold map_sq_ring, step_to. apply wp_bind. cbn. apply wp_bind, wp_try.
  eapply wp_mmap; [exact Hh| |].
  - intros a w' _ Hh'. cbn. constructor; cbn; rewrite ?E2, ?E3; try done.
    unfold balanced, owned, owned_fds. cbn. by rewrite E2, E3, (proj2 (Z.leb_le _ _) Hfd).
  - intros e w' Hh'. apply wp_bind. eapply wp_weaken; [by eapply close_given_back|].
    by intros [[]|?] s' [? ?].
Qed.

Lemma map_cq_stage p s :
  stage true false false s -> step_to (map_cq_ring p) s (fun _ s' => stage true true false s').
Proof.
  intros Hs. pose proof (stage_held _ _ _ _ Hs) as Hh. destruct Hs as [Hfd H1 H2 H3 _], s as [w x].
  unfold owned in Hh. cbn in *.
  destruct (rm_sq_ring x) as [sq|] eqn:E1, (rm_cq_ring x) eqn:E2, (rm_sqes x) eqn:E3; try done.
  cbn in Hh. unfold map_cq_ring, step_to. apply wp_bind. cbn. destruct (single_mmap p).
  - cbn. rewrite E1. constructor; cbn; rewrite ?E1, ?E3; try done.
    unfold balanced, owned, owned_fds. cbn. rewrite E1, E3, (proj2 (Z.leb_le _ _) Hfd). cbn.
    by rewrite Z.eqb_refl.
  - apply wp_bind, wp_try. eapply wp_mmap; [exact Hh| |].
    + intros a w' Hn Hh'. cbn. constructor; cbn; rewrite ?E1, ?E3; try done.
      unfold balanced, owned, owned_fds. cbn. rewrite E1, E3, (proj2 (Z.leb_le _ _) Hfd). cbn.
      destruct (a =? sq) eqn:Ea; [|done]. apply Z.eqb_eq in Ea. subst a. destruct Hn. by left.
    + intros e w' Hh'. apply wp_bind. eapply (wp_unmap _ _ []); [by rewrite E1|]. intros w2 Hh2.
      apply wp_bind. cbn. split; [by apply close_holding|cbn; lia].
Qed.

Lemma map_sqes_stage s :
  stage true true false s -> step_to map_sqes s (fun _ s' => stage true true true s').
Proof.
  intros Hs. pose proof (stage_held _ _ _ _ Hs) as Hh. destruct Hs as [Hfd H1 H2 H3 _], s as [w x].
  cbn in *. destruct (rm_sqes x) eqn:E3; [done|]. unfold owned in Hh. rewrite E3 in Hh. cbn in Hh.
  unfold map_sqes, step_to. apply wp_bind. cbn. apply wp_bind, wp_try. eapply wp_mmap; [exact Hh| |].
  - intros a w' _ Hh'. cbn. constructor; cbn; try done.
    unfold balanced, owned, owned_fds. cbn. by rewrite (proj2 (Z.leb_le _ _) Hfd).
  - intros e w' Hh'. apply wp_bind. eapply wp_unmap_cq; [exact Hh'|]. intros w1 Hh1.
    apply wp_bind. eapply (wp_unmap _ _ []); [by rewrite app_nil_r|]. intros w2 Hh2.
    apply wp_bind. cbn. split; [by apply close_holding|cbn; lia].
Qed.

Lemma cleanup_gives_back e s :
  balanced s -> wp (A := capability_descriptor) (mbnd iouringd_ring_cleanup (fun _ => mfail e)) s
                  (fun r s' => r = Err e /\ given_back s').
Proof.
  intros Hb. apply wp_bind. eapply wp_weaken; [by apply cleanup_balanced|].
  by intros ? s' (-> & Hh & Hfd).
Qed.

Lemma probe_stage p s :
  stage true true true s ->
  step_to (probe_ring p) s (fun caps s' => stage true true true s' /\ snd s' = snd s /\
    exists ops, probed_mask ops <> 0 /\ caps = ring_capabilities p (probed_mask ops)).
Proof.
  intros Hs. pose proof (sg_held _ _ _ _ Hs) as Hb. destruct s as [w x]. unfold balanced in Hb. cbn in Hb.
  assert (Hstage : forall w', holding (owned x) (owned_fds x) w' -> stage true true true (w', x)).
  { intros w' Hh. destruct Hs as [H1 H2 H3 H4 _]. by constructor. }
  assert (Hfail : forall e w', holding (owned x) (owned_fds x) w' ->
            step_to (mbnd iouringd_ring_cleanup (fun _ => mfail e)) (w', x) (fun caps s' =>
              stage true true true s' /\ snd s' = x /\
              exists ops, probed_mask ops <> 0 /\ caps = ring_capabilities p (probed_mask ops))).
  { intros e w' Hh. unfold step_to. eapply wp_weaken; [by apply cleanup_gives_back|].
    by intros ? s' [-> Hg]. }
  unfold probe_ring, step_to. apply wp_bind, wp_try. eapply wp_mmap; [exact Hb| |].
  - intros probe w1 _ Hh1. apply wp_bind. cbn.
    destruct (match k_fault w1 with Some f => String.eqb f _ | None => false end).
    { apply wp_bind. apply (Hfail EPERM). exact (unmap_holding _ _ _ _ _ Hh1). }
    apply wp_bind. cbn. apply wp_bind, wp_try. unfold wp at 1, call. cbn [fst snd].
    destruct (k_probe w1 (rm_fd x) PROBE_OPS_LEN) as [r w2] eqn:Ep.
    destruct (probe_law _ _ _ _ _ Ep) as [Hl Ho].
    assert (Hh2 : holding (owned x) (owned_fds x) (k_munmap w2 probe sizeof_probe)).
    { apply unmap_holding. destruct Hh1 as [Hm Hf]. split; [by rewrite Hl|by rewrite Ho]. }
    destruct r as [ops|e]; apply wp_bind; cbn.
    + destruct (probed_mask ops =? 0) eqn:Em; [by apply (Hfail ENOTSUP)|].
      apply Z.eqb_neq in Em. cbn. split_and!; [by apply Hstage|done|by exists ops].
    + by apply (Hfail e).
  - intros e w' Hh. by apply (Hfail e).
Qed.

(** The descriptor and the three mappings of a ring that is set up. *)
Definition ready (s : W * ring_struct) : Prop := stage true true true s.

Lemma ring_init_steps entries capabilities w x :
  holding [] [] w ->
  step_to (iouringd_ring_init entries capabilities) (w, x) (fun caps s' => ready s' /\
    match caps with
    | None => capabilities = false
    | Some k => exists p ops, probed_mask ops <> 0 /\ k = ring_capabilities p (probed_mask ops)
    end).
Proof.
  intros Hh. unfold iouringd_ring_init. unfold step_to. apply wp_bind, wp_mod. cbn [fst snd].
  destruct (entries =? 0); [split; [done|cbn; lia]|].
  eapply step_bind; [by apply setup_attempts_stage|]. intros [p flags] s1 H1.
  unfold step_to. apply wp_bind, wp_mod.
  eapply step_bind; [apply map_sq_stage; exact (sizes_stage p flags s1 H1)|]. intros [] s2 H2.
  eapply step_bind; [by apply map_cq_stage|]. intros [] s3 H3.
  eapply step_bind; [by apply map_sqes_stage|]. intros [] s4 H4.
  destruct capabilities; cbn [negb].
  - eapply step_bind; [by apply probe_stage|]. intros caps s5 (H5 & _ & ops & Hm & ->).
    split; [exact H5|]. by exists p, ops.
  - by split.
Qed.
End Balance.

(** C21: setting up the ring loses nothing.  On every path through [iouringd_ring_init], with
    every combination of failures, a call that fails has closed the descriptor and
    unmapped each mapping it made, and a call that succeeds holds the descriptor
    and exactly the mappings the ring's fields name (one for both rings where the
    kernel maps them together), which [iouringd_ring_cleanup] gives back. *)
Theorem ring_init_no_leak {W} `{SetupOk W} entries capabilities (w : W) x r w' x' :
  iouringd_ring_init entries capabilities (w, x) = (r, (w', x')) ->
  match r with
  | Err _ => live w' ≡ₚ live w /\ opened w' ≡ₚ opened w /\ rm_fd x' < 0
  | Ok _ =>
      0 <= rm_fd x' /\ live w' ≡ₚ owned x' ++ live w /\ opened w' ≡ₚ rm_fd x' :: opened w /\
      is_null (rm_sq_ring x') = false /\ is_null (rm_cq_ring x') = false /\ is_null (rm_sqes x') = false /\
      exists w'' x'', iouringd_ring_cleanup (w', x') = (Ok tt, (w'', x'')) /\
        live w'' ≡ₚ live w /\ opened w'' ≡ₚ opened w /\ rm_fd x'' < 0
  end.
Proof.
  intros E. pose proof (ring_init_steps (live w) (opened w) entries capabilities w x) as Hs.
  specialize (Hs (conj (Permutation_refl _) (Permutation_refl _))). unfold step_to, wp in Hs. rewrite E in Hs.
  destruct r as [caps|e].
  - destruct Hs as [Hr _]. pose proof (stage_held _ _ _ _ _ _ Hr) as [Hm Hf].
    destruct Hr as [Hfd H1 H2 H3 Hb]. split_and!; [done|done|done|done|done|done|].
    pose proof (cleanup_balanced _ _ _ Hb) as Hc. unfold wp in Hc.
    destruct (iouringd_ring_cleanup (w', x')) as [rc [w'' x'']].
    destruct Hc as (-> & [Hm' Hf'] & Hfd'). exists w'', x''. by split_and!.
  - destruct Hs as [[Hm Hf] Hfd]. by split_and!.
Qed.

(** ** The mask *)

Lemma fold_mask_testbit ops table mask i :
  Z.testbit (fold_left (fun mask '(opcode, capability) =>
               if opcode_supported ops opcode then Z.lor mask capability else mask) table mask) i =
  Z.testbit mask i || existsb (fun '(opcode, capability) =>
                                 opcode_supported ops opcode && Z.testbit capability i) table.
Proof.
  revert mask. induction table as [|[opcode cap] table IH]; intros mask; cbn [fold_left existsb].
  - by rewrite orb_false_r.
  - rewrite IH. destruct (opcode_supported ops opcode); cbn [andb]; [|done].
    by rewrite Z.lor_spec, orb_assoc.
Qed.

(** The advertised operations are the supported ones.  Each bit of the mask computed from
    the probe is set exactly when the operation it stands for is reported as
    supported, and no other bit is set. *)
Theorem probed_mask_exact ops i :
  Z.testbit (probed_mask ops) i =
  existsb (fun '(opcode, capability) => opcode_supported ops opcode && (2 ^ i =? capability)) probe_table
  && (0 <=? i).
Proof.
  unfold probed_mask, supported_submit_mask. rewrite Z.land_spec, fold_mask_testbit, Z.bits_0. cbn [orb].
  destruct (decide (0 <= i < 12)) as [Hi|Hi].
  - assert (Hc : i = 0 \/ i = 1 \/ i = 2 \/ i = 3 \/ i = 4 \/ i = 5 \/ i = 6 \/ i = 7 \/ i = 8 \/ i = 9 \/
                 i = 10 \/ i = 11) by lia.
    destruct_or! Hc; subst i; vm_compute; done.
  - assert (Hbit : Z.testbit IOURINGD_CAPABILITY_OP_MASK_V1 i = false).
    { destruct (decide (i < 0)); [by apply Z.testbit_neg_r|].
      change IOURINGD_CAPABILITY_OP_MASK_V1 with (Z.ones 12). apply Z.ones_spec_high. lia. }
    rewrite Hbit, andb_false_r. symmetry. destruct (0 <=? i) eqn:E; [|by rewrite andb_false_r].
    apply Z.leb_le in E. rewrite andb_true_r.
    assert (Hp : 2 ^ 12 <= 2 ^ i) by (apply Z.pow_le_mono_r; lia).
    assert (Hn : forall c, c < 2 ^ 12 -> (2 ^ i =? c) = false) by (intros c Hc; apply Z.eqb_neq; lia).
    unfold probe_table. cbn [existsb]. rewrite !Hn by (vm_compute; done). by rewrite !andb_false_r.
Qed.

(** ** A concrete kernel

    Mappings get the next free address; [bn_fail] lists which of the next
    mappings fail.  The rings are mapped separately. *)

Record bench := mk_bench {
  bn_live : list (Z * Z);
  bn_opened : list Z;
  bn_fail : list bool;
}.

Definition next_address (l : list (Z * Z)) : Z := foldr Z.max 0 (fst <$> l) + 1.
Fixpoint remove_one {A} `{EqDecision A} (x : A) (l : list A) : list A :=
  match l with
  | [] => []
  | y :: rest => if decide (y = x) then rest else y :: remove_one x rest
  end.

Definition bench_params : params := mk_params 0 8 16 64 128.
Definition bench_ops : list probe_op :=
  (fun z => mk_probe_op z IO_URING_OP_SUPPORTED) <$> [0; 1; 2; 4; 5; 6; 11; 13; 14; 16; 18; 19].

#[export] Instance bench_kernel : SetupKernel bench := {|
  k_fault _ := None;
  k_setup b _ flags :=
    if flags =? 0
    then (Ok (3, bench_params), mk_bench (bn_live b) (3 :: bn_opened b) (bn_fail b))
    else (Err EINVAL, b);
  k_mmap b size _ :=
    match bn_fail b with
    | true :: rest => (Err ENOMEM, mk_bench (bn_live b) (bn_opened b) rest)
    | fail => (Ok (next_address (bn_live b)),
               mk_bench ((next_address (bn_live b), size) :: bn_live b) (bn_opened b) (tail fail))
    end;
  k_munmap b a size := mk_bench (remove_one (a, size) (bn_live b)) (bn_opened b) (bn_fail b);
  k_close_fd b fd := mk_bench (bn_live b) (remove_one fd (bn_opened b)) (bn_fail b);
  k_probe b _ _ := (Ok bench_ops, b);
  k_register_files b _ _ := (Ok tt, b);
  k_register_buffers b _ _ := (Ok tt, b);
  k_shared b _ := mk_ring 3 0 0 0 0 7 8 [] [] 0 0 15 [];
|}.

Lemma remove_one_perm {A} `{EqDecision A} (x : A) l : x ∈ l -> x :: remove_one x l ≡ₚ l.
Proof.
  induction l as [|y l IH]; intros Hx; [by apply elem_of_nil in Hx|]. cbn [remove_one].
  destruct (decide (y = x)) as [->|Hn]; [done|].
  apply elem_of_cons in Hx as [->|Hx]; [done|]. rewrite Permutation_swap. by rewrite IH.
Qed.

Lemma next_address_fresh l : next_address l ∉ (fst <$> l).
Proof.
  assert (Hle : forall a, a ∈ (fst <$> l) -> a <= foldr Z.max 0 (fst <$> l)).
  { induction (fst <$> l) as [|b bs IH]; intros a Ha; [by apply elem_of_nil in Ha|]. cbn.
    apply elem_of_cons in Ha as [->|Ha]; [lia|]. specialize (IH a Ha). lia. }
  intros Ha. specialize (Hle _ Ha). unfold next_address in Hle. lia.
Qed.

#[export] Instance bench_ok : SetupOk bench.
Proof.
  refine {| live := bn_live; opened := bn_opened |}.
  - intros w entries flags r w' E. cbn in E. destruct (flags =? 0); by injection E as <- <-.
  - intros w size off r w' E. cbn in E. destruct (bn_fail w) as [|[|] rest]; injection E as <- <-;
      (split; [done|]); try done; (split; [apply next_address_fresh|done]).
  - intros w a size Ha. split; [by apply remove_one_perm|done].
  - intros w fd Hfd. split; [by apply remove_one_perm|done].
  - intros w fd n r w' E. by injection E as <- <-.
  - intros w fd v r w' E. by injection E as <- <-.
  - intros w fd v r w' E. by injection E as <- <-.
Defined.

(** The third mapping fails; and none does. *)
Lemma ring_init_no_leak_witness :
  let run fail := iouringd_ring_init 8 true (mk_bench [(500, 7)] [0; 1] fail, ring_struct_zero) in
  (exists s', run [false; false; true] = (Err ENOMEM, s') /\
     live (fst s') ≡ₚ [(500, 7)] /\ opened (fst s') ≡ₚ [0; 1]) /\
  (exists caps s', run [] = (Ok caps, s') /\ length (live (fst s')) = 4%nat).
Proof.
  intros run. split.
  - destruct (run [false; false; true]) as [r [w' x']] eqn:E.
    pose proof (ring_init_no_leak 8 true _ _ r w' x' E) as Hn.
    vm_compute in E. injection E as <- <- <-. destruct Hn as (H1 & H2 & _).
    eexists. split; [reflexivity|]. split; [exact H1|exact H2].
  - destruct (run []) as [r [w' x']] eqn:E.
    pose proof (ring_init_no_leak 8 true _ _ r w' x' E) as Hn.
    vm_compute in E. injection E as <- <- <-. destruct Hn as (_ & H1 & _).
    eexists _, _. split; [reflexivity|]. by apply Permutation_length in H1.
Defined.
