(* ===== verification/World.v ===== *)
(** * What the main loop does to its surroundings

    The daemon acts on its surroundings only through the calls of [Kernel] and the
    descriptors it closes.  [Respects] says of a preorder on the state that it holds
    across one call, across a close, and across a change of the runtime that leaves
    the limits and the descriptors alone; the two operations that do change the
    descriptors, closing a client and accepting clients, are for the preorder to
    settle.  Such a preorder holds across every handler and across the whole main loop
    ([evolves_run]): the way to carry facts about the surroundings, or a balance
    between the runtime and its surroundings, through a run without looking at the
    handlers again. *)

From S2P Require Import Prelude Wire Kernel Ring State Output Resources Trace Daemon Input Dispatch Complete Sched Books Invariant.

(** What a handler leaves alone in the runtime. *)
Definition footing (rt : runtime) : iouringd_limits * Z * list Z :=
  (rt_limits rt, rt_server_fd rt, c_fd <$> rt_clients rt).

Lemma footing_client rt i c :
  c_fd c = c_fd (rt_clients rt !!! i) -> footing (rt <| rt_clients := <[i := c]> (rt_clients rt) |>) = footing rt.
Proof.
  intros Hc. unfold footing. cbn. f_equal. destruct (decide (i < length (rt_clients rt))%nat) as [Hi|Hi].
  - rewrite list_fmap_insert. apply list_insert_id. rewrite list_lookup_fmap, list_lookup_lookup_total_lt by done.
    cbn. by rewrite Hc.
  - by rewrite list_insert_ge by lia.
Qed.

(** One call of the main loop, [accept] apart. *)
Inductive called {W : Type} `{Kernel W} (w : W) : W -> Prop :=
| by_enter r n : called w (snd (k_enter w r n))
| by_files_update i fd : called w (snd (k_files_update w i fd))
| by_cq r : called w (snd (k_cq w r))
| by_clock : called w (snd (k_clock w))
| by_recvmsg fd n : called w (snd (k_recvmsg w fd n))
| by_write fd buf : called w (snd (k_write w fd buf))
| by_set_nonblocking fd : called w (snd (k_set_nonblocking w fd))
| by_set_cloexec fd : called w (snd (k_set_cloexec w fd))
| by_malloc n : called w (snd (k_malloc w n))
| by_poll fds : called w (snd (k_poll w fds)).
#[export] Hint Constructors called : core.

Class Respects {W : Type} `{Kernel W} (R : sys W -> sys W -> Prop) := {
  rs_order :: PreOrder R;
  rs_rt s rt' : footing rt' = footing (s_rt s) -> R s (s <| s_rt := rt' |>);
  rs_call s w' : called (s_world s) w' -> R s (s <| s_world := w' |>);
  rs_close s fds : R s (s <| s_closed := s_closed s ++ fds |>);
  rs_close_client s i : R s (snd (close_client i s));
  rs_accept s fuel progress : R s (snd (accept_loop fuel progress s));
}.

Section World.
Context {W : Type} `{Kernel W} (R : sys W -> sys W -> Prop) `{!Respects R}.
Abbreviation DM := (DM (W := W)).

Definition evolves {A} (m : DM A) : Prop := forall s, R s (snd (m s)).

Lemma respects_calls s w' : rtc called (s_world s) w' -> R s (s <| s_world := w' |>).
Proof.
  intros Hc. remember (s_world s) as w eqn:Ew. revert s Ew. induction Hc as [w|w w1 w2 H1 _ IH]; intros s ->.
  - by destruct s.
  - etransitivity; [by apply rs_call|]. exact (IH (s <| s_world := w1 |>) eq_refl).
Qed.

(** Calls, a close, and a change of the runtime, in one step. *)
Lemma evolves_step {A} (m : DM A) :
  (forall s,
     footing (s_rt (snd (m s))) = footing (s_rt s) /\ rtc called (s_world s) (s_world (snd (m s))) /\
     exists fds, s_closed (snd (m s)) = s_closed s ++ fds) -> evolves m.
Proof.
  intros Hm s. destruct (Hm s) as (Hf & Hw & fds & Hc). destruct (snd (m s)) as [rt' w' cl']. cbn in *. subst cl'.
  etransitivity; [by apply respects_calls|]. etransitivity; [apply (rs_rt _ rt'), Hf|].
  exact (rs_close (mk_sys rt' w' (s_closed s)) fds).
Qed.
Lemma evolves_local {A} (m : DM A) :
  (forall s, footing (s_rt (snd (m s))) = footing (s_rt s) /\ s_world (snd (m s)) = s_world s /\
             s_closed (snd (m s)) = s_closed s) -> evolves m.
Proof.
  intros Hm. apply evolves_step. intros s. destruct (Hm s) as (Hf & -> & ->). split_and!; [done..|].
  exists []. by rewrite app_nil_r.
Qed.

Lemma evolves_ret {A} (a : A) : evolves (mret a).
Proof. by apply evolves_local. Qed.
Lemma evolves_fail {A} e : evolves (mfail (A := A) e).
Proof. by apply evolves_local. Qed.
Lemma evolves_get {A} (f : sys W -> A) : evolves (mget f).
Proof. by apply evolves_local. Qed.
Lemma evolves_mod_rt f : (forall rt, footing (f rt) = footing rt) -> evolves (mod_rt f).
Proof. intros Hf. apply evolves_local. intros s. split_and!; [apply Hf|done..]. Qed.
Lemma evolves_mod_client i f : (forall c, c_fd (f c) = c_fd c) -> evolves (mod_client i f).
Proof. intros Hf. apply evolves_mod_rt. intros rt. by apply footing_client. Qed.
Lemma evolves_close_fds fds : evolves (close_fds fds).
Proof. apply evolves_step. intros s. split_and!; [done..|by exists fds]. Qed.
Lemma evolves_queue_output i buf : evolves (queue_output i buf).
Proof.
  apply evolves_local. intros s. unfold queue_output. destruct (iouringd_queue_client_output _ _).
  split_and!; [by apply footing_client|done..].
Qed.
Lemma evolves_bind {A B} (m : DM A) (k : A -> DM B) :
  evolves m -> (forall a, evolves (k a)) -> evolves (mbnd m k).
Proof.
  intros Hm Hk s. specialize (Hm s). unfold mbnd. destruct (m s) as [[a|e] s1]; [|done].
  etransitivity; [exact Hm|apply Hk].
Qed.
Lemma evolves_try {A} (m : DM A) : evolves m -> evolves (mtry m).
Proof. intros Hm s. specialize (Hm s). unfold mtry. by destruct (m s). Qed.

Lemma evolves_for_each n (body : nat -> DM bool) : (forall j, evolves (body j)) -> evolves (for_each n body).
Proof.
  intros Hb. induction n as [|n IH]; [apply evolves_ret|]. cbn [for_each].
  apply evolves_bind; [exact IH|intros p]. apply evolves_bind; [apply Hb|intros q; apply evolves_ret].
Qed.

(** A call on the world alone. *)
Lemma evolves_call {A} (f : sys W -> outcome A * W) :
  (forall s, called (s_world s) (snd (f s))) -> evolves (fun s => let '(rc, w) := f s in (rc, s <| s_world := w |>)).
Proof. intros Hf s. specialize (Hf s). destruct (f s). by apply rs_call. Qed.

(** What the steps below share: calls, and a change of the runtime with the same footing. *)
Lemma evolves_calls {A} (m : DM A) :
  (forall s, footing (s_rt (snd (m s))) = footing (s_rt s) /\ rtc called (s_world s) (s_world (snd (m s))) /\
             s_closed (snd (m s)) = s_closed s) -> evolves m.
Proof.
  intros Hm. apply evolves_step. intros s. destruct (Hm s) as (Hf & Hw & ->). split_and!; [done..|].
  exists []. by rewrite app_nil_r.
Qed.

Lemma evolves_emit_trace i ek tk p tid rid res cr : evolves (emit_trace i ek tk p tid rid res cr).
Proof.
  apply evolves_calls. intros s. unfold emit_trace. pose proof (by_clock (s_world s)). destruct (k_clock _).
  split_and!; [done|by apply rtc_once|done].
Qed.
Lemma evolves_ring_update_file j fd : evolves (ring_update_file j fd).
Proof.
  apply evolves_calls. intros s. unfold ring_update_file, iouringd_ring_update_registered_file. destruct (_ || _); [done|].
  pose proof (rtc_once _ _ (by_files_update (s_world s) j fd)). destruct (k_files_update _ _ _) as [[n|e] w]; [|done].
  by destruct (n =? 1).
Qed.
Lemma evolves_peek : evolves peek_completion.
Proof.
  apply evolves_calls. intros s. unfold peek_completion, iouringd_ring_peek_completion.
  pose proof (rtc_once _ _ (by_cq (s_world s) (rt_ring (s_rt s)))). destruct (k_cq _ _) as [[tail entries] w].
  by destruct (_ =? _).
Qed.

(** A submission: one [io_uring_enter] at most. *)
Definition submits (f : W -> ring -> ring_result (W := W)) : Prop := forall w r, rtc called w (snd (f w r)).

Lemma evolves_with_ring f : submits f -> evolves (with_ring f).
Proof.
  intros Hf. apply evolves_calls. intros s. specialize (Hf (s_world s) (rt_ring (s_rt s))). unfold with_ring.
  by destruct (f _ _) as [[rc r] w].
Qed.

Lemma push_called w r e : rtc called w (snd (ring_push w r e)).
Proof.
  unfold ring_push. destruct (_ <=? _); [done|]. cbv zeta.
  match goal with |- context [k_enter w ?r1 ?n] => pose proof (rtc_once _ _ (by_enter w r1 n)) as Hk;
    destruct (k_enter w r1 n) as [[[m|x] head] w'] end; exact Hk.
Qed.

Lemma flush_loop_called fuel w fd b : rtc called w (snd (flush_loop fuel w fd b)).
Proof.
  revert w b. induction fuel as [|fuel IH]; intros w b; cbn [flush_loop]; [done|].
  destruct (_ <? _); [|done]. pose proof (rtc_once _ _ (by_write w fd (output_pending b))) as Hw.
  destruct (k_write _ _ _) as [[n|e] w']; [|by destruct (e =? EAGAIN)].
  destruct (0 <? n); [|done]. etransitivity; [exact Hw|apply IH].
Qed.
Lemma evolves_flush i : evolves (flush_client_output i).
Proof.
  apply evolves_calls. intros s. unfold flush_client_output, iouringd_flush_client_output.
  pose proof (flush_loop_called (S (Z.to_nat (output_len (c_out (the_client s i)) - output_sent (c_out (the_client s i)))))
    (s_world s) (c_fd (the_client s i)) (c_out (the_client s i))) as Hf.
  destruct (flush_loop _ _ _ _) as [[rc b] w]. split_and!; [by apply footing_client|done..].
Qed.

Lemma read_loop_called fuel w c : rtc called w (snd (read_loop fuel w c)).
Proof.
  revert w c. induction fuel as [|fuel IH]; intros w c; cbn [read_loop]; [done|].
  destruct (_ <? _); [|done].
  assert (Hr : rtc called w (snd (read_round w c))).
  { unfold read_round. match goal with |- context [k_recvmsg w ?fd ?n] => pose proof (rtc_once _ _ (by_recvmsg w fd n)) as Hk;
      destruct (k_recvmsg w fd n) as [[m|e] w'] end; [|exact Hk].
    destruct (_ =? _)%nat; [exact Hk|]. destruct (msg_ctrunc m); [exact Hk|].
    by destruct (take_cmsgs _ _) as [[[[]|e] fd] cl]. }
  destruct (read_round w c) as [[[[rc|] c1] cl1] w1]; [exact Hr|].
  specialize (IH w1 c1). destruct (read_loop fuel w1 c1) as [[[rc c2] cl2] w2]. etransitivity; [exact Hr|exact IH].
Qed.
Lemma untouched_fd c c' : untouched c' = untouched c -> c_fd c' = c_fd c.
Proof. unfold untouched, account_of. by intros [= -> _ _ _ _ _]. Qed.
Lemma evolves_read i : evolves (read_client_input i).
Proof.
  apply evolves_step. intros s. unfold read_client_input, iouringd_read_client_input.
  match goal with |- context [read_loop ?n ?w ?c] => pose proof (read_loop_called n w c) as Hr;
    pose proof (read_loop_untouched n w c) as Hu; destruct (read_loop n w c) as [[[rc c'] cl] w'] end.
  split_and!; [by apply footing_client, untouched_fd|exact Hr|by exists cl].
Qed.
Lemma evolves_process i : evolves (process_submit_input i).
Proof.
  apply evolves_local. intros s. unfold process_submit_input.
  pose proof (process_submit_input_untouched (the_client s i)) as Hu. unfold same_but_input in Hu.
  destruct (iouringd_process_submit_input _) as [rc c']. split_and!; [by apply footing_client, untouched_fd|done..].
Qed.
Lemma evolves_close_client i : evolves (close_client i).
Proof. intros s. apply rs_close_client. Qed.
Lemma evolves_accept fuel p : evolves (accept_loop fuel p).
Proof. intros s. apply rs_accept. Qed.
End World.

Create HintDb evolves.
#[export] Hint Constants Opaque : evolves.
#[export] Hint Resolve evolves_ret evolves_fail evolves_get evolves_close_fds
  evolves_queue_output evolves_emit_trace evolves_ring_update_file evolves_peek evolves_flush
  evolves_read evolves_process evolves_close_client evolves_accept : evolves.

(** Decomposes a computation; what the database does not know is unfolded. *)
Ltac evolves_step_tac :=
  lazymatch goal with
  | |- evolves _ (mbnd _ _) => eapply evolves_bind; [exact _| |intros ?]
  | |- evolves _ (for_each _ _) => eapply evolves_for_each; [exact _|intros ?]
  | |- evolves _ (mtry _) => eapply evolves_try
  | |- evolves _ (match ?x with _ => _ end) => destruct x
  | |- evolves _ (with_ring _) => eapply evolves_with_ring; [exact _|intros ? ?]
  | |- evolves _ (mmod _) => eapply evolves_local; [exact _|done]
  | |- evolves _ get_rt => eapply evolves_get; exact _
  | |- evolves _ (get_client _) => eapply evolves_get; exact _
  | |- evolves _ (get_task _) => eapply evolves_get; exact _
  | |- evolves _ (get_file_slot _ _) => eapply evolves_get; exact _
  | |- evolves _ (get_buffer_slot _ _) => eapply evolves_get; exact _
  | |- evolves _ (mod_rt _) => eapply evolves_mod_rt; [exact _|intros ?; repeat case_match; done]
  | |- evolves _ (mod_task _ _) => eapply evolves_mod_rt; [exact _|done]
  | |- evolves _ (mod_client _ _) => eapply evolves_mod_client; [exact _|intros ?; repeat case_match; done]
  | |- evolves _ (set_req _ _) => eapply evolves_mod_client; [exact _|done]
  | |- evolves _ (set_res _ _) => eapply evolves_mod_client; [exact _|done]
  | |- evolves _ (set_file_slot _ _ _) => eapply evolves_mod_client; [exact _|done]
  | |- evolves _ (set_buffer_slot _ _ _) => eapply evolves_mod_client; [exact _|done]
  | |- evolves _ ?m => first [solve [eauto with evolves] | unfold_head m]
  end
with unfold_head m := let h := head m in unfold h
with head m := lazymatch m with ?f _ => head f | _ => m end.
Ltac evolves_tac := repeat evolves_step_tac.

Section Handlers.
Context {W : Type} `{Kernel W} (R : sys W -> sys W -> Prop) `{!Respects R}.
Abbreviation evolves m := (evolves (W := W) R m).

(** Every submission of the ring component. *)
Ltac submits_tac :=
  cbn beta;
  unfold iouringd_ring_submit_nop, iouringd_ring_submit_timeout, iouringd_ring_submit_cancel,
    iouringd_ring_submit_readv, iouringd_ring_submit_writev, iouringd_ring_submit_poll,
    iouringd_ring_submit_connect, iouringd_ring_submit_accept, iouringd_ring_submit_openat,
    iouringd_ring_submit_close, iouringd_ring_submit_read_fixed, iouringd_ring_submit_write_fixed,
    ring_queue_sqe, ring_queue_rw_sqe, ring_queue_fixed_buffer_sqe, ring_queue_poll_sqe,
    ring_queue_connect_sqe, ring_queue_accept_sqe, ring_queue_openat_sqe, ring_queue_close_sqe;
  repeat case_match; cbn [snd]; first [apply rtc_refl | apply push_called].

Lemma evolves_reject i e : evolves (reject i e).
Proof. evolves_tac. Qed.
Lemma evolves_refuse i e avail : evolves (refuse i e avail).
Proof. evolves_tac. Qed.
Lemma evolves_release_file i j : evolves (iouringd_try_release_file_slot i j).
Proof. evolves_tac. Qed.
Lemma evolves_release_buffer i j : evolves (iouringd_try_release_buffer_slot i j).
Proof. evolves_tac. Qed.
#[local] Hint Resolve evolves_reject evolves_refuse evolves_release_file evolves_release_buffer : evolves.

Lemma evolves_accept_task i k credit undo : evolves undo -> evolves (accept_task i k credit undo).
Proof. intros Hu. evolves_tac. Qed.
Lemma evolves_abandon_task i k e undo : evolves undo -> evolves (abandon_task i k e undo).
Proof. intros Hu. unfold abandon_task. evolves_tac. Qed.
Lemma evolves_undo_submit_io i k j bj : evolves (undo_submit_io i k j bj).
Proof. evolves_tac. Qed.
Lemma evolves_undo_reply_io i k j bj : evolves (undo_reply_io i k j bj).
Proof. evolves_tac. Qed.
#[local] Hint Resolve evolves_accept_task evolves_abandon_task evolves_undo_submit_io
  evolves_undo_reply_io : evolves.

Lemma evolves_submit_io i k j : evolves (submit_io i k j).
Proof. unfold submit_io. evolves_tac; submits_tac. Qed.
Lemma evolves_submit_simple i k : evolves (submit_simple i k).
Proof. unfold submit_simple. evolves_tac; submits_tac. Qed.
#[local] Hint Resolve evolves_submit_io evolves_submit_simple : evolves.

Lemma evolves_openat i rt c : evolves (dispatch_openat i rt c).
Proof. unfold dispatch_openat. evolves_tac; submits_tac. Qed.
Lemma evolves_close i rt c : evolves (dispatch_close i rt c).
Proof.
  assert (Hr : forall j fd, evolves (reopen_slot i j fd)) by (intros; evolves_tac).
  unfold dispatch_close. evolves_tac; submits_tac.
Qed.
Lemma evolves_io i rt c : evolves (dispatch_io i rt c).
Proof. unfold dispatch_io, start_io. evolves_tac. Qed.
Lemma evolves_simple i rt c : evolves (dispatch_simple i rt c).
Proof.
  unfold dispatch_simple. evolves_tac.
Qed.
Lemma evolves_queue_events i es : evolves (queue_events i es).
Proof. induction es as [|e es IH]; cbn [queue_events]; evolves_tac. Qed.
#[local] Hint Resolve evolves_openat evolves_close evolves_io evolves_simple evolves_queue_events : evolves.

Lemma evolves_dispatch i : evolves (iouringd_dispatch_client_request i).
Proof. evolves_tac. Qed.
Lemma evolves_complete k res : evolves (iouringd_complete_task k res).
Proof. evolves_tac. Qed.
#[local] Hint Resolve evolves_dispatch evolves_complete : evolves.

Lemma evolves_reap fuel p : evolves (reap_loop fuel p).
Proof. revert p. induction fuel as [|fuel IH]; intros p; cbn [reap_loop]; evolves_tac. Qed.

Lemma evolves_service i : evolves (iouringd_service_client_readable i).
Proof.
  unfold iouringd_service_client_readable. generalize (S IOURINGD_MAX_REQUEST_BYTES) as fuel. generalize false as p.
  intros p fuel. revert p. induction fuel as [|fuel IH]; intros p; cbn [service_loop]; unfold service_round; evolves_tac.
Qed.

Lemma evolves_flush_or_close i : evolves (flush_or_close i).
Proof. evolves_tac. Qed.
#[local] Hint Resolve evolves_reap evolves_service evolves_flush_or_close : evolves.

Lemma evolves_poll_events fuel l : evolves (poll_events fuel l).
Proof. induction l as [|[slot revents] l IH]; cbn [poll_events]; evolves_tac. Qed.

Lemma evolves_bands bands : evolves (dispatch_in_bands bands).
Proof. induction bands as [|band l IH]; cbn [dispatch_in_bands]; evolves_tac. Qed.

Lemma evolves_run_poll fuel : evolves (run_poll fuel).
Proof.
  pose proof (evolves_poll_events fuel). unfold run_poll. eapply evolves_bind; [exact _|evolves_tac|intros rt]. cbv zeta.
  destruct (_ =? _)%nat; [evolves_tac|]. eapply evolves_bind; [exact _| |intros rc; evolves_tac].
  eapply evolves_try, (evolves_call R (fun s => k_poll (s_world s) _)). intros s. apply by_poll.
Qed.
#[local] Hint Resolve evolves_bands evolves_run_poll : evolves.

Lemma evolves_round fuel : evolves (run_round fuel).
Proof. evolves_tac. Qed.
#[local] Hint Resolve evolves_round : evolves.

Lemma evolves_run rounds fuel : evolves (iouringd_run rounds fuel).
Proof. induction rounds as [|n IH]; cbn [iouringd_run]; evolves_tac. Qed.
End Handlers.
