(* ===== verification/Boot.v ===== *)
(** * Start-up and exit

    Models [main] of [src/daemon/main.c] with the functions only it calls: the
    signal handlers, the registered buffer storage, the listening socket, the
    cleanup, and the way the process ends after a stop signal.  The ring is set
    up by the functions of [Setup], the loop is [iouringd_run] of [Sched].  Log
    lines are not modelled.

    [main_enters_loop] shows that the state handed to the main loop is one of the
    start states of [Correct], so that every theorem about the main loop is about
    this program; what [main] gives back is in [Exit]. *)

From Stdlib Require Import String.
From S2P Require Import Prelude Wire Kernel Ring State Output Resources Trace Daemon Startup Input Reader Dispatch Complete Sched Session Correct Setup.
Local Open Scope iou_scope.

Definition SIGINT : Z := 2.
Definition SIGTERM : Z := 15.
(** [sizeof(addr.sun_path)] *)
Definition SUN_PATH_MAX : Z := 108.

(** What a signal is set to do. *)
Inductive disposition := StopHandler | SIG_DFL.

(** The calls [main] makes besides those of the main loop and the ring. *)
Class BootKernel (W : Type) := {
  k_sigemptyset : W -> outcome unit * W;
  k_sigaction : W -> Z -> disposition -> outcome unit * W;
  k_raise : W -> Z -> W;
  (** [iouringd_stop_signal], and the store of the handler in it and in
      [iouringd_stop_requested] *)
  k_stop_signal : W -> Z;
  k_request_stop : W -> Z -> W;
  (** [calloc] of a number of bytes: the address; [free] *)
  k_calloc : W -> Z -> outcome Z * W;
  k_free : W -> Z -> W;
  k_server_socket : W -> outcome Z * W;
  k_bind : W -> Z -> string -> outcome unit * W;
  k_listen : W -> Z -> Z -> outcome unit * W;
  k_unlink : W -> string -> W;
}.

(** The state of the process: the daemon, the ring's descriptor and mappings, the
    address of the registered storage, the socket path, and the copy of the server
    descriptor that the signal handler closes. *)
Record boot (W : Type) := mk_boot {
  bt_sys : sys W;
  bt_ring : ring_struct;
  bt_storage : option Z;
  bt_path : option string;
  bt_server_fd : Z;
}.
Arguments mk_boot {W}.
Arguments bt_sys {W}.
Arguments bt_ring {W}.
Arguments bt_storage {W}.
Arguments bt_path {W}.
Arguments bt_server_fd {W}.
#[export] Instance put_bt_sys W : Setter (@bt_sys W) :=
  fun v x => mk_boot v (bt_ring x) (bt_storage x) (bt_path x) (bt_server_fd x).
#[export] Instance put_bt_ring W : Setter (@bt_ring W) :=
  fun v x => mk_boot (bt_sys x) v (bt_storage x) (bt_path x) (bt_server_fd x).
#[export] Instance put_bt_storage W : Setter (@bt_storage W) :=
  fun v x => mk_boot (bt_sys x) (bt_ring x) v (bt_path x) (bt_server_fd x).
#[export] Instance put_bt_path W : Setter (@bt_path W) :=
  fun v x => mk_boot (bt_sys x) (bt_ring x) (bt_storage x) v (bt_server_fd x).
#[export] Instance put_bt_server_fd W : Setter (@bt_server_fd W) :=
  fun v x => mk_boot (bt_sys x) (bt_ring x) (bt_storage x) (bt_path x) v.

Section Boot.
Context {W : Type} `{Kernel W} `{SetupKernel W} `{BootKernel W}.

Definition BM : Type -> Type := M (boot W).

Definition on_sys {A} (m : DM (W := W) A) : BM A :=
  fun b => let '(r, s) := m (bt_sys b) in (r, b <| bt_sys := s |>).
Definition on_ring {A} (m : RM (W := W) A) : BM A :=
  fun b => let '(r, (w, x)) := m (s_world (bt_sys b), bt_ring b) in
           (r, b <| bt_sys := bt_sys b <| s_world := w |> |> <| bt_ring := x |>).
Definition os_call {A} (f : W -> outcome A * W) : BM A :=
  fun b => let '(r, w) := f (s_world (bt_sys b)) in (r, b <| bt_sys := bt_sys b <| s_world := w |> |>).
Definition os_do (f : W -> W) : BM unit :=
  mmod (fun b => b <| bt_sys := bt_sys b <| s_world := f (s_world (bt_sys b)) |> |>).
Definition set_rt (f : runtime -> runtime) : BM unit := on_sys (mod_rt f).
Definition rt_of (b : boot W) : runtime := s_rt (bt_sys b).

(** What the handler does, at whatever point of the program it runs. *)
Definition iouringd_handle_stop_signal (signo : Z) : BM unit :=
  os_do (fun w => k_request_stop w signo) ;;;
  fd <- mget bt_server_fd ;;
  if 0 <=? fd then on_sys (close_fds [fd]) else mret tt.

Definition iouringd_install_signal_handlers : BM unit :=
  os_call k_sigemptyset ;;;
  os_call (fun w => k_sigaction w SIGINT StopHandler) ;;;
  os_call (fun w => k_sigaction w SIGTERM StopHandler).

Definition iouringd_init_registered_buffer_storage : BM unit :=
  rt <- mget rt_of ;;
  let total_size := u64 (rt_registered_buffer_capacity rt * lim_io_bytes_max (rt_limits rt)) in
  a <- os_call (fun w => k_calloc w total_size) ;;
  mmod (fun b => b <| bt_storage := Some a |>) ;;;
  set_rt (fun rt => rt <| rt_storage := replicate (Z.to_nat total_size) 0 |>).

(** [for (index = 0; index < limits.max_clients; ++index) iouringd_close_client(...)] *)
Fixpoint close_clients (n : nat) : DM (W := W) unit :=
  match n with
  | O => mret tt
  | S m => close_clients m ;;; close_client m
  end.

Definition iouringd_cleanup_runtime : BM unit :=
  rt <- mget rt_of ;;
  (if 0 <=? rt_server_fd rt then
     on_sys (close_fds [rt_server_fd rt]) ;;; set_rt (fun rt => rt <| rt_server_fd := -1 |>)
   else mret tt) ;;;
  mmod (fun b => b <| bt_server_fd := -1 |>) ;;;
  on_sys (close_clients (Z.to_nat (max_clients (rt_limits rt)))) ;;;
  set_rt (fun rt => rt <| rt_outstanding_tasks := 0 |> <| rt_outstanding_credit_tasks := 0 |>
                       <| rt_ring_capacity := 0 |>) ;;;
  path <- mget bt_path ;;
  (match path with Some p => os_do (fun w => k_unlink w p) | None => mret tt end) ;;;
  storage <- mget bt_storage ;;
  (match storage with Some a => os_do (fun w => k_free w a) | None => mret tt end) ;;;
  mmod (fun b => b <| bt_storage := None |>) ;;;
  set_rt (fun rt => rt <| rt_storage := [] |>) ;;;
  on_ring iouringd_ring_cleanup.

Definition iouringd_finish_stop_signal : BM Z :=
  signo <- mget (fun b => k_stop_signal (s_world (bt_sys b))) ;;
  if signo =? 0 then mret 0
  else
    r <- mtry (os_call k_sigemptyset ;;; os_call (fun w => k_sigaction w signo SIG_DFL)) ;;
    match r with
    | Err _ => mret (128 + signo)
    | Ok _ => os_do (fun w => k_raise w signo) ;;; mret (128 + signo)
    end.

(** ** [main]

    The result of a part of [main] is the exit status, if the process ends
    there. *)

(** [iouringd_cleanup_runtime(&runtime); return code;] *)
Definition quit (code : Z) : BM (option Z) := iouringd_cleanup_runtime ;;; mret (Some code).
Definition or_quit {A} (m : BM A) (code : Z) (k : A -> BM (option Z)) : BM (option Z) :=
  r <- mtry m ;;
  match r with
  | Err _ => quit code
  | Ok a => k a
  end.

(** The arguments in the runtime. *)
Definition apply_arguments (a : arguments) : BM unit :=
  let l := arg_limits a in
  set_rt (fun rt => rt <| rt_limits := l |>
    <| rt_registered_file_capacity := max_clients l * registered_fds_per_client l |>
    <| rt_registered_buffer_capacity := max_clients l * registered_buffers_per_client l |>) ;;;
  mmod (fun b => b <| bt_path := Some (arg_socket_path a) |>).

(** The rings and the capabilities as [iouringd_ring_init] has left them. *)
Definition adopt_ring (caps : option capability_descriptor) : BM unit :=
  r <- mget (fun b => k_shared (s_world (bt_sys b)) (rm_fd (bt_ring b))) ;;
  set_rt (fun rt => rt <| rt_ring := r |> <| rt_capabilities := default capability_zero caps |>
                       <| rt_ring_capacity := iouringd_ring_capacity r |>).

Definition register_files : BM unit :=
  rt <- mget rt_of ;;
  let count := u32 (rt_registered_file_capacity rt) in
  on_ring (iouringd_ring_init_registered_files count) ;;;
  set_rt (fun rt => rt <| rt_ring := rt_ring rt <| registered_files_count := count |> |>).

(** [sizeof(struct iovec)] is 16. *)
Definition register_buffers : BM unit :=
  rt <- mget rt_of ;; storage <- mget bt_storage ;;
  let capacity := rt_registered_buffer_capacity rt in
  let len := lim_io_bytes_max (rt_limits rt) in
  v <- os_call (fun w => k_calloc w (capacity * 16)) ;;
  let iovecs := (fun k => (default 0 storage + Z.of_nat k * len, len)) <$> seq 0 (Z.to_nat capacity) in
  r <- mtry (on_ring (iouringd_ring_init_registered_buffers (Some iovecs) (u32 capacity))) ;;
  os_do (fun w => k_free w v) ;;;
  match r with
  | Err e => mfail e
  | Ok _ => set_rt (fun rt => rt <| rt_ring := rt_ring rt <| registered_buffers_count := u32 capacity |> |>)
  end.

Definition set_parameters : BM unit :=
  set_rt (fun rt =>
    let l := rt_limits rt in
    let task_capacity := u64 (rt_ring_capacity rt - 1) in
    let k := rt_capabilities rt in
    rt <| rt_task_capacity := task_capacity |>
       <| rt_per_client_credit_limit :=
            if task_capacity <? per_client_credits l then task_capacity else per_client_credits l |>
       <| rt_capabilities :=
            mk_capability_descriptor (cap_struct_size k) (cap_features k) (cap_ring_entries k)
              (cap_cq_entries k) (cap_op_mask k) (u32 task_capacity) (registered_fds_per_client l)
              (registered_buffers_per_client l) (lim_io_bytes_max l) |>
       <| rt_client_output_capacity := client_output_size l task_capacity |>).

Definition open_server (path : string) : BM (option Z) :=
  or_quit (os_call k_server_socket) 1 (fun fd =>
    set_rt (fun rt => rt <| rt_server_fd := fd |>) ;;;
    mmod (fun b => b <| bt_server_fd := fd |>) ;;;
    or_quit (os_call (fun w => k_set_cloexec w fd)) 1 (fun _ =>
    or_quit (os_call (fun w => k_set_nonblocking w fd)) 1 (fun _ =>
    if SUN_PATH_MAX <=? Z.of_nat (String.length path) then quit 2
    else
      os_do (fun w => k_unlink w path) ;;;
      or_quit (os_call (fun w => k_bind w fd path)) 1 (fun _ =>
      rt <- mget rt_of ;;
      or_quit (os_call (fun w => k_listen w fd (max_clients (rt_limits rt)))) 1 (fun _ =>
      mret None))))).

(** From the ring on: the checks, the tables, the parameters and the socket. *)
Definition equip (path : string) (caps : option capability_descriptor) : BM (option Z) :=
  adopt_ring caps ;;;
  rt <- mget rt_of ;;
  if (rt_ring_capacity rt <=? 1) || (Z.of_nat IOURINGD_MAX_TASKS <? rt_ring_capacity rt) then quit 1
  else
    or_quit iouringd_init_registered_buffer_storage 1 (fun _ =>
    or_quit register_files 1 (fun _ =>
    or_quit register_buffers 1 (fun _ =>
    set_parameters ;;; open_server path))).

(** [main] up to the main loop; [None] when the main loop is to run. *)
Definition start (argv : list string) : BM (option Z) :=
  if (length argv <? 2)%nat then mret (Some 2)
  else
    set_rt (fun _ => iouringd_init_runtime) ;;;
    mmod (fun b => b <| bt_ring := ring_struct_zero |> <| bt_storage := None |> <| bt_path := None |>) ;;;
    match iouringd_parse_args argv with
    | Err _ => mret (Some 2)
    | Ok a =>
        apply_arguments a ;;;
        r <- mtry iouringd_install_signal_handlers ;;
        match r with
        | Err _ => mret (Some 1)
        | Ok _ =>
            caps <- mtry (on_ring (iouringd_ring_init (ring_entries (arg_limits a)) true)) ;;
            match caps with
            | Err _ => mret (Some 1)
            | Ok caps => equip (arg_socket_path a) caps
            end
        end
    end.

(** The main loop has returned: the cleanup, and the end the signal asks for. *)
Definition finish : BM (option Z) :=
  iouringd_cleanup_runtime ;;;
  stop <- mget (fun b => k_stop (s_world (bt_sys b))) ;;
  if stop : bool then code <- iouringd_finish_stop_signal ;; mret (Some code) else mret (Some 0).

(** [rounds] and [fuel] bound the main loop; [None] when they are used up. *)
Definition main (rounds fuel : nat) (argv : list string) : BM (option Z) :=
  r <- start argv ;;
  match r with
  | Some code => mret (Some code)
  | None =>
      rr <- mtry (on_sys (iouringd_run rounds fuel)) ;;
      match rr with
      | Err _ => quit 1
      | Ok RunMore => mret None
      | Ok _ => finish
      end
  end.
End Boot.

(** ** The main loop starts where it should *)

Section Enter.
Context {W : Type} `{Kernel W} `{SetupKernel W} `{BootKernel W}.
Abbreviation BM := (BM (W := W)).

(** When the computation returns normally, the runtime satisfies [R]. *)
Definition yields {A} (m : BM A) (b : boot W) (R : A -> runtime -> Prop) : Prop :=
  wp m b (fun r b' => match r with Ok a => R a (rt_of b') | Err _ => True end).

(** When the start-up goes on to the main loop, the runtime satisfies [R]. *)
Definition enters (m : BM (option Z)) (b : boot W) (R : runtime -> Prop) : Prop :=
  yields m b (fun r rt => r = None -> R rt).

Lemma yields_bind {A B} (m : BM A) (k : A -> BM B) b P (Q : B -> runtime -> Prop) :
  yields m b P -> (forall a b1, P a (rt_of b1) -> yields (k a) b1 Q) -> yields (mbnd m k) b Q.
Proof.
  intros Hm Hk. apply wp_bind. eapply wp_weaken; [exact Hm|]. intros [a|e] b1 Hp; [by apply Hk|done].
Qed.

Lemma yields_os_call {A} (f : W -> outcome A * W) b : yields (os_call f) b (fun _ rt => rt = rt_of b).
Proof. unfold yields, wp, os_call. by destruct (f _) as [[a|e] w]. Qed.
Lemma yields_on_ring {A} (m : RM (W := W) A) b : yields (on_ring m) b (fun _ rt => rt = rt_of b).
Proof. unfold yields, wp, on_ring. by destruct (m _) as [[a|e] [w x]]. Qed.
Lemma yields_set_rt f b : yields (set_rt f) b (fun _ rt => rt = f (rt_of b)).
Proof. done. Qed.

Lemma enters_quit code b R : enters (quit code) b R.
Proof.
  unfold enters, yields, quit. apply wp_bind. unfold wp. destruct (iouringd_cleanup_runtime b) as [[[]|e] b'];
    [done|done].
Qed.

Lemma enters_or_quit {A} (m : BM A) code k b P R :
  yields m b P -> (forall a b1, P a (rt_of b1) -> enters (k a) b1 R) -> enters (or_quit m code k) b R.
Proof.
  intros Hm Hk. unfold enters, yields, or_quit. apply wp_bind, wp_try. eapply wp_weaken; [exact Hm|].
  intros [a|e] b1 Hp; [by apply Hk|apply enters_quit].
Qed.

Lemma enters_open_server path b (R : runtime -> Prop) :
  (forall fd, R (rt_of b <| rt_server_fd := fd |>)) -> enters (open_server path) b R.
Proof.
  intros HR. unfold open_server. eapply enters_or_quit; [apply yields_os_call|]. intros fd b1 E1.
  eapply yields_bind; [apply yields_set_rt|]. intros [] b2 E2.
  eapply (yields_bind _ _ _ (fun _ rt => rt = rt_of b2)); [done|]. intros [] b3 E3.
  eapply enters_or_quit; [apply yields_os_call|]. intros [] b4 E4.
  eapply enters_or_quit; [apply yields_os_call|]. intros [] b5 E5.
  destruct (_ <=? _); [apply enters_quit|].
  eapply (yields_bind _ _ _ (fun _ rt => rt = rt_of b5)); [done|]. intros [] b6 E6.
  eapply enters_or_quit; [apply yields_os_call|]. intros [] b7 E7.
  apply (yields_bind _ _ _ (fun _ rt => rt = rt_of b7)); [done|]. intros rt b8 E8.
  eapply enters_or_quit; [apply yields_os_call|]. intros [] b9 E9 _.
  cbv beta in *. rewrite E9, E8, E7, E6, E5, E4, E3, E2, E1. apply HR.
Qed.

Lemma yields_storage b :
  yields iouringd_init_registered_buffer_storage b (fun _ rt => rt = rt_of b <| rt_storage :=
    replicate (Z.to_nat (u64 (rt_registered_buffer_capacity (rt_of b) * lim_io_bytes_max (rt_limits (rt_of b))))) 0 |>).
Proof.
  unfold iouringd_init_registered_buffer_storage.
  apply (yields_bind _ _ _ (fun a rt => a = rt_of b /\ rt = rt_of b)); [done|]. intros rt b1 [-> E1]. cbv zeta.
  eapply yields_bind; [apply yields_os_call|]. intros a b2 E2. cbv beta in E2.
  eapply (yields_bind _ _ _ (fun _ rt => rt = rt_of b2)); [done|]. intros [] b3 E3. cbv beta in E3.
  eapply wp_weaken; [apply yields_set_rt|]. intros [[]|e] b4 E4; [|done]. by rewrite E4, E3, E2, E1.
Qed.

Lemma yields_register_files b :
  yields register_files b (fun _ rt => rt = rt_of b <| rt_ring := rt_ring (rt_of b)
    <| registered_files_count := u32 (rt_registered_file_capacity (rt_of b)) |> |>).
Proof.
  unfold register_files.
  apply (yields_bind _ _ _ (fun a rt => a = rt_of b /\ rt = rt_of b)); [done|]. intros rt b1 [-> E1]. cbv zeta.
  eapply yields_bind; [apply yields_on_ring|]. intros [] b2 E2. cbv beta in E2.
  eapply wp_weaken; [apply yields_set_rt|]. intros [[]|e] b3 E3; [|done]. by rewrite E3, E2, E1.
Qed.

Lemma yields_register_buffers b :
  yields register_buffers b (fun _ rt => rt = rt_of b <| rt_ring := rt_ring (rt_of b)
    <| registered_buffers_count := u32 (rt_registered_buffer_capacity (rt_of b)) |> |>).
Proof.
  unfold register_buffers.
  apply (yields_bind _ _ _ (fun a rt => a = rt_of b /\ rt = rt_of b)); [done|]. intros rt b1 [-> E1].
  apply (yields_bind _ _ _ (fun _ rt => rt = rt_of b1)); [done|]. intros storage b2 E2. cbv zeta.
  eapply yields_bind; [apply yields_os_call|]. intros v b3 E3. cbv beta in E2, E3.
  eapply (yields_bind _ _ _ (fun _ rt => rt = rt_of b3)).
  { unfold yields. apply wp_try. unfold wp, on_ring. by destruct (iouringd_ring_init_registered_buffers _ _ _) as [? [? ?]]. }
  intros r b4 E4. eapply (yields_bind _ _ _ (fun _ rt => rt = rt_of b4)); [done|]. intros [] b5 E5.
  cbv beta in E4, E5. destruct r as [[]|e]; [|done].
  eapply wp_weaken; [apply yields_set_rt|]. intros [[]|e] b6 E6; [|done]. by rewrite E6, E5, E4, E3, E2, E1.
Qed.

(** The fields, set one after the other, make the runtime of [configured]. *)
Lemma fields_configured a r caps :
  limits_supported (arg_limits a) ->
  let l := arg_limits a in
  let files := max_clients l * registered_fds_per_client l in
  let buffers := max_clients l * registered_buffers_per_client l in
  let rt :=
    iouringd_init_runtime <| rt_limits := l |> <| rt_registered_file_capacity := files |>
      <| rt_registered_buffer_capacity := buffers |>
      <| rt_ring := r |> <| rt_capabilities := caps |> <| rt_ring_capacity := iouringd_ring_capacity r |>
      <| rt_storage := replicate (Z.to_nat (u64 (buffers * lim_io_bytes_max l))) 0 |>
      <| rt_ring := r <| registered_files_count := u32 files |> |>
      <| rt_ring := r <| registered_files_count := u32 files |> <| registered_buffers_count := u32 buffers |> |> in
  let task_capacity := u64 (rt_ring_capacity rt - 1) in
  rt <| rt_task_capacity := task_capacity |>
     <| rt_per_client_credit_limit :=
          if task_capacity <? per_client_credits l then task_capacity else per_client_credits l |>
     <| rt_capabilities :=
          mk_capability_descriptor (cap_struct_size caps) (cap_features caps) (cap_ring_entries caps)
            (cap_cq_entries caps) (cap_op_mask caps) (u32 task_capacity) (registered_fds_per_client l)
            (registered_buffers_per_client l) (lim_io_bytes_max l) |>
     <| rt_client_output_capacity := client_output_size l task_capacity |> = configured a r caps.
Proof.
  intros (L1 & L2 & L3 & L4 & L5 & L6) l files buffers rt task_capacity.
  unfold configured. cbv zeta. fold l. fold files buffers. subst rt task_capacity.
  assert (Hb : 0 <= buffers <= 256) by (unfold buffers, l; nia).
  assert (Hs : 0 <= buffers * lim_io_bytes_max l <= 256 * 4096) by (fold l in L6; nia).
  rewrite (u64_id (buffers * lim_io_bytes_max l)) by lia.
  generalize iouringd_init_runtime as rt0. generalize (client_output_size l). generalize (replicate (A := Z)).
  intros f g []. reflexivity.
Qed.

Lemma enters_equip a caps b path :
  limits_supported (arg_limits a) ->
  rt_of b = iouringd_init_runtime <| rt_limits := arg_limits a |>
    <| rt_registered_file_capacity := max_clients (arg_limits a) * registered_fds_per_client (arg_limits a) |>
    <| rt_registered_buffer_capacity := max_clients (arg_limits a) * registered_buffers_per_client (arg_limits a) |> ->
  enters (equip path caps) b (fun rt => exists r fd rt0,
    configure a r (default capability_zero caps) = Some rt0 /\ rt = rt0 <| rt_server_fd := fd |>).
Proof.
  intros Hl E0. unfold equip. eapply (yields_bind _ _ _ (fun _ rt => exists r,
    rt = rt_of b <| rt_ring := r |> <| rt_capabilities := default capability_zero caps |>
                 <| rt_ring_capacity := iouringd_ring_capacity r |>)).
  { unfold adopt_ring. apply wp_bind. by eexists. }
  intros [] b1 [r E1]. apply (yields_bind _ _ _ (fun x rt => x = rt_of b1 /\ rt = rt_of b1)); [done|].
  intros rt b2 [-> E2]. cbv beta in E1. assert (Ec : rt_ring_capacity (rt_of b1) = iouringd_ring_capacity r) by (by rewrite E1).
  rewrite Ec. destruct (_ || _) eqn:Er; [apply enters_quit|].
  eapply enters_or_quit; [apply yields_storage|]. intros [] b3 E3.
  eapply enters_or_quit; [apply yields_register_files|]. intros [] b4 E4.
  eapply enters_or_quit; [apply yields_register_buffers|]. intros [] b5 E5.
  eapply yields_bind; [apply yields_set_rt|]. intros [] b6 E6. apply enters_open_server. intros fd.
  exists r, fd, (configured a r (default capability_zero caps)).
  split; [unfold configure; by rewrite Er|]. f_equal. rewrite <- fields_configured by done. cbv zeta.
  cbv beta in *. rewrite E6, E5, E4, E3, E2, E1, E0. generalize iouringd_init_runtime as rt0. intros []. reflexivity.
Qed.
End Enter.

(** C22: the main loop starts in a state the guarantees are about.  Whatever the arguments and
    however the calls of the start-up end: when [main] reaches the main loop,
    the arguments were accepted and their limits are in force, and the runtime is
    one that the configuration gives for the ring that was set up, with a server
    socket; it is a state that counts as reachable, so that every theorem about
    the reachable states holds of the running daemon. *)
Theorem main_enters_loop {W} `{Kernel W} `{SetupKernel W} `{BootKernel W} argv (b b' : boot W) :
  start argv b = (Ok None, b') ->
  exists a, iouringd_parse_args argv = Ok a /\ rt_limits (rt_of b') = arg_limits a /\ reachable (bt_sys b').
Proof.
  intros E. assert (Hs : enters (start argv) b (fun rt => exists a caps r fd rt0,
    iouringd_parse_args argv = Ok a /\ limits_supported (arg_limits a) /\
    configure a r caps = Some rt0 /\ rt = rt0 <| rt_server_fd := fd |>)).
  { unfold start. destruct (_ <? _)%nat; [done|].
    eapply yields_bind; [apply yields_set_rt|]. intros [] b1 E1.
    eapply (yields_bind _ _ _ (fun _ rt => rt = rt_of b1)); [done|]. intros [] b2 E2.
    destruct (iouringd_parse_args argv) as [a|e] eqn:Ea; [|done].
    assert (Hl : limits_supported (arg_limits a)) by (by eapply accepted_limits).
    eapply (yields_bind _ _ _ (fun _ rt => rt = rt_of b2 <| rt_limits := arg_limits a |>
      <| rt_registered_file_capacity := max_clients (arg_limits a) * registered_fds_per_client (arg_limits a) |>
      <| rt_registered_buffer_capacity := max_clients (arg_limits a) * registered_buffers_per_client (arg_limits a) |>));
      [done|]. intros [] b3 E3.
    eapply (yields_bind _ _ _ (fun _ rt => rt = rt_of b3)).
    { apply wp_try. unfold wp, iouringd_install_signal_handlers, mbnd, os_call.
      repeat case_match; simplify_eq/=; done. }
    intros [[]|e] b4 E4; [|done]. eapply (yields_bind _ _ _ (fun _ rt => rt = rt_of b4)).
    { apply wp_try. unfold wp, on_ring. by destruct (iouringd_ring_init _ _ _) as [? [? ?]]. }
    intros [caps|e] b5 E5; [|done]. eapply wp_weaken; [apply (enters_equip a); [done|]|].
    - cbv beta in *. by rewrite E5, E4, E3, E2, E1.
    - intros [r|e] b6; [|done]. intros H6 Hr. destruct (H6 Hr) as (r0 & fd & rt0 & Hc & Hrt).
      by exists a, (default capability_zero caps), r0, fd, rt0. }
  unfold enters, yields, wp in Hs. rewrite E in Hs.
  destruct (Hs eq_refl) as (a & caps & r & fd & rt0 & Ha & Hl & Hc & Hrt). exists a. split; [done|].
  split; [|by eapply reach_start]. rewrite Hrt. by apply configure_Some in Hc as [-> _].
Qed.
