(* ===== verification/Sockets.v ===== *)
(** * The sockets of a run

    [BootOk] has the documented behaviour of the calls of [main] in terms of the ghost
    lists of [SetupOk], of the blocks [main] has allocated and of the sockets obtained
    so far.  A socket that was obtained is in the runtime or has been passed to
    [close]: [owed] is this balance, and [carries] the preorder of [World] that
    takes it through the main loop. *)

From Stdlib Require Import String.
From S2P Require Import Prelude Wire Kernel Ring State Output Resources Trace Daemon Input Dispatch Complete Sched Setup World Boot.

(** Nothing of what is counted changes. *)
Definition spared {W} (live : W -> list (Z * Z)) (opened heap sockets : W -> list Z) (w w' : W) : Prop :=
  live w' = live w /\ opened w' = opened w /\ heap w' = heap w /\ sockets w' = sockets w.

(** What a call that returns a descriptor has added. *)
Definition gained (r : outcome Z) : list Z := match r with Ok a => [a] | Err _ => [] end.
Definition descriptor (r : outcome Z) : Prop := match r with Ok fd => 0 <= fd | Err _ => True end.

Class BootOk (W : Type) `{Kernel W} `{SetupOk W} `{BootKernel W} := {
  heap : W -> list Z;             (* blocks from [calloc] in use, by address *)
  sockets : W -> list Z;          (* sockets from [socket] and [accept], the latest first *)
  (** The calls of the main loop touch neither the ring's mappings and descriptor nor the
      blocks [main] has allocated; only [accept] makes a socket. *)
  run_law w w' : called w w' -> spared live opened heap sockets w w';
  accept_law w fd r w' : k_accept w fd = (r, w') ->
    live w' = live w /\ opened w' = opened w /\ heap w' = heap w /\ sockets w' = gained r ++ sockets w /\ descriptor r;
  setup_heap w entries flags : let w' := snd (k_setup w entries flags) in heap w' = heap w /\ sockets w' = sockets w;
  mmap_heap w size off : let w' := snd (k_mmap w size off) in heap w' = heap w /\ sockets w' = sockets w;
  munmap_heap w a size : let w' := k_munmap w a size in heap w' = heap w /\ sockets w' = sockets w;
  close_heap w fd : let w' := k_close_fd w fd in heap w' = heap w /\ sockets w' = sockets w;
  probe_heap w fd n : let w' := snd (k_probe w fd n) in heap w' = heap w /\ sockets w' = sockets w;
  files_heap w fd v : let w' := snd (k_register_files w fd v) in heap w' = heap w /\ sockets w' = sockets w;
  buffers_heap w fd v : let w' := snd (k_register_buffers w fd v) in heap w' = heap w /\ sockets w' = sockets w;
  sigemptyset_law w : spared live opened heap sockets w (snd (k_sigemptyset w));
  sigaction_law w signo d : spared live opened heap sockets w (snd (k_sigaction w signo d));
  raise_law w signo : spared live opened heap sockets w (k_raise w signo);
  server_law w r w' : k_server_socket w = (r, w') ->
    live w' = live w /\ opened w' = opened w /\ heap w' = heap w /\ sockets w' = gained r ++ sockets w /\ descriptor r;
  bind_law w fd p : spared live opened heap sockets w (snd (k_bind w fd p));
  listen_law w fd n : spared live opened heap sockets w (snd (k_listen w fd n));
  unlink_law w p : spared live opened heap sockets w (k_unlink w p);
  calloc_law w n r w' : k_calloc w n = (r, w') ->
    live w' = live w /\ opened w' = opened w /\ sockets w' = sockets w /\ heap w' = gained r ++ heap w;
  free_law w a : a ∈ heap w ->
    a :: heap (k_free w a) ≡ₚ heap w /\ live (k_free w a) = live w /\ opened (k_free w a) = opened w /\
    sockets (k_free w a) = sockets w;
}.

(** ** Open descriptors *)

Definition open_of (fds : list Z) : list Z := fds ≫= close_if_open.

Lemma open_of_insert fds i x y :
  fds !! i = Some y -> close_if_open y ++ open_of (<[i := x]> fds) ≡ₚ close_if_open x ++ open_of fds.
Proof.
  intros Hi. rewrite <- (take_drop_middle _ _ _ Hi) at 2. rewrite insert_take_drop by (by eapply lookup_lt_Some).
  unfold open_of. rewrite !bind_app, !bind_cons. solve_Permutation.
Qed.

(** The sockets in the runtime: the server's and those of the clients the limits allow. *)
Definition open_sockets (rt : runtime) : list Z :=
  close_if_open (rt_server_fd rt) ++ open_of (take (Z.to_nat (max_clients (rt_limits rt))) (c_fd <$> rt_clients rt)).

Lemma footing_sockets rt rt' : footing rt' = footing rt -> open_sockets rt' = open_sockets rt.
Proof. unfold footing, open_sockets. by intros [= -> -> ->]. Qed.

(** Closing the client of a slot, whatever is put there. *)
Lemma open_sockets_close rt i c :
  open_sockets rt ⊆+ open_sockets (rt <| rt_clients := <[i := c]> (rt_clients rt) |>) ++ close_if_open (c_fd (rt_clients rt !!! i)).
Proof.
  unfold open_sockets. cbn. rewrite list_fmap_insert, <- app_assoc. apply submseteq_skips_l.
  set (n := Z.to_nat _). destruct (decide (n <= i)%nat) as [Hn|Hn].
  { rewrite take_insert_ge by done. by apply submseteq_inserts_r. }
  rewrite take_insert_lt by lia. destruct (rt_clients rt !! i) as [x|] eqn:Ei.
  - rewrite (list_lookup_total_correct _ _ _ Ei), (Permutation_app_comm _ (close_if_open _)).
    rewrite (open_of_insert _ _ _ (c_fd x)); [by apply submseteq_inserts_l|].
    rewrite lookup_take_lt by lia. by rewrite list_lookup_fmap, Ei.
  - apply lookup_ge_None in Ei. rewrite list_insert_ge; [by apply submseteq_inserts_r|].
    rewrite length_take, length_fmap. lia.
Qed.

(** A client in a vacant slot. *)
Lemma open_sockets_open rt i c :
  (exists x, live_clients rt !! i = Some x /\ c_fd x < 0) ->
  close_if_open (c_fd c) ++ open_sockets rt ⊆+ open_sockets (rt <| rt_clients := <[i := c]> (rt_clients rt) |>).
Proof.
  intros (x & Hx & Hn). apply lookup_take_Some in Hx as [Hi Hx]. unfold open_sockets. cbn.
  rewrite list_fmap_insert, take_insert_lt by done. rewrite Permutation_app_swap_app. apply submseteq_skips_l.
  rewrite <- (open_of_insert _ i _ (c_fd x)).
  - unfold close_if_open at 1. by rewrite (proj2 (Z.leb_gt 0 _) Hn).
  - rewrite lookup_take_lt by done. by rewrite list_lookup_fmap, Hx.
Qed.

(** ** The balance *)

Section Balance.
Context {W : Type} `{BootOk W} (made shut : list Z).
Abbreviation DM := (DM (W := W)).

(** Of the sockets made since [made], each is among [extra], or in the runtime, or closed
    since [shut]. *)
Definition owed (extra : list Z) (s : sys W) : Prop :=
  exists new gone, sockets (s_world s) = new ++ made /\ s_closed s = shut ++ gone /\
                   new ⊆+ extra ++ open_sockets (s_rt s) ++ gone.

Definition quiet_world (w w' : W) : Prop := live w' = live w /\ opened w' = opened w /\ heap w' = heap w.

(** A step that starts with the sockets [pre] in hand and ends with [post]. *)
Definition carry (pre post : list Z) (s s' : sys W) : Prop :=
  quiet_world (s_world s) (s_world s') /\ forall extra, owed (pre ++ extra) s -> owed (post ++ extra) s'.
Definition carries : sys W -> sys W -> Prop := carry [] [].

Lemma carry_refl l s : carry l l s s.
Proof. by split. Qed.
Lemma carry_trans a b c s1 s2 s3 : carry a b s1 s2 -> carry b c s2 s3 -> carry a c s1 s3.
Proof. intros [(E1 & E2 & E3) C1] [(F1 & F2 & F3) C2]. split; [split_and!; congruence|]. intros extra Ho. by apply C2, C1. Qed.

Lemma carry_step pre post got fds s s' :
  quiet_world (s_world s) (s_world s') -> sockets (s_world s') = got ++ sockets (s_world s) ->
  s_closed s' = s_closed s ++ fds -> got ++ pre ++ open_sockets (s_rt s) ⊆+ post ++ open_sockets (s_rt s') ++ fds ->
  carry pre post s s'.
Proof.
  intros Hw Hs Hc Hi. split; [done|]. intros extra (new & gone & E1 & E2 & Hn). exists (got ++ new), (gone ++ fds).
  rewrite Hs, E1, Hc, E2. split_and!; [by rewrite app_assoc..|]. apply (submseteq_skips_l got) in Hn.
  apply (submseteq_skips_r (extra ++ gone)) in Hi. etransitivity; [exact Hn|]. etransitivity; [|etransitivity; [exact Hi|]];
    apply Permutation_submseteq; solve_Permutation.
Qed.

(** Calls, closes and changes of the runtime that leave its sockets alone. *)
Lemma carry_same l s s' fds :
  spared live opened heap sockets (s_world s) (s_world s') -> footing (s_rt s') = footing (s_rt s) ->
  s_closed s' = s_closed s ++ fds -> carry l l s s'.
Proof.
  intros (E1 & E2 & E3 & E4) Hf Hc. apply (carry_step _ _ [] fds); [done|done|done|].
  rewrite (footing_sockets _ _ Hf). cbn. by apply submseteq_skips_l, submseteq_inserts_r.
Qed.
Lemma carry_call l s w' : called (s_world s) w' -> carry l l s (s <| s_world := w' |>).
Proof. intros Hc. apply (carry_same _ _ _ []); [by apply run_law|done|by rewrite app_nil_r]. Qed.

(** Closing the sockets in hand. *)
Lemma carry_close l s : carry l [] s (s <| s_closed := s_closed s ++ l |>).
Proof. apply (carry_step _ _ [] l); [done..|]. cbn. by rewrite Permutation_app_comm. Qed.

Lemma carry_close_client i s : carries s (snd (close_client i s)).
Proof.
  eapply (carry_step _ _ []); [done|done|reflexivity|]. cbn [app]. unfold close_client, mbnd, get_client, mget. cbn.
  rewrite app_assoc. apply submseteq_inserts_r. apply open_sockets_close.
Qed.

(** A new client takes the socket, or it is closed. *)
Lemma carry_open_client fd s : 0 <= fd -> carry [fd] [] s (snd (iouringd_open_client fd s)).
Proof.
  intros Hfd. unfold iouringd_open_client, mbnd at 1, mtry.
  pose proof (by_set_nonblocking (s_world s) fd) as Hn. destruct (k_set_nonblocking _ _) as [rc w1].
  eapply carry_trans; [by apply carry_call|]. cbn [snd] in *. set (s1 := s <| s_world := w1 |>).
  destruct (negb _); [apply carry_close|]. unfold mbnd at 1, get_rt, mget.
  destruct (find_index _ _) as [i|] eqn:Ei; [|apply carry_close]. unfold mbnd at 1.
  match goal with |- context [k_malloc ?w ?n] => pose proof (by_malloc w n) as Hm; destruct (k_malloc w n) as [ok w2] end.
  eapply carry_trans; [by apply carry_call|]. cbn [snd] in *.
  destruct (negb ok); [apply carry_close|].
  apply find_index_Some in Ei as (x & Hx & Hv & _). unfold client_slot_vacant in Hv. bool_hyps.
  pose proof (open_sockets_open (s_rt s1) i (opened_client (s_rt s1) fd (rt_clients (s_rt s1) !!! i))
    ltac:(exists x; split; [done|lia])) as Ho.
  change (c_fd (opened_client _ _ _)) with fd in Ho. unfold close_if_open in Ho. rewrite (proj2 (Z.leb_le 0 fd) Hfd) in Ho.
  apply (carry_step _ _ [] []); [done|done|by rewrite app_nil_r|]. rewrite app_nil_r. exact Ho.
Qed.

(** The accept loop: every socket it gets is passed on or closed. *)
Lemma carry_accept_loop fuel progress s : carries s (snd (accept_loop fuel progress s)).
Proof.
  revert progress s. induction fuel as [|fuel IH]; intros progress s; [apply carry_refl|]. cbn [accept_loop].
  unfold mbnd at 1, mtry. destruct (k_accept _ _) as [r w1] eqn:Ea.
  destruct (accept_law _ _ _ _ Ea) as (E1 & E2 & E3 & E4 & Hd).
  eapply (carry_trans _ (gained r)).
  { apply (carry_step _ _ (gained r) [] s (s <| s_world := w1 |>)); [done|done|by rewrite app_nil_r|]. by rewrite app_nil_r. }
  unfold mbnd at 1, mget. destruct r as [fd|e]; cbn [gained].
  2: { repeat case_match; apply carry_refl. }
  unfold mbnd at 1. cbn [s_world put put_s_world]. pose proof (by_set_cloexec w1 fd) as Hc.
  destruct (k_set_cloexec _ _) as [[[]|e] w2]; (eapply carry_trans; [by apply carry_call|]); cbn [snd]; [|apply carry_close].
  unfold mbnd at 1. destruct (k_stop _); [apply carry_close|]. unfold mbnd at 1.
  match goal with |- context [iouringd_open_client fd ?s2] => pose proof (carry_open_client fd s2 Hd) as Ho;
    destruct (iouringd_open_client fd s2) as [[[]|e] s3] end; [|exact Ho].
  eapply carry_trans; [exact Ho|apply IH].
Qed.

#[export] Instance carries_respects : Respects carries.
Proof.
  constructor.
  - split; [intros s; apply carry_refl|]. intros s1 s2 s3. apply carry_trans.
  - intros s rt' Hf. apply (carry_same _ _ _ []); [done|done|by rewrite app_nil_r].
  - intros s w'. apply carry_call.
  - intros s fds. by apply (carry_same _ _ _ fds).
  - intros s i. apply carry_close_client.
  - intros s fuel progress. apply carry_accept_loop.
Qed.
End Balance.
