(* ===== verification/Exit.v ===== *)
(** * What [main] gives back

    Every path through [main] of [Boot] ends with nothing held: the ring's
    mappings and descriptor, the blocks [main] allocates (the storage of the
    registered buffers and the vector of their addresses), and every socket,
    the server's and the clients', each of which has been passed to [close]
    ([main_releases]).  The output buffers of the clients, which [Kernel] hands
    out and [iouringd_close_client] frees, are not counted.

    What the calls are assumed to do is [BootOk] of [Sockets]. *)

From Stdlib Require Import String.
From S2P Require Import Prelude Wire Kernel Ring State Output Resources Trace Daemon Startup Input Reader Dispatch Complete Sched Session Correct Setup World Boot Sockets.

Section Heap.
Context {W : Type} `{BootOk W}.
Abbreviation RM := (RM (W := W)).

(** The ring's functions touch neither the heap nor the sockets. *)
Definition kept_by (w w' : W) : Prop := heap w' = heap w /\ sockets w' = sockets w.
Definition heapless {A} (m : RM A) : Prop := forall s, kept_by (fst s) (fst (snd (m s))).

Lemma heapless_bind {A B} (m : RM A) (k : A -> RM B) :
  heapless m -> (forall a, heapless (k a)) -> heapless (mbnd m k).
Proof.
  intros Hm Hk s. specialize (Hm s). unfold mbnd. destruct (m s) as [[a|e] s1]; [|done].
  destruct Hm as [E1 E2], (Hk a s1) as [E3 E4]. split; cbn in *; congruence.
Qed.
Lemma heapless_try {A} (m : RM A) : heapless m -> heapless (mtry m).
Proof. intros Hm s. specialize (Hm s). unfold mtry. by destruct (m s). Qed.
Lemma heapless_call {A} (f : W -> outcome A * W) :
  (forall w, kept_by w (snd (f w))) -> heapless (call f).
Proof. intros Hf s. specialize (Hf (fst s)). unfold call. by destruct (f (fst s)). Qed.
Lemma heapless_unmap p size : heapless (unmap p size).
Proof. destruct p as [a|]; intros s; [apply munmap_heap|done]. Qed.
Lemma heapless_close : heapless close_ring_fd.
Proof. intros s. apply close_heap. Qed.

Ltac heapless_tac :=
  repeat first
    [ solve [auto] | apply heapless_bind; [|intros ?] | apply heapless_try | apply heapless_unmap | apply heapless_close
    | apply heapless_call; intros ? | apply setup_heap | apply mmap_heap | apply probe_heap
    | apply files_heap | apply buffers_heap | (intros ?; done)
    | match goal with |- heapless (match ?x with _ => _ end) => destruct x end ].

Lemma heapless_setup entries flags : heapless (ring_setup_with_flags entries flags).
Proof. unfold ring_setup_with_flags. heapless_tac. Qed.
Lemma heapless_attempts entries attempts : heapless (setup_attempts entries attempts).
Proof.
  induction attempts as [|flags rest IH]; [by intros s|]. cbn [setup_attempts].
  pose proof (heapless_setup entries flags). heapless_tac.
Qed.
Lemma heapless_cleanup : heapless iouringd_ring_cleanup.
Proof. unfold iouringd_ring_cleanup, unmap_cq_ring. heapless_tac. Qed.
Lemma heapless_probe p : heapless (probe_ring p).
Proof. pose proof heapless_cleanup. unfold probe_ring. heapless_tac. Qed.
Lemma heapless_init entries capabilities : heapless (iouringd_ring_init entries capabilities).
Proof.
  pose proof heapless_probe. pose proof (heapless_attempts entries).
  unfold iouringd_ring_init, ring_setup_best_effort, map_sq_ring, map_cq_ring, map_sqes, unmap_cq_ring.
  heapless_tac.
Qed.
Lemma heapless_files count : heapless (iouringd_ring_init_registered_files count).
Proof. unfold iouringd_ring_init_registered_files. heapless_tac. Qed.
Lemma heapless_buffers v count : heapless (iouringd_ring_init_registered_buffers v count).
Proof. unfold iouringd_ring_init_registered_buffers. heapless_tac. Qed.
End Heap.

(** ** What the process holds *)

Section Release.
Context {W : Type} `{BootOk W} (maps : list (Z * Z)) (fds blocks made shut : list Z).
Abbreviation BM := (BM (W := W)).

(** The ring's mappings and descriptor, the storage, and what was there before; the
    sockets in the runtime. *)
Definition held (b : boot W) : Prop :=
  balanced maps fds (s_world (bt_sys b), bt_ring b) /\
  heap (s_world (bt_sys b)) ≡ₚ option_list (bt_storage b) ++ blocks /\
  owed made shut [] (bt_sys b).

(** Only what was there before; the sockets made since are closed. *)
Definition released (b : boot W) : Prop :=
  holding maps fds [] [] (s_world (bt_sys b)) /\ heap (s_world (bt_sys b)) ≡ₚ blocks /\
  exists new gone, sockets (s_world (bt_sys b)) = new ++ made /\ s_closed (bt_sys b) = shut ++ gone /\ new ⊆+ gone.

(** A step that leaves the held things, and the server socket, as they are. *)
Definition stays (b b' : boot W) : Prop := held b' /\ rt_server_fd (rt_of b') = rt_server_fd (rt_of b).
Definition retains {A} (m : BM A) : Prop := forall b, held b -> wp m b (fun _ b' => stays b b').

Lemma retains_bind {A B} (m : BM A) (k : A -> BM B) : retains m -> (forall a, retains (k a)) -> retains (mbnd m k).
Proof.
  intros Hm Hk b Hb. apply wp_bind. eapply wp_weaken; [by apply Hm|]. intros [a|e] b' [Hb' E]; [|done].
  eapply wp_weaken; [by apply Hk|]. intros r b2 [Hb2 E2]. split; [done|]. by rewrite E2.
Qed.

(** The world changes, nothing of what is counted does. *)
Abbreviation spares := (spared live opened heap sockets).

Lemma spares_held (b b' : boot W) :
  held b -> spares (s_world (bt_sys b)) (s_world (bt_sys b')) -> bt_ring b' = bt_ring b ->
  bt_storage b' = bt_storage b -> footing (rt_of b') = footing (rt_of b) -> s_closed (bt_sys b') = s_closed (bt_sys b) ->
  stays b b'.
Proof.
  intros ([Hm Hf] & Hh & Ho) Hs Er Est Eg Ec. split; [|by injection Eg]. unfold held, balanced, holding in *.
  cbn [fst snd] in *. pose proof Hs as (E1 & E2 & E3 & _). rewrite E1, E2, E3, Er, Est. split_and!; [done..|].
  destruct (carry_same made shut [] (bt_sys b) (bt_sys b') [] Hs Eg) as [_ Hc]; [by rewrite app_nil_r|]. exact (Hc [] Ho).
Qed.
Lemma spares_refl w : spares w w.
Proof. done. Qed.

Lemma retains_os_call {A} (f : W -> outcome A * W) : (forall w, spares w (snd (f w))) -> retains (os_call f).
Proof.
  intros Hf b Hb. unfold wp, os_call. specialize (Hf (s_world (bt_sys b))). destruct (f _) as [r w].
  by eapply spares_held.
Qed.
Lemma retains_set_rt f : (forall rt, footing (f rt) = footing rt) -> retains (set_rt f).
Proof. intros Hf b Hb. by apply spares_held; [exact Hb|apply spares_refl| | |apply Hf|]. Qed.
Lemma retains_get {A} (f : boot W -> A) : retains (mget f).
Proof. by intros b Hb. Qed.

(** A function of the ring that neither gains nor loses anything. *)
Lemma retains_on_ring {A} (m : RM (W := W) A) :
  heapless m -> (forall s, balanced maps fds s -> wp m s (fun _ s' => balanced maps fds s')) -> retains (on_ring m).
Proof.
  intros Hh Hm b (Hb & Hb' & Ho). specialize (Hh (s_world (bt_sys b), bt_ring b)). specialize (Hm _ Hb).
  unfold wp, on_ring in *. destruct (m _) as [r [w x]]. destruct Hh as [E1 E2]. cbn in *. split; [|done].
  split_and!; [exact Hm|by cbn; rewrite E1|]. destruct Ho as (new & gone & Ho). exists new, gone. cbn. by rewrite E2.
Qed.

Lemma retains_files count : retains (on_ring (iouringd_ring_init_registered_files count)).
Proof.
  apply retains_on_ring; [apply heapless_files|]. intros [w x] Hb. unfold balanced in Hb. cbn [fst snd] in Hb.
  unfold iouringd_ring_init_registered_files. apply wp_bind. cbn. destruct (_ || _); [exact Hb|].
  apply wp_bind. eapply wp_mmap; [exact Hb| |].
  - intros a w1 _ Hh1. apply wp_bind, wp_try. unfold wp at 1, call. cbn [fst snd].
    destruct (k_register_files _ _ _) as [r w2] eqn:E. destruct (files_law _ _ _ _ _ E) as [Hl Ho].
    apply wp_bind. eapply (wp_unmap maps fds (Some a)); [unfold holding; cbn; rewrite Hl, Ho; exact Hh1|]. intros w3 Hh3.
    by destruct r as [[]|e].
  - by intros e w' Hh.
Qed.

Lemma retains_buffers v count : retains (on_ring (iouringd_ring_init_registered_buffers v count)).
Proof.
  apply retains_on_ring; [apply heapless_buffers|]. intros [w x] Hb. unfold balanced in Hb. cbn [fst snd] in Hb.
  unfold iouringd_ring_init_registered_buffers. apply wp_bind. cbn. destruct v as [v|]; [|exact Hb].
  destruct (_ || _); [exact Hb|]. apply wp_bind. unfold wp at 1, call. cbn [fst snd].
  destruct (k_register_buffers _ _ _) as [r w2] eqn:E. destruct (buffers_law _ _ _ _ _ E) as [Hl Ho].
  assert (Hh : holding maps fds (owned x) (owned_fds x) w2) by (split; [rewrite Hl|rewrite Ho]; apply Hb).
  by destruct r as [[]|e].
Qed.

Lemma retains_register_files : retains register_files.
Proof.
  unfold register_files. apply retains_bind; [apply retains_get|intros rt].
  apply retains_bind; [apply retains_files|intros []; by apply retains_set_rt].
Qed.

End Release.

Section Ends.
Context {W : Type} `{BootOk W} (maps : list (Z * Z)) (fds blocks made shut : list Z).
Abbreviation BM := (BM (W := W)).
Abbreviation Held := (held maps fds blocks made shut).
Abbreviation Released := (released maps fds blocks made shut).
Abbreviation Retains m := (retains maps fds blocks made shut m).
Abbreviation Stays := (stays maps fds blocks made shut).

(** The vector of addresses is allocated and freed again. *)
Lemma retains_register_buffers : Retains register_buffers.
Proof.
  unfold register_buffers. apply retains_bind; [apply retains_get|intros rt]. apply retains_bind; [apply retains_get|intros st].
  cbv zeta. intros b Hb. apply wp_bind. unfold wp at 1, os_call.
  destruct (k_calloc _ _) as [r w1] eqn:E. destruct (calloc_law _ _ _ _ E) as (Hl & Ho & Hk & Hh).
  destruct r as [v|e]; [|by eapply spares_held].
  apply wp_bind, wp_try. eapply wp_weaken; [apply (retains_buffers maps fds (v :: blocks) made shut)|].
  { destruct Hb as ([Hm Hf] & Hs & Hb). unfold held, balanced, holding in *. cbn in *.
    rewrite Hl, Ho, Hh, Hs. split_and!; [done|done|by rewrite Permutation_middle|].
    destruct Hb as (new & gone & Hb). exists new, gone. cbn. by rewrite Hk. }
  intros r b2 [([Hm Hf] & Hs & Hd) Ef]. destruct (free_law (s_world (bt_sys b2)) v) as (F1 & F2 & F3 & F4).
  { rewrite Hs. apply elem_of_app. right. by left. }
  apply wp_bind. cbn. assert (Hb2 : Held (b2 <| bt_sys := bt_sys b2 <| s_world := k_free (s_world (bt_sys b2)) v |> |>)).
  { unfold held, balanced, holding in *. cbn in *. rewrite F2, F3. split_and!; [done|done| |].
    - rewrite Hs, <- Permutation_middle in F1. by apply (inj (cons v)) in F1.
    - destruct Hd as (new & gone & Hd). exists new, gone. cbn. by rewrite F4. }
  destruct r as [[]|e]; [|done].
  eapply wp_weaken; [by apply retains_set_rt, Hb2|]. intros r b3 [Hb3 Ef3]. split; [done|]. by rewrite Ef3.
Qed.

(** The storage is one block more. *)
Lemma storage_held b :
  Held b -> bt_storage b = None -> wp iouringd_init_registered_buffer_storage b (fun _ b' => Stays b b').
Proof.
  intros Hb Es. unfold iouringd_init_registered_buffer_storage. apply wp_bind. cbn. apply wp_bind.
  unfold wp at 1, os_call. destruct (k_calloc _ _) as [r w1] eqn:E. destruct (calloc_law _ _ _ _ E) as (Hl & Ho & Hk & Hh).
  destruct r as [v|e]; [|by eapply spares_held].
  apply wp_bind. cbn. destruct Hb as ([Hm Hf] & Hs & Hb). split; [|done]. unfold held, balanced, holding in *. cbn in *.
  rewrite Hl, Ho, Hh, Hs, Es. split_and!; [done..|]. destruct Hb as (new & gone & Hb). exists new, gone. cbn. by rewrite Hk.
Qed.

(** ** The cleanup *)

(** No socket in the runtime. *)
Definition closed (rt : runtime) : Prop :=
  rt_server_fd rt < 0 /\ forall i c, live_clients rt !! i = Some c -> c_fd c < 0.

Lemma closed_sockets rt : closed rt -> open_sockets rt = [].
Proof.
  intros [Hs Hc]. unfold open_sockets, close_if_open at 1. rewrite (proj2 (Z.leb_gt _ _) Hs), <- fmap_take.
  fold (live_clients rt). cbn [app]. revert Hc. induction (live_clients rt) as [|c l IH]; intros Hc; [done|].
  unfold open_of in *. rewrite fmap_cons, bind_cons, IH by (intros i; apply (Hc (S i))).
  unfold close_if_open. by rewrite (proj2 (Z.leb_gt _ _) (Hc O c eq_refl)).
Qed.

(** Every client is closed, in the world as it was. *)
Lemma close_clients_closes n (s : sys W) :
  wp (close_clients n) s (fun r s' => r = Ok tt /\ s_world s' = s_world s /\
    rt_limits (s_rt s') = rt_limits (s_rt s) /\ rt_server_fd (s_rt s') = rt_server_fd (s_rt s) /\
    forall i c, (i < n)%nat -> rt_clients (s_rt s') !! i = Some c -> c_fd c < 0).
Proof.
  induction n as [|n IH]; [by split_and!; try done; lia|]. cbn [close_clients]. apply wp_bind.
  eapply wp_weaken; [exact IH|]. intros ? s' (-> & Hw & Hl & Hf & Hc). cbn.
  split_and!; try done. intros i c Hi. destruct (decide (i = n)) as [->|Hn].
  - intros Hi'. apply list_lookup_insert_Some in Hi' as [(_ & <- & _)|[? ?]]; [done|done].
  - rewrite list_lookup_insert_ne by done. apply Hc. lia.
Qed.
Lemma close_clients_carries n : evolves (carries made shut) (close_clients n).
Proof.
  induction n as [|n IH]; cbn [close_clients]; [by apply evolves_ret, carries_respects|].
  apply evolves_bind; [apply carries_respects|exact IH|intros []]. intros s. apply carry_close_client.
Qed.

Lemma wp_then {B} (m : BM unit) (k : BM B) b (P : boot W -> Prop) Q :
  wp m b (fun r b1 => r = Ok tt /\ P b1) -> (forall b1, P b1 -> wp k b1 Q) -> wp (mbnd m (fun _ => k)) b Q.
Proof. intros Hm Hk. apply wp_bind. eapply wp_weaken; [exact Hm|]. intros ? b1 [-> Hb1]. by apply Hk. Qed.

(** A step of the daemon proper that only concerns its sockets. *)
Lemma carries_held b s' : Held b -> carries made shut (bt_sys b) s' -> Held (b <| bt_sys := s' |>).
Proof.
  intros ([Hm Hf] & Hh & Ho) [(E1 & E2 & E3) Hc]. unfold held, balanced, holding in *. cbn in *.
  rewrite E1, E2, E3. split_and!; [done..|]. exact (Hc [] Ho).
Qed.

Lemma closing_server b :
  Held b ->
  wp (if 0 <=? rt_server_fd (rt_of b)
      then on_sys (close_fds [rt_server_fd (rt_of b)]) ;;; set_rt (fun rt => rt <| rt_server_fd := -1 |>)
      else mret tt) b
    (fun r b1 => r = Ok tt /\ Held b1 /\ rt_server_fd (rt_of b1) < 0 /\ rt_limits (rt_of b1) = rt_limits (rt_of b)).
Proof.
  intros Hb. destruct (0 <=? rt_server_fd (rt_of b)) eqn:Ef; [|by apply Z.leb_gt in Ef; split_and!].
  split; [done|]. split_and!; [|done|done].
  apply (carries_held b (mk_sys (rt_of b <| rt_server_fd := -1 |>) (s_world (bt_sys b))
           (s_closed (bt_sys b) ++ [rt_server_fd (rt_of b)])) Hb).
  eapply (carry_step _ _ _ _ []); [done|done|reflexivity|]. unfold open_sockets, close_if_open at 1. cbn.
  unfold rt_of in *. rewrite Ef. cbn. by rewrite Permutation_app_comm.
Qed.

(** The first half closes the sockets, the second gives back the rest. *)
Definition Quiet (b : boot W) : Prop := Held b /\ closed (rt_of b).

Lemma closing_clients b n :
  Held b -> rt_server_fd (rt_of b) < 0 -> n = Z.to_nat (max_clients (rt_limits (rt_of b))) ->
  wp (on_sys (close_clients n)) b (fun r b' => r = Ok tt /\ Quiet b').
Proof.
  intros Hb Hf ->. unfold wp, on_sys.
  pose proof (close_clients_carries (Z.to_nat (max_clients (rt_limits (rt_of b)))) (bt_sys b)) as Hk.
  pose proof (close_clients_closes (Z.to_nat (max_clients (rt_limits (rt_of b)))) (bt_sys b)) as Hc. unfold wp in Hc.
  destruct (close_clients _ (bt_sys b)) as [r s']. destruct Hc as (-> & Hw & Hl & Hs & Hc).
  split; [done|]. split; [by apply carries_held|].
  unfold closed, rt_of, live_clients in *. cbn. rewrite Hs. split; [done|]. intros i c Hi.
  apply lookup_take_Some in Hi as [Hi Hn]. eapply Hc; [|exact Hn]. by rewrite <- Hl.
Qed.

Lemma quiet_step b b' : Quiet b -> Stays b b' -> footing (rt_of b') = footing (rt_of b) -> Quiet b'.
Proof.
  intros [_ [Hs Hc]] [Hb _] Eg. split; [done|]. unfold footing in Eg. injection Eg as El Ef Ec. split; [by rewrite Ef|].
  intros i c Hi. unfold live_clients in *. apply lookup_take_Some in Hi as [Hn Hi]. rewrite El in Hn.
  assert (Hf : (c_fd <$> rt_clients (rt_of b)) !! i = Some (c_fd c)) by (rewrite <- Ec, list_lookup_fmap; by rewrite Hi).
  apply list_lookup_fmap_Some in Hf as (x & -> & Hx). apply (Hc i). by rewrite lookup_take_lt.
Qed.

Lemma free_storage b :
  Quiet b ->
  wp (match bt_storage b with Some a => os_do (fun w => k_free w a) | None => mret tt end) b
    (fun r b' => r = Ok tt /\ Quiet (b' <| bt_storage := None |>)).
Proof.
  intros [([Hm Hf] & Hh & Ho) Hc]. destruct (bt_storage b) as [a|] eqn:Es.
  - destruct (free_law (s_world (bt_sys b)) a) as (F1 & F2 & F3 & F4); [rewrite Hh; by left|].
    rewrite Hh in F1. apply (inj (cons a)) in F1. split; [done|]. split; [|exact Hc].
    unfold held, balanced, holding in *. cbn in *. rewrite F2, F3. split_and!; [done..|].
    destruct Ho as (new & gone & Ho). exists new, gone. cbn. by rewrite F4.
  - split; [done|]. by split.
Qed.

(** The ring goes last. *)
Lemma ring_released b :
  Quiet b -> bt_storage b = None -> wp (on_ring iouringd_ring_cleanup) b (fun r b' => r = Ok tt /\ Released b').
Proof.
  intros [(Q8 & B8 & O8) C8] S8. pose proof (cleanup_balanced _ _ _ Q8) as Hr.
  pose proof (heapless_cleanup (s_world (bt_sys b), bt_ring b)) as [K1 K2].
  unfold wp, on_ring in *. destruct (iouringd_ring_cleanup _) as [r [w x]]. destruct Hr as (-> & Hr & _).
  rewrite S8 in B8. cbn in K1, K2. destruct O8 as (new & gone & O1 & O2 & O3).
  rewrite (closed_sockets (s_rt (bt_sys b)) C8) in O3. split; [done|]. split_and!; [exact Hr|by cbn; rewrite K1|].
  exists new, gone. cbn. by rewrite K2.
Qed.

(** The cleanup gives everything back. *)
Lemma cleanup_released b : Held b -> wp iouringd_cleanup_runtime b (fun r b' => r = Ok tt /\ Released b').
Proof.
  intros Hb. unfold iouringd_cleanup_runtime. apply wp_bind. cbn beta iota zeta delta [wp mget].
  eapply wp_then; [by apply closing_server|]. intros b1 (Hb1 & F1 & L1). rewrite <- L1.
  eapply (wp_then _ _ _ (fun b2 => Held b2 /\ rt_server_fd (rt_of b2) < 0 /\ rt_limits (rt_of b2) = rt_limits (rt_of b1)));
    [by split_and!|]. intros b2 (Hb2 & F2 & L2). rewrite <- L2.
  eapply wp_then; [by apply closing_clients|]. intros b3 Q3.
  eapply (wp_then _ _ _ Quiet).
  { split; [done|]. eapply quiet_step; [exact Q3|by apply spares_held; [apply Q3|apply spares_refl|..]|done]. }
  intros b4 Q4. apply wp_bind. cbn beta iota zeta delta [wp mget].
  eapply (wp_then _ _ _ Quiet).
  { destruct (bt_path b4) as [p|]; [|by split]. split; [done|].
    eapply quiet_step; [exact Q4|by apply spares_held; [apply Q4|apply unlink_law|..]|done]. }
  intros b5 Q5. apply wp_bind. cbn beta iota zeta delta [wp mget].
  eapply wp_then; [by apply free_storage|]. intros b6 Q6.
  eapply (wp_then _ _ _ (fun b => Quiet b /\ bt_storage b = None)); [by split_and!|]. intros b7 [Q7 S7].
  eapply (wp_then _ _ _ (fun b => Quiet b /\ bt_storage b = None)).
  { split_and!; [done| |done]. eapply quiet_step; [exact Q7|by apply spares_held; [apply Q7|apply spares_refl|..]|done]. }
  intros b8 [Q8 S8]. by apply ring_released.
Qed.

(** ** The paths of [main] *)

(** A part of [main]: it goes on with what is held, or ends with everything
    given back. *)
Definition ends (m : BM (option Z)) (b : boot W) : Prop :=
  wp m b (fun r b' => match r with Ok None => Held b' | Ok (Some _) => Released b' | Err _ => False end).

Lemma ends_quit code b : Held b -> ends (quit code) b.
Proof.
  intros Hb. apply wp_bind. eapply wp_weaken; [by apply cleanup_released|]. by intros ? b' [-> Hr].
Qed.
Lemma ends_bind {A} (m : BM A) k b :
  wp m b (fun r b' => match r with Ok a => ends (k a) b' | Err _ => False end) -> ends (mbnd m k) b.
Proof. intros Hm. apply wp_bind. eapply wp_weaken; [exact Hm|]. by intros [a|e] b' Hb. Qed.
Lemma ends_or_quit {A} (m : BM A) code k b :
  wp m b (fun r b' => match r with Ok a => ends (k a) b' | Err _ => Held b' end) -> ends (or_quit m code k) b.
Proof.
  intros Hm. apply wp_bind, wp_try. eapply wp_weaken; [exact Hm|].
  intros [a|e] b' Hr; [exact Hr|by apply ends_quit].
Qed.
Lemma ends_retains {A} (m : BM A) code k b :
  Retains m -> Held b -> (forall a b1, Stays b b1 -> ends (k a) b1) -> ends (or_quit m code k) b.
Proof.
  intros Hm Hb Hk. apply ends_or_quit. eapply wp_weaken; [by apply Hm|].
  intros [a|e] b' Hb'; [by apply Hk|apply Hb'].
Qed.
Lemma retains_cloexec fd : Retains (os_call (fun w => k_set_cloexec w fd)).
Proof. apply retains_os_call. intros w. apply run_law. auto. Qed.
Lemma retains_nonblocking fd : Retains (os_call (fun w => k_set_nonblocking w fd)).
Proof. apply retains_os_call. intros w. apply run_law. auto. Qed.

(** The server socket goes into the runtime. *)
Lemma server_held fd w1 b :
  Held b -> rt_server_fd (rt_of b) < 0 -> k_server_socket (s_world (bt_sys b)) = (Ok fd, w1) ->
  Held (b <| bt_sys := mk_sys (rt_of b <| rt_server_fd := fd |>) w1 (s_closed (bt_sys b)) |>).
Proof.
  intros Hb Hs E. destruct (server_law _ _ _ E) as (E1 & E2 & E3 & E4 & Hd). apply carries_held; [done|].
  eapply (carry_step _ _ _ _ [fd] []); [done|done|by rewrite app_nil_r|].
  assert (E5 : close_if_open (rt_server_fd (rt_of b)) = []) by (unfold close_if_open; by rewrite (proj2 (Z.leb_gt _ _) Hs)).
  assert (E6 : close_if_open fd = [fd]) by (unfold close_if_open; by rewrite (proj2 (Z.leb_le _ _) Hd)).
  unfold open_sockets, rt_of in *. cbn in *. by rewrite E5, E6, app_nil_r.
Qed.

Lemma open_server_ends path b : Held b -> rt_server_fd (rt_of b) < 0 -> ends (open_server path) b.
Proof.
  intros Hb Hs. unfold open_server. apply ends_or_quit. unfold wp at 1, os_call at 1.
  destruct (k_server_socket _) as [r w1] eqn:E. destruct r as [fd|e].
  2: { destruct (server_law _ _ _ E) as (E1 & E2 & E3 & E4 & _). by eapply spares_held. }
  pose proof (server_held fd w1 b Hb Hs E) as Hb1.
  apply ends_bind. cbn beta iota zeta delta [wp mmod set_rt on_sys mod_rt].
  apply ends_bind. cbn beta iota zeta delta [wp mmod].
  apply ends_retains; [apply retains_cloexec|exact Hb1|]. intros [] b2 [Hb2 _].
  apply ends_retains; [apply retains_nonblocking|done|]. intros [] b3 [Hb3 _].
  destruct (_ <=? _); [by apply ends_quit|]. apply ends_bind. cbn beta iota zeta delta [wp mmod os_do].
  apply ends_retains; [|by eapply proj1, spares_held; [exact Hb3|apply unlink_law|..]|].
  { apply retains_os_call. intros w. apply bind_law. }
  intros [] b4 [Hb4 _]. apply ends_bind. cbn beta iota zeta delta [wp mget].
  apply ends_retains; [|done|by intros [] b5 [Hb5 _]]. apply retains_os_call. intros w. apply listen_law.
Qed.

Lemma equip_ends path caps b :
  Held b -> bt_storage b = None -> rt_server_fd (rt_of b) < 0 -> ends (equip path caps) b.
Proof.
  intros Hb Es Hs. unfold equip. apply ends_bind. cbn beta iota zeta delta [wp adopt_ring mbnd mget set_rt on_sys mod_rt mmod].
  assert (Hb0 : forall rt, footing rt = footing (rt_of b) -> Held (b <| bt_sys := bt_sys b <| s_rt := rt |> |>))
    by (intros rt Hf; by eapply proj1, spares_held; [exact Hb|apply spares_refl|..]).
  apply ends_bind. cbn beta iota zeta delta [wp mget]. destruct (_ || _); [by apply ends_quit, Hb0|].
  apply ends_or_quit. eapply wp_weaken; [by apply storage_held; [apply Hb0|]|]. intros r b1 [Hb1 F1].
  destruct r as [[]|e]; [|done]. cbn in F1.
  apply ends_retains; [apply retains_register_files|done|]. intros [] b2 [Hb2 F2].
  apply ends_retains; [apply retains_register_buffers|done|]. intros [] b3 [Hb3 F3].
  apply ends_bind. cbn beta iota zeta delta [wp set_parameters mget set_rt on_sys mod_rt mmod].
  apply open_server_ends; [by eapply proj1, spares_held; [exact Hb3|apply spares_refl|..]|].
  change (rt_server_fd (rt_of b3) < 0). rewrite F3, F2, F1. exact Hs.
Qed.

(** Nothing is held before the ring is set up. *)
Record Vacant (b : boot W) : Prop := {
  va_ring : holding maps fds [] [] (s_world (bt_sys b)) /\ bt_ring b = ring_struct_zero;
  va_heap : heap (s_world (bt_sys b)) ≡ₚ blocks /\ bt_storage b = None;
  va_sockets : sockets (s_world (bt_sys b)) = made /\ s_closed (bt_sys b) = shut /\ rt_server_fd (rt_of b) < 0;
}.

Lemma vacant_released b : Vacant b -> Released b.
Proof.
  intros [[Hm _] [Hh _] (Hs & Hc & _)]. split_and!; [done|done|]. exists [], []. by rewrite Hs, Hc, app_nil_r.
Qed.

Lemma spares_released (b b' : boot W) :
  Released b -> spared live opened heap sockets (s_world (bt_sys b)) (s_world (bt_sys b')) ->
  s_closed (bt_sys b') = s_closed (bt_sys b) -> Released b'.
Proof.
  intros ([Hm Hf] & Hh & Ho) (E1 & E2 & E3 & E4) Ec. unfold released, holding in *. by rewrite E1, E2, E3, E4, Ec.
Qed.

Lemma released_os_call {A} (f : W -> outcome A * W) b :
  (forall w, spared live opened heap sockets w (snd (f w))) -> Released b -> wp (os_call f) b (fun _ b' => Released b').
Proof.
  intros Hf Hb. unfold wp, os_call. specialize (Hf (s_world (bt_sys b))). destruct (f _) as [r w].
  by eapply spares_released.
Qed.

Lemma vacant_os_call {A} (f : W -> outcome A * W) b :
  (forall w, spared live opened heap sockets w (snd (f w))) -> Vacant b -> wp (os_call f) b (fun _ b' => Vacant b').
Proof.
  intros Hf [[[Hm Hn] Er] [Hh Es] (Hs & Hc & Hd)]. unfold wp, os_call. specialize (Hf (s_world (bt_sys b))).
  destruct (f _) as [r w]. destruct Hf as (E1 & E2 & E3 & E4). cbn [snd] in *.
  constructor; cbn; unfold holding; rewrite ?E1, ?E2, ?E3, ?E4; by split_and!.
Qed.

Lemma signals_vacant b : Vacant b -> wp iouringd_install_signal_handlers b (fun _ b' => Vacant b').
Proof.
  intros Hb. unfold iouringd_install_signal_handlers. apply wp_bind.
  eapply wp_weaken; [apply vacant_os_call; [|exact Hb]; intros w; apply sigemptyset_law|]. intros [[]|e] b1 Hb1; [|done].
  apply wp_bind. eapply wp_weaken; [apply vacant_os_call; [|exact Hb1]; intros w; apply sigaction_law|].
  intros [[]|e] b2 Hb2; [|done]. apply vacant_os_call; [|done]. intros w. apply sigaction_law.
Qed.

Lemma ring_init_vacant entries caps b :
  Vacant b -> wp (on_ring (iouringd_ring_init entries caps)) b (fun r b' =>
    match r with
    | Ok _ => Held b' /\ bt_storage b' = None /\ rt_server_fd (rt_of b') < 0
    | Err _ => Released b'
    end).
Proof.
  intros [[Hm Er] [Hh Es] (Hs & Hc & Hf)]. pose proof (ring_init_steps maps fds entries caps _ (bt_ring b) Hm) as Hr.
  pose proof (heapless_init entries caps (s_world (bt_sys b), bt_ring b)) as [K1 K2].
  unfold step_to, wp, on_ring in *. destruct (iouringd_ring_init _ _ _) as [[k|e] [w x]]; cbn in K1, K2.
  - destruct Hr as [[_ _ _ _ Hr] _]. split_and!; [|exact Es|exact Hf]. split_and!; [exact Hr|by cbn; rewrite K1, Es|].
    exists [], []. cbn. rewrite K2, Hs, Hc, app_nil_r. split_and!; [done|done|apply submseteq_nil_l].
  - destruct Hr as [Hr _]. split_and!; [exact Hr|by cbn; rewrite K1|]. exists [], []. cbn. by rewrite K2, Hs, Hc, app_nil_r.
Qed.

(** What is there when [main] is called. *)
Record outset (b : boot W) : Prop := {
  os_ring : holding maps fds [] [] (s_world (bt_sys b));
  os_heap : heap (s_world (bt_sys b)) ≡ₚ blocks;
  os_sockets : sockets (s_world (bt_sys b)) = made /\ s_closed (bt_sys b) = shut;
}.

Lemma outset_released b b' : outset b -> s_world (bt_sys b') = s_world (bt_sys b) -> s_closed (bt_sys b') = s_closed (bt_sys b) -> Released b'.
Proof.
  intros [Hm Hh [Hs Hc]] Ew Ec. unfold released. rewrite Ew, Ec. split_and!; [done|done|].
  exists [], []. by rewrite Hs, Hc, app_nil_r.
Qed.

Lemma start_ends argv b : outset b -> ends (start argv) b.
Proof.
  intros Hb. unfold start. destruct (_ <? _)%nat; [by eapply outset_released|].
  apply ends_bind. cbn beta iota zeta delta [wp set_rt on_sys mod_rt mmod].
  apply ends_bind. cbn beta iota zeta delta [wp mmod].
  destruct (iouringd_parse_args argv) as [a|e]; [|by eapply outset_released].
  apply ends_bind. cbn beta iota zeta delta [wp apply_arguments mbnd set_rt on_sys mod_rt mmod].
  apply ends_bind, wp_try. eapply wp_weaken.
  { apply signals_vacant. destruct Hb as [Hm Hh [Hs Hc]]. by constructor; split_and!. }
  intros [[]|e] b1 Hb1; [|by apply vacant_released]. apply ends_bind, wp_try.
  eapply wp_weaken; [by apply ring_init_vacant|].
  intros [caps|e] b2 Hb2; [|exact Hb2]. destruct Hb2 as (Hb2 & Es & Hf). by apply equip_ends.
Qed.

Lemma run_held rounds fuel b : Held b -> wp (on_sys (iouringd_run rounds fuel)) b (fun _ b' => Held b').
Proof.
  intros Hb. pose proof (evolves_run (carries made shut) rounds fuel (bt_sys b)) as He.
  unfold wp, on_sys. destruct (iouringd_run rounds fuel (bt_sys b)) as [r s]. by apply carries_held.
Qed.

Lemma finish_ends b : Held b -> wp finish b (fun r b' => (exists code, r = Ok (Some code)) /\ Released b').
Proof.
  intros Hb. unfold finish. apply wp_bind. eapply wp_weaken; [by apply cleanup_released|]. intros ? b1 [-> Hb1].
  apply wp_bind. cbn beta iota zeta delta [wp mget]. destruct (k_stop _); [|split; [by eexists|done]].
  apply wp_bind. unfold iouringd_finish_stop_signal. apply wp_bind. cbn beta iota zeta delta [wp mget].
  destruct (_ =? 0); [split; [by eexists|done]|]. apply wp_bind, wp_try.
  eapply (wp_weaken _ _ (fun _ b2 => Released b2)).
  { apply wp_bind. eapply wp_weaken; [apply released_os_call; [|exact Hb1]; intros w; apply sigemptyset_law|].
    intros [[]|e] b2 Hb2; [|done]. apply released_os_call; [|done]. intros w. apply sigaction_law. }
  intros [[]|e] b2 Hb2; [|split; [by eexists|done]]. apply wp_bind. cbn. split; [by eexists|].
  eapply spares_released; [exact Hb2|apply raise_law|done].
Qed.

Lemma main_ends rounds fuel argv b : outset b -> ends (main rounds fuel argv) b.
Proof.
  intros Hb. unfold main. apply ends_bind. eapply wp_weaken; [by apply start_ends|].
  intros [[code|]|e] b1 Hb1; [exact Hb1| |done].
  apply ends_bind, wp_try. eapply wp_weaken; [by apply run_held|]. intros [st|e] b2 Hb2; [|by apply ends_quit].
  destruct st; try exact Hb2; (eapply wp_weaken; [by apply finish_ends|]); by intros r b3 [[code ->] Hb3].
Qed.
End Ends.

(** C23: every way out of [main] leaves nothing behind.  However the start-up and the main loop
    end (a missing argument, a usage error, a call that fails at any point, a failed
    poll, a stop signal), when [main] returns, the mappings and the descriptor of the
    ring are gone, of the blocks [main] has allocated none is left and none was freed
    twice, and every socket it has obtained, the server's and those [accept]
    returned, has been passed to [close]; [main] returns a status on each of these
    paths, unless the bound on the rounds is used up. *)
Theorem main_releases {W} `{BootOk W} rounds fuel argv (b b' : boot W) r :
  main rounds fuel argv b = (r, b') -> r <> Ok None ->
  (exists code, r = Ok (Some code)) /\
  live (s_world (bt_sys b')) ≡ₚ live (s_world (bt_sys b)) /\
  opened (s_world (bt_sys b')) ≡ₚ opened (s_world (bt_sys b)) /\
  heap (s_world (bt_sys b')) ≡ₚ heap (s_world (bt_sys b)) /\
  exists new gone, sockets (s_world (bt_sys b')) = new ++ sockets (s_world (bt_sys b)) /\
                   s_closed (bt_sys b') = s_closed (bt_sys b) ++ gone /\ new ⊆+ gone.
Proof.
  intros E Hn.
  pose proof (main_ends (live (s_world (bt_sys b))) (opened (s_world (bt_sys b))) (heap (s_world (bt_sys b)))
                (sockets (s_world (bt_sys b))) (s_closed (bt_sys b)) rounds fuel argv b) as He.
  unfold ends, wp in He. rewrite E in He. destruct r as [[code|]|e].
  - destruct He as ([H5 H6] & H7 & H8); [by constructor|]. split; [by eexists|]. by split_and!.
  - done.
  - by destruct He.
Qed.

(** ** A concrete host

    The scripted kernel and the bench, a heap with increasing addresses, the sockets
    obtained, the list of paths removed, and the stop signal that has arrived, if
    any. *)

Record host := mk_host {
  ho_script : script;
  ho_bench : bench;
  ho_heap : list Z;
  ho_sockets : list Z;
  ho_removed : list string;
  ho_signal : Z;
}.

Definition on_script {A} (f : script -> A * script) (h : host) : A * host :=
  let '(a, s) := f (ho_script h) in (a, mk_host s (ho_bench h) (ho_heap h) (ho_sockets h) (ho_removed h) (ho_signal h)).
Definition set_bench (h : host) (x : bench) : host :=
  mk_host (ho_script h) x (ho_heap h) (ho_sockets h) (ho_removed h) (ho_signal h).
Definition on_bench {A} (f : bench -> A * bench) (h : host) : A * host :=
  let '(a, x) := f (ho_bench h) in (a, set_bench h x).
Definition set_heap (h : host) (l : list Z) : host :=
  mk_host (ho_script h) (ho_bench h) l (ho_sockets h) (ho_removed h) (ho_signal h).
(** A descriptor more, if the call has returned one. *)
Definition with_socket (rh : outcome Z * host) : outcome Z * host :=
  let '(r, h) := rh in
  let r' := match r with Ok fd => Ok (Z.max 0 fd) | Err e => Err e end in
  (r', mk_host (ho_script h) (ho_bench h) (ho_heap h) (gained r' ++ ho_sockets h) (ho_removed h) (ho_signal h)).

#[export] Instance host_kernel : Kernel host := {|
  k_enter h r n := on_script (fun s => k_enter s r n) h;
  k_files_update h i fd := on_script (fun s => k_files_update s i fd) h;
  k_cq h r := on_script (fun s => k_cq s r) h;
  k_clock h := on_script k_clock h;
  k_recvmsg h fd n := on_script (fun s => k_recvmsg s fd n) h;
  k_write h fd buf := on_script (fun s => k_write s fd buf) h;
  k_accept h fd := with_socket (on_script (fun s => k_accept s fd) h);
  k_set_nonblocking h fd := on_script (fun s => k_set_nonblocking s fd) h;
  k_set_cloexec h fd := on_script (fun s => k_set_cloexec s fd) h;
  k_malloc h n := on_script (fun s => k_malloc s n) h;
  k_poll h fds := on_script (fun s => k_poll s fds) h;
  k_stop h := negb (ho_signal h =? 0);
  k_accept_fault h := match k_fault (ho_bench h) with Some f => String.eqb f "submit_accept_einval" | None => false end;
|}.

#[export] Instance host_setup : SetupKernel host := {|
  k_fault h := k_fault (ho_bench h);
  k_setup h entries flags := on_bench (fun x => k_setup x entries flags) h;
  k_mmap h size off := on_bench (fun x => k_mmap x size off) h;
  k_munmap h a size := set_bench h (k_munmap (ho_bench h) a size);
  k_close_fd h fd := set_bench h (k_close_fd (ho_bench h) fd);
  k_probe h fd n := on_bench (fun x => k_probe x fd n) h;
  k_register_files h fd v := on_bench (fun x => k_register_files x fd v) h;
  k_register_buffers h fd v := on_bench (fun x => k_register_buffers x fd v) h;
  k_shared h fd := k_shared (ho_bench h) fd;
|}.

#[export] Instance host_boot : BootKernel host := {|
  k_sigemptyset h := (Ok tt, h);
  k_sigaction h _ _ := (Ok tt, h);
  k_raise h _ := h;
  k_stop_signal := ho_signal;
  k_request_stop h signo := mk_host (ho_script h) (ho_bench h) (ho_heap h) (ho_sockets h) (ho_removed h) signo;
  k_calloc h _ := let a := foldr Z.max 4096 (ho_heap h) + 1 in (Ok a, set_heap h (a :: ho_heap h));
  k_free h a := set_heap h (remove_one a (ho_heap h));
  k_server_socket h := with_socket (Ok 9, h);
  k_bind h _ _ := (Ok tt, h);
  k_listen h _ _ := (Ok tt, h);
  k_unlink h p := mk_host (ho_script h) (ho_bench h) (ho_heap h) (ho_sockets h) (ho_removed h ++ [p]) (ho_signal h);
|}.

Lemma on_bench_eq {A} (f : bench -> A * bench) h r h' :
  on_bench f h = (r, h') -> f (ho_bench h) = (r, ho_bench h').
Proof. unfold on_bench. destruct (f _) as [a x]. by intros [= <- <-]. Qed.

#[export] Instance host_ok : SetupOk host.
Proof.
  refine {| live h := live (ho_bench h); opened h := opened (ho_bench h) |}.
  - intros w entries flags r w' E. exact (setup_law _ _ _ _ _ (on_bench_eq _ _ _ _ E)).
  - intros w size off r w' E. exact (mmap_law _ _ _ _ _ (on_bench_eq _ _ _ _ E)).
  - intros w a size. apply (munmap_law (ho_bench w)).
  - intros w fd. apply (close_law (ho_bench w)).
  - intros w fd n r w' E. exact (probe_law _ _ _ _ _ (on_bench_eq _ _ _ _ E)).
  - intros w fd v r w' E. exact (files_law _ _ _ _ _ (on_bench_eq _ _ _ _ E)).
  - intros w fd v r w' E. exact (buffers_law _ _ _ _ _ (on_bench_eq _ _ _ _ E)).
Defined.

Lemma on_script_spares {A} (f : script -> A * script) h :
  spared live opened ho_heap ho_sockets h (snd (on_script f h)).
Proof. unfold on_script. by destruct (f _). Qed.
Lemma on_bench_heap {A} (f : bench -> A * bench) h :
  ho_heap (snd (on_bench f h)) = ho_heap h /\ ho_sockets (snd (on_bench f h)) = ho_sockets h.
Proof. unfold on_bench. by destruct (f _). Qed.
Lemma with_socket_law h h1 r0 r h' :
  with_socket (r0, h1) = (r, h') -> spared live opened ho_heap ho_sockets h h1 ->
  live h' = live h /\ opened h' = opened h /\ ho_heap h' = ho_heap h /\ ho_sockets h' = gained r ++ ho_sockets h /\
  descriptor r.
Proof.
  intros E (E1 & E2 & E3 & E4). injection E as <- <-. cbn. rewrite E4. split_and!; [done..|].
  destruct r0; cbn; [lia|done].
Qed.

#[export] Instance host_boot_ok : BootOk host.
Proof.
  refine {| heap := ho_heap; sockets := ho_sockets |}; try done; try (intros; apply on_bench_heap).
  - intros w w' Hc. destruct Hc; apply on_script_spares.
  - intros w fd r w' E. unfold k_accept, host_kernel in E.
    pose proof (on_script_spares (fun s => k_accept s fd) w) as Hs. destruct (on_script _ w) as [r0 h1].
    exact (with_socket_law _ _ _ _ _ E Hs).
  - intros w r w' E. by apply (with_socket_law w w (Ok 9) r w').
  - intros w n r w' [= <- <-]. done.
  - intros w a Ha. split; [by apply remove_one_perm|done].
Defined.

Definition host_start_with (script : script) (fail : list bool) (signal : Z) : boot host :=
  mk_boot (mk_sys iouringd_init_runtime (mk_host script (mk_bench [(500, 7)] [0; 1] fail) [77] [] [] signal) [])
    ring_struct_zero None None (-1).
Definition host_start : list bool -> Z -> boot host := host_start_with quiet.
Definition host_argv : list string := ["iouringd"; "--registered-fds"; "2"; "/run/iouringd.sock"]%string.

(** The start-up succeeds and SIGTERM stops the loop. *)
Lemma main_enters_loop_witness :
  exists a b', start host_argv (host_start [] 0) = (Ok None, b') /\
    iouringd_parse_args host_argv = Ok a /\ registered_fds_per_client (arg_limits a) = 2 /\ reachable (bt_sys b').
Proof.
  destruct (start host_argv (host_start [] 0)) as [r b'] eqn:E.
  assert (Hr : r = Ok None) by (change r with (fst (r, b')); rewrite <- E; vm_compute; reflexivity). subst r.
  destruct (main_enters_loop host_argv (host_start [] 0) b' E) as (a & Ha & _ & Hr).
  exists a, b'. split; [done|]. split; [done|]. split; [|done].
  vm_compute in Ha. by injection Ha as <-.
Defined.

(** SIGTERM stops the loop; the third mapping of the ring fails; a client is accepted, and the
    next poll fails. *)
Definition one_client : script := quiet <| sc_poll := [Ok [POLLIN]; Err 5] |> <| sc_accept := [Ok 11] |>.

Lemma main_releases_witness :
  let run script fail signal := main 3 3 host_argv (host_start_with script fail signal) in
  (exists b', run quiet [] 15 = (Ok (Some 143), b') /\ live (s_world (bt_sys b')) ≡ₚ [(500, 7)] /\
     heap (s_world (bt_sys b')) ≡ₚ [77]) /\
  (exists b', run quiet [false; false; true] 15 = (Ok (Some 1), b') /\ opened (s_world (bt_sys b')) ≡ₚ [0; 1]) /\
  (exists b' gone, run one_client [] 0 = (Ok (Some 1), b') /\ s_closed (bt_sys b') = gone /\ [11; 9] ⊆+ gone).
Proof.
  intros run.
  assert (Hrun : forall script fail signal code, fst (run script fail signal) = Ok (Some code) ->
    exists b', run script fail signal = (Ok (Some code), b') /\ live (s_world (bt_sys b')) ≡ₚ [(500, 7)] /\
      opened (s_world (bt_sys b')) ≡ₚ [0; 1] /\ heap (s_world (bt_sys b')) ≡ₚ [77] /\
      exists new gone, sockets (s_world (bt_sys b')) = new ++ [] /\ s_closed (bt_sys b') = [] ++ gone /\ new ⊆+ gone).
  { intros script fail signal code E. destruct (run script fail signal) as [r b'] eqn:Er. cbn in E. subst r. exists b'.
    split; [done|]. exact (proj2 (main_releases 3 3 host_argv (host_start_with script fail signal) b' _ Er ltac:(done))). }
  split_and!.
  - destruct (Hrun quiet [] 15 143) as (b' & E & Hl & _ & Hh & _); [vm_compute; reflexivity|].
    exact (ex_intro _ b' (conj E (conj Hl Hh))).
  - destruct (Hrun quiet [false; false; true] 15 1) as (b' & E & _ & Ho & _); [vm_compute; reflexivity|].
    exact (ex_intro _ b' (conj E Ho)).
  - destruct (Hrun one_client [] 0 1) as (b' & E & _ & _ & _ & new & gone & Hs & Hc & Hn); [vm_compute; reflexivity|].
    assert (Hnew : sockets (s_world (bt_sys (snd (run one_client [] 0)))) = [11; 9]) by (vm_compute; reflexivity).
    rewrite E in Hnew. cbn [snd] in Hnew. rewrite Hs, app_nil_r in Hnew. subst new.
    exact (ex_intro _ b' (ex_intro _ gone (conj E (conj Hc Hn)))).
Defined.

(** The table of files cannot be mapped: the start-up fails before there is a
    server socket, and the file at the socket path is removed all the same. *)
Example failed_start_unlinks :
  let '(r, b') := start host_argv (host_start [false; false; false; false; true] 0) in
  r = Ok (Some 1) /\ ho_removed (s_world (bt_sys b')) = ["/run/iouringd.sock"%string] /\ s_closed (bt_sys b') = [].
Proof. vm_compute. done. Qed.

(** ** The stop signal and the server socket *)

Section Twice.
Context {W : Type} `{Kernel W} `{SetupKernel W} `{BootKernel W}.
Abbreviation BM := (BM (W := W)).

(** Descriptors closed are only added to. *)
Definition closes_on {A} (m : BM A) : Prop :=
  forall b, exists l, s_closed (bt_sys (snd (m b))) = s_closed (bt_sys b) ++ l.

Lemma closes_on_bind {A B} (m : BM A) (k : A -> BM B) :
  closes_on m -> (forall a, closes_on (k a)) -> closes_on (mbnd m k).
Proof.
  intros Hm Hk b. destruct (Hm b) as [l Hl]. unfold mbnd. destruct (m b) as [[a|e] b1]; [|by exists l].
  destruct (Hk a b1) as [l' Hl']. exists (l ++ l'). rewrite Hl'. cbn in Hl. by rewrite Hl, app_assoc.
Qed.
Lemma closes_on_same {A} (m : BM A) :
  (forall b, s_closed (bt_sys (snd (m b))) = s_closed (bt_sys b)) -> closes_on m.
Proof. intros Hm b. exists []. by rewrite Hm, app_nil_r. Qed.
Lemma closes_on_ring {A} (m : RM (W := W) A) : closes_on (on_ring m).
Proof. apply closes_on_same. intros b. unfold on_ring. by destruct (m _) as [r [w x]]. Qed.
Lemma closes_on_clients n : closes_on (on_sys (close_clients n)).
Proof.
  induction n as [|n IH]; intros b; [by apply closes_on_same|]. destruct (IH b) as [l Hl].
  unfold on_sys in *. cbn [close_clients]. unfold mbnd at 1.
  destruct (close_clients n (bt_sys b)) as [[[]|e] s1]; cbn in *; [|by exists l].
  eexists. rewrite Hl, <- app_assoc. reflexivity.
Qed.

Lemma cleanup_closes_server b fd :
  0 <= fd -> rt_server_fd (rt_of b) = fd ->
  exists l, s_closed (bt_sys (snd (iouringd_cleanup_runtime b))) = s_closed (bt_sys b) ++ fd :: l.
Proof.
  intros Hfd <-. unfold iouringd_cleanup_runtime. cbn [mbnd mget]. rewrite (proj2 (Z.leb_le _ _) Hfd).
  match goal with |- context [mbnd (mbnd _ _) ?k] =>
    assert (Hk : closes_on (k tt)); [|revert Hk; generalize k; intros rest Hk] end.
  - cbn beta. repeat first [apply closes_on_bind; [|intros ?] | apply closes_on_ring | apply closes_on_clients
      | match goal with |- closes_on (match ?x with _ => _ end) => destruct x end | by apply closes_on_same].
  - cbn [mbnd on_sys close_fds mmod set_rt mod_rt]. cbv beta iota zeta.
    match goal with |- context [rest tt ?b1] => destruct (Hk b1) as [l Hl] end. exists l. rewrite Hl. cbn.
    by rewrite <- app_assoc.
Qed.

(** A stop signal closes the server socket twice.  The handler closes the descriptor but
    leaves it in the runtime, so the cleanup closes the same number again, when it
    may already stand for another file. *)
Theorem stop_signal_closes_twice signo (b : boot W) fd :
  0 <= fd -> rt_server_fd (rt_of b) = fd -> bt_server_fd b = fd ->
  exists l, s_closed (bt_sys (snd ((iouringd_handle_stop_signal signo ;;; iouringd_cleanup_runtime) b))) =
            s_closed (bt_sys b) ++ [fd; fd] ++ l.
Proof.
  intros Hfd Hr Hb.
  assert (Hs : exists b1, iouringd_handle_stop_signal signo b = (Ok tt, b1) /\ rt_server_fd (rt_of b1) = fd /\
                          s_closed (bt_sys b1) = s_closed (bt_sys b) ++ [fd]).
  { unfold iouringd_handle_stop_signal, mbnd, os_do, mmod, mget. cbn. rewrite Hb, (proj2 (Z.leb_le _ _) Hfd). by eexists. }
  destruct Hs as (b1 & Es & Hr1 & Hc1). unfold mbnd. rewrite Es.
  destruct (cleanup_closes_server b1 fd Hfd Hr1) as [l Hl]. exists l. by rewrite Hl, Hc1, <- app_assoc.
Qed.
End Twice.

(** SIGTERM arrives in the running daemon. *)
Lemma stop_signal_closes_twice_witness :
  exists b l, start host_argv (host_start [] 0) = (Ok None, b) /\
    s_closed (bt_sys (snd ((iouringd_handle_stop_signal SIGTERM ;;; iouringd_cleanup_runtime) b))) = [9; 9] ++ l.
Proof.
  assert (Hb : let '(r, b) := start host_argv (host_start [] 0) in
               r = Ok None /\ rt_server_fd (rt_of b) = 9 /\ bt_server_fd b = 9 /\ s_closed (bt_sys b) = []).
  { vm_compute. by split_and!. }
  destruct (start host_argv (host_start [] 0)) as [r b].
  destruct Hb as (-> & H1 & H2 & H3).
  destruct (stop_signal_closes_twice SIGTERM b 9 ltac:(lia) H1 H2) as [l Hl]. exists b, l. by rewrite Hl, H3.
Defined.
