(* ===== verification/Progress.v ===== *)
(** * The dispatcher makes progress

    [iouringd_dispatch_ready_requests] of [src/daemon/main.c].  Dispatching a
    request takes it off the client that made it and touches no other client's
    request ([dispatch_takes]); a pass over the clients in which something waits
    dispatches something, and a pass that dispatches nothing has looked at every
    client and found nothing: [dispatch_progress].  So the daemon does not go to
    sleep in [poll] with a request waiting. *)

From S2P Require Import Prelude Wire Kernel Ring State Output Resources Trace Daemon Startup Input Request Reader Dispatch Complete Sched Session Corners Correct.

Section Marks.
Context {W : Type} `{Kernel W}.
Abbreviation DM := (DM (W := W)).

(** What the dispatcher looks at: the connection and the request of each client,
    and where the scan starts. *)
Definition mark (c : client) : Z * client_request := (c_fd c, c_req c).
Definition marks (rt : runtime) : iouringd_limits * nat * list (Z * client_request) :=
  (rt_limits rt, rt_dispatch_cursor rt, mark <$> rt_clients rt).

(** A computation that changes none of it. *)
Definition calm {A} (m : DM A) : Prop := forall s, marks (s_rt (snd (m s))) = marks (s_rt s).

Lemma calm_same {A} (m : DM A) : (forall s, marks (s_rt (snd (m s))) = marks (s_rt s)) -> calm m.
Proof. done. Qed.
Lemma calm_ret {A} (a : A) : calm (mret a).
Proof. done. Qed.
Lemma calm_fail {A} e : calm (mfail (A := A) e).
Proof. done. Qed.
Lemma calm_get {A} (f : sys W -> A) : calm (mget f).
Proof. done. Qed.
Lemma calm_bind {A B} (m : DM A) (k : A -> DM B) : calm m -> (forall a, calm (k a)) -> calm (mbnd m k).
Proof. intros Hm Hk s. specialize (Hm s). unfold mbnd. destruct (m s) as [[a|e] s1]; [|done]. by rewrite Hk. Qed.
Lemma calm_try {A} (m : DM A) : calm m -> calm (mtry m).
Proof. intros Hm s. specialize (Hm s). unfold mtry. by destruct (m s). Qed.
Lemma calm_mod_rt f : (forall rt, marks (f rt) = marks rt) -> calm (mod_rt f).
Proof. intros Hf s. apply Hf. Qed.

Lemma marks_client rt i c :
  mark c = mark (rt_clients rt !!! i) -> mark <$> <[i := c]> (rt_clients rt) = mark <$> rt_clients rt.
Proof.
  intros Hc. apply list_eq. intros j. rewrite !list_lookup_fmap.
  destruct (decide (i = j)) as [->|Hn]; [|by rewrite list_lookup_insert_ne].
  destruct (rt_clients rt !! j) as [x|] eqn:E.
  - rewrite list_lookup_insert_eq by (by eapply lookup_lt_Some). cbn. rewrite Hc. f_equal.
    by rewrite (list_lookup_total_correct _ _ _ E).
  - by rewrite list_insert_ge, E by (by apply lookup_ge_None).
Qed.
Lemma calm_mod_client i f : (forall c, mark (f c) = mark c) -> calm (mod_client i f).
Proof. intros Hf. apply calm_mod_rt. intros rt. unfold marks. cbn. by rewrite marks_client. Qed.
Lemma calm_mod_task k f : calm (mod_task k f).
Proof. by apply calm_mod_rt. Qed.
Lemma calm_set_res i f : calm (set_res i f).
Proof. by apply calm_mod_client. Qed.
Lemma calm_set_file_slot i j f : calm (set_file_slot i j f).
Proof. apply calm_set_res. Qed.
Lemma calm_set_buffer_slot i j f : calm (set_buffer_slot i j f).
Proof. apply calm_set_res. Qed.
Lemma calm_close_fds fds : calm (close_fds fds).
Proof. done. Qed.
Lemma calm_with_ring f : calm (with_ring f).
Proof. intros s. unfold with_ring. by destruct (f _ _) as [[rc r] w]. Qed.
Lemma calm_ring_update_file j fd : calm (ring_update_file j fd).
Proof. intros s. unfold ring_update_file. by destruct (iouringd_ring_update_registered_file _ _ _ _). Qed.
Lemma calm_emit_trace i ek tk p tid rid res cr : calm (emit_trace i ek tk p tid rid res cr).
Proof. intros s. unfold emit_trace. by destruct (k_clock _). Qed.
Lemma calm_queue_output i buf : calm (queue_output i buf).
Proof.
  intros s. unfold queue_output. destruct (iouringd_queue_client_output _ _) as [rc b].
  unfold marks. cbn. by rewrite marks_client.
Qed.
End Marks.

Create HintDb calm.
#[export] Hint Constants Opaque : calm.
#[export] Hint Resolve calm_ret calm_fail calm_get calm_mod_task calm_set_res calm_set_file_slot
  calm_set_buffer_slot calm_close_fds calm_with_ring calm_ring_update_file calm_emit_trace calm_queue_output : calm.

(** Decomposes a computation; what the database does not know is unfolded. *)
Ltac calm_step :=
  lazymatch goal with
  | |- calm (mbnd _ _) => apply calm_bind; [|intros ?]
  | |- calm (mtry _) => apply calm_try
  | |- calm (match ?x with _ => _ end) => destruct x
  | |- calm (mod_client _ _) => apply calm_mod_client; done
  | |- calm ?m => first [solve [eauto with calm] | apply calm_mod_rt; done | calm_unfold m]
  end
with calm_unfold m := let h := calm_head m in unfold h
with calm_head m := lazymatch m with ?f _ => calm_head f | _ => m end.
Ltac calm_tac := repeat calm_step.

Section Takes.
Context {W : Type} `{Kernel W}.
Abbreviation DM := (DM (W := W)).

(** A computation that, when it returns, has finished client [i]'s request and
    changed no other. *)
Definition finished (i : nat) (x : iouringd_limits * nat * list (Z * client_request)) :=
  let '(l, cursor, ms) := x in
  (l, cursor, alter (fun '(fd, q) => (fd, finish_request q)) i ms).
Definition takes (i : nat) (m : DM bool) : Prop :=
  forall s b s', m s = (Ok b, s') -> b = true /\ marks (s_rt s') = finished i (marks (s_rt s)).

Lemma takes_bind {A} i (m : DM A) (k : A -> DM bool) : calm m -> (forall a, takes i (k a)) -> takes i (mbnd m k).
Proof.
  intros Hm Hk s b s' E. specialize (Hm s). unfold mbnd in E. destruct (m s) as [[a|e] s1]; [|done].
  destruct (Hk a _ _ _ E) as [-> Ht]. split; [done|]. cbn in Hm. by rewrite Ht, Hm.
Qed.
Lemma takes_fail i e : takes i (mfail e).
Proof. intros s b s' E. by injection E. Qed.
Lemma takes_finish i : takes i (finish_true i).
Proof.
  intros s b s' [= <- <-]. split; [done|]. unfold marks, finished. cbn. f_equal.
  apply list_eq. intros j. rewrite list_lookup_alter, !list_lookup_fmap.
  destruct (decide (i = j)) as [->|Hn]; [|by rewrite list_lookup_insert_ne].
  destruct (rt_clients (s_rt s) !! j) as [x|] eqn:E.
  - rewrite list_lookup_insert_eq by (by eapply lookup_lt_Some). cbn. by rewrite (list_lookup_total_correct _ _ _ E).
  - by rewrite list_insert_ge, E by (by apply lookup_ge_None).
Qed.

Ltac takes_step :=
  lazymatch goal with
  | |- takes _ (mbnd _ _) => apply takes_bind; [calm_tac|intros ?]
  | |- takes _ (match ?x with _ => _ end) => destruct x
  | |- takes _ (finish_true _) => apply takes_finish
  | |- takes _ (mfail _) => apply takes_fail
  end.
Ltac takes_tac := repeat takes_step.

Context (i : nat).
Lemma takes_reject e : takes i (reject i e).
Proof. unfold reject. takes_tac. Qed.
Lemma takes_refuse e avail : takes i (refuse i e avail).
Proof. unfold refuse. takes_tac. Qed.
Lemma takes_accept k credit undo : calm undo -> takes i (accept_task i k credit undo).
Proof. intros Hu. unfold accept_task. takes_tac. Qed.
Lemma takes_abandon k e undo : calm undo -> takes i (abandon_task i k e undo).
Proof. intros Hu. unfold abandon_task. takes_tac. apply takes_reject. Qed.
Lemma takes_register_fd : takes i (dispatch_register_fd i).
Proof. unfold dispatch_register_fd. takes_tac; apply takes_refuse. Qed.
Lemma takes_register_buffer : takes i (dispatch_register_buffer i).
Proof. unfold dispatch_register_buffer. takes_tac; apply takes_refuse. Qed.
Lemma takes_release : takes i (dispatch_release i).
Proof. unfold dispatch_release. takes_tac; apply takes_refuse. Qed.

Ltac ends_tac :=
  takes_tac; first [apply takes_reject | apply takes_abandon; calm_tac | apply takes_accept; calm_tac].
Lemma takes_openat rt c : takes i (dispatch_openat i rt c).
Proof. unfold dispatch_openat. ends_tac. Qed.
Lemma takes_close rt c : takes i (dispatch_close i rt c).
Proof. unfold dispatch_close. ends_tac. Qed.
Lemma takes_io rt c : takes i (dispatch_io i rt c).
Proof. unfold dispatch_io, start_io. ends_tac. Qed.
Lemma takes_simple rt c : takes i (dispatch_simple i rt c).
Proof. unfold dispatch_simple. ends_tac. Qed.

Lemma calm_queue_events es : calm (W := W) (queue_events i es).
Proof. induction es as [|e es IH]; cbn [queue_events]; calm_tac. Qed.
#[local] Hint Resolve calm_queue_events : calm.

(** Dispatching takes the request, if there is one. *)
Lemma dispatch_takes s b s' :
  iouringd_dispatch_client_request i s = (Ok b, s') -> request_ready (c_req (the_client s i)) = true ->
  b = true /\ marks (s_rt s') = finished i (marks (s_rt s)).
Proof.
  intros E Hr. unfold iouringd_dispatch_client_request, mbnd at 1, get_client, mget in E. cbv beta iota zeta in E.
  rewrite Hr in E. cbn [negb] in E. set (c := the_client s i) in *. clearbody c. clear Hr. revert s b s' E.
  destruct (_ =? IOURINGD_REQUEST_KIND_REGISTER_FD); [apply takes_register_fd|].
  destruct (_ =? IOURINGD_REQUEST_KIND_REGISTER_BUFFER); [apply takes_register_buffer|].
  destruct (_ =? IOURINGD_REQUEST_KIND_RELEASE_RESOURCE); [apply takes_release|].
  match goal with |- forall s b s', ?m s = _ -> _ => change (takes i m) end. takes_tac; [apply takes_reject|].
  unfold dispatch_task. takes_tac; [apply takes_openat|apply takes_close|apply takes_io|apply takes_simple].
Qed.
End Takes.

(** ** A pass *)

Section Pass.
Context {W : Type} `{Kernel W}.
Abbreviation DM := (DM (W := W)).

(** The clients that are waiting for a request to be dispatched. *)
Definition waiting (c : client) : bool := iouringd_client_is_active c && request_ready (c_req c).
Definition waiters (rt : runtime) : Z := countz waiting (live_clients rt).

Definition mark_waits (x : Z * client_request) : bool := (0 <=? fst x) && request_ready (snd x).

Lemma countz_fmap {A B} (f : A -> B) (p : B -> bool) l : countz p (f <$> l) = countz (fun x => p (f x)) l.
Proof. induction l as [|x l IH]; [done|]. unfold countz in *. cbn. by rewrite IH. Qed.

Lemma waiters_marks rt :
  waiters rt = let '(l, _, ms) := marks rt in countz mark_waits (take (Z.to_nat (max_clients l)) ms).
Proof. unfold waiters, marks, live_clients. by rewrite <- fmap_take, countz_fmap. Qed.

Lemma countz_take_alter {A} (p : A -> bool) f (l : list A) n i x :
  l !! i = Some x -> (i < n)%nat -> p x = true -> p (f x) = false ->
  countz p (take n (alter f i l)) = countz p (take n l) - 1.
Proof.
  intros Hl Hi Hp Hf. revert n i Hl Hi. induction l as [|y l IH]; intros [|n] [|i] Hl Hi; try done; try lia.
  - injection Hl as ->. unfold countz. cbn. rewrite Hp, Hf. cbn. lia.
  - unfold countz in *. cbn. rewrite IH by (done || lia). cbn. lia.
Qed.

Lemma finished_fewer (s s' : sys W) i :
  marks (s_rt s') = finished i (marks (s_rt s)) -> waiting (the_client s i) = true ->
  (i < Z.to_nat (max_clients (rt_limits (s_rt s))))%nat -> waiters (s_rt s') < waiters (s_rt s).
Proof.
  intros Hm Hw Hi. rewrite !waiters_marks, Hm. unfold marks at 1 2, finished.
  destruct (rt_clients (s_rt s) !! i) as [c|] eqn:E.
  - unfold the_client in Hw. rewrite (list_lookup_total_correct _ _ _ E) in Hw.
    rewrite (countz_take_alter _ _ _ _ _ (mark c)); [lia|by rewrite list_lookup_fmap, E|done|exact Hw|].
    unfold mark_waits. cbn. by rewrite andb_false_r.
  - unfold the_client in Hw. rewrite list_lookup_total_alt, E in Hw. by vm_compute in Hw.
Qed.

Definition slots (s : sys W) : nat := Z.to_nat (max_clients (rt_limits (s_rt s))).

(** A step that reports progress leaves fewer waiting, one that does not leaves
    everything as it is. *)
Definition steps (m : DM bool) : Prop :=
  forall s b s', (0 < slots s)%nat -> m s = (Ok b, s') ->
    if b then slots s' = slots s /\ waiters (s_rt s') < waiters (s_rt s) else s' = s.

Lemma steps_false : steps (mret false).
Proof. by intros s b s' _ [= <- <-]. Qed.

Lemma steps_then (m k : DM bool) :
  steps m -> steps k -> steps (p <- m ;; q <- k ;; mret (p || q)).
Proof.
  intros Hm Hk s b s' Hn E. unfold mbnd, mret in E. destruct (m s) as [[p|e] s1] eqn:E1; [|done].
  destruct (k s1) as [[q|e] s2] eqn:E2; [|done]. injection E as <- <-. specialize (Hm _ _ _ Hn E1).
  assert (Hn1 : slots s1 = slots s) by (destruct p; [apply Hm|by subst]).
  specialize (Hk s1 q s2 ltac:(lia) E2). destruct p, q; cbn in *; subst; try done.
  - split; [destruct Hm, Hk; congruence|lia].
Qed.

(** Nothing is dispatched: neither by the first nor by the second. *)
Lemma idle_then (m k : DM bool) s :
  steps m -> (0 < slots s)%nat -> (p <- m ;; q <- k ;; mret (p || q)) s = (Ok false, s) ->
  m s = (Ok false, s) /\ k s = (Ok false, s).
Proof.
  intros Hm Hn E. unfold mbnd, mret in E. destruct (m s) as [[p|e] s1] eqn:E1; [|done].
  destruct (k s1) as [[q|e] s2] eqn:E2; [|done]. injection E as E <-.
  apply orb_false_iff in E as [-> ->]. pose proof (Hm _ _ _ Hn E1) as Hs1. cbn in Hs1. by subst s1.
Qed.

Lemma dispatch_at_eq band offset (s : sys W) :
  let i := ((rt_dispatch_cursor (s_rt s) + offset) mod slots s)%nat in
  dispatch_at band offset s =
  if waiting (the_client s i) && (client_band (the_client s i) =? band) then
    (done <- iouringd_dispatch_client_request i ;;
     (if done : bool then mod_rt (fun rt => rt <| rt_dispatch_cursor := ((i + 1) mod slots s)%nat |>) else mret tt) ;;;
     mret done) s
  else (Ok false, s).
Proof.
  intros i. unfold dispatch_at, waiting. unfold mbnd at 1, get_rt, mget at 1. cbv beta iota zeta.
  unfold mbnd at 1, get_client, mget. cbv beta iota zeta. fold (slots s). fold i.
  destruct (iouringd_client_is_active _), (request_ready _), (_ =? band); done.
Qed.

Lemma dispatch_at_steps band offset : steps (dispatch_at band offset).
Proof.
  intros s b s' Hn E. rewrite dispatch_at_eq in E. set (i := ((_ + _) mod slots s)%nat) in E.
  assert (Hi : (i < slots s)%nat) by (apply Nat.mod_upper_bound; lia). clearbody i.
  destruct (waiting _) eqn:Hw; [|by injection E as <- <-]. destruct (_ =? band); [|by injection E as <- <-].
  cbn [andb] in E. unfold mbnd at 1 in E. destruct (iouringd_dispatch_client_request i s) as [[d|e] s1] eqn:Ed; [|done].
  pose proof Hw as Hr. apply andb_true_iff in Hr as [_ Hr]. destruct (dispatch_takes i _ _ _ Ed Hr) as [-> Hm].
  injection E as <- <-. split.
  - unfold slots. cbn. f_equal. f_equal. unfold marks, finished in Hm. by injection Hm.
  - pose proof (finished_fewer s s1 i Hm Hw Hi) as Hf. unfold waiters, live_clients in *. cbn. exact Hf.
Qed.

Lemma for_each_steps n (body : nat -> DM bool) : (forall j, steps (body j)) -> steps (for_each n body).
Proof. intros Hb. induction n as [|n IH]; [apply steps_false|]. cbn [for_each]. by apply steps_then. Qed.
Lemma for_each_idle n (body : nat -> DM bool) s :
  (forall j, steps (body j)) -> (0 < slots s)%nat -> for_each n body s = (Ok false, s) ->
  forall j, (j < n)%nat -> body j s = (Ok false, s).
Proof.
  intros Hb Hn. induction n as [|n IH]; intros E j Hj; [lia|]. cbn [for_each] in E.
  apply idle_then in E as [E1 E2]; [|by apply for_each_steps|done].
  destruct (decide (j = n)) as [->|]; [done|]. apply IH; [done|lia].
Qed.

Lemma dispatch_band_steps band : steps (dispatch_band band).
Proof. intros s b s' Hn E. exact (for_each_steps (slots s) _ (dispatch_at_steps band) s b s' Hn E). Qed.
Lemma bands_steps bands : steps (dispatch_in_bands bands).
Proof. induction bands as [|b rest IH]; [apply steps_false|]. apply steps_then; [apply dispatch_band_steps|exact IH]. Qed.
Lemma bands_idle bands s :
  (0 < slots s)%nat -> dispatch_in_bands bands s = (Ok false, s) ->
  forall band offset, band ∈ bands -> (offset < slots s)%nat -> dispatch_at band offset s = (Ok false, s).
Proof.
  intros Hn. induction bands as [|b rest IH]; intros E band offset Hb Ho; [by apply elem_of_nil in Hb|].
  apply idle_then in E as [E1 E2]; [|apply dispatch_band_steps|done].
  apply elem_of_cons in Hb as [->|Hb]; [|by apply IH].
  eapply for_each_idle; [apply dispatch_at_steps|done|exact E1|exact Ho].
Qed.

Lemma client_band_listed c : client_band c ∈ dispatch_bands.
Proof. unfold client_band, dispatch_bands. repeat case_match; set_solver. Qed.

(** Every slot is at some distance from the cursor. *)
Lemma cursor_reaches cursor i n : (i < n)%nat -> exists off, (off < n)%nat /\ ((cursor + off) mod n = i)%nat.
Proof.
  intros Hi. exists ((i + (n - cursor mod n)) mod n)%nat. split; [apply Nat.mod_upper_bound; lia|].
  rewrite Nat.Div0.add_mod_idemp_r. pose proof (Nat.mod_upper_bound cursor n ltac:(lia)) as Hc.
  rewrite <- Nat.Div0.add_mod_idemp_l.
  replace (cursor mod n + (i + (n - cursor mod n)))%nat with (i + 1 * n)%nat by lia.
  rewrite Nat.Div0.mod_add. by apply Nat.mod_small.
Qed.

Lemma idle_none s :
  (0 < slots s)%nat -> iouringd_dispatch_ready_requests s = (Ok false, s) -> waiters (s_rt s) = 0.
Proof.
  intros Hn E. apply sumz_zero. intros i c Hc. destruct (waiting c) eqn:Hw; [|done]. exfalso.
  apply lookup_take_Some in Hc as [Hi Hc].
  destruct (cursor_reaches (rt_dispatch_cursor (s_rt s)) i (slots s) Hi) as (off & Ho & Hoff).
  pose proof (bands_idle _ s Hn E (client_band c) off (client_band_listed c) Ho) as Ea.
  rewrite dispatch_at_eq, Hoff in Ea. assert (Ec : the_client s i = c) by (by apply list_lookup_total_correct).
  rewrite Ec, Hw, Z.eqb_refl in Ea. cbn [andb] in Ea. unfold mbnd at 1 in Ea.
  destruct (iouringd_dispatch_client_request i s) as [[d|e] s1] eqn:Ed; [|done].
  apply andb_true_iff in Hw as [_ Hw]. rewrite <- Ec in Hw. destruct (dispatch_takes i _ _ _ Ed Hw) as [-> _]. done.
Qed.
End Pass.

(** A number of passes. *)
Fixpoint dispatch_passes {W} `{Kernel W} (n : nat) : DM (W := W) unit :=
  match n with
  | O => mret tt
  | S m => iouringd_dispatch_ready_requests ;;; dispatch_passes m
  end.

Lemma pass_spec {W} `{Kernel W} (s : sys W) r s' :
  (0 < slots s)%nat -> iouringd_dispatch_ready_requests s = (Ok r, s') ->
  slots s' = slots s /\
  if r then waiters (s_rt s') < waiters (s_rt s) else s' = s /\ waiters (s_rt s) = 0.
Proof.
  intros Hn E. pose proof (bands_steps dispatch_bands s r s' Hn E) as Hs. destruct r; [exact Hs|].
  subst s'. split; [done|]. split; [done|]. by apply idle_none.
Qed.

(** C11: a waiting request is dispatched.  A pass of the dispatcher over the clients leaves fewer
    requests waiting, or it reports that it did nothing, and then no client is
    waiting and nothing has changed: the daemon sleeps only when it is idle.  After
    as many passes as requests were waiting, none is. *)
Theorem dispatch_progress {W} `{Kernel W} (s : sys W) :
  0 < max_clients (rt_limits (s_rt s)) ->
  (forall r s', iouringd_dispatch_ready_requests s = (Ok r, s') ->
     if r then waiters (s_rt s') < waiters (s_rt s) else s' = s /\ waiters (s_rt s) = 0) /\
  (forall n s', waiters (s_rt s) <= Z.of_nat n -> dispatch_passes n s = (Ok tt, s') -> waiters (s_rt s') = 0).
Proof.
  intros Hm. assert (Hn : (0 < slots s)%nat) by (unfold slots; lia). clear Hm. split.
  - intros r s' E. by apply pass_spec in E as [_ E].
  - intros n s'. revert s Hn. induction n as [|n IH]; intros s Hn Hw E.
    + injection E as <-. pose proof (countz_nonneg waiting (live_clients (s_rt s))). unfold waiters in *. lia.
    + cbn [dispatch_passes] in E. unfold mbnd in E.
      destruct (iouringd_dispatch_ready_requests s) as [[r|e] s1] eqn:E1; [|done].
      destruct (pass_spec _ _ _ Hn E1) as [Hs Hr]. apply (IH s1); [lia| |exact E].
      destruct r; [lia|]. destruct Hr as [-> Hr]. lia.
Qed.

(** One request waits after the pass of [high_priority_overtaken]; the next pass takes it. *)
Lemma dispatch_progress_witness :
  waiters (s_rt one_pass) = 1 /\
  exists s', dispatch_passes 1 one_pass = (Ok tt, s') /\ waiters (s_rt s') = 0.
Proof.
  assert (Hw : waiters (s_rt one_pass) = 1) by (vm_compute; reflexivity). split; [exact Hw|].
  destruct (dispatch_passes 1 one_pass) as [r s'] eqn:E.
  assert (Hr : r = Ok tt) by (change r with (fst (r, s')); rewrite <- E; vm_compute; reflexivity). subst r.
  exists s'. split; [done|].
  refine (proj2 (dispatch_progress one_pass _) 1%nat s' _ E); [vm_compute; reflexivity|rewrite Hw; lia].
Defined.
