(* ===== verification/Schedule.v ===== *)
(** * The dispatcher as a scheduler

    What [iouringd_dispatch_ready_requests] of [src/daemon/main.c] decides depends
    only on the requests that wait and on the cursor.  [pass] is that decision as
    a function on the cursor and the requests; [pass_follows] shows that a pass of
    the dispatcher, whatever the requests are and however they are answered,
    leaves the requests and the cursor that [pass] computes.  [starvation] uses it
    to show which client is never served. *)

From S2P Require Import Prelude Wire Kernel Ring State Output Resources Trace Daemon Startup Input Request Reader Dispatch Complete Sched Session Corners Correct Progress.

(** The cursor, and the connection and request of each client. *)
Definition line : Type := nat * list (Z * client_request).

Definition request_band (q : client_request) : Z :=
  if negb (control_op q =? 0) then 3
  else if sq_priority (request q) =? IOURINGD_SUBMIT_PRIORITY_HIGH then 2
  else if sq_priority (request q) =? IOURINGD_SUBMIT_PRIORITY_NORMAL then 1
  else 0.

Definition served (x : Z * client_request) : Z * client_request := (fst x, finish_request (snd x)).

(** The slot at [offset] from the cursor is served if it waits in this band. *)
Definition pass_at (n : nat) (band : Z) (l : line) (offset : nat) : line :=
  let '(cursor, ms) := l in
  let i := ((cursor + offset) mod n)%nat in
  match ms !! i with
  | Some m => if mark_waits m && (request_band (snd m) =? band)
              then (((i + 1) mod n)%nat, alter served i ms) else l
  | None => l
  end.
Definition pass_band (n : nat) (l : line) (band : Z) : line := fold_left (pass_at n band) (seq 0 n) l.
Definition pass (n : nat) (l : line) : line := fold_left (pass_band n) dispatch_bands l.

Section Follows.
Context {W : Type} `{Kernel W}.
Abbreviation DM := (DM (W := W)).

Definition line_of (s : sys W) : line := (rt_dispatch_cursor (s_rt s), mark <$> rt_clients (s_rt s)).

(** When [m] returns, the limits are as they were and the line is [f] of the line. *)
Definition follows {A} (n : nat) (m : DM A) (f : line -> line) : Prop :=
  forall s a s', slots s = n -> m s = (Ok a, s') -> slots s' = n /\ line_of s' = f (line_of s).

Lemma follows_then n (m k : DM bool) f g :
  follows n m f -> follows n k g -> follows n (p <- m ;; q <- k ;; mret (p || q)) (fun l => g (f l)).
Proof.
  intros Hm Hk s b s' Hn E. unfold mbnd, mret in E. destruct (m s) as [[p|e] s1] eqn:E1; [|done].
  destruct (k s1) as [[q|e] s2] eqn:E2; [|done]. injection E as <- <-.
  destruct (Hm _ _ _ Hn E1) as [Hn1 Hl1]. destruct (Hk _ _ _ Hn1 E2) as [Hn2 Hl2]. by rewrite Hl2, Hl1.
Qed.

Lemma follows_at n band offset : follows n (dispatch_at band offset) (fun l => pass_at n band l offset).
Proof.
  intros s b s' Hn E. rewrite dispatch_at_eq in E. unfold line_of at 2, pass_at. rewrite Hn in E.
  set (i := ((_ + _) mod n)%nat) in *. rewrite list_lookup_fmap.
  destruct (rt_clients (s_rt s) !! i) as [c|] eqn:Ec.
  - unfold the_client in E. rewrite (list_lookup_total_correct _ _ _ Ec) in E. cbn [fmap option_fmap option_map].
    change (mark_waits (mark c)) with (waiting c). change (request_band (snd (mark c))) with (client_band c).
    destruct (waiting c && _) eqn:Ew; [|by injection E as <- <-].
    unfold mbnd at 1 in E. destruct (iouringd_dispatch_client_request i s) as [[d|e] s1] eqn:Ed; [|done].
    apply andb_true_iff in Ew as [Hr _]. apply andb_true_iff in Hr as [_ Hr].
    destruct (dispatch_takes i _ _ _ Ed) as [-> Hm]; [by unfold the_client; rewrite (list_lookup_total_correct _ _ _ Ec)|].
    injection E as <- <-. unfold marks, finished in Hm. injection Hm as Hl Hc Hms. split.
    + unfold slots in *. cbn. by rewrite Hl.
    + unfold line_of. cbn. rewrite Hms. f_equal. apply list_alter_ext; [|done]. by intros [fd q] _.
  - assert (Ez : waiting (the_client s i) = false).
    { unfold the_client. by rewrite list_lookup_total_alt, Ec. }
    rewrite Ez in E. by injection E as <- <-.
Qed.

Lemma follows_for_each n band k :
  follows n (for_each k (dispatch_at band)) (fun l => fold_left (pass_at n band) (seq 0 k) l).
Proof.
  induction k as [|k IH]; [by intros s b s' Hn [= <- <-]|]. cbn [for_each].
  intros s b s' Hn E. rewrite seq_S, fold_left_app. cbn [fold_left].
  exact (follows_then n _ _ _ _ IH (follows_at n band k) s b s' Hn E).
Qed.

Lemma follows_bands n bands :
  follows n (dispatch_in_bands bands) (fun l => fold_left (pass_band n) bands l).
Proof.
  induction bands as [|band rest IH]; [by intros s b s' Hn [= <- <-]|]. cbn [dispatch_in_bands fold_left].
  refine (follows_then n _ _ (fun l => pass_band n l band) (fun l => fold_left (pass_band n) rest l) _ IH).
  intros s b s' Hn E. apply (follows_for_each n band n s b s' Hn). unfold dispatch_band in E.
  unfold mbnd, get_rt, mget in E. cbv beta iota zeta in E. by rewrite <- Hn.
Qed.

Lemma pass_follows s r s' :
  iouringd_dispatch_ready_requests s = (Ok r, s') ->
  slots s' = slots s /\ line_of s' = pass (slots s) (line_of s).
Proof. intros E. exact (follows_bands (slots s) dispatch_bands s r s' eq_refl E). Qed.
End Follows.

(** ** A client that is never served *)

Definition waits_in (band : Z) (m : Z * client_request) : bool := mark_waits m && (request_band (snd m) =? band).

Section Scan.
Context (n : nat) (band : Z).

Lemma pass_at_hit c ms offset m :
  ms !! ((c + offset) mod n)%nat = Some m -> waits_in band m = true ->
  pass_at n band (c, ms) offset = ((((c + offset) mod n + 1) mod n)%nat, alter served ((c + offset) mod n)%nat ms).
Proof. intros Hm Hw. unfold pass_at. unfold waits_in in Hw. by rewrite Hm, Hw. Qed.

(** Offsets at which nobody waits in this band. *)
Lemma scan_miss c ms offsets :
  (forall o m, o ∈ offsets -> ms !! ((c + o) mod n)%nat = Some m -> waits_in band m = false) ->
  fold_left (pass_at n band) offsets (c, ms) = (c, ms).
Proof.
  induction offsets as [|o os IH]; intros Hm; [done|]. cbn [fold_left].
  assert (Eo : pass_at n band (c, ms) o = (c, ms)).
  { unfold pass_at. destruct (ms !! _) as [m|] eqn:E; [|done].
    specialize (Hm o m ltac:(by left) E). unfold waits_in in Hm. by rewrite Hm. }
  rewrite Eo. apply IH. intros o' m Ho. apply Hm. by right.
Qed.

(** Nobody waits in this band. *)
Lemma band_idle c ms :
  (0 < n)%nat -> (forall i m, (i < n)%nat -> ms !! i = Some m -> waits_in band m = false) ->
  pass_band n (c, ms) band = (c, ms).
Proof.
  intros Hn Hm. apply scan_miss. intros o m _. apply Hm. apply Nat.mod_upper_bound. lia.
Qed.

(** The first that waits is at [offset], and after it is served the scan meets
    nobody else. *)
Lemma band_one c ms offset i m :
  (offset < n)%nat -> ((c + offset) mod n)%nat = i -> ms !! i = Some m -> waits_in band m = true ->
  (forall o m, (o < offset)%nat -> ms !! ((c + o) mod n)%nat = Some m -> waits_in band m = false) ->
  (forall o m, (offset < o < n)%nat -> alter served i ms !! (((i + 1) mod n + o) mod n)%nat = Some m -> waits_in band m = false) ->
  pass_band n (c, ms) band = (((i + 1) mod n)%nat, alter served i ms).
Proof.
  intros Ho Hi Hm Hw Hb Ha. unfold pass_band.
  replace n with (offset + (1 + (n - offset - 1)))%nat at 2 by lia. rewrite !seq_app, !fold_left_app. cbn [seq fold_left].
  rewrite scan_miss by (intros o m' Ho'; apply elem_of_seq in Ho'; apply Hb; lia). rewrite Nat.add_0_l.
  rewrite (pass_at_hit _ _ _ m) by (by rewrite ?Hi). rewrite Hi. apply scan_miss.
  intros o m' Ho'. apply elem_of_seq in Ho'. apply Ha. lia.
Qed.
End Scan.

Lemma served_waits band m : waits_in band (served m) = false.
Proof. unfold waits_in, mark_waits. cbn. by rewrite andb_false_r. Qed.

Lemma request_band_range q : 0 <= request_band q <= 3.
Proof. unfold request_band. repeat case_match; lia. Qed.

(** Slot 0 waits in band [b], slot 1 in a higher one, the last slot in [b] too, and
    nobody else. *)
Record crowd (n : nat) (ms : list (Z * client_request)) (m0 m1 m2 : Z * client_request) : Prop := {
  cr_size : (3 <= n)%nat;
  cr_victim : ms !! 0%nat = Some m0;
  cr_high : ms !! 1%nat = Some m1;
  cr_last : ms !! (n - 1)%nat = Some m2;
  cr_waits : mark_waits m0 = true /\ mark_waits m1 = true /\ mark_waits m2 = true;
  cr_bands : request_band (snd m0) < request_band (snd m1) /\ request_band (snd m2) = request_band (snd m0);
  cr_others i m : (1 < i < n - 1)%nat -> ms !! i = Some m -> mark_waits m = false;
}.

Section Crowd.
Context (n : nat) (ms : list (Z * client_request)) (m0 m1 m2 : Z * client_request) (Hc : crowd n ms m0 m1 m2).

Lemma crowd_cases i m : (i < n)%nat -> ms !! i = Some m ->
  (i = 0%nat /\ m = m0) \/ (i = 1%nat /\ m = m1) \/ (i = (n - 1)%nat /\ m = m2) \/ (forall band, waits_in band m = false).
Proof.
  destruct Hc as [Hs H0 H1 H2 _ _ Ho]. intros Hi Hm.
  destruct (decide (i = 0%nat)) as [->|]; [left; by rewrite H0 in Hm; simplify_eq|].
  destruct (decide (i = 1%nat)) as [->|]; [right; left; by rewrite H1 in Hm; simplify_eq|].
  destruct (decide (i = (n - 1)%nat)) as [->|]; [right; right; left; by rewrite H2 in Hm; simplify_eq|].
  right; right; right. intros band. unfold waits_in. by rewrite (Ho i m) by (done || lia).
Qed.

Let b := request_band (snd m0).
Let h := request_band (snd m1).
Let ms1 := alter served 1%nat ms.
Let ms2 := alter served (n - 1)%nat ms1.

(** Nobody waits in the other bands, before and after. *)
Definition unheard (band : Z) (l : list (Z * client_request)) : Prop :=
  forall i m, (i < n)%nat -> l !! i = Some m -> waits_in band m = false.

Lemma unheard_alter band l j : unheard band l -> unheard band (alter served j l).
Proof.
  intros Hl i m Hi. rewrite list_lookup_alter. destruct (decide (j = i)) as [<-|]; [|by apply Hl].
  destruct (l !! j); [|done]. intros [= <-]. apply served_waits.
Qed.
Lemma unheard_idle band l c : unheard band l -> pass_band n (c, l) band = (c, l).
Proof. intros Hl. pose proof (cr_size _ _ _ _ _ Hc). apply band_idle; [lia|exact Hl]. Qed.

Lemma crowd_other band : band <> b -> band <> h -> unheard band ms.
Proof.
  intros Hb Hh i m Hi Hm. pose proof (cr_bands _ _ _ _ _ Hc) as [_ E2]. fold b in E2.
  destruct (crowd_cases i m Hi Hm) as [[_ ->]|[[_ ->]|[[_ ->]|Hw]]]; [| | |apply Hw];
    unfold waits_in; apply andb_false_iff; right; apply Z.eqb_neq; subst b h; lia.
Qed.

(** The request in the higher band is served and the cursor is past slot 1. *)
Lemma crowd_high : pass_band n (0%nat, ms) h = (2%nat, ms1).
Proof.
  pose proof (cr_size _ _ _ _ _ Hc) as Hs. pose proof (cr_bands _ _ _ _ _ Hc) as [E1 E2].
  pose proof (cr_waits _ _ _ _ _ Hc) as (_ & W1 & _).
  replace 2%nat with ((1 + 1) mod n)%nat by (apply Nat.mod_small; lia).
  assert (Hmiss : forall i m, i <> 1%nat -> (i < n)%nat -> ms !! i = Some m -> waits_in h m = false).
  { intros i m Hi Hn Hm. destruct (crowd_cases i m Hn Hm) as [[_ ->]|[[? ->]|[[_ ->]|Hw]]]; [|done| |apply Hw];
      unfold waits_in; apply andb_false_iff; right; apply Z.eqb_neq; subst h; lia. }
  apply (band_one n h 0 ms 1 1 m1); [lia|apply Nat.mod_small; lia|apply Hc| | |].
  - unfold waits_in. subst h. by rewrite W1, Z.eqb_refl.
  - intros o m Ho. replace o with 0%nat by lia. rewrite Nat.mod_small by lia. apply Hmiss; lia.
  - intros o m _. set (i := (_ mod n)%nat). assert (Hi : (i < n)%nat) by (apply Nat.mod_upper_bound; lia). clearbody i.
    rewrite list_lookup_alter. destruct (decide (1%nat = i)) as [<-|Hn].
    + destruct (ms !! 1%nat) as [x|]; [|done]. intros [= <-]. apply served_waits.
    + apply Hmiss; lia.
Qed.

(** Then the last slot is served, the cursor is at slot 0 again, and the scan has
    passed slot 0. *)
Lemma crowd_last : pass_band n (2%nat, ms1) b = (0%nat, ms2).
Proof.
  pose proof (cr_size _ _ _ _ _ Hc) as Hs. pose proof (cr_bands _ _ _ _ _ Hc) as [E1 E2].
  pose proof (cr_waits _ _ _ _ _ Hc) as (_ & _ & W2).
  assert (En : ((n - 1 + 1) mod n = 0)%nat) by (replace (n - 1 + 1)%nat with n by lia; apply Nat.Div0.mod_same).
  assert (Hmiss : forall i m, i <> 0%nat -> i <> (n - 1)%nat -> (i < n)%nat -> ms1 !! i = Some m -> waits_in b m = false).
  { intros i m H0 H1 Hn. subst ms1. rewrite list_lookup_alter. destruct (decide (1%nat = i)) as [<-|Hi].
    - destruct (ms !! 1%nat) as [x|]; [|done]. intros [= <-]. apply served_waits.
    - intros Hm. destruct (crowd_cases i m Hn Hm) as [[? _]|[[? _]|[[? _]|Hw]]]; [lia|lia|lia|apply Hw]. }
  transitivity (((n - 1 + 1) mod n)%nat, ms2); [|by rewrite En].
  apply (band_one n b 2 ms1 (n - 3) (n - 1) m2).
  - lia.
  - rewrite Nat.mod_small; lia.
  - subst ms1. rewrite list_lookup_alter_ne by lia. apply Hc.
  - unfold waits_in. subst b. by rewrite W2, E2, Z.eqb_refl.
  - intros o m Ho. rewrite Nat.mod_small by lia. apply Hmiss; lia.
  - intros o m Ho. rewrite En, Nat.add_0_l, Nat.mod_small by lia. rewrite list_lookup_alter.
    destruct (decide ((n - 1)%nat = o)) as [<-|Hi].
    + destruct (ms1 !! (n - 1)%nat) as [x|]; [|done]. intros [= <-]. apply served_waits.
    + apply Hmiss; lia.
Qed.

(** A pass serves slot 1 and the last slot, and ends where it began. *)
Lemma crowd_pass : pass n (0%nat, ms) = (0%nat, ms2).
Proof.
  assert (Ho : forall band c, band <> b -> band <> h -> pass_band n (c, ms) band = (c, ms)).
  { intros band c H1 H2. by apply unheard_idle, crowd_other. }
  assert (Ho1 : forall band c, band <> b -> band <> h -> pass_band n (c, ms1) band = (c, ms1)).
  { intros band c H1 H2. by apply unheard_idle, unheard_alter, crowd_other. }
  assert (Ho2 : forall band c, band <> b -> band <> h -> pass_band n (c, ms2) band = (c, ms2)).
  { intros band c H1 H2. by apply unheard_idle, unheard_alter, unheard_alter, crowd_other. }
  pose proof crowd_high as Hh. pose proof crowd_last as Hl. pose proof (cr_bands _ _ _ _ _ Hc) as [E1 _].
  pose proof (request_band_range (snd m0)) as R0. pose proof (request_band_range (snd m1)) as R1.
  fold b in E1, R0. fold h in E1, R1. clearbody b h ms2. clearbody ms1.
  assert (Hcase : (h = 1 \/ h = 2 \/ h = 3) /\ (b = 0 \/ b = 1 \/ b = 2)) by lia.
  unfold pass, dispatch_bands. cbn [fold_left].
  destruct Hcase as [[->|[->| ->]] [->|[->| ->]]]; try lia;
    repeat first [rewrite Hh | rewrite Hl | rewrite Ho by lia | rewrite Ho1 by lia | rewrite Ho2 by lia]; done.
Qed.
End Crowd.

Section Siege.
Context {W : Type} `{Kernel W}.

(** Client 0 waits; client 1 waits in a higher band, the client in the last slot in
    the band of client 0, nobody else; the scan is about to start at client 0. *)
Definition crowded (s : sys W) : Prop :=
  rt_dispatch_cursor (s_rt s) = 0%nat /\
  exists m0 m1 m2, crowd (slots s) (mark <$> rt_clients (s_rt s)) m0 m1 m2.

(** [k] passes of the dispatcher, each from a crowded state; in between anything
    may happen that leaves the cursor and client 0's request alone. *)
Inductive siege : nat -> sys W -> sys W -> Prop :=
| siege_start s : siege 0 s s
| siege_pass k s s1 s2 s3 r :
    siege k s s1 -> crowded s1 -> iouringd_dispatch_ready_requests s1 = (Ok r, s2) ->
    rt_dispatch_cursor (s_rt s3) = rt_dispatch_cursor (s_rt s2) ->
    mark (the_client s3 0) = mark (the_client s2 0) ->
    siege (S k) s s3.

Lemma mark_lookup (s : sys W) i m : (mark <$> rt_clients (s_rt s)) !! i = Some m -> mark (the_client s i) = m.
Proof.
  rewrite list_lookup_fmap. destruct (rt_clients (s_rt s) !! i) as [c|] eqn:E; [|done].
  intros [= <-]. unfold the_client. by rewrite (list_lookup_total_correct _ _ _ E).
Qed.

Lemma crowded_pass s r s' :
  crowded s -> iouringd_dispatch_ready_requests s = (Ok r, s') ->
  mark (the_client s' 0) = mark (the_client s 0) /\ waiting (the_client s' 0) = true /\
  rt_dispatch_cursor (s_rt s') = 0%nat /\
  waiting (the_client s' 1) = false /\ waiting (the_client s' (slots s - 1)) = false.
Proof.
  intros [Ecur (m0 & m1 & m2 & Hc)] E. destruct (pass_follows _ _ _ E) as [_ Hl]. unfold line_of in Hl at 2.
  rewrite Ecur, (crowd_pass _ _ _ _ _ Hc) in Hl. injection Hl as Hcur Hms.
  pose proof (cr_size _ _ _ _ _ Hc) as Hs. pose proof (cr_waits _ _ _ _ _ Hc) as (W0 & _ & _).
  assert (H0 : mark (the_client s' 0) = m0).
  { apply mark_lookup. rewrite Hms, !list_lookup_alter_ne by lia. apply Hc. }
  assert (H1 : mark (the_client s' 1) = served m1 \/ mark (the_client s' 1) = served (served m1)).
  { destruct (decide (slots s - 1 = 1)%nat) as [En|En]; [lia|]. left. apply mark_lookup.
    rewrite Hms, list_lookup_alter_ne by lia. rewrite list_lookup_alter_eq, (cr_high _ _ _ _ _ Hc). done. }
  assert (H2 : mark (the_client s' (slots s - 1)) = served m2).
  { apply mark_lookup. rewrite Hms, list_lookup_alter_eq, list_lookup_alter_ne by lia. by rewrite (cr_last _ _ _ _ _ Hc). }
  assert (Hw : forall c m, mark c = m -> waiting c = mark_waits m) by (by intros c m <-).
  split_and!; [|by rewrite (Hw _ _ H0)|done| |].
  - rewrite H0. symmetry. by apply mark_lookup, Hc.
  - by destruct H1 as [H1|H1]; rewrite (Hw _ _ H1); unfold mark_waits; cbn; rewrite andb_false_r.
  - rewrite (Hw _ _ H2). unfold mark_waits. cbn. by rewrite andb_false_r.
Qed.

Lemma three_crowded (s : sys W) :
  slots s = 3%nat -> rt_dispatch_cursor (s_rt s) = 0%nat ->
  match mark <$> rt_clients (s_rt s) with
  | m0 :: m1 :: m2 :: _ => mark_waits m0 && mark_waits m1 && mark_waits m2 &&
      (request_band (snd m0) <? request_band (snd m1)) && (request_band (snd m2) =? request_band (snd m0)) = true
  | _ => False
  end -> crowded s.
Proof.
  intros Hn Hcur Hms. split; [done|]. rewrite Hn. destruct (mark <$> _) as [|m0 [|m1 [|m2 ms]]]; try done.
  rewrite !andb_true_iff, Z.ltb_lt, Z.eqb_eq in Hms. destruct Hms as ((((W0 & W1) & W2) & B1) & B2).
  exists m0, m1, m2. constructor; try done; lia.
Qed.
End Siege.

(** C35: a client can be passed over for ever.  There are three client slots or more and the
    cursor is at slot 0; client 0 waits, client 1 waits in a higher band, the client
    in the last slot in client 0's band, and nobody else waits.  Whatever the requests
    are and however they end, a pass that ends serves the other two, leaves client
    0's request waiting and the cursor at slot 0; so when the two, and no one else,
    send their next requests the same happens again, and after any number of such
    passes client 0's request is the one it was, still waiting. *)
Theorem starvation {W} `{Kernel W} :
  (forall (s : sys W) r s', crowded s -> iouringd_dispatch_ready_requests s = (Ok r, s') ->
     mark (the_client s' 0) = mark (the_client s 0) /\ waiting (the_client s' 0) = true /\
     rt_dispatch_cursor (s_rt s') = 0%nat /\
     waiting (the_client s' 1) = false /\ waiting (the_client s' (slots s - 1)) = false) /\
  (forall k (s s' : sys W), siege k s s' ->
     mark (the_client s' 0) = mark (the_client s 0) /\ (k <> 0%nat -> waiting (the_client s' 0) = true)).
Proof.
  split; [apply crowded_pass|]. intros k s s'. induction 1 as [s|k s s1 s2 s3 r _ [IH _] Hc E Hcur Hm]; [done|].
  destruct (crowded_pass _ _ _ Hc E) as (H0 & Hw & _). split; [by rewrite Hm, H0|]. intros _.
  change (mark_waits (mark (the_client s3 0)) = true). rewrite Hm. exact Hw.
Qed.

(** The three clients of [busy_neighbours] when their requests have been read. *)
Lemma starvation_witness :
  let s := snd (iouringd_service_ready_inputs (after 2 5 (session 3 4 (busy_neighbours 20)))) in
  crowded s /\ exists r s', iouringd_dispatch_ready_requests s = (Ok r, s') /\ waiting (the_client s' 0) = true.
Proof.
  set (s := snd _). assert (Hc : crowded s) by (apply three_crowded; vm_compute; reflexivity).
  split; [exact Hc|]. destruct (iouringd_dispatch_ready_requests s) as [r s'] eqn:E.
  assert (Hr : is_ok r = true) by (change r with (fst (r, s')); rewrite <- E; vm_compute; reflexivity).
  destruct r as [r|e]; [|done]. exists r, s'. split; [done|]. by apply (proj1 starvation s r s' Hc E).
Defined.
