(* ===== verification/Replies.v ===== *)
(** * One reply to each request

    What the daemon puts into the clients' output.  [emits] is a program logic
    for it: the bytes a computation appends to one client's output, the other
    clients' output staying as it is.  [dispatch_replies_once] shows the promise
    the client library relies on: dispatching a request appends exactly one reply,
    of the request's kind, to the output of the client that made it. *)

From S2P Require Import Prelude Wire Kernel Ring State Output Resources Trace Daemon Input Reader Dispatch Complete Sched Session Correct Memory Safety Socket Client Inbox.

Section Logic.
Context {W : Type} `{Kernel W}.
Abbreviation DM := (DM (W := W)).

(** What a client's peer can see of it: the output, and which connection it is. *)
Definition face (c : client) : outbuf * Z * Z := (c_out c, c_fd c, c_generation c).
Definition faces (s : sys W) : list (outbuf * Z * Z) := face <$> rt_clients (s_rt s).
Definition outputs (s : sys W) : list outbuf := c_out <$> rt_clients (s_rt s).
Definition pending_of (s : sys W) (i : nat) : bytes := output_pending (c_out (the_client s i)).

(** Client [i] exists and its buffer is well-formed. *)
Definition speaks (i : nat) (s : sys W) : Prop :=
  (i < length (rt_clients (s_rt s)))%nat /\ outbuf_wf (c_out (the_client s i)).

Definition emits {A} (i : nat) (m : DM A) (s : sys W) (Q : A -> sys W -> bytes -> Prop) : Prop :=
  speaks i s ->
  match m s with
  | (Ok a, s') =>
      speaks i s' /\
      exists bs, Q a s' bs /\ pending_of s' i = pending_of s i ++ bs /\
                 forall j, j <> i -> pending_of s' j = pending_of s j
  | (Err _, _) => True
  end.

(** A computation that leaves all output and all connections alone, whether it
    returns or fails. *)
Definition silent {A} (m : DM A) : Prop := forall s, faces (snd (m s)) = faces s.

Lemma faces_outputs s s' : faces s' = faces s -> outputs s' = outputs s.
Proof.
  intros E. apply (f_equal (fmap (fun x => fst (fst x)))) in E. unfold faces in E.
  rewrite <- !list_fmap_compose in E. exact E.
Qed.

Lemma the_client_face s j : face (the_client s j) = default (face client_zero) (faces s !! j).
Proof.
  unfold the_client, faces. rewrite list_lookup_fmap, list_lookup_total_alt.
  by destruct (rt_clients (s_rt s) !! j).
Qed.

Lemma the_client_out s j : c_out (the_client s j) = default (c_out client_zero) (outputs s !! j).
Proof.
  unfold the_client, outputs. rewrite list_lookup_fmap, list_lookup_total_alt.
  by destruct (rt_clients (s_rt s) !! j).
Qed.

Lemma outputs_pending s s' j : outputs s' = outputs s -> pending_of s' j = pending_of s j.
Proof. intros E. unfold pending_of. by rewrite !the_client_out, E. Qed.

Lemma outputs_speaks i s s' : outputs s' = outputs s -> speaks i s -> speaks i s'.
Proof.
  intros E [Hl Hw]. split.
  - apply (f_equal length) in E. unfold outputs in E. rewrite !length_fmap in E. lia.
  - rewrite the_client_out, E, <- the_client_out. exact Hw.
Qed.

Lemma emits_silent {A} i (m : DM A) s (Q : A -> sys W -> bytes -> Prop) :
  silent m -> (forall a s', m s = (Ok a, s') -> Q a s' []) -> emits i m s Q.
Proof.
  intros Hm HQ Hs. specialize (Hm s). destruct (m s) as [[a|e] s'] eqn:E; [|done].
  apply faces_outputs in Hm. cbn in Hm. split; [by eapply outputs_speaks|]. exists []. rewrite app_nil_r.
  split_and!; [by apply HQ|by apply outputs_pending|]. intros j _. by apply outputs_pending.
Qed.

Lemma emits_bind {A B} i (m : DM A) (k : A -> DM B) s P (Q : B -> sys W -> bytes -> Prop) :
  emits i m s P ->
  (forall a s1 bs1, P a s1 bs1 -> speaks i s1 -> emits i (k a) s1 (fun b s' bs2 => Q b s' (bs1 ++ bs2))) ->
  emits i (mbnd m k) s Q.
Proof.
  intros Hm Hk Hs. specialize (Hm Hs). unfold mbnd. destruct (m s) as [[a|e] s1]; [|done].
  destruct Hm as (Hs1 & bs1 & HP & E1 & O1). specialize (Hk a s1 bs1 HP Hs1 Hs1).
  destruct (k a s1) as [[b|e] s2]; [|done]. destruct Hk as (Hs2 & bs2 & HQ & E2 & O2).
  split; [done|]. exists (bs1 ++ bs2). split_and!; [done|by rewrite E2, E1, app_assoc|].
  intros j Hj. by rewrite O2, O1.
Qed.

(** The common case: a silent step first. *)
Lemma emits_then {A B} i (m : DM A) (k : A -> DM B) s (Q : B -> sys W -> bytes -> Prop) :
  silent m -> (forall a s1, speaks i s1 -> emits i (k a) s1 Q) -> emits i (mbnd m k) s Q.
Proof.
  intros Hm Hk. apply (emits_bind i m k s (fun _ _ bs => bs = [])); [by apply emits_silent|].
  intros a s1 ? -> Hs1. by apply Hk.
Qed.

Lemma emits_weaken {A} i (m : DM A) s (P Q : A -> sys W -> bytes -> Prop) :
  emits i m s P -> (forall a s' bs, P a s' bs -> Q a s' bs) -> emits i m s Q.
Proof.
  intros Hm HPQ Hs. specialize (Hm Hs). destruct (m s) as [[a|e] s']; [|done].
  destruct Hm as (H1 & bs & HP & H2). split; [done|]. exists bs. split; [by apply HPQ|done].
Qed.

Lemma emits_get {A B} i (f : sys W -> A) (k : A -> DM B) s (Q : B -> sys W -> bytes -> Prop) :
  emits i (k (f s)) s Q -> emits i (mbnd (mget f) k) s Q.
Proof. intros Hk. exact Hk. Qed.

Lemma emits_assoc {A B C} i (m : DM A) (k : A -> DM B) (g : B -> DM C) s (Q : C -> sys W -> bytes -> Prop) :
  emits i (mbnd (mbnd m k) g) s Q -> emits i (mbnd m (fun a => mbnd (k a) g)) s Q.
Proof. unfold emits, mbnd. intros Hm Hs. specialize (Hm Hs). by destruct (m s) as [[a|e] s1]. Qed.

Lemma emits_fail {A} i e s (Q : A -> sys W -> bytes -> Prop) : emits i (mfail e) s Q.
Proof. intros Hs. done. Qed.

Lemma outputs_insert s i c :
  outputs (s <| s_rt := s_rt s <| rt_clients := <[i := c]> (rt_clients (s_rt s)) |> |>) =
  <[i := c_out c]> (outputs s).
Proof. unfold outputs. cbn. by rewrite list_fmap_insert. Qed.

(** Appending to the output of client [i]; when it does not fit, nothing is
    appended. *)
Lemma queue_output_run i buf s :
  speaks i s ->
  let '(r, s') := queue_output i buf s in
  speaks i s' /\ pending_of s' i = pending_of s i ++ (if is_ok r then buf else []) /\
  forall j, j <> i -> pending_of s' j = pending_of s j.
Proof.
  intros [Hl Hw]. unfold queue_output. pose proof (queue_bytes _ buf Hw) as Hq.
  destruct (iouringd_queue_client_output (c_out (the_client s i)) buf) as [rc b] eqn:Eq.
  destruct Hq as (Hwf & _ & Hr).
  set (s' := s <| s_rt := s_rt s <| rt_clients := <[i := the_client s i <| c_out := b |>]> (rt_clients (s_rt s)) |> |>).
  assert (Eo : outputs s' = <[i := b]> (outputs s)) by apply outputs_insert.
  assert (Hlo : (i < length (outputs s))%nat) by (unfold outputs; by rewrite length_fmap).
  assert (Ei : c_out (the_client s' i) = b).
  { rewrite the_client_out, Eo, list_lookup_insert_eq by done. done. }
  split_and!.
  - split; [|by rewrite Ei]. unfold s'. cbn. rewrite length_insert. exact Hl.
  - unfold pending_of. rewrite Ei. destruct rc as [[]|e]; cbn [is_ok].
    + apply Hr.
    + rewrite app_nil_r. apply Hr.
  - intros j Hj. unfold pending_of. by rewrite !the_client_out, Eo, list_lookup_insert_ne.
Qed.

Lemma emits_queue i buf s (Q : unit -> sys W -> bytes -> Prop) :
  (forall s', Q tt s' buf) -> emits i (queue_output i buf) s Q.
Proof.
  intros HQ Hs. pose proof (queue_output_run i buf s Hs) as Hr.
  destruct (queue_output i buf s) as [[[]|e] s']; [|done]. destruct Hr as (H1 & H2 & H3).
  split; [done|]. by exists buf.
Qed.

Lemma emits_try_queue i buf s (Q : outcome unit -> sys W -> bytes -> Prop) :
  (forall s', Q (Ok tt) s' buf) -> (forall e s', Q (Err e) s' []) -> emits i (mtry (queue_output i buf)) s Q.
Proof.
  intros HQ1 HQ2 Hs. pose proof (queue_output_run i buf s Hs) as Hr. unfold mtry.
  destruct (queue_output i buf s) as [r s']. destruct Hr as (H1 & H2 & H3). split; [done|].
  exists (if is_ok r then buf else []). split_and!; [|done|done]. destruct r as [[]|e]; [apply HQ1|apply HQ2].
Qed.

(** ** Silent steps *)

Lemma silent_ret {A} (a : A) : silent (mret a).
Proof. done. Qed.
Lemma silent_fail {A} e : silent (mfail (A := A) e).
Proof. done. Qed.
Lemma silent_get {A} (f : sys W -> A) : silent (mget f).
Proof. done. Qed.
Lemma silent_bind {A B} (m : DM A) (k : A -> DM B) : silent m -> (forall a, silent (k a)) -> silent (mbnd m k).
Proof.
  intros Hm Hk s. specialize (Hm s). unfold mbnd. destruct (m s) as [[a|e] s1]; [|done]. cbn in Hm.
  by rewrite Hk.
Qed.
Lemma silent_try {A} (m : DM A) : silent m -> silent (mtry m).
Proof. intros Hm s. specialize (Hm s). unfold mtry. by destruct (m s). Qed.
Lemma silent_mod_client i f : (forall c, face (f c) = face c) -> silent (mod_client i f).
Proof.
  intros Hf s. unfold mod_client, mod_rt, mmod, faces. cbn. rewrite list_fmap_insert, Hf.
  destruct (decide (i < length (rt_clients (s_rt s)))%nat) as [Hl|Hl].
  - rewrite list_insert_id; [done|]. rewrite list_lookup_fmap.
    rewrite (list_lookup_lookup_total_lt _ _ Hl). done.
  - rewrite list_insert_ge; [done|]. rewrite length_fmap. lia.
Qed.
Lemma silent_mod_rt f : (forall rt, rt_clients (f rt) = rt_clients rt) -> silent (mod_rt f).
Proof. intros Hf s. unfold mod_rt, mmod, faces. cbn. by rewrite Hf. Qed.
Lemma silent_mod_task k f : silent (mod_task k f).
Proof. by apply silent_mod_rt. Qed.
Lemma silent_close_fds fds : silent (close_fds fds).
Proof. done. Qed.
Lemma silent_with_ring f : silent (with_ring f).
Proof. intros s. unfold with_ring. destruct (f _ _) as [[rc r] w]. done. Qed.
Lemma silent_ring_update_file j fd : silent (ring_update_file j fd).
Proof. intros s. unfold ring_update_file. by destruct (iouringd_ring_update_registered_file _ _ _ _). Qed.
Lemma silent_emit_trace i ek tk p tid rid res cr : silent (emit_trace i ek tk p tid rid res cr).
Proof. intros s. unfold emit_trace. by destruct (k_clock _). Qed.
Lemma silent_set_req i f : silent (set_req i f).
Proof. by apply silent_mod_client. Qed.
Lemma silent_set_res i f : silent (set_res i f).
Proof. by apply silent_mod_client. Qed.
Lemma silent_set_file_slot i j f : silent (set_file_slot i j f).
Proof. apply silent_set_res. Qed.
Lemma silent_set_buffer_slot i j f : silent (set_buffer_slot i j f).
Proof. apply silent_set_res. Qed.
End Logic.

Create HintDb silent.
#[export] Hint Resolve silent_ret silent_fail silent_get silent_try silent_mod_task silent_close_fds
  silent_with_ring silent_ring_update_file silent_emit_trace silent_set_req silent_set_res
  silent_set_file_slot silent_set_buffer_slot : silent.

(** Decomposes a computation and closes its parts with the database. *)
Ltac silent_tac :=
  repeat lazymatch goal with
         | |- silent (mbnd _ _) => apply silent_bind; [|intros ?]
         | |- silent (mtry _) => apply silent_try
         | |- silent (match ?x with _ => _ end) => destruct x
         | |- silent (let '(_, _) := ?x in _) => destruct x
         | |- silent (mod_client _ _) => apply silent_mod_client; intros ?; reflexivity
         | |- silent (mod_rt _) => apply silent_mod_rt; intros ?; reflexivity
         | |- silent get_rt => apply silent_get
         | |- silent (get_client _) => apply silent_get
         | |- silent (get_task _) => apply silent_get
         | |- silent (get_file_slot _ _) => apply silent_get
         | |- silent (get_buffer_slot _ _) => apply silent_get
         | |- silent _ => solve [auto with silent]
         end.

Section Dispatch.
Context {W : Type} `{Kernel W}.
Abbreviation DM := (DM (W := W)).

Lemma silent_clear_file_slot i j : silent (clear_file_slot (W := W) i j).
Proof. unfold clear_file_slot. silent_tac. Qed.
Lemma silent_try_release_file i j : silent (iouringd_try_release_file_slot (W := W) i j).
Proof. unfold iouringd_try_release_file_slot. silent_tac; apply silent_clear_file_slot. Qed.
Lemma silent_try_release_buffer i j : silent (iouringd_try_release_buffer_slot (W := W) i j).
Proof. unfold iouringd_try_release_buffer_slot. silent_tac. Qed.
Lemma silent_drop_received_fd i : silent (drop_received_fd (W := W) i).
Proof. unfold drop_received_fd. silent_tac. Qed.
Lemma silent_allocate_id i : silent (allocate_id (W := W) i).
Proof. unfold allocate_id. silent_tac. Qed.
Lemma silent_resource_event i ev rid : silent (resource_event (W := W) i ev rid).
Proof. unfold resource_event. silent_tac. Qed.
Lemma silent_account_task i d cr : silent (account_task (W := W) i d cr).
Proof. unfold account_task. silent_tac. Qed.
Lemma silent_clear_task k : silent (clear_task (W := W) k).
Proof. apply silent_mod_task. Qed.
Lemma silent_dec_buffer i bj : silent (dec_buffer (W := W) i bj).
Proof. unfold dec_buffer. silent_tac. Qed.
Lemma silent_inc_buffer i bj : silent (inc_buffer (W := W) i bj).
Proof. unfold inc_buffer. silent_tac. Qed.
Lemma silent_drop_result_slot i j : silent (drop_result_slot (W := W) i j).
Proof. unfold drop_result_slot. silent_tac. apply silent_clear_file_slot. Qed.
Lemma silent_reopen_slot i j fd : silent (reopen_slot (W := W) i j fd).
Proof. unfold reopen_slot. silent_tac. Qed.
Lemma silent_reserve_result i k : silent (reserve_result (W := W) i k).
Proof. unfold reserve_result. silent_tac. apply silent_allocate_id. Qed.
Lemma silent_submit_io i k j : silent (submit_io (W := W) i k j).
Proof. unfold submit_io. silent_tac. Qed.
Lemma silent_submit_simple i k : silent (submit_simple (W := W) i k).
Proof. unfold submit_simple. silent_tac. Qed.
Lemma silent_undo_submit_io i k j bj : silent (undo_submit_io (W := W) i k j bj).
Proof.
  unfold undo_submit_io, dec_file, unallocate_id. silent_tac;
    [apply silent_drop_result_slot|apply silent_dec_buffer].
Qed.
End Dispatch.

#[export] Hint Resolve silent_clear_file_slot silent_try_release_file silent_try_release_buffer
  silent_drop_received_fd silent_allocate_id silent_resource_event silent_account_task
  silent_clear_task silent_dec_buffer silent_inc_buffer silent_drop_result_slot silent_reopen_slot
  silent_reserve_result silent_submit_io silent_submit_simple silent_undo_submit_io : silent.

(** ** Dispatching *)

(** The replies to a task request: the task's id with result 0, or no id. *)
Definition submit_reply (r : reply) : Prop :=
  exists x, r = RSubmit x /\ (sr_res x = IOURINGD_COMPLETION_RES_OK \/ sr_task x = IOURINGD_TASK_ID_INVALID).
Definition resource_reply_only (r : reply) : Prop := exists x, r = RResource x.

(** A reply of the kind of the request in [q]; a trace reply announces the
    number of events it carries. *)
Definition replies_to (q : client_request) (r : reply) : Prop :=
  let op := control_op q in
  if (op =? IOURINGD_REQUEST_KIND_REGISTER_FD) || (op =? IOURINGD_REQUEST_KIND_REGISTER_BUFFER) ||
     (op =? IOURINGD_REQUEST_KIND_RELEASE_RESOURCE)
  then resource_reply_only r
  else if op =? IOURINGD_REQUEST_KIND_GET_STATS then exists x, r = RStats x
  else if op =? IOURINGD_REQUEST_KIND_GET_TRACE
  then exists h es, r = RTrace h es /\ tr_count h = Z.of_nat (length es)
  else submit_reply r.

Section Dispatching.
Context {W : Type} `{Kernel W} (i : nat).
Abbreviation DM := (DM (W := W)).

(** The dispatcher reports progress, the request is done, and one reply of [ok]
    was queued. *)
Definition replied (ok : reply -> Prop) (b : bool) (s' : sys W) (bs : bytes) : Prop :=
  b = true /\ request_ready (c_req (the_client s' i)) = false /\ exists r, ok r /\ bs = reply_bytes r.

Lemma emits_finish (ok : reply -> Prop) r (s : sys W) bs :
  ok r -> bs = reply_bytes r -> emits i (finish_true i) s (fun b s' bs2 => replied ok b s' (bs ++ bs2)).
Proof.
  intros Hok -> Hs. revert Hs. apply emits_silent; [unfold finish_true, iouringd_finish_client_request; silent_tac|].
  intros a s' E. injection E as <- <-. rewrite app_nil_r. split_and!; [done| |by exists r].
  unfold the_client. cbn. rewrite list_lookup_total_alt.
  destruct (decide (i < length (rt_clients (s_rt s)))%nat) as [Hl|Hl].
  - by rewrite list_lookup_insert_eq.
  - rewrite lookup_ge_None_2; [done|]. rewrite length_insert. lia.
Qed.

(** A silent step, then the rest. *)
Ltac skip := apply emits_then; [solve [silent_tac]|intros ? ? ?].

Lemma emits_reject e (s : sys W) : emits i (reject i e) s (replied submit_reply).
Proof.
  unfold reject, iouringd_reject_submit, iouringd_queue_submit_result.
  set (ok := fun (_ : unit) (_ : sys W) bs => exists x, submit_reply (RSubmit x) /\ bs = to_wire x).
  apply (emits_bind i _ _ s ok).
  - skip. apply (emits_bind i _ _ _ ok).
    + skip. apply emits_queue. intros s'. eexists. split; [|reflexivity]. eexists. split; [reflexivity|by right].
    + intros [] s2 bs Hbs _. do 2 skip. apply emits_silent; [silent_tac|]. intros [] s' _. by rewrite app_nil_r.
  - intros [] s1 bs (x & Hx & ->) _. by eapply emits_finish.
Qed.

Lemma emits_resource_reply rid res avail (s : sys W) :
  emits i (resource_reply i rid res avail) s (fun _ _ bs => exists x, bs = to_wire (A := resource_result) x).
Proof.
  unfold resource_reply, iouringd_queue_resource_result. skip. apply emits_queue. intros s'. by eexists.
Qed.

(** A resource reply, silent steps, and the end of the request. *)
Lemma emits_resource_then {A} rid res avail (k : DM A) (s : sys W) :
  silent k -> emits i (resource_reply i rid res avail ;;; (k ;;; finish_true i))%iou s (replied resource_reply_only).
Proof.
  intros Hk. eapply emits_bind; [apply emits_resource_reply|]. intros [] s1 bs (x & ->) _.
  apply emits_then; [done|]. intros _ s2 _. by apply (emits_finish _ (RResource x)); [eexists|].
Qed.

Lemma emits_refuse e avail (s : sys W) : emits i (refuse i e avail) s (replied resource_reply_only).
Proof.
  unfold refuse. eapply emits_bind; [apply emits_resource_reply|]. intros [] s1 bs (x & ->) _.
  by apply (emits_finish _ (RResource x)); [eexists|].
Qed.

(** The submit reply of a started task, which may not fit. *)
Lemma emits_try_submit_result tid (s : sys W) :
  emits i (mtry (iouringd_queue_submit_result i tid IOURINGD_COMPLETION_RES_OK)) s
    (fun r _ bs => match r with
                   | Ok _ => exists x, submit_reply (RSubmit x) /\ bs = to_wire x
                   | Err _ => bs = []
                   end).
Proof.
  intros Hs. set (x := mk_submit_result tid IOURINGD_COMPLETION_RES_OK (iouringd_available_credits (s_rt s))).
  change (mtry _ s) with (mtry (queue_output i (to_wire x)) s). revert Hs. apply emits_try_queue; [|done].
  intros _. eexists. split; [|reflexivity]. eexists. split; [reflexivity|by left].
Qed.

Lemma emits_accept_task k credit undo (s : sys W) :
  emits i (accept_task i k credit undo) s (replied submit_reply).
Proof.
  unfold accept_task. do 4 skip. eapply emits_bind; [apply emits_try_submit_result|].
  intros [[]|e] s5 bs.
  - intros (x & Hx & ->) _. do 2 skip. by eapply emits_finish.
  - intros -> _ Hs. unfold mbnd. repeat case_match; simplify_eq/=; done.
Qed.

Lemma emits_abandon_task k e undo (s : sys W) :
  silent undo -> emits i (abandon_task i k e undo) s (replied submit_reply).
Proof. intros Hu. unfold abandon_task. skip. skip. apply emits_reject. Qed.

(** ** The control requests *)

Lemma emits_register_fd (s : sys W) : emits i (dispatch_register_fd i) s (replied resource_reply_only).
Proof.
  unfold dispatch_register_fd. skip. case_match; [apply emits_refuse|]. case_match; [|].
  2:{ apply emits_resource_then, silent_drop_received_fd. }
  skip. case_match; [apply emits_resource_then, silent_drop_received_fd|]. do 2 skip. case_match.
  - do 2 skip. apply emits_resource_then, silent_resource_event.
  - skip. apply emits_refuse.
Qed.

Lemma emits_register_buffer (s : sys W) :
  emits i (dispatch_register_buffer i) s (replied resource_reply_only).
Proof.
  unfold dispatch_register_buffer. skip. case_match; [|apply emits_refuse]. skip.
  case_match; [apply emits_refuse|]. cbv zeta. do 2 skip. apply emits_resource_then, silent_resource_event.
Qed.

Lemma emits_release (s : sys W) : emits i (dispatch_release i) s (replied resource_reply_only).
Proof.
  unfold dispatch_release. skip. cbv zeta. case_match; [apply emits_refuse|].
  case_match; [|case_match; [|apply emits_refuse]].
  all: skip; case_match; [apply emits_refuse|]; do 2 skip; apply emits_resource_then, silent_resource_event.
Qed.

Lemma emits_stats (s : sys W) :
  emits i (iouringd_queue_stats_result i ;;; finish_true i)%iou s (replied (fun r => exists x, r = RStats x)).
Proof.
  unfold iouringd_queue_stats_result. eapply (emits_bind i _ _ _ (fun _ _ bs => exists x : stats_result, bs = to_wire x)).
  - skip. apply emits_queue. intros _. by eexists.
  - intros [] s1 bs (x & ->) _. by apply (emits_finish _ (RStats x)); [eexists|].
Qed.

Lemma emits_events es (s : sys W) :
  emits i (queue_events i es) s (fun _ _ bs => bs = concat (to_wire <$> es)).
Proof.
  revert s. induction es as [|e es IH]; intros s; cbn [queue_events].
  - by apply emits_silent.
  - eapply (emits_bind i _ _ _ (fun _ _ bs => bs = to_wire e)); [by apply emits_queue|].
    intros [] s1 bs -> _. eapply emits_weaken; [apply IH|]. by intros [] s' bs' ->.
Qed.

(** ** The task requests *)

Lemma emits_openat rt c (s : sys W) : emits i (dispatch_openat i rt c) s (replied submit_reply).
Proof.
  unfold dispatch_openat. case_match; [apply emits_reject|]. case_match; [|apply emits_reject].
  skip. case_match; [apply emits_reject|]. case_match; [|apply emits_reject]. do 4 skip.
  case_match; [apply emits_accept_task|apply emits_abandon_task]. unfold unallocate_id. silent_tac.
Qed.

Lemma emits_close rt c (s : sys W) : emits i (dispatch_close i rt c) s (replied submit_reply).
Proof.
  unfold dispatch_close. case_match; [|apply emits_reject]. skip.
  do 3 (case_match; [apply emits_reject|]). case_match; [|apply emits_reject]. cbv zeta. do 5 skip.
  case_match; [apply emits_accept_task|apply emits_abandon_task]. apply silent_reopen_slot.
Qed.

Lemma emits_start_io rt c k j bj (s : sys W) : emits i (start_io i rt c k j bj) s (replied submit_reply).
Proof.
  unfold start_io, inc_file. do 4 skip. case_match; [|apply emits_abandon_task; unfold dec_file; silent_tac].
  skip. case_match; [apply emits_accept_task|apply emits_abandon_task, silent_undo_submit_io].
Qed.

Lemma emits_io rt c (s : sys W) : emits i (dispatch_io i rt c) s (replied submit_reply).
Proof.
  unfold dispatch_io. case_match; [|apply emits_reject]. skip.
  do 3 (case_match; [apply emits_reject|]). case_match; [|apply emits_reject].
  case_match; [apply emits_reject|]. case_match; [apply emits_start_io|apply emits_reject].
Qed.

Lemma emits_simple rt c (s : sys W) : emits i (dispatch_simple i rt c) s (replied submit_reply).
Proof.
  unfold dispatch_simple. case_match; [apply emits_reject|]. case_match; [|apply emits_reject]. do 2 skip.
  case_match; [apply emits_accept_task|apply emits_abandon_task]. silent_tac.
Qed.

Lemma emits_task rt c (s : sys W) : emits i (dispatch_task i rt c) s (replied submit_reply).
Proof.
  unfold dispatch_task. case_match; [apply emits_openat|]. case_match; [apply emits_close|].
  case_match; [apply emits_io|apply emits_simple].
Qed.

(** The events sent are as many as the header announces: both loops walk the
    same sequence numbers. *)
Lemma trace_loops rounds rt q latest emitted :
  0 <= emitted -> emitted + Z.of_nat rounds < 2 ^ 32 ->
  exists n, trace_count_loop rounds q latest emitted = emitted + Z.of_nat n /\
            length (trace_events_loop n rt q latest) = n.
Proof.
  revert q emitted. induction rounds as [|rounds IH]; intros q emitted He Hb; cbn [trace_count_loop].
  { exists 0%nat. split; [lia|done]. }
  destruct (q <=? latest) eqn:E; [|exists 0%nat; split; [lia|done]].
  rewrite (u32_id (emitted + 1)) by lia.
  destruct (IH (u64 (q + 1)) (emitted + 1) ltac:(lia) ltac:(lia)) as (n & E1 & E2).
  exists (S n). split; [rewrite E1; lia|]. cbn [trace_events_loop]. rewrite E. cbn [length]. by rewrite E2.
Qed.

Lemma trace_reply_count rt after max :
  max < 2 ^ 32 ->
  tr_count (trace_header rt after max) = Z.of_nat (length (trace_selected rt after max)).
Proof.
  intros Hm. cbn [trace_header tr_count]. unfold trace_selected, trace_emitted. cbv zeta.
  destruct (_ && _); [|done].
  destruct (trace_loops (Z.to_nat max) rt (trace_start rt after) (trace_latest_sequence rt) 0)
    as (n & E1 & E2); [lia|lia|]. rewrite E1, Z.add_0_l, Nat2Z.id.
  destruct (Z.of_nat n =? 0) eqn:E0; bool_hyps; [by rewrite E0|by rewrite E2].
Qed.

Lemma emits_trace (s : sys W) :
  trace_max_events (c_req (the_client s i)) < 2 ^ 32 ->
  emits i (iouringd_queue_trace_result i ;;; finish_true i)%iou s
    (replied (fun r => exists h es, r = RTrace h es /\ tr_count h = Z.of_nat (length es))).
Proof.
  intros Hm. set (after := trace_after_sequence (c_req (the_client s i))).
  set (max := trace_max_events (c_req (the_client s i))) in *.
  set (h := trace_header (s_rt s) after max). set (es := trace_selected (s_rt s) after max).
  eapply (emits_bind i _ _ s (fun _ _ bs => bs = reply_bytes (RTrace h es))).
  - intros Hs. revert Hs.
    change (emits i (queue_output i (to_wire h) ;;; queue_events i es)%iou s
              (fun _ _ bs => bs = reply_bytes (RTrace h es))).
    eapply (emits_bind i _ _ s (fun _ _ bs => bs = to_wire h)); [by apply emits_queue|].
    intros [] s1 bs -> _. eapply emits_weaken; [apply emits_events|]. by intros [] s' bs' ->.
  - intros [] s1 bs -> _. apply (emits_finish _ (RTrace h es)); [|done].
    exists h, es. split; [done|]. by apply trace_reply_count.
Qed.

Lemma emits_dispatch (s : sys W) :
  trace_max_events (c_req (the_client s i)) < 2 ^ 32 ->
  emits i (iouringd_dispatch_client_request i) s (fun b s' bs =>
    if request_ready (c_req (the_client s i)) then replied (replies_to (c_req (the_client s i))) b s' bs
    else b = false /\ bs = []).
Proof.
  intros Hm. apply emits_get. set (c := the_client s i) in *. cbv zeta. unfold replies_to.
  destruct (request_ready (c_req c)) eqn:Hr; cbn [negb]; [|by apply emits_silent; [|intros a s' [= <- <-]]].
  destruct (_ =? IOURINGD_REQUEST_KIND_REGISTER_FD); [apply emits_register_fd|].
  destruct (_ =? IOURINGD_REQUEST_KIND_REGISTER_BUFFER); [apply emits_register_buffer|].
  destruct (_ =? IOURINGD_REQUEST_KIND_RELEASE_RESOURCE); [apply emits_release|]. cbn [orb].
  destruct (_ =? IOURINGD_REQUEST_KIND_GET_STATS); [apply emits_stats|].
  destruct (_ =? IOURINGD_REQUEST_KIND_GET_TRACE); [by apply emits_trace|].
  skip. case_match; [apply emits_reject|apply emits_task].
Qed.

(** C8: one reply to each request.  When the dispatcher returns for a client with a
    request, it has appended to that client's output the bytes of exactly one
    reply, of the kind the request calls for (a task's id or a refusal without
    one, a resource, the statistics, or a trace with as many events as
    announced), the request is finished, and no other client's output changed.
    Without a request it reports that nothing was done and queues nothing. *)
Theorem dispatch_replies_once (s : sys W) b s' :
  speaks i s -> trace_max_events (c_req (the_client s i)) < 2 ^ 32 ->
  iouringd_dispatch_client_request i s = (Ok b, s') ->
  b = request_ready (c_req (the_client s i)) /\
  (forall j, j <> i -> pending_of s' j = pending_of s j) /\
  if b then
    request_ready (c_req (the_client s' i)) = false /\
    exists r, replies_to (c_req (the_client s i)) r /\ pending_of s' i = pending_of s i ++ reply_bytes r
  else pending_of s' i = pending_of s i.
Proof.
  intros Hs Hm E. pose proof (emits_dispatch s Hm Hs) as He. rewrite E in He.
  destruct He as (_ & bs & HQ & Hp & Ho). destruct (request_ready (c_req (the_client s i))).
  - destruct HQ as (-> & Hr & r & Hok & ->). split_and!; [done|done|done|]. by exists r.
  - destruct HQ as [-> ->]. rewrite app_nil_r in Hp. done.
Qed.
End Dispatching.

(** The state [busy]: a cancel request is waiting, and is refused. *)
Lemma busy_speaks : speaks 0 busy.
Proof.
  pose proof (invariant_safe busy script_recv_documented script_write_documented busy_reachable) as Ha.
  assert (Hl : (0 < length (rt_clients (s_rt busy)))%nat) by (apply Nat.ltb_lt; vm_compute; reflexivity).
  split; [exact Hl|]. eapply cs_output, Forall_lookup_1; [exact (as_clients _ _ _ Ha)|].
  apply client_lookup. by apply Nat.ltb_lt.
Qed.

Lemma dispatch_replies_once_witness :
  request_ready (c_req (the_client busy 0)) = true /\
  exists r, submit_reply r /\
    pending_of (snd (iouringd_dispatch_client_request 0 busy)) 0 = pending_of busy 0 ++ reply_bytes r.
Proof.
  split; [vm_compute; reflexivity|].
  assert (Hok : is_ok (fst (iouringd_dispatch_client_request 0 busy)) = true) by (vm_compute; reflexivity).
  destruct (iouringd_dispatch_client_request 0 busy) as [[b|e] s'] eqn:E; [|discriminate Hok].
  destruct (dispatch_replies_once 0 busy b s' busy_speaks ltac:(vm_compute; reflexivity) E) as (Eb & _ & Hr).
  assert (E1 : request_ready (c_req (the_client busy 0)) = true) by (vm_compute; reflexivity).
  rewrite E1 in Eb. subst b. destruct Hr as (_ & r & Hr & Hp). exists r. split; [|exact Hp].
  unfold replies_to in Hr. revert Hr.
  assert (E2 : control_op (c_req (the_client busy 0)) = 0) by (vm_compute; reflexivity).
  rewrite E2. exact (fun H => H).
Defined.
