(* ===== verification/Delivery.v ===== *)
(** * One completion for each task

    [iouringd_complete_task] of [src/daemon/main.c]: when the client that started
    the task is still connected, exactly one completion record, with the payload
    it announces, goes into that client's output, and it is one that the client
    library accepts; otherwise nothing goes to anyone. *)

From S2P Require Import Prelude Wire Kernel Ring State Output Resources Trace Daemon Startup Input Reader Dispatch Complete Sched Session Correct Memory Safety Socket Client Inbox Replies.

(** What is known of a task whose operation ends with [res]: the daemon's own
    fields, and that a read returns no more bytes than it was asked for. *)
Record completable (t : task_slot) (res : Z) : Prop := {
  ct_id : 0 < t_task_id t < IOURINGD_TASK_ID_RESERVED_MIN;
  ct_kind : IOURINGD_TASK_KIND_NOP <= t_task_kind t < IOURINGD_TASK_KIND_MAX_V1;
  ct_res : fits_i32 res;
  ct_read : kind_is_read (t_task_kind t) = true -> res <= t_io_length t;
  ct_address : 0 <= t_sockaddr_length t;
  ct_resource : 0 <= t_result_resource_id t;
}.

(** The record for the task, and the payload the accept has chosen for it. *)
Record prepared (t : task_slot) (res : Z) (x : completion_record) (p : option bytes) : Prop := {
  pr_header : cr_header x = protocol_header_v1;
  pr_task : cr_task x = t_task_id t;
  pr_kind : cr_task_kind x = t_task_kind t;
  pr_res : fits_i32 (cr_res x);
  pr_payload :
    if kind_is_read (t_task_kind t) then
      cr_res x = res /\ p = None /\ cr_payload_length x = (if 0 <? res then u16 res else 0)
    else if t_task_kind t =? IOURINGD_TASK_KIND_ACCEPT then
      (cr_payload_length x = 0 /\ cr_res x <> 0) \/
      (0 < cr_res x /\ 0 < cr_payload_length x <= t_io_length t /\ p = Some (t_io_buffer t))
    else cr_payload_length x = 0;
}.

Section Delivery.
Context {W : Type} `{Kernel W} (L : iouringd_limits) (capacity : Z) (HL : limits_supported L).
Abbreviation DM := (DM (W := W)).

(** A failed file table update reports an error number. *)
Definition update_documented : Prop :=
  forall w index fd e w', k_files_update w index fd = (Err e, w') -> 0 < e <= 4095.
Context (Hupdate : update_documented).

(** The connection that started the task is still there. *)
Definition live (s : sys W) (t : task_slot) : bool :=
  let c := the_client s (t_client_index t) in
  (0 <=? c_fd c) && (c_generation c =? t_client_generation t).

Lemma faces_live s s' t : faces s' = faces s -> live s' t = live s t.
Proof.
  intros E. unfold live. pose proof (the_client_face s (t_client_index t)) as E1.
  pose proof (the_client_face s' (t_client_index t)) as E2. rewrite E, <- E1 in E2.
  unfold face in E2. injection E2 as _ -> ->. done.
Qed.

Lemma update_file_errno (w : W) r index fd e w' :
  iouringd_ring_update_registered_file w r index fd = (Err e, w') -> 0 < e <= 4095.
Proof.
  unfold iouringd_ring_update_registered_file. destruct (_ || _); [intros [= <- _]; by vm_compute|].
  destruct (k_files_update w index fd) as [[n|e1] w1] eqn:E.
  - destruct (n =? 1); [done|]. intros [= <- _]. by vm_compute.
  - intros [= <- _]. by eapply Hupdate.
Qed.

(** The reserved slot of a connected client takes the descriptor, or the update
    fails with an error number. *)
Lemma install_result_run t fd s :
  live s t = true -> 0 <= t_result_resource_id t -> result_id_bad t = false ->
  wp (install_result t fd) s (fun r _ => exists v b, r = Ok (v, b) /\ fits_i32 v /\
    (if b : bool then 0 < v else v < 0)).
Proof.
  intros Hl H0 Hid. unfold install_result, wp, mbnd, get_client, get_rt, mget. unfold live in Hl.
  apply andb_true_iff in Hl as [Hfd%Z.leb_le Hg]. rewrite Hg. cbn [negb].
  rewrite (proj2 (Z.ltb_ge _ _) Hfd). cbn [orb]. unfold mtry, ring_update_file.
  destruct (iouringd_ring_update_registered_file _ _ _ _) as [[u|e] w'] eqn:E.
  - exists (i32 (t_result_resource_id t)), true. split; [done|].
    unfold result_id_bad in Hid. bool_hyps. unfold IOURINGD_RESOURCE_ID_INVALID, INT32_MAX in *.
    rewrite i32_id by lia. unfold fits_i32. lia.
  - apply update_file_errno in E. exists (- e), false. split; [done|]. unfold fits_i32. lia.
Qed.

Lemma initial_prepared t res :
  completable t res -> (t_task_kind t = IOURINGD_TASK_KIND_ACCEPT -> res <> 0) ->
  prepared t res (initial_completion t res) None.
Proof.
  intros [H1 H2 H3 H4 H5 H6] Ha. constructor; try done; cbn.
  destruct (kind_is_read _) eqn:Ek; cbn [andb]; [by split_and!|].
  destruct (_ =? IOURINGD_TASK_KIND_ACCEPT) eqn:E; [|done]. bool_hyps. left. split; [done|by apply Ha].
Qed.

(** An accept or openat that ended without a payload, with another result. *)
Lemma prepared_res t res v x p :
  kind_is_read (t_task_kind t) = false -> fits_i32 v ->
  (t_task_kind t = IOURINGD_TASK_KIND_ACCEPT -> v <> 0) -> cr_header x = protocol_header_v1 ->
  cr_task x = t_task_id t -> cr_task_kind x = t_task_kind t -> cr_payload_length x = 0 ->
  prepared t res (set_cr_res v x) p.
Proof.
  intros Hk Hv Ha H1 H2 H3 H4. constructor; try done. cbn. rewrite Hk.
  destruct (_ =? IOURINGD_TASK_KIND_ACCEPT) eqn:E; [|done]. bool_hyps. left. split; [done|by apply Ha].
Qed.

Lemma prepare_accept_run t res s :
  completable t res -> task_safe L t -> live s t = true ->
  wp (iouringd_prepare_accept_completion t (initial_completion t res)) s
    (fun r _ => exists x p, r = Ok (x, p) /\ prepared t res x p /\
       (t_task_kind t <> IOURINGD_TASK_KIND_ACCEPT -> x = initial_completion t res)).
Proof.
  intros Hc Ht Hl. unfold iouringd_prepare_accept_completion.
  destruct (negb _ || _) eqn:E0.
  { exists (initial_completion t res), None. split_and!; [done| |done]. apply initial_prepared; [done|].
    intros Ek. rewrite Ek in E0. cbn in E0. apply Z.ltb_lt in E0. lia. }
  apply orb_false_iff in E0 as [Ek%negb_false_iff%Z.eqb_eq E0%Z.ltb_ge].
  assert (Hkr : kind_is_read (t_task_kind t) = false) by (by rewrite Ek).
  assert (Hzero : forall v, fits_i32 v -> v <> 0 -> prepared t res (set_cr_res v (initial_completion t res)) None).
  { intros v Hv Hn. apply prepared_res; try done. cbn. by rewrite Hkr. }
  assert (Herr : forall e, e = EIO \/ e = EPROTO ->
            exists x p, Ok (set_cr_res (- e) (initial_completion t res), None) = Ok (x, p) /\
              prepared t res x p /\ (t_task_kind t <> IOURINGD_TASK_KIND_ACCEPT -> x = initial_completion t res)).
  { intros e He. eexists _, _. split_and!; [done| |done].
    apply Hzero; destruct He as [-> | ->]; unfold EIO, EPROTO, fits_i32; lia. }
  apply wp_bind. unfold wp at 1, get_rt, mget.
  destruct (_ || _); [apply Herr; by left|]. apply wp_bind. unfold wp at 1, get_client, mget.
  destruct (_ <=? _); [apply Herr; by left|].
  destruct (_ || _) eqn:Eb; [apply Herr; by right|]. apply orb_false_iff in Eb as [Eb%Z.ltb_ge Hid].
  apply wp_bind. eapply wp_weaken; [apply install_result_run; [exact Hl|by destruct Hc|exact Hid]|].
  intros r s1 (v & b & -> & Hv & Hb). destruct (b && _) eqn:Ep.
  - apply andb_true_iff in Ep as [-> Hn%negb_true_iff%Z.eqb_neq]. eexists _, _. split_and!; [done| |done].
    pose proof (ts_length _ _ Ht ltac:(by rewrite Ek)) as Hlen. pose proof (ct_address _ _ Hc) as Ha.
    destruct HL as (_ & _ & _ & _ & _ & Hio). constructor; try done. cbn. rewrite Hkr, Ek. right.
    rewrite u16_id by lia. split_and!; [done|lia|lia|done].
  - eexists _, _. split_and!; [done| |done]. apply Hzero; [done|]. destruct b; lia.
Qed.

Lemma prepare_openat_run t res x p s :
  completable t res -> live s t = true -> prepared t res x p ->
  wp (iouringd_prepare_openat_completion t x) s
    (fun r _ => exists x', r = Ok x' /\ prepared t res x' p).
Proof.
  intros Hc Hl Hp. unfold iouringd_prepare_openat_completion.
  destruct (negb _ || _) eqn:E0; [by exists x|].
  apply orb_false_iff in E0 as [Ek%negb_false_iff%Z.eqb_eq E0%Z.ltb_ge].
  destruct Hp as [P1 P2 P3 P4 P5]. rewrite Ek in P5. cbn in P5.
  assert (Hres : forall v, fits_i32 v -> exists x', Ok (set_cr_res v x) = Ok x' /\ prepared t res x' p).
  { intros v Hv. eexists. split; [done|].
    apply prepared_res; first [done|by rewrite Ek]. }
  apply wp_bind. unfold wp at 1, get_rt, mget.
  destruct (_ || _); [by apply Hres; vm_compute|]. apply wp_bind. unfold wp at 1, get_client, mget.
  destruct (_ || _) eqn:Eb; [by apply Hres; vm_compute|]. apply orb_false_iff in Eb as [_ Hid].
  apply wp_bind. eapply wp_weaken; [apply install_result_run; [exact Hl|by destruct Hc|exact Hid]|].
  intros r s1 (v & b & -> & Hv & _). by apply Hres.
Qed.

(** ** The payload *)

(** The bytes that follow the record. *)
Definition payload_bytes (x : completion_record) (payload : option bytes) : bytes :=
  match payload with
  | Some p => if negb (cr_payload_length x =? 0) then take (Z.to_nat (cr_payload_length x)) p else []
  | None => []
  end.

(** There is a payload of the announced length, and the record is valid. *)
Definition deliverable (t : task_slot) (x : completion_record) (payload : option bytes) : Prop :=
  good_completion x (payload_bytes x payload) /\
  cr_task x = t_task_id t /\ cr_task_kind x = t_task_kind t.

Lemma payload_bytes_length x p :
  0 <= cr_payload_length x -> cr_payload_length x = 0 \/ cr_payload_length x <= Z.of_nat (length p) ->
  Z.of_nat (length (payload_bytes x (Some p))) = cr_payload_length x.
Proof.
  intros H0 Hl. unfold payload_bytes. destruct (_ =? 0) eqn:E; bool_hyps; cbn [negb length]; [lia|].
  rewrite length_take. lia.
Qed.

Lemma prepared_fit t res x p :
  completable t res -> prepared t res x p -> 0 <= cr_payload_length x < 65536 ->
  wire_fit x /\ fits_i32 (cr_res x).
Proof.
  intros [C1 C2 C3 C4 C5 C6] [P1 P2 P3 P4 P5] Hl. split; [|done].
  unfold wire_fit. destruct x as [h task r kind plen]. cbn in *. subst.
  unfold IOURINGD_TASK_ID_RESERVED_MIN, UINT64_MAX, IOURINGD_TASK_KIND_NOP, IOURINGD_TASK_KIND_MAX_V1 in *.
  pose proof (Z.mod_pos_bound r (2 ^ 32) ltac:(lia)) as Hr. change (r mod 2 ^ 32) with (u32 r) in Hr.
  repeat constructor; cbn; try done; lia.
Qed.

(** What [read_payload] returns, given what the accept has chosen. *)
Definition payload_ok (t : task_slot) (res : Z) (p payload : option bytes) : Prop :=
  if kind_is_read (t_task_kind t) && (0 <? res)
  then exists q, payload = Some q /\ res <= Z.of_nat (length q)
  else payload = p.

Lemma prepared_payload t res x p payload :
  completable t res -> task_safe L t -> prepared t res x p -> payload_ok t res p payload ->
  0 <= cr_payload_length x < 65536 /\
  Z.of_nat (length (payload_bytes x payload)) = cr_payload_length x /\
  (if kind_is_read (t_task_kind t) then
     if cr_res x <? 0 then cr_payload_length x =? 0
     else (cr_res x <=? UINT16_MAX) && (cr_payload_length x =? u16 (cr_res x))
   else if t_task_kind t =? IOURINGD_TASK_KIND_ACCEPT
   then if cr_res x <? 0 then cr_payload_length x =? 0 else 0 <? cr_res x
   else cr_payload_length x =? 0) = true.
Proof.
  intros [C1 C2 C3 C4 C5 C6] Ht [P1 P2 P3 P4 P5] Hpay.
  pose proof (ts_length _ _ Ht) as Hlen. destruct HL as (_ & _ & _ & _ & _ & Hio).
  unfold payload_ok in Hpay. destruct (kind_is_read (t_task_kind t)) eqn:Ek.
  - destruct P5 as (Er & Ep & El). assert (Hk : kind_copies (t_task_kind t) = true).
    { unfold kind_is_read in Ek. apply orb_true_iff in Ek as [Ek|Ek]; [apply orb_true_iff in Ek as [Ek|Ek]|];
        apply Z.eqb_eq in Ek; by rewrite Ek. }
    specialize (Hlen Hk). specialize (C4 eq_refl). cbn [andb] in Hpay. rewrite Er.
    destruct (0 <? res) eqn:E0; bool_hyps.
    + rewrite u16_id in El |- * by lia. destruct Hpay as (q & -> & Hq).
      split; [lia|]. split; [apply payload_bytes_length; lia|].
      rewrite (proj2 (Z.ltb_ge res 0)) by lia. unfold UINT16_MAX.
      rewrite (proj2 (Z.leb_le res 65535)) by lia. by rewrite El, Z.eqb_refl.
    + subst p payload. rewrite El. split; [lia|]. split; [done|].
      destruct (res <? 0) eqn:E1; [done|]. bool_hyps. by replace res with 0 by lia.
  - cbn [andb] in Hpay. subst payload. destruct (_ =? IOURINGD_TASK_KIND_ACCEPT) eqn:Ea.
    + apply Z.eqb_eq in Ea. specialize (Hlen ltac:(by rewrite Ea)).
      destruct P5 as [[El Hr]|(Hr & El & ->)].
      * rewrite El. split; [lia|]. split; [unfold payload_bytes; rewrite El; by destruct p|].
        destruct (_ <? 0) eqn:E1; [done|]. bool_hyps. apply Z.ltb_lt. lia.
      * split; [lia|]. split; [apply payload_bytes_length; [lia|right]; rewrite (ts_buffer _ _ Ht);
          unfold IOURINGD_MAX_IO_BYTES; lia|].
        rewrite (proj2 (Z.ltb_ge (cr_res x) 0)) by lia. by apply Z.ltb_lt.
    + rewrite P5. split; [lia|]. split; [unfold payload_bytes; rewrite P5; by destruct p|done].
Qed.

Lemma prepared_deliverable t res x p payload :
  completable t res -> task_safe L t -> prepared t res x p -> payload_ok t res p payload ->
  deliverable t x payload.
Proof.
  intros Hc Ht Hp Hpay. destruct (prepared_payload t res x p payload Hc Ht Hp Hpay) as (Hl & Hb & Hv).
  pose proof Hp as [P1 P2 P3 P4 P5]. pose proof Hc as [C1 C2 C3 C4 C5 C6].
  split_and!; [|done|done]. constructor.
  - by eapply prepared_fit.
  - unfold completion_record_is_valid. rewrite P1, P2, P3. change (header_is_v1 protocol_header_v1) with true.
    unfold task_id_is_invalid. rewrite (proj2 (Z.eqb_neq (t_task_id t) IOURINGD_TASK_ID_INVALID)) by (unfold IOURINGD_TASK_ID_INVALID; lia).
    rewrite (proj2 (Z.leb_gt _ _) (proj2 C1)), (proj2 (Z.ltb_ge _ _) (proj1 C2)), (proj2 (Z.leb_gt _ _) (proj2 C2)).
    cbn [negb orb]. exact Hv.
  - exact Hb.
Qed.

Lemma read_payload_run t res p s :
  completable t res -> task_safe L t -> arrays_safe L capacity s -> live s t = true ->
  Z.of_nat (t_client_index t) < max_clients L ->
  wp (read_payload t res p) s (fun r _ => exists payload, r = Ok payload /\ payload_ok t res p payload).
Proof.
  intros Hc Ht Hs Hl Hi. pose proof (ts_length _ _ Ht) as Hlen. pose proof HL as (_ & Hm & _ & Hb & _ & Hio).
  assert (Hcl : client_safe L (the_client s (t_client_index t))).
  { eapply Forall_lookup_1; [exact (as_clients _ _ _ Hs)|]. apply lookup_total_lt.
    rewrite (as_count _ _ _ Hs). unfold IOURINGD_MAX_CLIENTS. lia. }
  apply andb_true_iff in Hl as [Hfd%Z.leb_le _]. destruct (cs_limits _ _ Hcl Hfd) as [_ Eb].
  unfold read_payload, payload_ok. apply wp_bind. unfold wp at 1, get_client, mget.
  apply wp_bind. unfold wp at 1, get_rt, mget. cbv zeta. rewrite Eb.
  destruct ((_ || _) && _) eqn:E1.
  { apply andb_true_iff in E1 as [E1 E2]. rewrite E2.
    assert (Hk : kind_is_read (t_task_kind t) = true /\ kind_copies (t_task_kind t) = true).
    { apply orb_true_iff in E1 as [E1|E1]; apply Z.eqb_eq in E1; by rewrite E1. }
    destruct Hk as [Hk1 Hk2]. rewrite Hk1. eexists. split; [done|]. eexists. split; [done|].
    rewrite (ts_buffer _ _ Ht). pose proof (ct_read _ _ Hc Hk1). specialize (Hlen Hk2).
    unfold IOURINGD_MAX_IO_BYTES. lia. }
  destruct (t_task_kind t =? IOURINGD_TASK_KIND_SOCK_READ_FIXED) eqn:Ek; cbn [andb].
  2:{ eexists. split; [done|]. unfold kind_is_read. rewrite Ek, orb_false_r. by rewrite E1. }
  apply Z.eqb_eq in Ek. destruct (ts_place _ _ Ht Ek) as [_ Hp]. specialize (Hlen ltac:(by rewrite Ek)).
  pose proof (ct_read _ _ Hc ltac:(by rewrite Ek)) as Hr. rewrite Ek. cbn [kind_is_read].
  unfold slot_index_ok. rewrite i32_id by lia. rewrite (proj2 (Z.leb_le _ _)) by lia.
  rewrite (proj2 (Z.ltb_lt _ _)) by lia. cbn [andb].
  match goal with |- wp (mbnd ?m _) _ _ => assert (Hm1 : exists s1, m s = (Ok tt, s1)) end.
  { destruct (0 <=? res); by eexists. }
  destruct Hm1 as [s1 Es1]. apply wp_bind. unfold wp at 1. rewrite Es1.
  eexists. split; [done|]. change (kind_is_read IOURINGD_TASK_KIND_SOCK_READ_FIXED) with true. cbn [andb].
  destruct (0 <? res); [|done]. eexists. split; [done|]. rewrite length_drop.
  pose proof (as_storage _ _ _ Hs) as Hst.
  unfold iouringd_buffer_storage_at, iouringd_global_buffer_index. rewrite (as_limits _ _ _ Hs).
  rewrite Z2Nat.id by lia.
  set (base := Z.of_nat (t_client_index t) * registered_buffers_per_client L + t_buffer_slot_index t).
  assert (Hbase : 0 <= base /\ base + 1 <= max_clients L * registered_buffers_per_client L) by (unfold base; nia).
  assert (Hend : (base + 1) * lim_io_bytes_max L <=
                 max_clients L * registered_buffers_per_client L * lim_io_bytes_max L) by nia.
  assert (H0 : 0 <= base * lim_io_bytes_max L) by nia.
  rewrite u32_id by nia. rewrite Z.mul_add_distr_r in Hend. lia.
Qed.

(** ** The other steps are silent *)

Lemma silent_install_result t fd : silent (W := W) (install_result t fd).
Proof. unfold install_result. silent_tac. Qed.
Lemma silent_read_payload t res p : silent (W := W) (read_payload t res p).
Proof. unfold read_payload. silent_tac. Qed.
Lemma silent_prepare_accept t x : silent (W := W) (iouringd_prepare_accept_completion t x).
Proof. pose proof silent_install_result. unfold iouringd_prepare_accept_completion. silent_tac. Qed.
Lemma silent_prepare_openat t x : silent (W := W) (iouringd_prepare_openat_completion t x).
Proof. pose proof silent_install_result. unfold iouringd_prepare_openat_completion. silent_tac. Qed.
Lemma silent_complete_slots t :
  silent (W := W) (complete_file_slot t) /\ silent (W := W) (complete_result_slot t) /\
  silent (W := W) (complete_buffer_slot t).
Proof.
  unfold complete_file_slot, complete_result_slot, complete_buffer_slot, unref_file, unref_buffer.
  split_and!; silent_tac.
Qed.
Lemma silent_complete_account t : silent (W := W) (complete_account t).
Proof. unfold complete_account. silent_tac. Qed.

(** ** The completion goes out once *)

Lemma emits_completion_reply t x payload (s : sys W) :
  emits (t_client_index t) (completion_reply t x payload) s
    (fun _ _ bs => bs = if live s t then to_wire x ++ payload_bytes x payload else []).
Proof.
  unfold completion_reply. apply emits_get. unfold live. cbv zeta. destruct (_ && _); [|by apply emits_silent].
  eapply (emits_bind _ _ _ _ (fun _ _ bs => bs = to_wire x)); [by apply emits_queue|].
  intros [] s1 bs -> _. unfold payload_bytes. destruct payload as [p|]; [|by apply emits_silent].
  destruct (negb _); [by apply emits_queue|by apply emits_silent].
Qed.

(** What the completion of [t] may append. *)
Definition completed (t : task_slot) (alive : bool) (bs : bytes) : Prop :=
  if alive then exists x p, good_completion x p /\ cr_task x = t_task_id t /\
                            cr_task_kind x = t_task_kind t /\ bs = frame_bytes (FCompletion x p)
  else bs = [].

(** A silent step whose result is known. *)
Lemma emits_step {A} i (m : DM A) (s : sys W) (R : A -> Prop) :
  silent m -> safe L capacity m (fun _ => True) -> arrays_safe L capacity s ->
  wp m s (fun r _ => exists a, r = Ok a /\ R a) \/ (forall a, R a) ->
  emits i m s (fun a s' bs => bs = [] /\ R a /\ faces s' = faces s /\ arrays_safe L capacity s').
Proof.
  intros Hm Hsafe Hs HR. apply emits_silent; [done|]. intros a s' E.
  pose proof (Hm s) as Hf. pose proof (Hsafe s Hs) as Ha. unfold wp in Ha. rewrite E in Hf, Ha.
  split_and!; [done| |exact Hf|apply Ha]. destruct HR as [HR|HR]; [|done].
  unfold wp in HR. rewrite E in HR. by destruct HR as (a' & [= <-] & HR).
Qed.

Lemma emits_deliver t res x p (s : sys W) :
  completable t res -> task_safe L t -> arrays_safe L capacity s ->
  Z.of_nat (t_client_index t) < max_clients L -> (live s t = true -> prepared t res x p) ->
  emits (t_client_index t) (payload <- read_payload t res p ;; completion_reply t x payload)%iou s
    (fun _ _ bs => completed t (live s t) bs).
Proof.
  intros Hc Ht Hs Hi Hp. eapply emits_bind.
  { apply (emits_step _ _ s (fun payload => live s t = true -> payload_ok t res p payload));
      [apply silent_read_payload|apply safe_read_payload|done|].
    destruct (live s t) eqn:El; [left|by right].
    eapply wp_weaken; [by apply read_payload_run|]. intros r s1 (payload & -> & Hok). by eexists. }
  intros payload s1 bs (-> & Hok & F & _) _. eapply emits_weaken; [apply emits_completion_reply|].
  intros [] s2 bs ->. rewrite (faces_live _ _ _ F). unfold completed. destruct (live s t); [|done].
  destruct (prepared_deliverable t res x p payload Hc Ht (Hp eq_refl) (Hok eq_refl)) as (H1 & H2 & H3).
  by exists x, (payload_bytes x payload).
Qed.

Lemma emits_complete_task k res (s : sys W) :
  let t := the_task s k in
  completable t res -> task_safe L t -> arrays_safe L capacity s ->
  Z.of_nat (t_client_index t) < max_clients L ->
  emits (t_client_index t) (iouringd_complete_task k res) s (fun _ _ bs => completed t (live s t) bs).
Proof.
  intros t Hc Ht Hs Hi. unfold iouringd_complete_task. apply emits_get. change (the_task s k) with t.
  set (i := t_client_index t). pose proof (safe_install_result (W := W) L capacity) as Hinst.
  eapply emits_bind.
  { apply (emits_step i _ s (fun xp => live s t = true -> prepared t res (fst xp) (snd xp)));
      [apply silent_prepare_accept|unfold iouringd_prepare_accept_completion; safe_tac|done|].
    destruct (live s t) eqn:El; [left|by right].
    eapply wp_weaken; [by apply prepare_accept_run|]. intros r s1 (x & p & -> & Hp & _). by eexists. }
  intros [x p] s1 bs1 (-> & Hp & F1 & S1) _. cbn [fst snd] in *.
  eapply emits_bind.
  { apply (emits_step i _ s1 (fun x => live s t = true -> prepared t res x p));
      [apply silent_prepare_openat|unfold iouringd_prepare_openat_completion; safe_tac|done|].
    destruct (live s t) eqn:El; [left|by right].
    eapply wp_weaken; [apply prepare_openat_run; [exact Hc|by rewrite (faces_live _ _ _ F1)|by apply Hp]|].
    intros r s2 (x' & -> & Hx). by eexists. }
  intros x' s2 bs2 (-> & Hx & F2 & S2) _. rewrite F1 in F2. clear Hp x.
  fold i in Hi. apply emits_get. rewrite (as_limits _ _ _ S2), (proj2 (Z.ltb_lt _ _) Hi). cbn [app].
  destruct (silent_complete_slots t) as (H1 & H2 & H3). pose proof (silent_complete_account t) as H4.
  pose proof (emits_deliver t res x' p s2 Hc Ht S2 Hi) as Hd. rewrite (faces_live _ _ _ F2) in Hd.
  specialize (Hd Hx). apply (emits_bind _ _ _ _ (fun _ _ bs => completed t (live s t) bs)).
  - apply emits_assoc. eapply emits_bind; [exact Hd|]. intros [] s3 bs Hbs _.
    apply emits_silent; [silent_tac|]. intros [] s4 _. by rewrite app_nil_r.
  - intros [] s3 bs Hbs _. apply emits_silent; [silent_tac|]. intros [] s4 _. by rewrite app_nil_r.
Qed.

(** C9: one completion for each task.  When the completion of a task has been handled,
    the client that started it, if it is still connected, has one completion
    record more in its output, with the task's id and kind and the payload the
    record announces, and the record is one that the client library accepts.  If
    that client is gone (another may have its slot), nothing is sent.  Nobody
    else's output changes. *)
Theorem completion_delivered_once k res (s s' : sys W) :
  let t := the_task s k in
  let i := t_client_index t in
  speaks i s -> completable t res -> arrays_safe L capacity s -> Z.of_nat i < max_clients L ->
  iouringd_complete_task k res s = (Ok tt, s') ->
  (forall j, j <> i -> pending_of s' j = pending_of s j) /\
  if live s t then
    exists x p, good_completion x p /\ cr_task x = t_task_id t /\ cr_task_kind x = t_task_kind t /\
                pending_of s' i = pending_of s i ++ frame_bytes (FCompletion x p)
  else pending_of s' i = pending_of s i.
Proof.
  intros t i Hsp Hc Hs Hi E. assert (Ht : task_safe L t) by (by apply (safe_get_task L capacity k s Hs)).
  pose proof (emits_complete_task k res s Hc Ht Hs Hi Hsp) as He. rewrite E in He.
  destruct He as (_ & bs & Hbs & Hp & Ho). fold t i in Hbs, Hp, Ho. split; [exact Ho|]. unfold completed in Hbs.
  destruct (live s t).
  - destruct Hbs as (x & p & H1 & H2 & H3 & ->). by exists x, p.
  - by rewrite Hbs, app_nil_r in Hp.
Qed.
End Delivery.

(** The state [busy]: its timeout expires. *)
Lemma script_update_documented : update_documented (W := script).
Proof.
  intros w index fd e w'. cbn. destruct (sc_update w) as [|[n|e1] l]; intros [= <- _] || done. lia.
Qed.

Lemma completion_delivered_once_witness :
  let t := the_task busy 0 in
  let s' := snd (iouringd_complete_task 0 (- 62) busy) in
  live busy t = true /\
  exists x p, good_completion x p /\ cr_task x = t_task_id t /\ cr_task_kind x = IOURINGD_TASK_KIND_TIMEOUT /\
              pending_of s' 0 = pending_of busy 0 ++ frame_bytes (FCompletion x p).
Proof.
  intros t s'. assert (Hl : live busy t = true) by (vm_compute; reflexivity). split; [exact Hl|].
  pose proof (invariant_safe busy script_recv_documented script_write_documented busy_reachable) as Ha.
  assert (HL : limits_supported (rt_limits (s_rt busy))) by (vm_compute; intuition congruence).
  assert (Hc : completable t (- 62)) by (constructor; vm_compute; intuition congruence).
  assert (Hok : is_ok (fst (iouringd_complete_task 0 (- 62) busy)) = true) by (vm_compute; reflexivity).
  assert (Hi : Z.of_nat 0 < max_clients (rt_limits (s_rt busy))) by (vm_compute; reflexivity).
  assert (Et : t_client_index t = 0%nat) by (vm_compute; reflexivity).
  assert (Ek : t_task_kind t = IOURINGD_TASK_KIND_TIMEOUT) by (vm_compute; reflexivity).
  unfold s'. destruct (iouringd_complete_task 0 (- 62) busy) as [[[]|e] s1] eqn:E; [|discriminate Hok].
  pose proof (completion_delivered_once (rt_limits (s_rt busy)) (rt_client_output_capacity (s_rt busy)) HL
    script_update_documented 0 (- 62) busy s1) as Hd.
  fold t in Hd. cbv zeta in Hd. rewrite Et, Ek, Hl in Hd. exact (proj2 (Hd busy_speaks Hc Ha Hi E)).
Defined.
