(* ===== verification/Link.v ===== *)
(** * The daemon and the client library together

    What one side sends is what the other side accepts.

    - [serving]: the states of a daemon that was set up by [iouringd_ring_init]
      and [main] and has gone through any number of rounds.
    - [handshake_agreement]: the client library's handshake with such a daemon.
    - [replies_accepted], [completion_accepted]: the frames the daemon queues are
      frames the client library takes for what they are.
    - the stand-alone handshake of [src/daemon/handshake.c], with the reply the
      main loop would give. *)

From S2P Require Import Prelude Wire Kernel Ring State Output Resources Trace Daemon Startup Input Request Dispatch Complete Sched Session Books Ledger Work Accounting Settle Invariant Correct Socket Client Inbox ClientApi Calls Conversation Setup Replies.

(** ** The stand-alone handshake *)

Section Serve.
Context {W : Type} `{Socket W}.
Local Open Scope iou_scope.

(** The answer to a request, for given capabilities; [handshake.c] has a test of the
    request of its own. *)
Definition served_rejected (q : handshake_request) : bool :=
  negb (hdr_magic (hq_header q) =? IOURINGD_PROTOCOL_WIRE_MAGIC) ||
  negb (hdr_version_major (hq_header q) =? IOURINGD_PROTOCOL_V1_MAJOR) ||
  negb (hdr_version_minor (hq_header q) =? IOURINGD_PROTOCOL_V1_MINOR) ||
  negb (hq_abi_major q =? IOURINGD_ABI_V1_MAJOR) ||
  negb (hq_abi_minor q =? IOURINGD_ABI_V1_MINOR) ||
  negb (hq_reserved q =? 0).

Definition served_reply (q : handshake_request) (capabilities : capability_descriptor) : handshake_result :=
  mk_handshake_result
    (mk_handshake_response protocol_header_v1 IOURINGD_ABI_V1_MAJOR IOURINGD_ABI_V1_MINOR
       (if served_rejected q then IOURINGD_HANDSHAKE_STATUS_REJECT else IOURINGD_HANDSHAKE_STATUS_ACCEPT) 0)
    (if served_rejected q then capability_zero else capabilities).

(** [handshake.c] has its own [read_full] and [write_full], with the text of the
    client library's. *)
Definition serve_read_full (fd : Z) (len : nat) : M W bytes := read_full fd len.
Definition serve_write_full (fd : Z) (buf : bytes) : M W unit := write_full fd buf.

(** [*status] is [None] when the pointer is null. *)
Definition iouringd_serve_handshake_client (client_fd : Z) (capabilities : capability_descriptor)
    : M (W * option Z) unit :=
  data <- lift (serve_read_full client_fd (wire_size handshake_request)) ;;
  let result := served_reply (of_wire data) capabilities in
  lift (serve_write_full client_fd (to_wire result)) ;;;
  mmod (fun st => (fst st, (fun _ => hp_status (hr_response result)) <$> snd st)).
End Serve.

(** ** A daemon that serves *)

(** What the kernel reports of the ring it has set up. *)
Record params_ok (p : params) (r : ring) : Prop := {
  po_features : fits 32 (pr_features p);
  po_entries : pr_sq_entries p = iouringd_ring_capacity r;
  po_cq_entries : 0 < pr_cq_entries p < 2 ^ 32;
}.

Inductive serving {W} `{Kernel W} : sys W -> Prop :=
| serve_start a r p ops fd rt s :
    limits_supported (arg_limits a) -> params_ok p r -> probed_mask ops <> 0 ->
    configure a r (ring_capabilities p (probed_mask ops)) = Some rt ->
    s_rt s = rt <| rt_server_fd := fd |> -> serving s
| serve_round fuel s st s' : serving s -> run_round fuel s = (Ok st, s') -> serving s'.

(** The capabilities a client can use. *)
Record usable (k : capability_descriptor) (capacity : Z) : Prop := {
  us_size : cap_struct_size k = Z.of_nat (wire_size capability_descriptor);
  us_features : fits 32 (cap_features k);
  us_entries : cap_ring_entries k = capacity;
  us_cq : 0 < cap_cq_entries k < 2 ^ 32;
  us_mask : cap_op_mask k <> 0 /\ exists ops, cap_op_mask k = probed_mask ops;
  us_fds : 0 < cap_registered_fd_slots k < 2 ^ 32;
  us_buffers : 0 < cap_registered_buffer_slots k < 2 ^ 32;
  us_bytes : 0 < cap_io_bytes_max k < 2 ^ 32;
}.

Section Serving.
Context {W : Type} `{Kernel W}.

Lemma serving_reachable (s : sys W) : serving s -> reachable s.
Proof.
  induction 1 as [a r p ops fd rt s Hl Hp Hm Hc Hs|fuel s st s' _ IH E].
  - by eapply reach_start.
  - by eapply reach_round.
Qed.

Lemma serving_usable (s : sys W) :
  serving s -> usable (rt_capabilities (s_rt s)) (rt_ring_capacity (s_rt s)).
Proof.
  induction 1 as [a r p ops fd rt s Hl Hp Hm Hc Hs|fuel s st s' Hs IH E].
  - apply configure_Some in Hc as [-> Hr]. rewrite Hs.
    change (rt_capabilities _) with (configured_capabilities a r (ring_capabilities p (probed_mask ops))).
    change (rt_ring_capacity _) with (iouringd_ring_capacity r).
    destruct Hp as [H1 H2 H3], Hl as (_ & _ & L3 & L4 & _ & L6). unfold configured_capabilities.
    constructor; cbn [ring_capabilities cap_struct_size cap_features cap_ring_entries cap_cq_entries
      cap_op_mask cap_registered_fd_slots cap_registered_buffer_slots cap_io_bytes_max]; try done; try lia.
    split; [done|by exists ops].
  - destruct (reachable_books s (serving_reachable s Hs)) as [Hb _].
    destruct (always_run_state _ _ _ _ (always_round fuel) Hb E) as [_ Hc].
    pose proof (sc_capabilities _ _ Hc) as E1. pose proof (sc_ring_capacity _ _ Hc) as E2.
    cbn [books_of b_capabilities b_ring_capacity] in E1, E2. by rewrite E1, E2.
Qed.
End Serving.

(** ** The handshake *)

Lemma probed_mask_range ops : 0 <= probed_mask ops < 2 ^ 12.
Proof.
  unfold probed_mask, supported_submit_mask. change IOURINGD_CAPABILITY_OP_MASK_V1 with (Z.ones 12).
  rewrite Z.land_ones by lia. apply Z.mod_pos_bound. lia.
Qed.

Lemma probed_mask_known ops :
  Z.land (probed_mask ops) (u32 (Z.lnot IOURINGD_CAPABILITY_OP_MASK_V1)) = 0.
Proof.
  change (u32 _) with (Z.shiftl (Z.ones 20) 12). apply Z.bits_inj'. intros n Hn.
  rewrite Z.land_spec, Z.bits_0, Z.shiftl_spec by lia. pose proof (probed_mask_range ops) as Hr.
  destruct (decide (n < 12)).
  - by rewrite (Z.testbit_neg_r _ (n - 12)), andb_false_r by lia.
  - rewrite <- (Z.mod_small (probed_mask ops) (2 ^ 12)) by lia.
    rewrite Z.mod_pow2_bits_high by lia. done.
Qed.

Lemma reply_fit k credits :
  usable k credits -> forall c cap, 0 <= c < 2 ^ 32 -> cap = credits -> 0 < cap < 2 ^ 32 ->
  wire_fit (mk_handshake_result
    (mk_handshake_response protocol_header_v1 IOURINGD_ABI_V1_MAJOR IOURINGD_ABI_V1_MINOR
       IOURINGD_HANDSHAKE_STATUS_ACCEPT 0)
    (mk_capability_descriptor (cap_struct_size k) (cap_features k) (cap_ring_entries k)
       (cap_cq_entries k) (cap_op_mask k) c (cap_registered_fd_slots k)
       (cap_registered_buffer_slots k) (cap_io_bytes_max k))).
Proof.
  intros [U1 U2 U3 U4 [_ [ops U5]] U6 U7 U8] c cap Hc -> Hcap. pose proof (probed_mask_range ops) as Hm.
  unfold fits in *. unfold wire_fit. cbn. rewrite U1, U3, U5.
  repeat (apply Forall2_cons_2; [first [lia|by vm_compute]|]). apply Forall2_nil_2.
Qed.

Section Handshake.
Context {W V : Type} `{Kernel W} `{SocketOk V} (fd : Z) `{!Reliable V fd}.

(** The client's own test on the daemon's answer comes down to the credits. *)
Lemma reply_accepted (s : sys W) :
  serving s ->
  handshake_result_ok (handshake_reply (s_rt s) true) = negb (iouringd_available_credits (s_rt s) =? 0) /\
  handshake_buffers_ok (hr_capabilities (handshake_reply (s_rt s) true)) = true.
Proof.
  intros Hs. pose proof (serving_reachable s Hs) as Hr. destruct (reachable_books s Hr) as [_ [Hcap Htc]].
  destruct (available_exact s Hr) as [_ Ha]. destruct (serving_usable s Hs) as [U1 U2 U3 U4 [U5 [ops U5']] U6 U7 U8].
  unfold handshake_result_ok, handshake_buffers_ok, handshake_reply.
  cbn [hr_response hr_capabilities hp_header hp_abi_major hp_abi_minor hp_status hp_reserved cap_struct_size
    cap_ring_entries cap_cq_entries cap_op_mask cap_submit_credits cap_registered_fd_slots
    cap_registered_buffer_slots cap_io_bytes_max].
  rewrite U1, U3, U5', probed_mask_known. rewrite U5' in U5. apply Z.eqb_neq in U5. rewrite U5.
  rewrite !Z.eqb_refl.
  pose proof (fun z (Hz : 0 < z) => proj2 (Z.eqb_neq z 0) (Z.neq_sym _ _ (Z.lt_neq _ _ Hz))) as Hpos.
  rewrite (Hpos (rt_ring_capacity (s_rt s))), (Hpos (cap_cq_entries (rt_capabilities (s_rt s)))),
    (Hpos (cap_registered_fd_slots (rt_capabilities (s_rt s)))),
    (Hpos (cap_registered_buffer_slots (rt_capabilities (s_rt s)))),
    (Hpos (cap_io_bytes_max (rt_capabilities (s_rt s)))) by lia.
  rewrite (proj2 (Z.ltb_ge _ _)) by lia. cbn [negb]. rewrite orb_true_r, !andb_true_r.
  split; [|done]. reflexivity.
Qed.

Lemma daemon_reply_fit (s : sys W) : serving s -> wire_fit (handshake_reply (s_rt s) true).
Proof.
  intros Hs. pose proof (serving_reachable s Hs) as Hr. destruct (reachable_books s Hr) as [_ [Hcap Htc]].
  destruct (available_exact s Hr) as [_ Ha].
  apply (reply_fit _ _ (serving_usable s Hs) _ (rt_ring_capacity (s_rt s))); [lia|done|lia].
Qed.
End Handshake.

(** C19: a client can shake hands with a daemon exactly while credits are free.  The client's
    request is one the daemon accepts; the daemon's answer, sent in any state of
    its main loop and received over a socket that works, passes every test of the
    client library except possibly the one on the credits: the handshake succeeds
    when some credit is free at that moment and fails with EPROTO when every
    credit is in use. *)
Theorem handshake_agreement {W V} `{Kernel W} `{SocketOk V} (fd : Z) `{!Reliable V fd}
    (s : sys W) (w : V) out rest :
  serving s -> 0 <= fd ->
  incoming w fd = to_wire (handshake_reply (s_rt s) (handshake_request_ok client_hello)) ++ rest ->
  exists w', iouringd_client_handshake_fd fd (w, Some out) =
    (if rt_task_capacity (s_rt s) =? countz credit_task (rt_tasks (s_rt s)) then Err EPROTO else Ok tt,
     (w', Some (handshake_reply (s_rt s) true))) /\
    outgoing w' fd = outgoing w fd ++ to_wire client_hello /\ incoming w' fd = rest.
Proof.
  intros Hs Hfd Hi. change (handshake_request_ok client_hello) with true in Hi.
  pose proof (daemon_reply_fit s Hs) as Hfit. destruct (reply_accepted s Hs) as [Hok Hbuf].
  destruct (available_exact s (serving_reachable s Hs)) as [Ha _].
  destruct (write_full_works fd (to_wire client_hello) w) as (w1 & E1 & M1).
  rewrite (mv_in _ _ _ _ _ _ _ M1) in Hi. cbn [app] in Hi.
  destruct (read_full_works fd _ _ w1 Hi) as (w2 & E2 & M2). rewrite (length_to_wire _ Hfit) in E2.
  exists w2. split; [|split].
  - unfold iouringd_client_handshake_fd. rewrite (mbnd_ok (mget _) _ _ _ _ eq_refl).
    rewrite (proj2 (Z.ltb_ge fd 0) Hfd). cbn [is_null orb snd].
    rewrite (mbnd_ok _ _ _ _ _ (lift_run _ _ _ _ _ E1)), (mbnd_ok _ _ _ _ _ (lift_run _ _ _ _ _ E2)).
    rewrite <- (app_nil_r (to_wire (handshake_reply _ _))), of_to_wire by exact Hfit. cbv zeta.
    rewrite (mbnd_ok _ _ _ tt (w2, Some (handshake_reply (s_rt s) true))) by done.
    rewrite Hok, Hbuf, negb_involutive, Ha. cbn [negb].
    destruct (Z.eqb_spec (rt_task_capacity (s_rt s)) (countz credit_task (rt_tasks (s_rt s)))) as [->|Hn].
    + by rewrite Z.sub_diag.
    + by rewrite (proj2 (Z.eqb_neq _ 0)) by lia.
  - rewrite (mv_out _ _ _ _ _ _ _ M2), app_nil_r. exact (mv_out _ _ _ _ _ _ _ M1).
  - exact (moves_incoming _ _ _ _ _ _ M2 Hi).
Qed.

(** ** A daemon with one task slot *)

Definition small_params : params := mk_params 0 2 4 64 128.
Definition fresh_daemon : sys script :=
  mk_sys (configured (session_arguments 2) (session_ring 2)
            (ring_capabilities small_params (probed_mask bench_ops)) <| rt_server_fd := 4 |>)
    one_timeout [].
(** A client has shaken hands and started a timeout. *)
Definition full_daemon : sys script := after 4 5 fresh_daemon.

Lemma fresh_serving : serving fresh_daemon.
Proof.
  eapply (serve_start (session_arguments 2) (session_ring 2) small_params bench_ops 4).
  - vm_compute. repeat split; congruence.
  - constructor; [vm_compute; split; congruence|reflexivity|vm_compute; split; congruence].
  - vm_compute. congruence.
  - reflexivity.
  - reflexivity.
Qed.

Lemma next_serving fuel (s : sys script) :
  serving s -> is_ok (fst (run_round fuel s)) = true -> serving (snd (run_round fuel s)).
Proof.
  intros Hs Hok. destruct (run_round fuel s) as [[st|e] s'] eqn:E; [|done]. by eapply serve_round.
Qed.

Lemma full_serving : serving full_daemon.
Proof.
  unfold full_daemon. cbn [after]. repeat (apply next_serving; [|vm_compute; reflexivity]).
  exact fresh_serving.
Qed.

Definition answered_by (s : sys script) : pipe :=
  mk_pipe (fun _ => []) (fun _ => to_wire (handshake_reply (s_rt s) (handshake_request_ok client_hello)) ++ []) [3; 20]%nat [] [].

Lemma handshake_agreement_witness :
  let out := handshake_reply (s_rt fresh_daemon) false in
  (exists w', iouringd_client_handshake_fd 9 (answered_by fresh_daemon, Some out) =
     (Ok tt, (w', Some (handshake_reply (s_rt fresh_daemon) true)))) /\
  (exists w', iouringd_client_handshake_fd 9 (answered_by full_daemon, Some out) =
     (Err EPROTO, (w', Some (handshake_reply (s_rt full_daemon) true)))).
Proof.
  intros out. split.
  - destruct (handshake_agreement 9 fresh_daemon (answered_by fresh_daemon) out [])
      as (w' & E & _); [exact fresh_serving|lia|reflexivity|].
    exists w'. replace (_ =? _) with false in E by (vm_compute; reflexivity). exact E.
  - destruct (handshake_agreement 9 full_daemon (answered_by full_daemon) out [])
      as (w' & E & _); [exact full_serving|lia|reflexivity|].
    exists w'. replace (_ =? _) with true in E by (vm_compute; reflexivity). exact E.
Defined.

(** ** The stand-alone handshake gives the main loop's answer *)

(** The capabilities the main loop advertises at a moment. *)
Definition advertised (rt : runtime) : capability_descriptor :=
  hr_capabilities (handshake_reply rt true).

(** The main loop's test and the stand-alone one let in the library's request only. *)
Lemma handshake_request_exact q :
  handshake_request_ok q = bool_decide (q = client_hello) /\ served_rejected q = negb (bool_decide (q = client_hello)).
Proof.
  assert (E : handshake_request_ok q = bool_decide (q = client_hello)).
  { destruct q as [[m v1 v2] a1 a2 r]. unfold handshake_request_ok. cbn [hq_header hq_abi_major hq_abi_minor hq_reserved
      hdr_magic hdr_version_major hdr_version_minor]. apply eq_bool_prop_intro. rewrite bool_decide_spec, !andb_True, !Is_true_true, !Z.eqb_eq.
    split; [by intros (((((-> & ->) & ->) & ->) & ->) & ->)|by intros [= -> -> -> -> -> ->]]. }
  split; [done|]. rewrite <- E. unfold served_rejected, handshake_request_ok. by rewrite !negb_andb.
Qed.

Lemma mod_client_run {W} `{Kernel W} i f (s : sys W) :
  (i < length (rt_clients (s_rt s)))%nat ->
  exists s', mod_client i f s = (Ok tt, s') /\ the_client s' i = f (the_client s i) /\
             length (rt_clients (s_rt s')) = length (rt_clients (s_rt s)).
Proof.
  intros Hi. eexists. split; [reflexivity|]. split; [by apply insert_total_eq|apply length_insert].
Qed.

Lemma queue_handshake_run {W} `{Kernel W} i q (s s' : sys W) :
  speaks i s -> iouringd_queue_handshake_result i q s = (Ok tt, s') ->
  pending_of s' i = pending_of s i ++ to_wire (handshake_reply (s_rt s) (handshake_request_ok q)) /\
  if handshake_request_ok q then c_phase (the_client s' i) = IOURINGD_CLIENT_PHASE_SUBMIT
  else c_close_after_flush (the_client s' i) = true.
Proof.
  intros [Hi Hw] E. unfold iouringd_queue_handshake_result in E.
  rewrite (mbnd_ok get_rt _ s (s_rt s) s eq_refl) in E. cbv zeta in E.
  set (ok := handshake_request_ok q) in *. set (buf := to_wire _) in *.
  match type of E with mbnd (mod_client _ ?f) _ _ = _ => destruct (mod_client_run i f s Hi) as (s1 & E1 & Ec1 & El1) end.
  rewrite (mbnd_ok _ _ _ _ _ E1) in E. pose proof (queue_bytes (c_out (the_client s i)) buf Hw) as Hq.
  assert (Eo : c_out (the_client s1 i) = c_out (the_client s i)) by (rewrite Ec1; by destruct ok).
  unfold mbnd at 1, queue_output in E. rewrite Eo in E.
  destruct (iouringd_queue_client_output (c_out (the_client s i)) buf) as [[[]|e] b]; [|done].
  destruct Hq as (_ & _ & _ & Hp). injection E as <-. unfold pending_of, the_client.
  cbn [s_rt put put_s_rt rt_clients put_rt_clients].
  rewrite !insert_total_eq by (rewrite ?length_insert; lia). cbn [c_out put put_c_in put_c_out].
  split; [exact Hp|]. unfold the_client in Ec1. rewrite Ec1. by destruct ok.
Qed.

(** C30: the stand-alone handshake and the main loop agree.  For every request, well-formed or
    not, [iouringd_serve_handshake_client] on a working socket, given the capabilities
    the main loop advertises, reads exactly the request, sends exactly the bytes that
    [iouringd_queue_handshake_result] queues for the client, and reports the status
    they carry; both let in the request of the client library, and no other. *)
Theorem serve_handshake_agrees {V} `{SocketOk V} (fd : Z) `{!Reliable V fd} {W} `{Kernel W} i (s s' : sys W)
    (w : V) q rest status :
  wire_fit q -> incoming w fd = to_wire q ++ rest ->
  speaks i s -> iouringd_queue_handshake_result i q s = (Ok tt, s') ->
  exists w' sent verdict,
    iouringd_serve_handshake_client fd (advertised (s_rt s)) (w, status) = (Ok tt, (w', (fun _ => verdict) <$> status)) /\
    incoming w' fd = rest /\ outgoing w' fd = outgoing w fd ++ sent /\ pending_of s' i = pending_of s i ++ sent /\
    if bool_decide (q = client_hello)
    then verdict = IOURINGD_HANDSHAKE_STATUS_ACCEPT /\ c_phase (the_client s' i) = IOURINGD_CLIENT_PHASE_SUBMIT
    else verdict = IOURINGD_HANDSHAKE_STATUS_REJECT /\ c_close_after_flush (the_client s' i) = true.
Proof.
  intros Hq Hi Hs Es. destruct (read_full_works fd _ _ w Hi) as (w1 & E1 & M1).
  rewrite (length_to_wire q Hq) in E1. destruct (queue_handshake_run i q s s' Hs Es) as [Ep Ev].
  destruct (handshake_request_exact q) as [Ex1 Ex2].
  assert (Er : served_reply q (advertised (s_rt s)) = handshake_reply (s_rt s) (handshake_request_ok q)).
  { unfold served_reply, advertised. rewrite Ex1, Ex2. by destruct (bool_decide _). }
  destruct (write_full_works fd (to_wire (served_reply q (advertised (s_rt s)))) w1) as (w2 & E2 & M2).
  exists w2, (to_wire (served_reply q (advertised (s_rt s)))), (hp_status (hr_response (served_reply q (advertised (s_rt s))))).
  split_and!.
  - unfold iouringd_serve_handshake_client. rewrite (mbnd_ok _ _ _ _ _ (lift_run _ _ _ _ _ E1)).
    rewrite <- (app_nil_r (to_wire q)), of_to_wire by exact Hq. cbv zeta.
    by rewrite (mbnd_ok _ _ _ _ _ (lift_run _ _ _ _ _ E2)).
  - rewrite <- (moves_incoming _ _ _ _ _ _ M1 Hi). symmetry. exact (mv_in _ _ _ _ _ _ _ M2).
  - by rewrite (mv_out _ _ _ _ _ _ _ M2), (mv_out _ _ _ _ _ _ _ M1), app_nil_r.
  - by rewrite Ep, Er.
  - rewrite Er. rewrite Ex1 in *. by destruct (bool_decide _).
Qed.

(** A request of an older minor version is refused. *)
Definition old_hello : handshake_request :=
  mk_handshake_request protocol_header_v1 IOURINGD_ABI_V1_MAJOR 11 0.

(** A daemon with a client whose buffer is empty. *)
Definition greeting_daemon : sys script :=
  mk_sys (iouringd_init_runtime <| rt_clients := [idle_example <| c_out := mk_outbuf (replicate 64 0) 64 0 0 |>] |>) quiet [].

Lemma serve_handshake_agrees_witness :
  exists w', iouringd_serve_handshake_client 9 (advertised (s_rt greeting_daemon))
      (mk_pipe (fun _ => []) (fun _ => to_wire old_hello ++ []) [0; 4]%nat [] [], Some 7) =
    (Ok tt, (w', Some IOURINGD_HANDSHAKE_STATUS_REJECT)) /\
    outgoing w' 9 = pending_of (snd (iouringd_queue_handshake_result 0 old_hello greeting_daemon)) 0.
Proof.
  destruct (serve_handshake_agrees 9 0 greeting_daemon (snd (iouringd_queue_handshake_result 0 old_hello greeting_daemon))
              (mk_pipe (fun _ => []) (fun _ => to_wire old_hello ++ []) [0; 4]%nat [] []) old_hello [] (Some 7))
    as (w' & sent & v & E & _ & Eo & Ep & Hv).
  - fit_compute.
  - reflexivity.
  - split; [apply Nat.ltb_lt; reflexivity|]. constructor; vm_compute; try split; congruence.
  - vm_compute. reflexivity.
  - exists w'. rewrite bool_decide_eq_false_2 in Hv by discriminate. destruct Hv as [-> _]. split; [exact E|].
    rewrite Eo, Ep. reflexivity.
Defined.
