(* ===== verification/Arrival.v ===== *)
(** * Requests as they arrive

    [read_request_roundtrip] is about the parser on a stream.  Here the stream is
    what the kernel hands out: [iouringd_service_client_readable] of
    [src/daemon/main.c] is called whenever some bytes are there, each [recvmsg]
    returns as many of them as it likes, and a request may be spread over any number of
    calls.  [Feed] is the documented behaviour of a connected stream socket;
    [request_arrives] shows that the request comes out whole, whatever the
    pieces. *)

From S2P Require Import Prelude Wire Kernel Ring State Output Resources Trace Daemon Startup Input Request Reader Dispatch Complete Sched Session Books Ledger Work Accounting Settle Invariant Correct Memory Safety.

(** The bytes that have arrived on the descriptor and were not received yet; no
    descriptors come with them. *)
Class Feed (W : Type) `{Kernel W} (fd : Z) := {
  inbound : W -> bytes;
  inbound_bytes w : Forall is_byte (inbound w);
  recv_feed w len : (0 < len)%nat ->
    match inbound w with
    | [] => exists w', k_recvmsg w fd len = (Err EAGAIN, w') /\ inbound w' = []
    | bs => exists n w', (0 < n <= len)%nat /\
              k_recvmsg w fd len = (Ok (mk_message (take n bs) false []), w') /\ inbound w' = drop n bs
    end;
}.

(** [bs] appended to what was read. *)
Definition received (bs : bytes) (c : client) : client :=
  c <| c_in := c_in c <| input := blit (Z.to_nat (input_len (c_in c))) bs (input (c_in c)) |>
                      <| input_len := input_len (c_in c) + Z.of_nat (length bs) |> |>.
Definition missing (c : client) : nat := Z.to_nat (expected_input (c_in c) - input_len (c_in c)).

Lemma deliver_received c stream : deliver c stream = (received (take (missing c) stream) c, drop (missing c) stream).
Proof. done. Qed.

(** The parser is fed [bs], each time all it asks for, and is done at the end. *)
Fixpoint feeds (fuel : nat) (c : client) (bs : bytes) : option client :=
  match fuel with
  | O => None
  | S f =>
      if (missing c <=? length bs)%nat then
        let '(rc, c2) := iouringd_process_submit_input (received (take (missing c) bs) c) in
        match rc, drop (missing c) bs with
        | Ok true, [] => Some c2
        | Ok false, rest => feeds f c2 rest
        | _, _ => None
        end
      else None
  end.

Lemma blit_blit {A} off (a b l : list A) :
  (off + length a <= length l)%nat -> blit (off + length a) b (blit off a l) = blit off (a ++ b) l.
Proof.
  intros Hl. unfold blit. rewrite (app_assoc (take off l)).
  assert (Hn : length (take off l ++ a) = (off + length a)%nat) by (rewrite length_app, length_take; lia).
  rewrite take_app_length' by done. rewrite drop_app_ge by lia. rewrite Hn, drop_drop, length_app, <- !app_assoc.
  do 4 f_equal. lia.
Qed.

Lemma received_app a b c :
  0 <= input_len (c_in c) -> input_len (c_in c) + Z.of_nat (length a) <= Z.of_nat (length (input (c_in c))) ->
  received b (received a c) = received (a ++ b) c.
Proof.
  intros H0 Hl. unfold received. destruct c as [fd gen ph caf rfd mx [ex len arr] out q res]. cbn in *.
  unfold put_c_in, put_input, put_input_len. cbn. do 2 f_equal.
  - rewrite length_app. lia.
  - rewrite Z2Nat.inj_add, Nat2Z.id by lia. apply blit_blit. lia.
Qed.

Lemma received_nil c : 0 <= input_len (c_in c) -> received [] c = c.
Proof.
  intros H0. unfold received. destruct c as [fd gen ph caf rfd mx [ex len arr] out q res]. cbn in *.
  unfold put_c_in, put_input, put_input_len. cbn. do 2 f_equal; [lia|]. unfold blit. cbn. rewrite Nat.add_0_r. apply take_drop.
Qed.

Lemma received_missing bs c :
  (length bs <= missing c)%nat -> missing (received bs c) = (missing c - length bs)%nat.
Proof. unfold missing. cbn. lia. Qed.

(** What feeding asks of a client, and keeps. *)
Record reading (fd : Z) (c : client) : Prop := {
  rd_fd : c_fd c = fd;
  rd_phase : c_phase c = IOURINGD_CLIENT_PHASE_SUBMIT;
  rd_ready : request_ready (c_req c) = false;
  rd_wf : input_wf c;
}.

Lemma received_reading fd bs c :
  reading fd c -> Forall is_byte bs -> (length bs <= missing c)%nat -> reading fd (received bs c).
Proof.
  intros [H1 H2 H3 [Hw He Ha Hb Hp Hm]] Hbs Hl. constructor; try done. unfold missing in Hl. rewrite max_request_bytes in *.
  constructor; cbn; try done.
  - lia.
  - rewrite length_blit; [done|]. lia.
  - by apply Forall_blit.
Qed.

Lemma process_reading fd c c' :
  reading fd c -> iouringd_process_submit_input c = (Ok false, c') ->
  reading fd c' /\ input_len (c_in c') = input_len (c_in c) /\ (0 < missing c')%nat.
Proof.
  intros [H1 H2 H3 H4] E. pose proof (process_input_ok c H4) as Hp. rewrite E in Hp. destruct Hp as (Hw & Hl & Hlt).
  pose proof (process_submit_input_untouched c) as Hu. unfold same_but_input in Hu. rewrite E in Hu. cbn [snd] in Hu.
  injection Hu as Ha _ _ _ _ Hph. split_and!.
  - constructor; [congruence|congruence| |done]. by rewrite (process_submit_input_waits _ _ E).
  - done.
  - unfold missing. destruct Hw. lia.
Qed.

(** ** From the stream to the feed *)

Lemma read_request_shorter fuel c stream rc rest :
  read_request fuel c stream = Some (rc, rest) -> (length rest <= length stream)%nat.
Proof.
  revert c stream. induction fuel as [|fuel IH]; intros c stream; [done|]. cbn [read_request]. rewrite deliver_received.
  destruct (iouringd_process_submit_input _) as [[[|]|e] c2].
  - intros [= _ <-]. rewrite length_drop. lia.
  - intros E%IH. rewrite length_drop in E. lia.
  - intros [= _ <-]. rewrite length_drop. lia.
Qed.

(** More than any request can ask for follows; still exactly [bs] is taken: the
    parser never asks for more than that. *)
Lemma feeds_of_read fd fuel c bs rest c' :
  reading fd c -> Forall is_byte bs -> Forall is_byte rest -> (IOURINGD_MAX_REQUEST_BYTES <= length rest)%nat ->
  read_request fuel c (bs ++ rest) = Some (Ok c', rest) -> feeds fuel c bs = Some c'.
Proof.
  revert c bs. induction fuel as [|fuel IH]; intros c bs Hc Hb Hr Hl; [done|]. cbn [read_request feeds].
  rewrite deliver_received. assert (Hm : (missing c <= length rest)%nat).
  { unfold missing. destruct (rd_wf _ _ Hc). lia. }
  destruct (missing c <=? length bs)%nat eqn:El; [apply Nat.leb_le in El|apply Nat.leb_gt in El].
  - rewrite take_app_le, drop_app_le by done.
    destruct (iouringd_process_submit_input _) as [[[|]|e] c2] eqn:Ep; [| |done].
    + intros [= <- Hrest]. apply (f_equal length) in Hrest as Hln. rewrite length_app in Hln.
      by rewrite (nil_length_inv (drop (missing c) bs)) by lia.
    + apply process_reading with (fd := fd) in Ep as (Hc2 & _);
        [|apply received_reading; [done|by apply Forall_take|rewrite length_take; lia]].
      intros E. rewrite (IH c2 (drop (missing c) bs)); [by destruct (drop _ _)|done|by apply Forall_drop|done|done|done].
  - intros E. exfalso. rewrite drop_app_ge in E by lia.
    destruct (iouringd_process_submit_input _) as [[[|]|e] c2]; [| |done].
    + injection E as _ E. apply (f_equal length) in E. rewrite length_drop in E. lia.
    + apply read_request_shorter in E. rewrite length_drop in E. lia.
Qed.

(** Bytes in two pieces: the first is not enough, or the parser goes on. *)
Lemma feeds_part fuel c q1 q2 c' :
  0 <= input_len (c_in c) -> expected_input (c_in c) <= Z.of_nat (length (input (c_in c))) ->
  (length q1 < missing c)%nat -> feeds fuel c (q1 ++ q2) = Some c' -> feeds fuel (received q1 c) q2 = Some c'.
Proof.
  intros H0 Ha Hl. destruct fuel as [|fuel]; [done|]. cbn [feeds]. rewrite received_missing by lia. rewrite length_app.
  unfold missing in Hl. destruct (missing c <=? _)%nat eqn:El; [|done]. apply Nat.leb_le in El.
  rewrite (proj2 (Nat.leb_le _ _)) by lia.
  rewrite received_app by (rewrite ?length_take; lia).
  replace (take (missing c) (q1 ++ q2)) with (q1 ++ take (missing c - length q1) q2).
  - rewrite drop_app_ge by (unfold missing; lia). done.
  - rewrite take_app_ge by (unfold missing; lia). done.
Qed.

(** Taking [m] in two steps, the first of which takes what there is of [n]. *)
Lemma take_rest {A} n m (l : list A) :
  (length (take n l) <= m)%nat -> take n l ++ take (m - length (take n l)) (drop n l) = take m l.
Proof.
  rewrite length_take. intros Hm. destruct (decide (n <= length l)%nat).
  - rewrite take_take_drop. f_equal. lia.
  - rewrite drop_ge, take_nil, app_nil_r, !take_ge by lia. done.
Qed.

Lemma drop_rest {A} n m (l : list A) :
  (length (take n l) <= m)%nat -> drop (m - length (take n l)) (drop n l) = drop m l.
Proof.
  rewrite length_take. intros Hm. rewrite drop_drop. destruct (decide (n <= length l)%nat); [f_equal; lia|].
  by rewrite !drop_ge by lia.
Qed.

(** ** One call of the service loop *)

Section Service.
Context {W : Type} `{Kernel W} (fd : Z) `{!Feed W fd}.

Lemma received_round (w : W) n c w' :
  input_wf c -> (n <= missing c)%nat -> (0 < length (take n (inbound (fd := fd) w)))%nat ->
  k_recvmsg w (c_fd c) (missing c) = (Ok (mk_message (take n (inbound (fd := fd) w)) false []), w') ->
  read_round w c = (None, received (take n (inbound (fd := fd) w)) c, [], w').
Proof.
  intros [Hw He Ha _ _ _] Hn Hp E. unfold read_round. fold (missing c). rewrite E. cbn [msg_data msg_ctrunc msg_cmsgs].
  rewrite (proj2 (Nat.eqb_neq _ _)) by lia. cbn [take_cmsgs]. repeat f_equal.
  rewrite u64_id by (rewrite max_request_bytes in *; unfold missing in *; rewrite length_take in *; lia).
  by destruct c.
Qed.

(** The read loop takes what is missing, or all there is. *)
Lemma read_loop_feed fuel (w : W) c :
  reading fd c -> (missing c < fuel)%nat ->
  exists w', read_loop fuel w c =
    (Ok (if (missing c <=? length (inbound (fd := fd) w))%nat then ReadDone else ReadMore),
     received (take (missing c) (inbound (fd := fd) w)) c, [], w') /\
    inbound (fd := fd) w' = drop (missing c) (inbound (fd := fd) w).
Proof.
  revert w c. induction fuel as [|fuel IH]; intros w c Hc Hf; [lia|]. cbn [read_loop].
  pose proof (rd_wf _ _ Hc) as Hw. pose proof (iw_window _ Hw) as Hwin.
  destruct (_ <? _) eqn:El; bool_hyps.
  2: { assert (E0 : missing c = 0%nat) by (unfold missing; lia). rewrite E0. cbn.
       exists w. by rewrite received_nil by lia. }
  assert (Hm : (0 < missing c)%nat) by (unfold missing; lia).
  pose proof (recv_feed (fd := fd) w (missing c) Hm) as Hr.
  destruct (inbound (fd := fd) w) as [|x bs] eqn:Ei.
  - destruct Hr as (w' & Er & Ew). exists w'. unfold read_round. fold (missing c). rewrite (rd_fd _ _ Hc), Er.
    rewrite take_nil, drop_nil, received_nil by lia. cbn [length]. by rewrite (proj2 (Nat.leb_gt _ _)) by lia.
  - rewrite <- Ei in *. destruct Hr as (n & w1 & Hn & Er & Ew).
    assert (Hk : (0 < length (take n (inbound (fd := fd) w)) <= missing c)%nat)
      by (rewrite length_take, Ei; cbn [length]; lia).
    rewrite (received_round w n c w1) by (try done; try lia; by rewrite (rd_fd _ _ Hc)).
    assert (Hc1 : reading fd (received (take n (inbound (fd := fd) w)) c))
      by (apply received_reading; [done|apply Forall_take, inbound_bytes|lia]).
    pose proof (received_missing (take n (inbound (fd := fd) w)) c ltac:(lia)) as Em.
    destruct (IH w1 _ Hc1 ltac:(lia)) as (w2 & E2 & Ei2). exists w2. rewrite E2, Ei2, Em, Ew.
    rewrite received_app by (pose proof (iw_expected _ Hw); rewrite ?(iw_array _ Hw); unfold missing in *; lia).
    rewrite take_rest, drop_rest, length_drop, length_take by lia. rewrite length_take in Hk. split; [|done].
    repeat f_equal. destruct (missing c <=? _)%nat eqn:E1; destruct (missing c - _ <=? _)%nat eqn:E3; try done;
      rewrite ?Nat.leb_le, ?Nat.leb_gt in *; lia.
Qed.

(** The daemon with client [i] and the world replaced: all a service call does to
    it while the request is incomplete. *)
Definition with_client (i : nat) (c : client) (w : W) (s : sys W) : sys W :=
  s <| s_rt := s_rt s <| rt_clients := <[i := c]> (rt_clients (s_rt s)) |> |> <| s_world := w |>.

Lemma the_with_client i c w (s : sys W) : (i < length (rt_clients (s_rt s)))%nat -> the_client (with_client i c w s) i = c.
Proof. intros Hi. by apply insert_total_eq. Qed.

Lemma length_with_client i c w (s : sys W) :
  length (rt_clients (s_rt (with_client i c w s))) = length (rt_clients (s_rt s)).
Proof. apply length_insert. Qed.

Lemma with_client_twice i c c' w w' (s : sys W) : with_client i c' w' (with_client i c w s) = with_client i c' w' s.
Proof.
  unfold with_client. destruct s as [[] ? ?]. unfold put_s_rt, put_rt_clients, put_s_world. cbn.
  by rewrite list_insert_insert_eq.
Qed.

Lemma read_client_input_feed i (s : sys W) :
  reading fd (the_client s i) ->
  let c := the_client s i in
  let bs := inbound (fd := fd) (s_world s) in
  exists w', read_client_input i s =
    (Ok (if (missing c <=? length bs)%nat then ReadDone else ReadMore),
     with_client i (received (take (missing c) bs) c) w' s) /\
    inbound (fd := fd) w' = drop (missing c) bs.
Proof.
  intros Hc c bs. destruct (read_loop_feed (S (missing c)) (s_world s) c Hc ltac:(lia)) as (w' & E & Ew).
  exists w'. split; [|done]. unfold read_client_input, iouringd_read_client_input. fold c (missing c). rewrite E.
  f_equal. unfold with_client. destruct s. unfold put_s_rt, put_s_world, put_s_closed. cbn. by rewrite app_nil_r.
Qed.

Lemma feeds_ready fuel c bs c' :
  reading fd c -> Forall is_byte bs -> feeds fuel c bs = Some c' -> request_ready (c_req c') = true.
Proof.
  revert c bs. induction fuel as [|fuel IH]; intros c bs Hc Hb; [done|]. cbn [feeds].
  destruct (missing c <=? length bs)%nat eqn:El; [apply Nat.leb_le in El|done].
  assert (Hc1 : reading fd (received (take (missing c) bs) c))
    by (apply received_reading; [done|by apply Forall_take|rewrite length_take; lia]).
  pose proof (process_input_ok _ (rd_wf _ _ Hc1)) as Hok.
  destruct (iouringd_process_submit_input _) as [[[|]|e] c2] eqn:Ep; [| |done].
  - destruct (drop _ _); [|done]. intros [= <-]. tauto.
  - intros E. destruct (process_reading _ _ _ Hc1 Ep) as (Hc2 & _). apply (IH c2 (drop (missing c) bs)); [done|by apply Forall_drop|].
    by destruct (drop _ _).
Qed.

(** What a service call leaves when [q2] is still to come. *)
Definition fed (c2 c' : client) (q2 : bytes) : Prop :=
  match q2 with
  | [] => c2 = c'
  | _ => reading fd c2 /\ exists fuel, feeds fuel c2 q2 = Some c'
  end.

Lemma service_feed rounds fuel i p (s : sys W) q2 c' :
  0 <= fd -> (i < length (rt_clients (s_rt s)))%nat -> reading fd (the_client s i) -> Forall is_byte q2 ->
  Z.of_nat IOURINGD_MAX_REQUEST_BYTES - expected_input (c_in (the_client s i)) < Z.of_nat rounds ->
  feeds fuel (the_client s i) (inbound (fd := fd) (s_world s) ++ q2) = Some c' ->
  exists b c2 w', service_loop rounds i p s = (Ok b, with_client i c2 w' s) /\ inbound (fd := fd) w' = [] /\ fed c2 c' q2.
Proof.
  intros H0. revert fuel p s. induction rounds as [|rounds IH]; intros fuel p s Hi Hc Hb Hr Hf.
  { pose proof (iw_expected _ (rd_wf _ _ Hc)). lia. }
  set (c := the_client s i) in *. set (bs := inbound (fd := fd) (s_world s)) in *.
  cbn [service_loop]. unfold service_round. rewrite (mbnd_ok (get_client i) _ s c s eq_refl).
  rewrite (rd_fd _ _ Hc), (rd_ready _ _ Hc), (proj2 (Z.leb_le _ _) H0). cbn [negb andb].
  destruct (read_client_input_feed i s Hc) as (w1 & Er & Ew1). fold c bs in Er, Ew1. rewrite (mbnd_try _ _ _ _ _ Er).
  destruct fuel as [|fuel]; [done|]. cbn [feeds] in Hf. rewrite length_app in Hf.
  destruct (missing c <=? length bs)%nat eqn:El; [apply Nat.leb_le in El|apply Nat.leb_gt in El].
  2: { rewrite take_ge in * by lia. rewrite drop_ge in Ew1 by lia. exists p, (received bs c), w1. split_and!; [done|done|].
       destruct q2 as [|x q2]; [by rewrite Nat.add_0_r, (proj2 (Nat.leb_gt _ _)) in Hf by lia|].
       split; [apply received_reading; [done|apply inbound_bytes|lia]|]. exists (S fuel).
       apply feeds_part; [|rewrite (iw_array _ (rd_wf _ _ Hc))| |cbn [feeds]; by rewrite length_app];
         destruct (rd_wf _ _ Hc); lia. }
  rewrite (proj2 (Nat.leb_le _ _)), take_app_le, drop_app_le in Hf by lia.
  set (c1 := received (take (missing c) bs) c) in *. set (s1 := with_client i c1 w1 s).
  assert (Hc1 : reading fd c1) by (apply received_reading; [done|apply Forall_take, inbound_bytes|rewrite length_take; lia]).
  assert (E1 : the_client s1 i = c1) by (by apply the_with_client).
  rewrite (mbnd_ok (get_client i) _ s1 c1 s1) by (unfold get_client, mget; by rewrite E1). rewrite (rd_phase _ _ Hc1).
  destruct (iouringd_process_submit_input c1) as [[b|e] c2] eqn:Ep; [|done].
  rewrite (mbnd_try _ _ s1 (Ok b) (with_client i c2 w1 s)).
  2: { unfold process_submit_input. rewrite E1, Ep. f_equal. unfold s1. by rewrite <- (with_client_twice i c1 c2 w1 w1). }
  rewrite (mbnd_ok (get_client i) _ _ c2 (with_client i c2 w1 s)) by (unfold get_client, mget; by rewrite the_with_client).
  destruct b.
  - pose proof (process_input_ok _ (rd_wf _ _ Hc1)) as Hok. rewrite Ep in Hok. destruct Hok as (_ & _ & -> & _).
    destruct (drop (missing c) bs) eqn:Ed; [|done]. destruct q2; [|done]. injection Hf as <-. by exists true, c2, w1.
  - destruct (process_reading _ _ _ Hc1 Ep) as (Hc2 & El2 & Hm2). rewrite (rd_ready _ _ Hc2).
    assert (E2 : the_client (with_client i c2 w1 s) i = c2) by (by apply the_with_client).
    destruct (IH fuel true (with_client i c2 w1 s)) as (b & c3 & w3 & E3 & Hw3 & Hfed);
      rewrite ?length_with_client, ?E2; try done.
    + unfold missing in *. cbn in El2. rewrite length_take in El2. destruct (rd_wf _ _ Hc). lia.
    + cbn [s_world with_client put put_s_world]. by rewrite Ew1.
    + exists b, c3, w3. by rewrite E3, with_client_twice.
Qed.
End Service.

(** ** A request in pieces *)

Section Pieces.
Context {W : Type} `{Kernel W} (fd : Z) `{!Feed W fd}.

(** The bytes of [qs] arrive one piece after the other, and the client is serviced
    after each; in between the daemon may do anything that leaves this client and
    the bytes it has not read alone. *)
Inductive spread (i : nat) : list bytes -> sys W -> sys W -> Prop :=
  | spread_nil s : spread i [] s s
  | spread_cons q qs s s1 s2 :
      the_client s1 i = the_client s i -> length (rt_clients (s_rt s1)) = length (rt_clients (s_rt s)) ->
      inbound (fd := fd) (s_world s1) = inbound (fd := fd) (s_world s) ++ q ->
      spread i qs (snd (iouringd_service_client_readable i s1)) s2 -> spread i (q :: qs) s s2.

Lemma spread_bytes i qs s s' : spread i qs s s' -> Forall is_byte (concat qs).
Proof.
  induction 1 as [|q qs s s1 s2 _ _ Ei _ IH]; [constructor|]. cbn. apply Forall_app. split; [|done].
  pose proof (inbound_bytes (fd := fd) (s_world s1)) as Hb. rewrite Ei in Hb. by apply Forall_app in Hb as [_ Hb].
Qed.

(** A client with a request ready is not read from. *)
Lemma service_ready i (s : sys W) :
  request_ready (c_req (the_client s i)) = true -> iouringd_service_client_readable i s = (Ok false, s).
Proof.
  intros E. unfold iouringd_service_client_readable. cbn [service_loop]. unfold service_round.
  rewrite (mbnd_ok (get_client i) _ s (the_client s i) s eq_refl). by rewrite E, andb_false_r.
Qed.

(** The client on the way from [c] to [c']. *)
Definition under_way (c c' : client) (q : bytes) : Prop :=
  if request_ready (c_req c) then c = c' /\ q = [] else q <> [] /\ reading fd c /\ exists fuel, feeds fuel c q = Some c'.

Lemma spread_under_way i qs q s s' c' :
  0 <= fd -> (i < length (rt_clients (s_rt s)))%nat -> request_ready (c_req c') = true -> Forall is_byte q ->
  under_way (the_client s i) c' (concat qs ++ q) -> inbound (fd := fd) (s_world s) = [] ->
  spread i qs s s' -> under_way (the_client s' i) c' q /\ inbound (fd := fd) (s_world s') = [] /\
  length (rt_clients (s_rt s')) = length (rt_clients (s_rt s)).
Proof.
  intros H0 Hi Hr Hqb Hu Hin Hs. pose proof (spread_bytes _ _ _ _ Hs) as Hb.
  induction Hs as [s|r qs s s1 s2 Ec El Ei _ IH]; [done|].
  cbn [concat] in *. apply Forall_app in Hb as [Hq Hb]. rewrite Hin in Ei. cbn [app] in Ei.
  rewrite <- app_assoc in Hu.
  unfold under_way in Hu. rewrite <- Ec in Hu. destruct (request_ready (c_req (the_client s1 i))) eqn:Er.
  - destruct Hu as [<- [-> Eq]%app_eq_nil]. rewrite (service_ready i s1 Er) in IH. cbn [snd] in IH.
    rewrite <- El. apply IH; [lia| |done|done]. unfold under_way. by rewrite Er.
  - destruct Hu as (Hne & Hc & fuel & Hf). rewrite <- Ei in Hf.
    destruct (service_feed fd (S IOURINGD_MAX_REQUEST_BYTES) fuel i false s1 (concat qs ++ q) c')
      as (b & c2 & w2 & Es & Ew & Hfed); try done; [lia|by apply Forall_app|destruct (rd_wf _ _ Hc); lia|].
    unfold iouringd_service_client_readable in IH. rewrite Es in IH. cbn [snd] in IH.
    rewrite length_with_client, El in IH. apply IH; [done| |done|done]. rewrite the_with_client by lia. unfold under_way, fed in *.
    destruct (concat qs ++ q) eqn:Eq; [subst c2; by rewrite Hr|]. destruct Hfed as (Hc2 & Hf2). by rewrite (rd_ready _ _ Hc2).
Qed.

Lemma received_untouched bs c : Invariant.untouched (received bs c) = Invariant.untouched c.
Proof. done. Qed.

Lemma feeds_untouched fuel c bs c' : feeds fuel c bs = Some c' -> Invariant.untouched c' = Invariant.untouched c.
Proof.
  revert c bs. induction fuel as [|fuel IH]; intros c bs; [done|]. cbn [feeds]. destruct (_ <=? _)%nat; [|done].
  pose proof (process_submit_input_untouched (received (take (missing c) bs) c)) as Hu. unfold same_but_input in Hu.
  destruct (iouringd_process_submit_input _) as [[[|]|e] c2]; [| |done]; cbn [snd] in Hu.
  - destruct (drop _ _); [|done]. by intros [= <-].
  - intros E. rewrite <- (received_untouched (take (missing c) bs) c), <- Hu. apply (IH _ (drop (missing c) bs)).
    by destruct (drop _ _).
Qed.

(** The hypotheses of an arrival: client [i] is between two requests, and the bytes of
    [r] come in the pieces [qs]. *)
Record arrives (i : nat) (r : wire_request) (qs : list bytes) (s s' : sys W) : Prop := {
  ar_fd : 0 <= fd;
  ar_client : (i < length (rt_clients (s_rt s)))%nat;
  ar_idle : idle_client (the_client s i);
  ar_reading : reading fd (the_client s i);
  ar_valid : valid_request (c_io_bytes_max (the_client s i)) r;
  ar_bytes : concat qs = encode r;
  ar_inbound : inbound (fd := fd) (s_world s) = [];
  ar_spread : spread i qs s s';
}.

Lemma arrives_feeds i r qs (s s' : sys W) :
  arrives i r qs s s' ->
  feeds 3 (the_client s i) (encode r) = Some (the_client s' i) /\ Forall is_byte (encode r) /\
  parsed (the_client s' i) r /\ inbound (fd := fd) (s_world s') = [] /\
  length (rt_clients (s_rt s')) = length (rt_clients (s_rt s)) /\
  forall qs1 q s1, encode r = concat qs1 ++ q -> spread i qs1 s s1 -> under_way (the_client s1 i) (the_client s' i) q.
Proof.
  intros [H0 Hi Hidle Hc Hv Eq Hin Hs]. set (c := the_client s i) in *.
  destruct (parses_valid c (replicate IOURINGD_MAX_REQUEST_BYTES 0) Hidle r Hv) as (c' & Er & Hp).
  assert (Hb : Forall is_byte (encode r)) by (rewrite <- Eq; by eapply spread_bytes).
  apply feeds_of_read with (fd := fd) in Er as Hf; [|done|done|apply zero_bytes|by rewrite length_replicate].
  assert (Hu : under_way c c' (encode r)).
  { unfold under_way. rewrite (rd_ready _ _ Hc). split_and!; [|done|by exists 3%nat].
    intros E. apply (f_equal length) in E. clear -E. destruct r; unfold encode in E; cbn in E; try rewrite length_app in E; try done. }
  pose proof (pa_ready _ _ Hp) as Hr.
  destruct (spread_under_way i qs [] s s' c') as (Hu' & Ei & El); try done; [by rewrite app_nil_r, Eq|].
  assert (Ec : the_client s' i = c').
  { unfold under_way in Hu'. destruct (request_ready (c_req (the_client s' i))); [by destruct Hu' as [-> _]|by destruct Hu']. }
  rewrite Ec. split_and!; try done. intros qs1 q s1 Er1 Hs1.
  rewrite Er1 in Hb, Hu. apply Forall_app in Hb as [_ Hb]. by apply (spread_under_way i qs1 q s s1 c').
Qed.

(** C7: a request arrives whole however the kernel cuts it up.  Its bytes come in any
    number of pieces, the daemon is told after each, and every [recvmsg] returns as
    many of the bytes that are there as it likes; between the pieces the daemon does
    other work.  When all bytes have come the client has exactly that request ready
    and no byte is left on the socket.  As long as bytes are missing ([qs1] has come,
    of which [q] is the rest) no request is ready: an incomplete request is never
    dispatched, dropped or taken for a protocol error.  All the time the connection,
    the queued output and the resources are as before. *)
Theorem request_arrives i r qs (s s' : sys W) :
  arrives i r qs s s' ->
  parsed (the_client s' i) r /\ inbound (fd := fd) (s_world s') = [] /\
  Invariant.untouched (the_client s' i) = Invariant.untouched (the_client s i) /\
  forall qs1 q s1, encode r = concat qs1 ++ q -> q <> [] -> spread i qs1 s s1 ->
    request_ready (c_req (the_client s1 i)) = false /\
    Invariant.untouched (the_client s1 i) = Invariant.untouched (the_client s i).
Proof.
  intros Ha. destruct (arrives_feeds i r qs s s' Ha) as (Hf & _ & Hp & Ei & _ & Hw).
  apply feeds_untouched in Hf. split_and!; [done|done|done|]. intros qs1 q s1 Eq Hq Hs.
  specialize (Hw qs1 q s1 Eq Hs). unfold under_way in Hw. destruct (request_ready (c_req (the_client s1 i))); [by destruct Hw|].
  destruct Hw as (_ & _ & fuel & Hf1). apply feeds_untouched in Hf1. split; [done|congruence].
Qed.
End Pieces.

(** ** A socket that delivers in small portions *)

(** The scripted kernel, with a socket that holds [tr_bytes] and returns at most
    [tr_portion] of them, at least one, at a time. *)
Record trickle := mk_trickle { tr_script : script; tr_portion : nat; tr_bytes : bytes }.

Definition tr_lift {A} (f : script -> A * script) (w : trickle) : A * trickle :=
  let '(a, x) := f (tr_script w) in (a, mk_trickle x (tr_portion w) (tr_bytes w)).

Definition tr_recvmsg (w : trickle) (len : nat) : outcome message * trickle :=
  match u8 <$> tr_bytes w with
  | [] => (Err EAGAIN, w)
  | bs =>
      let n := Nat.min len (S (tr_portion w)) in
      (Ok (mk_message (take n bs) false []), mk_trickle (tr_script w) (tr_portion w) (drop n (tr_bytes w)))
  end.

#[export] Instance trickle_kernel : Kernel trickle := {|
  k_enter w r n := tr_lift (fun x => k_enter x r n) w;
  k_files_update w j fd := tr_lift (fun x => k_files_update x j fd) w;
  k_cq w r := tr_lift (fun x => k_cq x r) w;
  k_clock w := tr_lift k_clock w;
  k_recvmsg w _ len := tr_recvmsg w len;
  k_write w fd buf := tr_lift (fun x => k_write x fd buf) w;
  k_accept w fd := tr_lift (fun x => k_accept x fd) w;
  k_set_nonblocking w fd := tr_lift (fun x => k_set_nonblocking x fd) w;
  k_set_cloexec w fd := tr_lift (fun x => k_set_cloexec x fd) w;
  k_malloc w n := tr_lift (fun x => k_malloc x n) w;
  k_poll w fds := tr_lift (fun x => k_poll x fds) w;
  k_stop w := k_stop (tr_script w);
  k_accept_fault _ := false;
|}.

#[export] Instance trickle_feed fd : Feed trickle fd.
Proof.
  apply (Build_Feed trickle trickle_kernel fd (fun w => u8 <$> tr_bytes w)).
  - intros w. apply Forall_fmap, Forall_true. intros z. by apply Z.mod_pos_bound.
  - intros w len Hl. cbn [k_recvmsg trickle_kernel]. unfold tr_recvmsg. destruct (u8 <$> tr_bytes w) as [|x bs] eqn:E.
    + by exists w.
    + eexists (Nat.min len (S (tr_portion w))), _. split_and!; [lia|lia|reflexivity|]. cbn [tr_bytes]. by rewrite fmap_drop, E.
Defined.

Definition idle_daemon : sys trickle :=
  mk_sys (iouringd_init_runtime <| rt_clients := [idle_example] |>) (mk_trickle quiet 4 []) [].

(** [q] arrives and client 0 is serviced. *)
Definition more_bytes (q : bytes) (s : sys trickle) : sys trickle :=
  let w := s_world s in s <| s_world := mk_trickle (tr_script w) (tr_portion w) (tr_bytes w ++ q) |>.
Definition fed_with (q : bytes) (s : sys trickle) : sys trickle :=
  snd (iouringd_service_client_readable 0 (more_bytes q s)).

Lemma spread_fed qs (s : sys trickle) :
  Forall (fun q => u8 <$> q = q) qs -> spread 9 0 qs s (foldl (fun s q => fed_with q s) s qs).
Proof.
  intros Hqs. revert s. induction Hqs as [|q qs Hq _ IH]; intros s; [apply spread_nil|].
  apply (spread_cons 9 0 q qs s (more_bytes q s)); [reflexivity|reflexivity| |apply IH]. cbn. by rewrite fmap_app, Hq.
Qed.

Definition write_in_pieces : list bytes :=
  let bs := encode (WWrite false 2 7 [104; 105; 33]) in [take 3 bs; slice 3 17 bs; []; drop 20 bs].

Definition after_pieces (qs : list bytes) : sys trickle := foldl (fun s q => fed_with q s) idle_daemon qs.

(** Ready after the four pieces, and not after three. *)
Lemma request_arrives_witness :
  parsed (the_client (after_pieces write_in_pieces) 0) (WWrite false 2 7 [104; 105; 33]) /\
  request_ready (c_req (the_client (after_pieces (take 3 write_in_pieces)) 0)) = false.
Proof.
  assert (Ha : arrives 9 0 (WWrite false 2 7 [104; 105; 33]) write_in_pieces idle_daemon (after_pieces write_in_pieces)).
  { constructor.
    - lia.
    - apply Nat.ltb_lt. reflexivity.
    - exact idle_example_idle.
    - constructor; [reflexivity|reflexivity|reflexivity|exact idle_example_wf].
    - vm_compute. repeat split; congruence.
    - vm_compute. reflexivity.
    - reflexivity.
    - apply spread_fed. repeat constructor. }
  destruct (request_arrives 9 0 _ _ _ _ Ha) as (Hp & _ & _ & Hn). split; [exact Hp|].
  refine (proj1 (Hn (take 3 write_in_pieces) (drop 20 (encode (WWrite false 2 7 [104; 105; 33]))) _ _ _ _)).
  - vm_compute. reflexivity.
  - vm_compute. congruence.
  - apply spread_fed. repeat constructor.
Defined.
