(* ===== verification/Started.v ===== *)
(** * What a task request starts

    [dispatch_replies_once] says that the answer to a task request is one submit
    result.  Here is what the answer means: [submit_effect] relates it to the task
    table and to the submission ring, on every path of
    [iouringd_dispatch_client_request] of [src/daemon/main.c].  An answer with a
    task id stands for exactly one new task, which carries the request's
    arguments, and one entry pushed for it; an answer without one leaves the
    active tasks as they were. *)

From S2P Require Import Prelude Wire Kernel Ring State Output Resources Trace Daemon Startup Input Request Reader Dispatch Complete Sched Session Books Ledger Work Accounting Settle Invariant Correct Memory Safety Socket Client Inbox ClientApi Calls Conversation Replies.

(** ** The request a task carries out *)

(** The read-back of a task's fields, by its kind. *)
Definition task_view (t : task_slot) : option wire_request :=
  let kind := t_task_kind t in
  let p := t_submit_priority t in
  let rid := t_resource_id t in
  let len := t_io_length t in
  let payload := take (Z.to_nat len) (t_io_buffer t) in
  if kind =? IOURINGD_TASK_KIND_NOP then Some (WNop p)
  else if kind =? IOURINGD_TASK_KIND_TIMEOUT then
    Some (WTimeout p (fst (t_timeout t) * 1000000000 + snd (t_timeout t)))
  else if kind =? IOURINGD_TASK_KIND_CANCEL then Some (WCancel p (t_cancel_target_id t))
  else if kind =? IOURINGD_TASK_KIND_SOCK_READ then Some (WRead false p rid len)
  else if kind =? IOURINGD_TASK_KIND_FILE_READ then Some (WRead true p rid len)
  else if kind =? IOURINGD_TASK_KIND_SOCK_WRITE then Some (WWrite false p rid payload)
  else if kind =? IOURINGD_TASK_KIND_FILE_WRITE then Some (WWrite true p rid payload)
  else if kind =? IOURINGD_TASK_KIND_POLL then Some (WPoll p rid (t_poll_mask t))
  else if kind =? IOURINGD_TASK_KIND_CONNECT then Some (WConnect p rid payload)
  else if kind =? IOURINGD_TASK_KIND_ACCEPT then Some (WAccept p rid len)
  else if kind =? IOURINGD_TASK_KIND_OPENAT then Some (WOpenat p (t_open_flags t) (t_open_mode t) payload)
  else if kind =? IOURINGD_TASK_KIND_CLOSE then Some (WClose p rid)
  else if kind =? IOURINGD_TASK_KIND_SOCK_READ_FIXED then Some (WFixed false p rid (t_buffer_resource_id t) len)
  else if kind =? IOURINGD_TASK_KIND_SOCK_WRITE_FIXED then Some (WFixed true p rid (t_buffer_resource_id t) len)
  else None.

(** The submission entry of the task in slot [k] of client [i]; connect and accept
    act on a descriptor, not on an entry of the ring's file table. *)
Section Entry.
Context (rt : runtime) (i k : nat) (t : task_slot).
Abbreviation kind := (t_task_kind t).
Abbreviation id := (t_task_id t).
Abbreviation prio := (sqe_ioprio_from_submit_priority (t_submit_priority t)).
Abbreviation file := (i32 (iouringd_global_file_index rt i (Z.to_nat (t_file_slot_index t)))).
Abbreviation buf := (Z.to_nat (t_buffer_slot_index t)).
Abbreviation storage := (AOpt (Some (PStorage (iouringd_buffer_storage_at rt i buf)))).
Abbreviation iov := (AOpt (Some (PTaskIov k))).
Abbreviation when_asked p := (AOpt (if negb (t_io_length t =? 0) then Some p else None)).

Inductive task_entry : sqe -> Prop :=
  | entry_nop : kind = IOURINGD_TASK_KIND_NOP ->
      task_entry (mk_sqe IORING_OP_NOP 0 0 0 (ANum 0) (ANum 0) 0 0 id 0)
  | entry_timeout : kind = IOURINGD_TASK_KIND_TIMEOUT ->
      task_entry (mk_sqe IORING_OP_TIMEOUT 0 0 0 (ANum 0) (AOpt (Some (PTaskTimeout k))) 1 0 id 0)
  | entry_cancel : kind = IOURINGD_TASK_KIND_CANCEL ->
      task_entry (mk_sqe IORING_OP_ASYNC_CANCEL 0 0 0 (ANum 0) (ANum (t_cancel_target_id t)) 0
                    IORING_ASYNC_CANCEL_USERDATA id 0)
  | entry_read : (kind =? IOURINGD_TASK_KIND_SOCK_READ) || (kind =? IOURINGD_TASK_KIND_FILE_READ) = true ->
      task_entry (mk_sqe IORING_OP_READV IOSQE_FIXED_FILE prio file (ANum 0) iov 1 0 id 0)
  | entry_write : (kind =? IOURINGD_TASK_KIND_SOCK_WRITE) || (kind =? IOURINGD_TASK_KIND_FILE_WRITE) = true ->
      task_entry (mk_sqe IORING_OP_WRITEV IOSQE_FIXED_FILE prio file (ANum 0) iov 1 0 id 0)
  | entry_poll : kind = IOURINGD_TASK_KIND_POLL ->
      task_entry (mk_sqe IORING_OP_POLL_ADD IOSQE_FIXED_FILE 0 file (ANum 0) (ANum 0) 0 (t_poll_mask t) id 0)
  | entry_connect fd : kind = IOURINGD_TASK_KIND_CONNECT ->
      task_entry (mk_sqe IORING_OP_CONNECT 0 0 fd (ANum (t_io_length t)) (AOpt (Some (PTaskIoBuffer k))) 0 0 id 0)
  | entry_accept fd : kind = IOURINGD_TASK_KIND_ACCEPT ->
      task_entry (mk_sqe IORING_OP_ACCEPT 0 0 fd (when_asked (PTaskSockaddrLength k)) (when_asked (PTaskIoBuffer k)) 0
                    (Z.lor SOCK_CLOEXEC SOCK_NONBLOCK) id 0)
  | entry_openat : kind = IOURINGD_TASK_KIND_OPENAT ->
      task_entry (mk_sqe IORING_OP_OPENAT 0 prio AT_FDCWD (ANum 0) (AOpt (Some (PTaskIoBuffer k))) (t_open_mode t)
                    (u32 (t_open_flags t)) id 0)
  | entry_close : kind = IOURINGD_TASK_KIND_CLOSE ->
      task_entry (mk_sqe IORING_OP_CLOSE 0 prio (t_close_fd t) (ANum 0) (ANum 0) 0 0 id 0)
  | entry_read_fixed : kind = IOURINGD_TASK_KIND_SOCK_READ_FIXED ->
      task_entry (mk_sqe IORING_OP_READ_FIXED IOSQE_FIXED_FILE prio file (ANum 0) storage (t_io_length t) 0 id
                    (u16 (iouringd_global_buffer_index rt i buf)))
  | entry_write_fixed : kind = IOURINGD_TASK_KIND_SOCK_WRITE_FIXED ->
      task_entry (mk_sqe IORING_OP_WRITE_FIXED IOSQE_FIXED_FILE prio file (ANum 0) storage (t_io_length t) 0 id
                    (u16 (iouringd_global_buffer_index rt i buf))).
End Entry.

(** The requests that start tasks. *)
Definition task_request (r : wire_request) : bool :=
  match r with
  | WRegisterFd | WRegisterBuffer _ | WRelease _ | WGetStats | WGetTrace _ _ => false
  | _ => true
  end.

Definition asks_task (q : client_request) : Prop := exists r, request_view q = Some r /\ task_request r = true.

(** The kinds that are left when the others are ruled out. *)
Lemma asks_nop c :
  asks_task (c_req c) -> kind_is_io (req_kind c) = false -> (req_kind c =? IOURINGD_TASK_KIND_OPENAT) = false ->
  (req_kind c =? IOURINGD_TASK_KIND_CLOSE) = false -> (req_kind c =? IOURINGD_TASK_KIND_TIMEOUT) = false ->
  (req_kind c =? IOURINGD_TASK_KIND_CANCEL) = false -> req_kind c = IOURINGD_TASK_KIND_NOP.
Proof.
  unfold asks_task, request_view, kind_is_io. fold (req_kind c). cbv zeta. intros (r & Hv & Ht) Hio Ho Hc Hn Hk.
  repeat (apply orb_false_iff in Hio as [Hio ?]).
  repeat match goal with Hx : (_ =? _) = false |- _ => rewrite Hx in Hv; clear Hx end.
  destruct (_ =? IOURINGD_TASK_KIND_NOP) eqn:E; [by apply Z.eqb_eq|].
  repeat (case_match; [injection Hv as <-; done|]). done.
Qed.

Definition carries_payload (kind : Z) : bool :=
  (kind =? IOURINGD_TASK_KIND_SOCK_WRITE) || (kind =? IOURINGD_TASK_KIND_FILE_WRITE) ||
  (kind =? IOURINGD_TASK_KIND_CONNECT) || (kind =? IOURINGD_TASK_KIND_OPENAT).

(** The fields of [t] that its kind gives a meaning hold what the request says. *)
Record agrees (q : client_request) (t : task_slot) : Prop := {
  ag_kind : t_task_kind t = sq_task_kind (request q);
  ag_priority : t_submit_priority t = sq_priority (request q);
  ag_timeout : t_task_kind t = IOURINGD_TASK_KIND_TIMEOUT ->
    fst (t_timeout t) * 1000000000 + snd (t_timeout t) = timeout_nsec q;
  ag_target : t_task_kind t = IOURINGD_TASK_KIND_CANCEL -> t_cancel_target_id t = cancel_target_id q;
  ag_resource : kind_is_io (t_task_kind t) || (t_task_kind t =? IOURINGD_TASK_KIND_CLOSE) = true ->
    t_resource_id t = resource_id q;
  ag_length : kind_is_io (t_task_kind t) || (t_task_kind t =? IOURINGD_TASK_KIND_OPENAT) = true ->
    t_io_length t = io_length q;
  ag_mask : t_task_kind t = IOURINGD_TASK_KIND_POLL -> t_poll_mask t = poll_mask q;
  ag_payload : carries_payload (t_task_kind t) = true ->
    take (Z.to_nat (io_length q)) (t_io_buffer t) = payload_view q;
  ag_open : t_task_kind t = IOURINGD_TASK_KIND_OPENAT -> t_open_flags t = open_flags q /\ t_open_mode t = open_mode q;
  ag_buffer : kind_is_io (t_task_kind t) = true -> t_buffer_resource_id t = buffer_resource_id q;
}.

Lemma agrees_view q t : asks_task q -> agrees q t -> task_view t = request_view q.
Proof.
  intros (r & Hv & Hr) [Hk Hp Ht Hc Hs Hl Hm Hpl Ho Hb]. unfold task_view, request_view in *. cbv zeta in *. rewrite Hp.
  rewrite <- Hk in Hv |- *. clear Hk Hp.
  repeat (case_match;
    [match goal with E : (t_task_kind t =? _) = true |- _ => apply Z.eqb_eq in E; rewrite E in *; cbn in * end;
     rewrite ?Ht, ?Hc, ?Hs, ?Hl, ?Hm, ?Hpl, ?Hb by done; try (destruct Ho as [-> ->]; [done|]); done|]).
  repeat (case_match; [by injection Hv as <-|]). done.
Qed.

(** ** The task table *)

(** The table as a client knows it: slots that are free or hold a task. *)
Definition table (ts : list task_slot) : list (option task_slot) :=
  (fun t => if t_active t then Some t else None) <$> ts.

Lemma table_insert k t ts : table (<[k := t]> ts) = <[k := if t_active t then Some t else None]> (table ts).
Proof. apply list_fmap_insert. Qed.

Lemma table_clear k ts : table ts !! k = Some None -> table (<[k := iouringd_clear_task_slot]> ts) = table ts.
Proof. intros E. rewrite table_insert. by apply list_insert_id. Qed.

Lemma table_free rt k : iouringd_find_free_task_slot rt = Some k -> table (rt_tasks rt) !! k = Some None.
Proof.
  intros E. apply find_index_Some in E as (t & Hk & Ht & _). unfold table. rewrite list_lookup_fmap.
  apply lookup_take_Some in Hk as [_ Hk]. rewrite Hk. cbn. by destruct (t_active t).
Qed.

(** ** Steps that leave the tables alone *)

(** The tables a task request works on: the tasks, the next task id, the ring and
    the free credits; with them the request and the limits. *)
Record office := mk_office { of_tasks : list task_slot; of_next : Z; of_ring : ring; of_credits : Z }.
Record desk := mk_desk { dk_office : office; dk_request : client_request; dk_limits : iouringd_limits }.

Section Desk.
Context {W : Type} `{Kernel W} (i : nat).
Abbreviation DM := (DM (W := W)).

Definition office_of (s : sys W) : office :=
  let rt := s_rt s in mk_office (rt_tasks rt) (rt_next_task_id rt) (rt_ring rt) (iouringd_available_credits rt).
Definition desk_of (s : sys W) : desk := mk_desk (office_of s) (c_req (the_client s i)) (rt_limits (s_rt s)).

Definition still {A} (m : DM A) : Prop := forall s, desk_of (snd (m s)) = desk_of s.

Lemma still_ret {A} (a : A) : still (mret a).
Proof. done. Qed.
Lemma still_fail {A} e : still (mfail (A := A) e).
Proof. done. Qed.
Lemma still_get {A} (f : sys W -> A) : still (mget f).
Proof. done. Qed.
Lemma still_bind {A B} (m : DM A) (k : A -> DM B) : still m -> (forall a, still (k a)) -> still (mbnd m k).
Proof.
  intros Hm Hk s. specialize (Hm s). unfold mbnd. destruct (m s) as [[a|e] s1]; [|done]. cbn in Hm. by rewrite Hk.
Qed.
Lemma still_try {A} (m : DM A) : still m -> still (mtry m).
Proof. intros Hm s. specialize (Hm s). unfold mtry. by destruct (m s). Qed.

Lemma request_insert (s : sys W) c :
  c_req c = c_req (the_client s i) ->
  c_req (the_client (s <| s_rt := s_rt s <| rt_clients := <[i := c]> (rt_clients (s_rt s)) |> |>) i) =
  c_req (the_client s i).
Proof.
  intros E. unfold the_client in *. cbn. destruct (decide (i < length (rt_clients (s_rt s)))%nat).
  - by rewrite list_lookup_total_insert_eq.
  - by rewrite list_insert_ge by lia.
Qed.

Lemma still_mod_client f : (forall c, c_req (f c) = c_req c) -> still (mod_client i f).
Proof.
  intros Hf s. unfold desk_of. f_equal. apply (request_insert s (f (the_client s i))). apply Hf.
Qed.
Lemma still_queue_output buf : still (queue_output i buf).
Proof.
  intros s. unfold queue_output. destruct (iouringd_queue_client_output _ _) as [rc b]. cbn [snd].
  unfold desk_of. f_equal. by apply (request_insert s).
Qed.
Lemma still_mod_rt f :
  (forall rt, rt_tasks (f rt) = rt_tasks rt /\ rt_next_task_id (f rt) = rt_next_task_id rt /\
              rt_ring (f rt) = rt_ring rt /\ iouringd_available_credits (f rt) = iouringd_available_credits rt /\
              rt_clients (f rt) = rt_clients rt /\ rt_limits (f rt) = rt_limits rt) -> still (mod_rt f).
Proof.
  intros Hf s. destruct (Hf (s_rt s)) as (H1 & H2 & H3 & H4 & H5 & H6).
  unfold desk_of, office_of, the_client, mod_rt, mmod. cbn [snd s_rt put put_s_rt]. by rewrite H1, H2, H3, H4, H5, H6.
Qed.
Lemma still_close_fds fds : still (close_fds fds).
Proof. done. Qed.
Lemma still_ring_update_file j fd : still (ring_update_file j fd).
Proof. intros s. unfold ring_update_file. by destruct (iouringd_ring_update_registered_file _ _ _ _). Qed.
Lemma still_emit_trace j ek tk p tid rid res cr : still (emit_trace j ek tk p tid rid res cr).
Proof. intros s. unfold emit_trace. by destruct (k_clock _). Qed.
Lemma still_set_res f : still (set_res i f).
Proof. by apply still_mod_client. Qed.
Lemma still_set_file_slot j f : still (set_file_slot i j f).
Proof. apply still_set_res. Qed.
Lemma still_set_buffer_slot j f : still (set_buffer_slot i j f).
Proof. apply still_set_res. Qed.
End Desk.

Create HintDb still.
#[export] Hint Resolve still_ret still_fail still_get still_try still_queue_output still_close_fds
  still_ring_update_file still_emit_trace still_set_res still_set_file_slot still_set_buffer_slot : still.

(** Decomposes a computation and closes its parts with the database. *)
Ltac still_tac :=
  repeat lazymatch goal with
         | |- still _ (mbnd _ _) => apply still_bind; [|intros ?]
         | |- still _ (mtry _) => apply still_try
         | |- still _ (match ?x with _ => _ end) => destruct x
         | |- still _ (let '(_, _) := ?x in _) => destruct x
         | |- still _ (mod_client _ _) => apply still_mod_client; intros ?; reflexivity
         | |- still _ (mod_rt _) => apply still_mod_rt; intros ?; split_and!; reflexivity
         | |- still _ get_rt => apply still_get
         | |- still _ (get_client _) => apply still_get
         | |- still _ (get_task _) => apply still_get
         | |- still _ (get_file_slot _ _) => apply still_get
         | |- still _ (get_buffer_slot _ _) => apply still_get
         | |- still _ _ => solve [auto with still]
         end.

Section Parts.
Context {W : Type} `{Kernel W} (i : nat).

Lemma still_clear_file_slot j : still (W := W) i (clear_file_slot i j).
Proof. unfold clear_file_slot. still_tac. Qed.
Lemma still_allocate_id : still (W := W) i (allocate_id i).
Proof. unfold allocate_id. still_tac. Qed.
Lemma still_dec_buffer bj : still (W := W) i (dec_buffer i bj).
Proof. unfold dec_buffer. still_tac. Qed.
Lemma still_inc_buffer bj : still (W := W) i (inc_buffer i bj).
Proof. unfold inc_buffer. still_tac. Qed.
Lemma still_drop_result_slot j : still (W := W) i (drop_result_slot i j).
Proof. unfold drop_result_slot. still_tac. apply still_clear_file_slot. Qed.
Lemma still_reopen_slot j fd : still (W := W) i (reopen_slot i j fd).
Proof. unfold reopen_slot. still_tac. Qed.
Lemma still_undo_submit_io k j bj : still (W := W) i (undo_submit_io i k j bj).
Proof.
  unfold undo_submit_io, dec_file, unallocate_id. still_tac; [apply still_drop_result_slot|apply still_dec_buffer].
Qed.
Lemma still_reject_submit res : still (W := W) i (iouringd_reject_submit i res).
Proof. unfold iouringd_reject_submit, iouringd_queue_submit_result. still_tac. Qed.
End Parts.
#[export] Hint Resolve still_clear_file_slot still_allocate_id still_dec_buffer still_inc_buffer
  still_drop_result_slot still_reopen_slot still_undo_submit_io still_reject_submit : still.

(** ** Submissions *)

Definition errno (e : Z) : Prop := 0 < e <= 4095.

Section Submissions.
Context {W : Type} `{Kernel W} (Hent : enter_documented (W := W)) (i : nat).
Abbreviation DM := (DM (W := W)).

(** [r'] is [r] with the entry [e] pushed. *)
Definition pushed (r : ring) (e : sqe) (r' : ring) : Prop :=
  exists w w' : W, ring_push w r e = (Ok tt, r', w').

(** A ring operation that pushes [e] or fails. *)
Definition pushes (e : sqe) (f : W -> ring -> ring_result (W := W)) : Prop :=
  forall w r, match f w r with
              | (Ok _, r', _) => pushed r e r'
              | (Err x, _, _) => errno x
              end.

Lemma pushes_push e : pushes e (fun w r => ring_push w r e).
Proof.
  intros w r. destruct (ring_push w r e) as [[[[]|x] r'] w'] eqn:E; [by exists w, w'|].
  unfold ring_push in E. destruct (_ <=? _); [by injection E as <- _ _|].
  destruct (k_enter _ _ _) as [[[m|y] h] w1] eqn:Ee; [done|]. injection E as <- _ _.
  by apply (Hent _ _ 1) in Ee as [? _].
Qed.

Lemma pushes_guard e (g : W -> ring -> bool) (f : W -> ring -> ring_result (W := W)) :
  pushes e f -> pushes e (fun w r => if g w r then (Err EINVAL, r, w) else f w r).
Proof. intros Hf w r. destruct (g w r); [done|apply Hf]. Qed.

(** The ring operations push the entry of the task they are given. *)
Ltac pushes_tac := repeat apply pushes_guard; apply pushes_push.

(** The desk [d] with task [t] in slot [k] and the ring [r]. *)
Definition with_task (d : desk) (k : nat) (t : task_slot) (r : ring) : desk :=
  let o := dk_office d in
  mk_desk (mk_office (<[k := t]> (of_tasks o)) (of_next o) r (of_credits o)) (dk_request d) (dk_limits d).

Lemma with_task_task d k t r (s : sys W) :
  (k < length (of_tasks (dk_office d)))%nat -> desk_of i s = with_task d k t r -> the_task s k = t.
Proof. intros Hk [= E _ _ _ _ _]. unfold the_task. rewrite E. by apply list_lookup_total_insert_eq. Qed.

Lemma mod_task_desk d k t r f (s : sys W) :
  (k < length (of_tasks (dk_office d)))%nat -> desk_of i s = with_task d k t r ->
  desk_of i (snd (mod_task k f s)) = with_task d k (f t) r.
Proof.
  intros Hk E. pose proof (with_task_task _ _ _ _ _ Hk E) as Et. injection E as E1 E2 E3 E4 E5 E6.
  unfold the_task in Et. unfold desk_of, office_of, mod_task, mod_rt, mmod, with_task. cbn. rewrite Et, E1, list_insert_insert_eq.
  f_equal; [f_equal; [done|done|exact E4]|exact E5|done].
Qed.

(** From a desk with [t] in slot [k], [m] succeeds with [P] or fails with an
    errno, and touches that slot and the ring only. *)
Definition submits (d : desk) (k : nat) (P : task_slot -> ring -> Prop) (t : task_slot) (m : DM unit) : Prop :=
  forall s, desk_of i s = with_task d k t (of_ring (dk_office d)) ->
  let '(rc, s') := m s in
  exists t' r', desk_of i s' = with_task d k t' r' /\ match rc with Ok _ => P t' r' | Err e => errno e end.

Lemma submits_ring d k P t e f :
  pushes e f -> (forall r', pushed (of_ring (dk_office d)) e r' -> P t r') -> submits d k P t (with_ring f).
Proof.
  intros Hf HP s E. unfold with_ring. specialize (Hf (s_world s) (rt_ring (s_rt s))).
  assert (Er : rt_ring (s_rt s) = of_ring (dk_office d)) by (by injection E).
  destruct (f _ _) as [[rc r'] w']. exists t, r'. split.
  - injection E as E1 E2 _ E4 E5 E6. unfold desk_of, office_of, with_task. cbn.
    f_equal; [f_equal; [done|done|exact E4]|exact E5|done].
  - destruct rc; [apply HP; by rewrite <- Er|done].
Qed.

Lemma submits_mod d k P t g m :
  (k < length (of_tasks (dk_office d)))%nat -> submits d k P (g t) m -> submits d k P t (mod_task k g ;;; m)%iou.
Proof. intros Hk Hm s E. exact (Hm _ (mod_task_desk _ _ _ _ g _ Hk E)). Qed.

Lemma submits_get {A} d k P t (f : sys W -> A) (m : A -> DM unit) :
  (forall s, desk_of i s = with_task d k t (of_ring (dk_office d)) -> submits d k P t (m (f s))) ->
  submits d k P t (mbnd (mget f) m).
Proof. intros Hm s E. exact (Hm s E s E). Qed.

(** What the started task must be: active, under the id [n], owned by client [i] in
    this connection, and carrying the request. *)
Record started_task (c : client) (n : Z) (t : task_slot) : Prop := {
  st_active : t_active t = true;
  st_id : t_task_id t = n;
  st_client : t_client_index t = i;
  st_generation : t_client_generation t = c_generation c;
  st_credit : t_consumes_credit t = uses_credit c;
  st_view : task_view t = request_view (c_req c);
}.

(** It is in slot [k], and its entry was pushed. *)
Definition launched (rt : runtime) (c : client) (r : ring) (k : nat) (t : task_slot) (r' : ring) : Prop :=
  started_task c (rt_next_task_id rt) t /\ exists e, task_entry rt i k t e /\ pushed r e r'.

Lemma copied_payload (q : client_request) n :
  (Z.to_nat n <= length (io_payload q))%nat ->
  take (Z.to_nat n) (blit 0 (take (Z.to_nat n) (io_payload q)) (replicate IOURINGD_MAX_IO_BYTES 0)) =
  take (Z.to_nat n) (io_payload q).
Proof.
  intros Hn. unfold blit. rewrite take_0. cbn [app]. rewrite take_app_le by (rewrite length_take; lia).
  rewrite take_take. f_equal. lia.
Qed.

Section Task.
Context (rt : runtime) (c : client) (d : desk) (k : nat).
Hypothesis Hk : (k < length (of_tasks (dk_office d)))%nat.
Hypothesis Hreq : dk_request d = c_req c.
Hypothesis Hlim : dk_limits d = rt_limits rt.
Hypothesis Hview : asks_task (c_req c).
Hypothesis Hlen : carries_payload (req_kind c) = true -> (Z.to_nat (io_length (c_req c)) <= length (io_payload (c_req c)))%nat.
Abbreviation goal_task := (launched rt c (of_ring (dk_office d)) k).

(** The facts a read of the state gives. *)
Lemma desk_request t r (s : sys W) : desk_of i s = with_task d k t r -> c_req (the_client s i) = c_req c.
Proof. intros [= _ _ _ _ E _]. by rewrite E. Qed.
Lemma desk_limits t r (s : sys W) : desk_of i s = with_task d k t r -> rt_limits (s_rt s) = rt_limits rt.
Proof. intros [= _ _ _ _ _ E]. by rewrite E. Qed.

(** The task that is started is [new_task] but for the fields its kind uses. *)
Lemma launched_intro t e r' :
  t_active t = true -> t_task_id t = rt_next_task_id rt -> t_client_index t = i ->
  t_client_generation t = c_generation c -> t_consumes_credit t = uses_credit c -> agrees (c_req c) t ->
  task_entry rt i k t e -> pushed (of_ring (dk_office d)) e r' -> goal_task t r'.
Proof.
  intros H1 H2 H3 H4 H5 Ha He Hp. split; [|by exists e]. constructor; try done. by apply agrees_view.
Qed.

(** [agrees] for a kind that is known; a constructor of [task_entry]. *)
Ltac kind_of E := match goal with |- context [t_task_kind ?t] => change (t_task_kind t) with (req_kind c); rewrite E end.
Ltac agree E :=
  constructor; [reflexivity|reflexivity|kind_of E..];
  try (intros Hx; first [solve [vm_compute in Hx; discriminate Hx] | reflexivity | split; reflexivity]).

Ltac entry rule := refine (rule _ _ _ _ _).

Lemma submit_simple_submits :
  kind_is_io (req_kind c) = false -> (req_kind c =? IOURINGD_TASK_KIND_OPENAT) = false ->
  (req_kind c =? IOURINGD_TASK_KIND_CLOSE) = false ->
  submits d k goal_task (new_task rt c i) (submit_simple i k).
Proof.
  intros Hio Ho Hc. unfold submit_simple. apply submits_get. intros s1 E1. apply submits_get. intros s2 E2.
  rewrite (with_task_task _ _ _ _ _ Hk E2), (desk_request _ _ _ E1).
  change (t_task_kind (new_task rt c i)) with (req_kind c).
  destruct (req_kind c =? IOURINGD_TASK_KIND_TIMEOUT) eqn:Et.
  { apply submits_mod; [done|]. eapply submits_ring; [unfold iouringd_ring_submit_timeout, ring_queue_sqe; pushes_tac|].
    intros r' Hp. eapply launched_intro; [reflexivity..| | |exact Hp].
    - apply Z.eqb_eq in Et. agree Et. intros _. rewrite Z.mul_comm. symmetry. by apply Z.div_mod.
    - apply Z.eqb_eq in Et. entry entry_timeout. exact Et. }
  destruct (req_kind c =? IOURINGD_TASK_KIND_CANCEL) eqn:Ec.
  { apply submits_mod; [done|]. eapply submits_ring; [unfold iouringd_ring_submit_cancel; pushes_tac|].
    intros r' Hp. apply Z.eqb_eq in Ec. eapply launched_intro; [reflexivity..|agree Ec|entry entry_cancel; exact Ec|exact Hp]. }
  pose proof (asks_nop c Hview Hio Ho Hc Et Ec) as En.
  eapply submits_ring; [unfold iouringd_ring_submit_nop, ring_queue_sqe; pushes_tac|].
  intros r' Hp. eapply launched_intro; [reflexivity..|agree En|entry entry_nop; exact En|exact Hp].
Qed.

(** A task on a registered file; [a] and [b] are the slot and the id reserved for
    the descriptor an accept returns. *)
Definition io_task (j : nat) (bj : option nat) (a b : Z) : task_slot :=
  task_io rt c i j bj <| t_result_file_slot_index := a |> <| t_result_resource_id := b |>.

Lemma io_task_start j bj : task_io rt c i j bj = io_task j bj (-1) 0.
Proof. reflexivity. Qed.

(** The other kinds are ruled out; what is left is the payload. *)
Lemma io_agrees t :
  kind_is_io (req_kind c) = true -> t_task_kind t = req_kind c -> t_submit_priority t = req_priority c ->
  t_resource_id t = resource_id (c_req c) -> t_io_length t = io_length (c_req c) ->
  t_poll_mask t = poll_mask (c_req c) -> t_buffer_resource_id t = buffer_resource_id (c_req c) ->
  (carries_payload (req_kind c) = true ->
   take (Z.to_nat (io_length (c_req c))) (t_io_buffer t) = payload_view (c_req c)) ->
  agrees (c_req c) t.
Proof.
  intros Hio H1 H2 H3 H4 H5 H6 H7. constructor; try done; rewrite H1; try done;
    intros Hx; rewrite Hx in Hio; discriminate Hio.
Qed.

Lemma io_task_agrees j bj a b :
  kind_is_io (req_kind c) = true -> carries_payload (req_kind c) = false -> agrees (c_req c) (io_task j bj a b).
Proof. intros Hio Hp. apply io_agrees; try reflexivity; [exact Hio|]. by rewrite Hp. Qed.

Lemma io_copy_agrees j bj a b c1 :
  kind_is_io (req_kind c) = true -> carries_payload (req_kind c) = true -> c_req c1 = c_req c ->
  agrees (c_req c) (copy_to_task c1 (io_length (c_req c)) (io_task j bj a b)).
Proof.
  intros Hio Hp E. apply io_agrees; try reflexivity; [exact Hio|]. intros _. unfold copy_to_task. rewrite E.
  exact (copied_payload (c_req c) _ (Hlen Hp)).
Qed.

Lemma io_indices rt1 x bj a b j :
  rt_limits rt1 = rt_limits rt ->
  iouringd_global_file_index rt1 i j =
    iouringd_global_file_index rt i (Z.to_nat (t_file_slot_index (io_task j bj a b))) /\
  iouringd_global_buffer_index rt1 i x = iouringd_global_buffer_index rt i x /\
  iouringd_buffer_storage_at rt1 i x = iouringd_buffer_storage_at rt i x.
Proof.
  intros El. unfold iouringd_buffer_storage_at, iouringd_global_file_index, iouringd_global_buffer_index.
  rewrite El. change (t_file_slot_index (io_task j bj a b)) with (Z.of_nat j). by rewrite Nat2Z.id.
Qed.

(** Opens a ring operation down to its push. *)
Ltac open_ring :=
  eapply submits_ring;
    [unfold iouringd_ring_submit_writev, iouringd_ring_submit_readv, iouringd_ring_submit_connect,
       iouringd_ring_submit_accept, iouringd_ring_submit_poll, iouringd_ring_submit_write_fixed,
       iouringd_ring_submit_read_fixed, ring_queue_rw_sqe, ring_queue_connect_sqe, ring_queue_accept_sqe,
       ring_queue_poll_sqe, ring_queue_fixed_buffer_sqe; pushes_tac
    |intros r' Hp; eapply launched_intro; [reflexivity..| | |exact Hp]].

Lemma submit_io_submits j bj a b :
  kind_is_io (req_kind c) = true -> submits d k goal_task (io_task j bj a b) (submit_io i k j).
Proof.
  intros Hio. unfold submit_io. apply submits_get. intros s1 E1. apply submits_get. intros s2 E2.
  apply submits_get. intros s3 E3. apply submits_get. intros s4 _.
  rewrite (with_task_task _ _ _ _ _ Hk E2). pose proof (desk_request _ _ _ E1) as Er.
  destruct (io_indices (s_rt s3) (Z.to_nat (t_buffer_slot_index (io_task j bj a b))) bj a b j (desk_limits _ _ _ E3))
    as (Ef & Eb & Es). cbv zeta. rewrite Ef, Eb, Es.
  change (t_task_kind (io_task j bj a b)) with (req_kind c).
  change (t_io_length (io_task j bj a b)) with (io_length (c_req c)).
  destruct ((req_kind c =? IOURINGD_TASK_KIND_SOCK_WRITE) || _) eqn:Ew.
  { apply submits_mod; [exact Hk|]. open_ring; [apply io_copy_agrees; [done| |done]; unfold carries_payload; by rewrite Ew|entry entry_write; exact Ew]. }
  destruct ((req_kind c =? IOURINGD_TASK_KIND_SOCK_READ) || _) eqn:Erd.
  { assert (Hp0 : carries_payload (req_kind c) = false)
      by (apply orb_true_iff in Erd as [E%Z.eqb_eq|E%Z.eqb_eq]; rewrite E; reflexivity).
    open_ring; [by apply io_task_agrees|entry entry_read; exact Erd]. }
  destruct (req_kind c =? IOURINGD_TASK_KIND_CONNECT) eqn:Ec; [apply Z.eqb_eq in Ec|].
  { apply submits_mod; [exact Hk|]. open_ring; [apply io_copy_agrees; [done|by rewrite Ec|done]|]. refine (entry_connect _ _ _ _ _ _). exact Ec. }
  destruct (req_kind c =? IOURINGD_TASK_KIND_ACCEPT) eqn:Ea; [apply Z.eqb_eq in Ea|].
  { open_ring; [apply io_task_agrees; [done|by rewrite Ea]|]. refine (entry_accept _ _ _ _ _ _). exact Ea. }
  destruct (req_kind c =? IOURINGD_TASK_KIND_POLL) eqn:Ep; [apply Z.eqb_eq in Ep|].
  { open_ring; [apply io_task_agrees; [done|by rewrite Ep]|entry entry_poll; exact Ep]. }
  destruct (req_kind c =? IOURINGD_TASK_KIND_SOCK_WRITE_FIXED) eqn:Ewf; [apply Z.eqb_eq in Ewf|].
  { open_ring; [apply io_task_agrees; [done|by rewrite Ewf]|entry entry_write_fixed; exact Ewf]. }
  assert (Erf : req_kind c = IOURINGD_TASK_KIND_SOCK_READ_FIXED).
  { apply orb_false_iff in Ew as [E1' E2'], Erd as [E3' E4']. unfold kind_is_io in Hio.
    rewrite E1', E2', E3', E4', Ec, Ea, Ep, Ewf, orb_false_r in Hio. by apply Z.eqb_eq. }
  open_ring; [apply io_task_agrees; [done|by rewrite Erf]|entry entry_read_fixed; exact Erf].
Qed.

Lemma submit_openat_submits j rid :
  req_kind c = IOURINGD_TASK_KIND_OPENAT ->
  let t := task_openat rt c i j rid in
  submits d k goal_task t
    (with_ring (fun w r => iouringd_ring_submit_openat w r (t_task_id t) AT_FDCWD (Some (PTaskIoBuffer k))
                             (t_open_flags t) (t_open_mode t) (t_submit_priority t))).
Proof.
  intros Ek t. eapply submits_ring; [unfold iouringd_ring_submit_openat, ring_queue_openat_sqe; pushes_tac|].
  intros r' Hp. eapply launched_intro; [reflexivity..| | |exact Hp].
  - agree Ek. intros _. refine (copied_payload (c_req c) _ (Hlen _)). by rewrite Ek.
  - entry entry_openat. exact Ek.
Qed.

Lemma submit_close_submits j fd :
  req_kind c = IOURINGD_TASK_KIND_CLOSE ->
  let t := task_close rt c i j fd in
  submits d k goal_task t
    (with_ring (fun w r => iouringd_ring_submit_close w r (t_task_id t) fd (t_submit_priority t))).
Proof.
  intros Ek t. eapply submits_ring; [unfold iouringd_ring_submit_close, ring_queue_close_sqe; pushes_tac|].
  intros r' Hp. eapply launched_intro; [reflexivity..|agree Ek|entry entry_close; exact Ek|exact Hp].
Qed.
End Task.

(** ** The answer and the tables *)

(** No task: the answer has no id and an error; the active tasks and the next id
    are as before. *)
Record refused (o : office) (x : submit_result) (o' : office) : Prop := {
  rf_id : sr_task x = IOURINGD_TASK_ID_INVALID;
  rf_res : exists e, errno e /\ sr_res x = - e;
  rf_table : table (of_tasks o') = table (of_tasks o);
  rf_next : of_next o' = of_next o;
}.

(** One task more, in a slot that was free, under the id of the answer. *)
Record accepted (rt : runtime) (c : client) (o : office) (x : submit_result) (o' : office) : Prop := {
  ac_id : sr_task x = of_next o;
  ac_res : sr_res x = IOURINGD_COMPLETION_RES_OK;
  ac_next : of_next o' = u64 (of_next o + 1);
  ac_task : exists k t, table (of_tasks o) !! k = Some None /\
    table (of_tasks o') = <[k := Some t]> (table (of_tasks o)) /\
    launched rt c (of_ring o) k t (of_ring o');
}.

Definition answered (rt : runtime) (c : client) (o : office) (b : bool) (s' : sys W) (bs : bytes) : Prop :=
  b = true /\ request_ready (c_req (the_client s' i)) = false /\
  exists x, bs = to_wire x /\ sr_credits x = of_credits (office_of s') /\
            (refused o x (office_of s') \/ accepted rt c o x (office_of s')).

(** A step that is silent and still. *)
Lemma emits_still {A B} (m : DM A) (k : A -> DM B) s (Q : B -> sys W -> bytes -> Prop) :
  silent m -> still i m -> (forall a s1, speaks i s1 -> desk_of i s1 = desk_of i s -> emits i (k a) s1 Q) ->
  emits i (mbnd m k) s Q.
Proof.
  intros Hm Hs Hk. apply (emits_bind i m k s (fun _ s1 bs => bs = [] /\ desk_of i s1 = desk_of i s)).
  - apply emits_silent; [done|]. intros a s1 E. split; [done|]. specialize (Hs s). by rewrite E in Hs.
  - intros a s1 bs [-> E] Hs1. by apply Hk.
Qed.

(** A silent step with a known effect on the desk. *)
Lemma emits_desk {A B} (m : DM A) (k : A -> DM B) s d (Q : B -> sys W -> bytes -> Prop) :
  silent m -> desk_of i (snd (m s)) = d ->
  (forall a s1, speaks i s1 -> desk_of i s1 = d -> emits i (k a) s1 Q) -> emits i (mbnd m k) s Q.
Proof.
  intros Hm Hd Hk. apply (emits_bind i m k s (fun _ s1 bs => bs = [] /\ desk_of i s1 = d)).
  - apply emits_silent; [done|]. intros a s1 E. split; [done|]. by rewrite E in Hd.
  - intros a s1 bs [-> E] Hs1. by apply Hk.
Qed.

Lemma emits_try_queue_still buf s (Q : outcome unit -> sys W -> bytes -> Prop) :
  (forall s', desk_of i s' = desk_of i s -> Q (Ok tt) s' buf) ->
  (forall e s', desk_of i s' = desk_of i s -> Q (Err e) s' []) -> emits i (mtry (queue_output i buf)) s Q.
Proof.
  intros HQ1 HQ2 Hs. pose proof (queue_output_run i buf s Hs) as Hr. pose proof (still_queue_output i buf s) as Hd.
  unfold mtry. destruct (queue_output i buf s) as [r s']. cbn [snd] in Hd. destruct Hr as (H1 & H2 & H3). split; [done|].
  exists (if is_ok r then buf else []). split_and!; [|done|done]. destruct r as [[]|e]; [by apply HQ1|by apply HQ2].
Qed.

Lemma emits_queue_still buf s (Q : unit -> sys W -> bytes -> Prop) :
  (forall s', desk_of i s' = desk_of i s -> Q tt s' buf) -> emits i (queue_output i buf) s Q.
Proof.
  intros HQ Hs. pose proof (queue_output_run i buf s Hs) as Hr. pose proof (still_queue_output i buf s) as Hd.
  destruct (queue_output i buf s) as [[[]|e] s']; [|done]. cbn [snd] in Hd. destruct Hr as (H1 & H2 & H3).
  split; [done|]. exists buf. by split_and!; [apply HQ|..].
Qed.

(** The end of a request leaves the tables alone. *)
Lemma emits_finish_office s (Q : bool -> sys W -> bytes -> Prop) :
  (forall s', request_ready (c_req (the_client s' i)) = false -> office_of s' = office_of s -> Q true s' []) ->
  emits i (finish_true i) s Q.
Proof.
  intros HQ. apply emits_silent; [unfold finish_true, iouringd_finish_client_request; silent_tac|].
  intros a s' E. injection E as <- <-. apply HQ; [|done]. unfold the_client. cbn.
  destruct (decide (i < length (rt_clients (s_rt s)))%nat) as [Hl|Hl].
  - by rewrite list_lookup_total_insert_eq.
  - rewrite list_lookup_total_alt, lookup_ge_None_2; [done|]. rewrite length_insert. lia.
Qed.

Section Answers.
Context (rt : runtime) (c : client) (o : office).

Lemma emits_refused e s :
  errno e -> table (of_tasks (office_of s)) = table (of_tasks o) -> of_next (office_of s) = of_next o ->
  emits i (reject i e) s (answered rt c o).
Proof.
  intros He Ht Hn. unfold reject, iouringd_reject_submit, iouringd_queue_submit_result.
  set (x := mk_submit_result IOURINGD_TASK_ID_INVALID (- e) (of_credits (office_of s))).
  apply (emits_bind i _ _ s (fun _ s1 bs => bs = to_wire x /\ desk_of i s1 = desk_of i s)).
  - apply emits_still; [silent_tac|still_tac|]. intros _ s1 _ E1.
    apply (emits_bind i _ _ s1 (fun _ s2 bs => bs = to_wire x /\ desk_of i s2 = desk_of i s)).
    + apply emits_get. replace (iouringd_available_credits (s_rt s1)) with (of_credits (office_of s))
        by (injection E1; intros; symmetry; assumption).
      apply emits_queue_still. intros s2 E2. by rewrite E2.
    + intros [] s2 bs [-> E2] _. do 2 (apply emits_get; cbv beta).
      pose proof (still_emit_trace (W := W) i i IOURINGD_TRACE_EVENT_SUBMIT_REJECT (sq_task_kind (request (c_req (the_client s2 i))))
                    (sq_priority (request (c_req (the_client s2 i)))) IOURINGD_TASK_ID_INVALID
                    (resource_id (c_req (the_client s2 i))) (- e) (iouringd_available_credits (s_rt s2)) s2) as Hst.
      apply emits_silent; [silent_tac|]. intros [] s3 E3. rewrite E3 in Hst. cbn [snd] in Hst.
      rewrite app_nil_r. by rewrite Hst.
  - intros [] s1 bs [-> E1] _. apply emits_finish_office. intros s' Hr Eo. rewrite app_nil_r. split_and!; [done|done|].
    assert (Es : office_of s1 = office_of s) by (injection E1; unfold office_of; congruence). rewrite Es in Eo.
    exists x. rewrite Eo. split_and!; [done|done|]. left. constructor; [done|by exists e|done|done].
Qed.

Lemma emits_abandoned k t r e undo d s :
  dk_office d = o -> errno e -> table (of_tasks o) !! k = Some None -> desk_of i s = with_task d k t r ->
  silent undo -> still i undo -> emits i (abandon_task i k e undo) s (answered rt c o).
Proof.
  intros Ho He Hf Hd Hs Hu.
  assert (Hk : (k < length (of_tasks (dk_office d)))%nat).
  { rewrite Ho. apply lookup_lt_Some in Hf. unfold table in Hf. by rewrite length_fmap in Hf. }
  unfold abandon_task. apply emits_still; [done|done|]. intros _ s1 _ E1. rewrite Hd in E1.
  eapply emits_desk; [apply silent_clear_task|by apply (mod_task_desk d k t r)|].
  intros _ s2 _ E2. injection E2 as E3 E4 _ _ _ _. apply emits_refused; [done| |by rewrite <- Ho].
  unfold office_of, of_tasks. rewrite E3, Ho. by apply table_clear.
Qed.

(** The tasks, the next id and the ring, when the credits change. *)
Definition tables_of (s : sys W) : list task_slot * Z * ring :=
  (rt_tasks (s_rt s), rt_next_task_id (s_rt s), rt_ring (s_rt s)).

Lemma emits_tables {A B} (m : DM A) (k : A -> DM B) s v (Q : B -> sys W -> bytes -> Prop) :
  silent m -> tables_of (snd (m s)) = v ->
  (forall a s1, speaks i s1 -> tables_of s1 = v -> emits i (k a) s1 Q) -> emits i (mbnd m k) s Q.
Proof.
  intros Hm Hd Hk. apply (emits_bind i m k s (fun _ s1 bs => bs = [] /\ tables_of s1 = v)).
  - apply emits_silent; [done|]. intros a s1 E. split; [done|]. by rewrite E in Hd.
  - intros a s1 bs [-> E] Hs1. by apply Hk.
Qed.

Lemma emits_accepted k t r credit undo d s :
  dk_office d = o -> table (of_tasks o) !! k = Some None -> desk_of i s = with_task d k t r ->
  of_next o = rt_next_task_id rt -> launched rt c (of_ring o) k t r ->
  emits i (accept_task i k credit undo) s (answered rt c o).
Proof.
  intros Ho Hf Hd Hn Hl.
  assert (Hk : (k < length (of_tasks o))%nat).
  { apply lookup_lt_Some in Hf. unfold table in Hf. by rewrite length_fmap in Hf. }
  injection Hd as E1 E2 E3 _ _ _. rewrite Ho in E1, E2. unfold accept_task.
  set (v := (<[k := t]> (of_tasks o), u64 (of_next o + 1), r)).
  eapply (emits_tables _ _ _ v); [silent_tac|unfold tables_of, v; cbn; by rewrite E1, E2, E3|]. intros _ s1 _ T1.
  eapply (emits_tables _ _ _ v); [silent_tac|exact T1|]. intros _ s2 _ T2.
  eapply (emits_tables _ _ _ v); [silent_tac|exact T2|]. intros _ s3 _ T3. apply emits_get.
  assert (Et : the_task s3 k = t).
  { injection T3 as T4 _ _. unfold the_task. rewrite T4. by apply list_lookup_total_insert_eq. }
  rewrite Et. set (x := mk_submit_result (t_task_id t) IOURINGD_COMPLETION_RES_OK (of_credits (office_of s3))).
  apply (emits_bind i _ _ s3 (fun r s4 bs => match r with
    | Ok _ => bs = to_wire x /\ desk_of i s4 = desk_of i s3 | Err _ => bs = [] end)).
  - intros Hs. change (mtry _ s3) with (mtry (queue_output i (to_wire x)) s3). revert Hs.
    by apply emits_try_queue_still.
  - intros [[]|e] s4 bs.
    + intros [-> E4] _. apply emits_get. apply emits_still; [silent_tac|still_tac|]. intros _ s5 _ E5. rewrite E4 in E5.
      apply emits_finish_office. intros s' Hr Eo. rewrite app_nil_r. split_and!; [done|done|].
      assert (Es : office_of s5 = office_of s3) by (injection E5; unfold office_of; congruence). rewrite Es in Eo.
      exists x. rewrite Eo. split_and!; [done|done|]. right. injection T3 as T4 T5 T6. destruct Hl as [Hst Hp].
      constructor; [|done|done|].
      * rewrite Hn. apply (st_id _ _ _ Hst).
      * exists k, t. split_and!; [done| |split; [done|]].
        -- unfold office_of, of_tasks. rewrite T4, table_insert. by rewrite (st_active _ _ _ Hst).
        -- unfold office_of, of_ring. by rewrite T6.
    + intros -> _ Hs. unfold mbnd. repeat case_match; simplify_eq/=; done.
Qed.

(** The submission of a task that is in its slot, with what follows it. *)
Lemma emits_started k t d m undo_submit undo_reply credit s :
  dk_office d = o -> table (of_tasks o) !! k = Some None -> of_next o = rt_next_task_id rt ->
  desk_of i s = with_task d k t (of_ring o) -> submits d k (launched rt c (of_ring (dk_office d)) k) t m ->
  silent m -> silent undo_submit -> still i undo_submit ->
  emits i (r <- mtry m ;; match r with
                          | Err e => abandon_task i k e undo_submit
                          | Ok _ => accept_task i k credit undo_reply
                          end)%iou s (answered rt c o).
Proof.
  intros Ho Hf Hn Hd Hm Hs Hu1 Hu2. specialize (Hm s). rewrite Ho in Hm. specialize (Hm Hd).
  apply (emits_bind i _ _ s (fun r s1 bs => bs = [] /\ exists t' r', desk_of i s1 = with_task d k t' r' /\
    match r with Ok _ => launched rt c (of_ring o) k t' r' | Err e => errno e end)).
  - apply emits_silent; [by apply silent_try|]. intros r s1 E. apply mtry_inv in E. rewrite E in Hm. done.
  - intros [[]|e] s1 bs [-> (t' & r' & E & Hr)] _.
    + by eapply emits_accepted.
    + by eapply emits_abandoned.
Qed.

Lemma mod_task_fresh d k f (s : sys W) :
  desk_of i s = d -> desk_of i (snd (mod_task k f s)) = with_task d k (f (the_task s k)) (of_ring (dk_office d)).
Proof. intros <-. reflexivity. Qed.
End Answers.

(** ** The task requests *)

(** The desk as the dispatcher finds it. *)
Definition desk_at (rt : runtime) (c : client) : desk :=
  mk_desk (mk_office (rt_tasks rt) (rt_next_task_id rt) (rt_ring rt) (iouringd_available_credits rt))
    (c_req c) (rt_limits rt).

Section Requests.
Context (rt : runtime) (c : client).
Hypothesis Hview : asks_task (c_req c).
Hypothesis Hlen : carries_payload (req_kind c) = true -> (Z.to_nat (io_length (c_req c)) <= length (io_payload (c_req c)))%nat.
Abbreviation d := (desk_at rt c).
Abbreviation answered_here := (answered rt c (dk_office (desk_at rt c))).

(** A request that is refused before a task is filled in. *)
Lemma emits_refused_here e s : errno e -> desk_of i s = d -> emits i (reject i e) s answered_here.
Proof. intros He [= E1 E2 _ _ _ _]. apply emits_refused; [done|cbn; by rewrite E1|cbn; by rewrite E2]. Qed.

Ltac err := unfold errno; split; [reflexivity|discriminate].
Ltac refuse_here := apply emits_refused_here; [err|assumption].

Lemma slot_in_range k : iouringd_find_free_task_slot rt = Some k -> (k < length (of_tasks (dk_office d)))%nat.
Proof.
  intros E%table_free%lookup_lt_Some. unfold table in E. by rewrite length_fmap in E.
Qed.

Lemma emits_openat_answered s :
  req_kind c = IOURINGD_TASK_KIND_OPENAT -> desk_of i s = d -> emits i (dispatch_openat i rt c) s answered_here.
Proof.
  intros Ek Hd. unfold dispatch_openat. case_match; [refuse_here|]. case_match; [|refuse_here].
  apply emits_still; [silent_tac|still_tac|]. intros rid s1 _ E1. rewrite Hd in E1.
  case_match; [refuse_here|]. destruct (iouringd_find_free_task_slot rt) as [k|] eqn:Ef; [|refuse_here].
  pose proof (slot_in_range k Ef) as Hk.
  eapply emits_desk; [silent_tac|by apply (mod_task_fresh d)|]. intros _ s2 _ E2.
  apply emits_still; [silent_tac|still_tac|]. intros _ s3 _ E3. rewrite E2 in E3. apply emits_get.
  rewrite (with_task_task _ _ _ _ _ Hk E3).
  eapply emits_started; [reflexivity|exact (table_free _ _ Ef)|reflexivity|exact E3| |silent_tac| |].
  - by apply submit_openat_submits.
  - unfold unallocate_id. silent_tac.
  - unfold unallocate_id. still_tac.
Qed.

Lemma emits_close_answered s :
  req_kind c = IOURINGD_TASK_KIND_CLOSE -> desk_of i s = d -> emits i (dispatch_close i rt c) s answered_here.
Proof.
  intros Ek Hd. unfold dispatch_close. case_match; [|refuse_here]. apply emits_get. cbv beta.
  do 3 (case_match; [refuse_here|]). destruct (iouringd_find_free_task_slot rt) as [k|] eqn:Ef; [|refuse_here].
  pose proof (slot_in_range k Ef) as Hk. cbv zeta.
  apply emits_still; [silent_tac|still_tac|]. intros _ s1 _ E1. rewrite Hd in E1.
  eapply emits_desk; [silent_tac|by apply (mod_task_fresh d)|]. intros _ s2 _ E2.
  apply emits_still; [silent_tac|still_tac|]. intros _ s3 _ E3. rewrite E2 in E3. apply emits_get.
  rewrite (with_task_task _ _ _ _ _ Hk E3).
  eapply emits_started; [reflexivity|exact (table_free _ _ Ef)|reflexivity|exact E3| |silent_tac|silent_tac|still_tac].
  by apply submit_close_submits.
Qed.

Lemma emits_simple_answered s :
  kind_is_io (req_kind c) = false -> (req_kind c =? IOURINGD_TASK_KIND_OPENAT) = false ->
  (req_kind c =? IOURINGD_TASK_KIND_CLOSE) = false -> desk_of i s = d ->
  emits i (dispatch_simple i rt c) s answered_here.
Proof.
  intros Hio Ho Hc Hd. unfold dispatch_simple. case_match; [refuse_here|].
  destruct (iouringd_find_free_task_slot rt) as [k|] eqn:Ef; [|refuse_here].
  pose proof (slot_in_range k Ef) as Hk.
  eapply emits_desk; [silent_tac|by apply (mod_task_fresh d)|]. intros _ s2 _ E2.
  eapply emits_started; [reflexivity|exact (table_free _ _ Ef)|reflexivity|exact E2| |silent_tac|silent_tac|still_tac].
  by apply submit_simple_submits.
Qed.

(** The slot for the result of an accept, or an error that leaves the task alone. *)
Lemma reserve_result_run k j bj (s : sys W) :
  (k < length (of_tasks (dk_office d)))%nat ->
  desk_of i s = with_task d k (io_task rt c j bj (-1) 0) (of_ring (dk_office d)) ->
  let '(r, s') := reserve_result i k s in
  exists a b, desk_of i s' = with_task d k (io_task rt c j bj a b) (of_ring (dk_office d)) /\
              match r with Ok _ => True | Err e => errno e end.
Proof.
  intros Hk Hd. unfold reserve_result. rewrite (mbnd_ok (get_client i) _ s (the_client s i) s eq_refl).
  destruct (iouringd_find_free_file_slot _) as [j'|]; [|exists (-1), 0; split; [done|err]].
  pose proof (still_allocate_id i s) as Ha. unfold mbnd at 1. destruct (allocate_id i s) as [[rid|e] s1] eqn:Ea.
  2: { exfalso. unfold allocate_id, mbnd, get_client, mget in Ea. by destruct (iouringd_allocate_resource_id _). }
  cbn [snd] in Ha. rewrite Hd in Ha. destruct (rid =? _); [exists (-1), 0; split; [done|err]|].
  rewrite (mbnd_ok (set_file_slot i j' _) _ s1 tt _ eq_refl).
  pose proof (still_set_file_slot i j' (fun _ => reserved_file_slot rid) s1) as Hf. rewrite Ha in Hf.
  pose proof (mod_task_desk d k _ _ (fun t => t <| t_result_file_slot_index := Z.of_nat j' |>
    <| t_result_resource_id := rid |>) _ Hk Hf) as Hm. by exists (Z.of_nat j'), rid.
Qed.

Lemma emits_start_io_answered k j bj s :
  kind_is_io (req_kind c) = true -> iouringd_find_free_task_slot rt = Some k -> desk_of i s = d ->
  emits i (start_io i rt c k j bj) s answered_here.
Proof.
  intros Hio Ef Hd. pose proof (slot_in_range k Ef) as Hk. unfold start_io, inc_file.
  eapply emits_desk; [silent_tac|by apply (mod_task_fresh d)|]. intros _ s1 _ E1. rewrite io_task_start in E1.
  apply emits_still; [silent_tac|still_tac|]. intros _ s2 _ E2. rewrite E1 in E2.
  apply emits_still; [silent_tac|still_tac|]. intros _ s3 _ E3. rewrite E2 in E3.
  apply (emits_bind i _ _ s3 (fun r s4 bs => bs = [] /\ exists a b,
    desk_of i s4 = with_task d k (io_task rt c j bj a b) (of_ring (dk_office d)) /\
    match r with Ok _ => True | Err e => errno e end)).
  - apply emits_silent; [silent_tac|]. intros r s4 E%mtry_inv. split; [done|]. destruct (req_kind c =? _).
    + pose proof (reserve_result_run k j bj s3 Hk E3) as Hr. by rewrite E in Hr.
    + injection E as <- <-. by exists (-1), 0.
  - intros [[]|e] s4 bs (-> & a & b & E4 & He) _.
    + eapply emits_started; [reflexivity|exact (table_free _ _ Ef)|reflexivity|exact E4| |silent_tac|silent_tac|still_tac].
      by apply submit_io_submits.
    + eapply emits_abandoned; [reflexivity|exact He|exact (table_free _ _ Ef)|exact E4| |]; unfold dec_file;
        [silent_tac|still_tac].
Qed.

Lemma io_buffer_slot_errno e : io_buffer_slot c = Err e -> errno e.
Proof. unfold io_buffer_slot. intros E. repeat case_match; simplify_eq; err. Qed.

Lemma emits_io_answered s :
  kind_is_io (req_kind c) = true -> desk_of i s = d -> emits i (dispatch_io i rt c) s answered_here.
Proof.
  intros Hio Hd. unfold dispatch_io. case_match; [|refuse_here]. apply emits_get. cbv beta.
  do 3 (case_match; [refuse_here|]). destruct (io_buffer_slot c) as [bj|e] eqn:Eb.
  - case_match; [refuse_here|]. destruct (iouringd_find_free_task_slot rt) as [k|] eqn:Ef; [|refuse_here].
    by apply emits_start_io_answered.
  - apply emits_refused_here; [by apply io_buffer_slot_errno|done].
Qed.

Lemma emits_task_answered s : desk_of i s = d -> emits i (dispatch_task i rt c) s answered_here.
Proof.
  intros Hd. unfold dispatch_task. destruct (req_kind c =? IOURINGD_TASK_KIND_OPENAT) eqn:Eo.
  { apply emits_openat_answered; [by apply Z.eqb_eq|done]. }
  destruct (req_kind c =? IOURINGD_TASK_KIND_CLOSE) eqn:Ec.
  { apply emits_close_answered; [by apply Z.eqb_eq|done]. }
  destruct (kind_is_io (req_kind c)) eqn:Ei; [by apply emits_io_answered|by apply emits_simple_answered].
Qed.

Lemma guards_errno e : submit_guards rt c = Some e -> errno e.
Proof.
  unfold submit_guards, credit_guards, support_guards, argument_guards. cbv zeta. intros E.
  repeat (case_match; simplify_eq; try err).
Qed.
End Requests.

(** The guards bound the length of a payload. *)
Lemma guards_request_length rt c :
  submit_guards rt c = None -> carries_payload (req_kind c) = true -> io_length (c_req c) <= c_io_bytes_max c.
Proof.
  unfold submit_guards, argument_guards. cbv zeta. intros E Hp.
  destruct (credit_guards rt c); [done|]. destruct (support_guards rt c); [done|]. unfold carries_payload in Hp.
  apply Z.nlt_ge. intros Hl%Z.ltb_lt. rewrite Hl, ?orb_true_r in E. cbn [orb] in E. rewrite ?orb_true_r in E.
  rewrite ?andb_true_r in E.
  repeat (apply orb_true_iff in Hp as [Hp|Hp]); rewrite ?Hp, ?orb_true_r in E; try done;
    repeat (case_match; try done).
Qed.

Lemma emits_dispatch_answered (s : sys W) :
  let c := the_client s i in
  input_wf c -> request_ready (c_req c) = true -> control_op (c_req c) = 0 -> asks_task (c_req c) ->
  emits i (iouringd_dispatch_client_request i) s (answered (s_rt s) c (office_of s)).
Proof.
  intros c Hw Hr Hop Hv. apply emits_get. fold c. cbv zeta. rewrite Hr, Hop. cbn [negb]. apply emits_get. cbv beta.
  change (office_of s) with (dk_office (desk_at (s_rt s) c)).
  destruct (submit_guards (s_rt s) c) as [e|] eqn:Eg.
  - apply emits_refused_here; [by eapply guards_errno|done].
  - apply emits_task_answered; [done| |done]. intros Hp. pose proof (guards_request_length _ _ Eg Hp) as Hl.
    rewrite (iw_payload _ Hw). pose proof (iw_max _ Hw). lia.
Qed.
End Submissions.

(** C6: what the answer to a task request means.  When the dispatcher returns for a client whose
    request asks for a task, it has appended one submit result to that client's
    output, and reports in it the credits that are free afterwards.  Either the
    result has no task id and an errno, and the active tasks and the next task id
    are unchanged, whatever was reserved on the way; or it has the next task id and
    result 0, exactly one free slot of the table has become a task of this client
    and this connection under that id, from whose fields the whole request can be
    read back (kind, priority, resources, length, payload, path, timeout), one entry
    made from that task was pushed to the submission ring, and the next id has moved
    on. *)
Theorem submit_effect {W} `{Kernel W} i (s : sys W) b s' :
  enter_documented (W := W) -> speaks i s ->
  let c := the_client s i in
  input_wf c -> request_ready (c_req c) = true -> control_op (c_req c) = 0 -> asks_task (c_req c) ->
  iouringd_dispatch_client_request i s = (Ok b, s') ->
  b = true /\ request_ready (c_req (the_client s' i)) = false /\
  (forall j, j <> i -> pending_of s' j = pending_of s j) /\
  exists x, pending_of s' i = pending_of s i ++ to_wire x /\
            sr_credits x = iouringd_available_credits (s_rt s') /\
            (refused (office_of s) x (office_of s') \/
             accepted i (s_rt s) c (office_of s) x (office_of s')).
Proof.
  intros Hent Hs c Hw Hr Hop Hv E. pose proof (emits_dispatch_answered Hent i s Hw Hr Hop Hv Hs) as He. rewrite E in He.
  destruct He as (_ & bs & (-> & Hr' & x & -> & Hc & Hx) & Hp & Ho). split_and!; [done|done|done|]. by exists x.
Qed.

(** A client with a timeout of a second and a half ready, in a daemon that is
    otherwise idle. *)
Definition ready_timeout : client :=
  idle_example <| c_out := mk_outbuf (replicate 64 0) 64 0 0 |>
    <| c_req := c_req idle_example
         <| request := mk_submit_request protocol_header_v1 IOURINGD_TASK_KIND_TIMEOUT IOURINGD_SUBMIT_PRIORITY_LOW 0 |>
         <| timeout_nsec := 1500000000 |> <| request_ready := true |> |>.
Definition timeout_daemon : sys script :=
  session 1 4 quiet <| s_rt := s_rt (session 1 4 quiet) <| rt_clients := [ready_timeout] |> |>.

Lemma submit_effect_witness :
  exists x, accepted 0 (s_rt timeout_daemon) ready_timeout (office_of timeout_daemon) x
              (office_of (snd (iouringd_dispatch_client_request 0 timeout_daemon))).
Proof.
  assert (Hok : is_ok (fst (iouringd_dispatch_client_request 0 timeout_daemon)) = true) by (vm_compute; reflexivity).
  assert (Hn : of_next (office_of (snd (iouringd_dispatch_client_request 0 timeout_daemon))) = 2)
    by (vm_compute; reflexivity).
  destruct (iouringd_dispatch_client_request 0 timeout_daemon) as [[b|e] s'] eqn:E; [|discriminate Hok].
  destruct (submit_effect 0 timeout_daemon b s' script_enter_documented) as (_ & _ & _ & x & _ & _ & Hx).
  - split; [apply Nat.ltb_lt; reflexivity|constructor; vm_compute; repeat split; congruence].
  - constructor; try solve [vm_compute; repeat split; congruence]. apply Forall_replicate. unfold is_byte. lia.
  - reflexivity.
  - reflexivity.
  - eexists. split; [reflexivity|reflexivity].
  - exact E.
  - exists x. destruct Hx as [Hx|Hx]; [|exact Hx]. exfalso. pose proof (rf_next _ _ _ Hx) as Hf.
    cbn [snd] in Hn. rewrite Hn in Hf. discriminate Hf.
Defined.
