(* ===== verification/Exchange.v ===== *)
(** * A submission from the library to the ring and back

    The two programs together.  The client library ([src/lib/submit.c]) sends a
    request; the daemon ([src/daemon/main.c]) receives it in pieces, parses it,
    dispatches it and queues an answer; the library reads the answer and returns.
    [submit_agreement] composes the library's calls ([Calls], [Inbox],
    [Conversation]), the arrival of the bytes ([Arrival]) and the dispatcher
    ([Started]): the caller's return value says whether a task runs that does what
    the call asked for. *)

From S2P Require Import Prelude Wire Kernel Ring State Output Resources Trace Daemon Startup Input Request Reader Dispatch Complete Sched Session Books Ledger Work Accounting Settle Invariant Correct Memory Safety Socket Client Inbox ClientApi Calls Conversation Replies Arrival Started.

(** ** From the parser to the dispatcher *)

Lemma ready_op op q : control_op (ready_request op q) = op.
Proof. reflexivity. Qed.

(** A request of a task kind has no control operation. *)
Lemma finish_by_kind_op kind b m q q' :
  finish_by_kind kind b m q = (Ok tt, q') -> iouringd_request_kind_is_control kind = false -> control_op q' = 0.
Proof.
  unfold finish_by_kind. intros E Hk.
  repeat match type of E with context [if kind =? ?n then _ else _] =>
    let En := fresh in destruct (kind =? n) eqn:En; [apply Z.eqb_eq in En; subst kind; try discriminate Hk|] end;
  unfold finish_nop, finish_timeout, finish_cancel, finish_read, finish_write, finish_poll, finish_connect,
    finish_accept, finish_openat, finish_close, finish_fixed in E; cbv zeta in E;
  repeat match type of E with context [if ?x then _ else _] => destruct x end;
  try discriminate E; apply (f_equal snd) in E; cbn [snd] in E; rewrite <- E; apply ready_op.
Qed.

Lemma task_kind_of q r :
  request_view q = Some r -> task_request r = true -> iouringd_request_kind_is_control (sq_task_kind (request q)) = false.
Proof.
  unfold request_view. intros E Hr. cbv zeta in E.
  repeat match type of E with (if ?k =? ?n then _ else _) = _ =>
    let En := fresh in destruct (k =? n) eqn:En;
      [apply Z.eqb_eq in En; rewrite En; injection E as <-; (reflexivity || discriminate Hr)|] end.
  discriminate E.
Qed.

Lemma process_ready_op c c' r :
  iouringd_process_submit_input c = (Ok true, c') -> request_view (c_req c') = Some r -> task_request r = true ->
  control_op (c_req c') = 0.
Proof.
  unfold iouringd_process_submit_input. intros E Hv Hr. destruct (_ <? _); [done|]. cbv zeta in E.
  set (q := of_wire (input (c_in c)) : submit_request) in *.
  set (c1 := c <| c_req := c_req c <| request := q |> |>) in *.
  destruct (negb _); [done|]. destruct (finishes_by_kind c1 _ c' E) as (c2 & Ei & Er & _ & Ef). clear E.
  unfold iouringd_finish_submit_request in Ef. rewrite Er in Ef.
  destruct (negb _); [done|]. destruct (negb _); [done|]. destruct (negb _ && _); [done|].
  destruct (finish_by_kind _ _ _ _) as [[[]|e] q'] eqn:Ek; [|done]. injection Ef as <-.
  cbn [c_req put put_c_req put_c_in] in *.
  assert (Eq : request q' = request (c_req c1)) by (eapply finish_by_kind_request; [by rewrite Ei|exact Ek]).
  eapply finish_by_kind_op; [exact Ek|]. rewrite <- Eq. by eapply task_kind_of.
Qed.

(** Feeding ends with a round of the parser. *)
Lemma feeds_last fd fuel c bs c' :
  reading fd c -> Forall is_byte bs -> feeds fuel c bs = Some c' ->
  exists c1, reading fd c1 /\ iouringd_process_submit_input c1 = (Ok true, c').
Proof.
  revert c bs. induction fuel as [|fuel IH]; intros c bs Hc Hb; [done|]. cbn [feeds].
  destruct (missing c <=? length bs)%nat eqn:El; [apply Nat.leb_le in El|done].
  assert (Hc1 : reading fd (received (take (missing c) bs) c))
    by (apply received_reading; [done|by apply Forall_take|rewrite length_take; lia]).
  destruct (iouringd_process_submit_input _) as [[[|]|e] c2] eqn:Ep; [| |done].
  - destruct (drop _ _); [|done]. intros [= <-]. eauto.
  - destruct (process_reading _ _ _ Hc1 Ep) as (Hc2 & _). intros E.
    apply (IH c2 (drop (missing c) bs)); [done|by apply Forall_drop|]. by destruct (drop _ _).
Qed.

Section Arrived.
Context {W : Type} `{Kernel W} (fd : Z) `{!Feed W fd}.

(** A task request that has arrived is what the dispatcher expects. *)
Lemma arrived_task i r qs (s s' : sys W) :
  arrives fd i r qs s s' -> task_request r = true ->
  let c := the_client s' i in
  input_wf c /\ request_ready (c_req c) = true /\ control_op (c_req c) = 0 /\ request_view (c_req c) = Some r /\
  c_out c = c_out (the_client s i) /\ length (rt_clients (s_rt s')) = length (rt_clients (s_rt s)).
Proof.
  intros Ha Hr c. destruct (arrives_feeds fd i r qs s s' Ha) as (Hf & Hb & Hp & _ & El & _).
  pose proof (feeds_untouched _ _ _ _ Hf) as Hu.
  destruct (feeds_last fd _ _ _ _ (ar_reading _ _ _ _ _ _ Ha) Hb Hf) as (c1 & Hc1 & E1).
  pose proof (process_input_ok _ (rd_wf _ _ Hc1)) as Hok. rewrite E1 in Hok.
  split_and!; [tauto|by apply pa_ready with r| |by apply pa_view|by injection Hu|done].
  eapply process_ready_op; [exact E1|by apply pa_view|done].
Qed.
End Arrived.

(** ** The answer as the library reads it *)

Lemma le_split_small id : 0 <= id < 2 ^ 32 -> le_split 8 id = le_split 4 id ++ [0; 0; 0; 0].
Proof.
  intros Hid. cbn [le_split app]. rewrite !Z.div_div by done. change (2 ^ 32) with 4294967296 in Hid.
  rewrite (Z.div_small id (256 * 256 * 256 * 256)), (Z.div_small id (256 * 256 * 256 * 256 * 256)),
    (Z.div_small id (256 * 256 * 256 * 256 * 256 * 256)),
    (Z.div_small id (256 * 256 * 256 * 256 * 256 * 256 * 256)) by lia. reflexivity.
Qed.

(** While ids fit 32 bits, an answer does not begin like a completion. *)
Lemma small_id_no_completion x : 0 <= sr_task x < 2 ^ 32 -> looks_like_completion (to_wire x) = false.
Proof.
  intros Hid. unfold looks_like_completion.
  replace (take 8 (to_wire x)) with (to_wire (mk_protocol_header (sr_task x) 0 0) ++ []).
  - rewrite of_to_wire; [apply andb_false_iff; left; apply andb_false_r|]. unfold wire_fit. cbn. repeat constructor; lia.
  - destruct x as [id res cr]. cbn [sr_task] in *. rewrite app_nil_r.
    change (to_wire (mk_submit_result id res cr)) with (le_split 8 id ++ le_split 4 (u32 res) ++ le_split 4 cr ++ []).
    rewrite take_app_length' by (by rewrite length_le_split). rewrite le_split_small by done. reflexivity.
Qed.

Lemma answer_good o x o' i rt c {W} `{Kernel W} :
  fits 32 (sr_credits x) -> 1 <= of_next o < 2 ^ 32 ->
  refused o x o' \/ accepted (W := W) i rt c o x o' -> good_reply (RSubmit x).
Proof.
  intros Hc Hn Hx.
  assert (Hs : 0 <= sr_task x < 2 ^ 32 /\ fits_i32 (sr_res x) /\ submit_result_is_valid x = true).
  { unfold submit_result_is_valid, submit_result_is_rejection, res_is_error, fits_i32.
    destruct Hx as [[-> (e & He & ->) _ _]|[-> -> _ _]].
    - unfold errno in He. split_and!; [done|done|lia|lia|]. by rewrite (proj2 (Z.ltb_lt _ _)) by lia.
    - split_and!; [lia|lia|done|done|]. unfold task_id_is_invalid, IOURINGD_TASK_ID_INVALID.
      rewrite (proj2 (Z.eqb_neq _ _)) by lia. cbn [andb orb]. rewrite (proj2 (Z.leb_gt _ _)); [done|].
      transitivity (2 ^ 32); [lia|done]. }
  destruct Hs as (H1 & H2 & H3). split; [|by apply small_id_no_completion]. split; [|done]. split; [|done].
  pose proof (Z.mod_pos_bound (sr_res x) (2 ^ 32) eq_refl) as Hm. unfold fits in Hc.
  unfold wire_fit. cbn. unfold u32, wrap. repeat constructor; lia.
Qed.

(** ** The whole exchange *)

(** In [s2] a task runs for client [i] that was not there in [s1]: it carries out
    [r] under the id [id], in a slot that was free, and its entry was pushed. *)
Definition runs_for {W} `{Kernel W} (i : nat) (r : wire_request) (id : Z) (s1 s2 : sys W) : Prop :=
  exists k t e,
    table (rt_tasks (s_rt s1)) !! k = Some None /\
    table (rt_tasks (s_rt s2)) = <[k := Some t]> (table (rt_tasks (s_rt s1))) /\
    t_task_id t = id /\ t_client_index t = i /\ task_view t = Some r /\
    task_entry (s_rt s1) i k t e /\ pushed (W := W) (rt_ring (s_rt s1)) e (rt_ring (s_rt s2)).

Lemma submit_task_request call : task_request (submit_request_of call) = true.
Proof. by destruct call. Qed.

Lemma submit_code_answer {W} `{Kernel W} i rt c o x o' :
  1 <= of_next o -> refused o x o' \/ accepted (W := W) i rt c o x o' ->
  match submit_code x with
  | Ok _ => accepted (W := W) i rt c o x o'
  | Err e => refused o x o' /\ errno e
  end.
Proof.
  intros Hn Hx. unfold submit_code, submit_result_is_rejection, res_is_error. destruct Hx as [Hx|Hx].
  - destruct (rf_res _ _ _ Hx) as (e & He & Er). unfold errno in He.
    rewrite (rf_id _ _ _ Hx), Er, (proj2 (Z.ltb_lt _ _)) by lia. cbn [Z.eqb andb].
    change (IOURINGD_TASK_ID_INVALID =? IOURINGD_TASK_ID_INVALID) with true. cbn [andb].
    by rewrite Z.opp_involutive.
  - rewrite (ac_id _ _ _ _ _ _ Hx). unfold IOURINGD_TASK_ID_INVALID. by rewrite (proj2 (Z.eqb_neq _ _)) by lia.
Qed.

(** C5: a submission, end to end.  A program calls one of the library's submit functions; the
    bytes it sends reach the daemon in any pieces, between which the daemon does
    other work; the daemon dispatches the request, and what it has queued for this
    client (completions [cs] of earlier tasks, then the answer) reaches the library.
    Then the call has sent exactly the encoding of its request, keeps the completions
    it meets for later, and returns the daemon's verdict: 0 when the daemon runs a
    new task under the id the caller is given, whose fields and ring entry are those
    of the call's own arguments; and an errno when it does not, with the daemon's
    active tasks unchanged. *)
Theorem submit_agreement {W V} `{Kernel W} `{SocketOk V} (dfd lfd : Z) `{!Feed W dfd} `{!Reliable V lfd}
    i call qs (s s1 s2 : sys W) b rounds (l : lib V) out cs :
  enter_documented (W := W) -> 0 <= lfd -> submit_args call ->
  arrives dfd i (submit_request_of call) qs s s1 -> outbuf_wf (c_out (the_client s i)) ->
  1 <= rt_next_task_id (s_rt s1) < 2 ^ 32 ->
  iouringd_dispatch_client_request i s1 = (Ok b, s2) ->
  pending_of s i = completion_bytes cs -> Forall (fun c => good_completion (fst c) (snd c)) cs ->
  (length cs < rounds)%nat -> incoming (l_world l) lfd = pending_of s2 i ->
  exists x l',
    submit_run call rounds lfd (l, Some out) = (submit_code x, (l', Some x)) /\
    outgoing (l_world l') lfd = outgoing (l_world l) lfd ++ concat qs /\
    incoming (l_world l') lfd = [] /\
    buffered_completions l' = buffered_completions l ++ (entry lfd <$> cs) /\
    match submit_code x with
    | Ok _ => runs_for i (submit_request_of call) (sr_task x) s1 s2
    | Err e => errno e /\ table (rt_tasks (s_rt s2)) = table (rt_tasks (s_rt s1))
    end.
Proof.
  intros Hent Hlfd Hargs Harr Hout Hid Ed Hpend Hgood Hrounds Hin.
  destruct (arrived_task dfd i _ _ _ _ Harr (submit_task_request call)) as (Hw & Hr & Hop & Hv & Ho & Hlen).
  assert (Hs1 : speaks i s1).
  { split; [rewrite Hlen; apply (ar_client _ _ _ _ _ _ Harr)|by rewrite Ho]. }
  assert (Hp1 : pending_of s1 i = completion_bytes cs) by (unfold pending_of; by rewrite Ho).
  pose proof (emits_dispatch_answered Hent i s1 Hw Hr Hop (ex_intro _ _ (conj Hv (submit_task_request call))) Hs1) as He.
  rewrite Ed in He. destruct He as (_ & bs & (_ & _ & x & -> & Hc & Hx) & Hp & _).
  rewrite Hp1 in Hp. rewrite Hp, <- (app_nil_r (to_wire x)) in Hin.
  assert (Hg : good_reply (RSubmit x)).
  { apply (answer_good (office_of s1) x (office_of s2) i (s_rt s1) (the_client s1 i)); [|exact Hid|exact Hx]. rewrite Hc. apply Z.mod_pos_bound. done. }
  destruct (submit_works lfd rounds Hlfd call cs x [] l out Hargs Hgood Hg Hrounds Hin) as (l' & El & w' & -> & Hm).
  exists x. eexists. split_and!; [exact El| | |done|].
  - rewrite (ar_bytes _ _ _ _ _ _ Harr). exact (mv_out _ _ _ _ _ _ _ Hm).
  - rewrite app_assoc in Hin. exact (moves_incoming _ _ _ _ _ _ Hm Hin).
  - pose proof (submit_code_answer i _ _ (office_of s1) x (office_of s2) (proj1 Hid) Hx) as Hcode. destruct (submit_code x) as [[]|e].
    + destruct Hcode as [Hi _ _ (k & t & Hf & Ht & [H1' H2' H3' H4' H5' H6'] & e & Hte & Hpu)].
      exists k, t, e. split_and!; [done|done| |done| |done|done]; [by rewrite H2', Hi|by rewrite H6'].
    + destruct Hcode as [[_ _ Ht _] He]. done.
Qed.

(** ** An exchange

    A client with one completion still in its output buffer; the request comes in
    three pieces. *)
Lemma trickle_enter_documented : enter_documented (W := trickle).
Proof.
  intros w r n rc head w' Hn E. cbn in E. unfold tr_lift in E.
  destruct (script_enter (tr_script w) r n) as [[rc0 head0] x] eqn:Es. injection E as <- <- _.
  exact (script_enter_documented _ _ _ _ _ _ Hn Es).
Qed.

Lemma idle_with_output c o : idle_client c -> idle_client (c <| c_out := o |>).
Proof. intros []. by constructor. Qed.
Lemma reading_with_output fd c o : reading fd c -> reading fd (c <| c_out := o |>).
Proof. intros [H1 H2 H3 []]. constructor; [done|done|done|by constructor]. Qed.
Lemma idle_example_reading : reading 9 idle_example.
Proof. constructor; [reflexivity|reflexivity|reflexivity|exact idle_example_wf]. Qed.

Definition waiting_client : client :=
  idle_example <| c_out := mk_outbuf (to_wire nop_done ++ replicate 40 0) 64 24 0 |>.
Definition exchange_daemon : sys trickle :=
  mk_sys (s_rt (session 1 4 quiet) <| rt_clients := [waiting_client] |>) (mk_trickle quiet 4 []) [].
Definition timeout_pieces : list bytes :=
  let bs := encode (WTimeout 0 1500000000) in [take 7 bs; slice 7 10 bs; drop 17 bs].
Definition request_received : sys trickle := foldl (fun s q => fed_with q s) exchange_daemon timeout_pieces.
Definition request_dispatched : sys trickle := snd (iouringd_dispatch_client_request 0 request_received).
Definition caller : lib pipe := mk_lib (talk_pipe (pending_of request_dispatched 0)) [] [].

Definition first_is_free (s : sys trickle) : bool :=
  match table (rt_tasks (s_rt s)) !! 0%nat with Some None => true | _ => false end.

Lemma submit_agreement_witness :
  exists x l', submit_run (STimeout 1500000000) 10 5 (caller, Some no_submit) = (Ok tt, (l', Some x)) /\
               runs_for 0 (WTimeout 0 1500000000) (sr_task x) request_received request_dispatched.
Proof.
  assert (Hok : fst (iouringd_dispatch_client_request 0 request_received) = Ok true) by (vm_compute; reflexivity).
  assert (Hf1 : first_is_free request_received = true) by (vm_compute; reflexivity).
  assert (Hf2 : first_is_free request_dispatched = false) by (vm_compute; reflexivity).
  destruct (submit_agreement 9 5 0 (STimeout 1500000000) timeout_pieces exchange_daemon request_received
              request_dispatched true 10 caller no_submit [(nop_done, [])]) as (x & l' & E & _ & _ & _ & Hx).
  - exact trickle_enter_documented.
  - lia.
  - vm_compute. split; congruence.
  - constructor; [lia|apply Nat.ltb_lt; reflexivity| | | |vm_compute; reflexivity|reflexivity|].
    + exact (idle_with_output _ _ idle_example_idle).
    + exact (reading_with_output _ _ _ idle_example_reading).
    + vm_compute. repeat split; congruence.
    + apply spread_fed. repeat constructor.
  - constructor; vm_compute; repeat split; congruence.
  - vm_compute. split; congruence.
  - unfold request_dispatched. destruct (iouringd_dispatch_client_request 0 request_received). cbn in *. by subst.
  - vm_compute. reflexivity.
  - constructor; [good_compute|constructor].
  - cbn. lia.
  - reflexivity.
  - exists x, l'. destruct (submit_code x) as [[]|e]; [by split|]. exfalso. destruct Hx as [_ Ht].
    unfold first_is_free in *. rewrite Ht, Hf1 in Hf2. discriminate Hf2.
Defined.
