(* ===== verification/Hazards.v ===== *)
(** * How the daemon can be ended

    Two ways in which [iouringd_run] of [src/daemon/main.c] ends for all clients,
    as general statements; [Corners] has a concrete run of each.

    - [deaf_client_ends_daemon]: a reply that does not fit the output buffer of one
      client.
    - [failed_enter_leaves_entry]: a submission that [io_uring_enter] did not take stays
      in the ring under the id the next task gets, and a completion that belongs to no
      task ends the daemon. *)

From S2P Require Import Prelude Wire Kernel Ring State Output Resources Trace Daemon Startup Input Request Reader Dispatch Complete Sched Session Corners Correct Progress Replies Started.

(** ** A reply that does not fit *)

Section Deaf.
Context {W : Type} `{Kernel W}.
Abbreviation DM := (DM (W := W)).

(** A loop over the clients ends at the first that fails, when nothing happened before. *)
Lemma for_each_fails n (body : nat -> DM bool) off e (s s' : sys W) :
  (forall j, (j < off)%nat -> body j s = (Ok false, s)) -> body off s = (Err e, s') -> (off < n)%nat ->
  for_each n body s = (Err e, s').
Proof.
  intros Hb He. assert (Hi : forall m, (m <= off)%nat -> for_each m body s = (Ok false, s)).
  { induction m as [|m IH]; intros Hm; [done|]. cbn [for_each]. unfold mbnd. rewrite IH by lia. by rewrite Hb by lia. }
  induction n as [|n IH]; intros Hn; [lia|]. cbn [for_each]. unfold mbnd.
  destruct (decide (off = n)) as [->|Hne]; [by rewrite Hi, He|]. by rewrite IH by lia.
Qed.

Lemma cursor_differs cursor j off n : (j < off < n)%nat -> ((cursor + j) mod n)%nat <> ((cursor + off) mod n)%nat.
Proof.
  intros Hj E. apply (f_equal Z.of_nat) in E. rewrite !Nat2Z.inj_mod, !Nat2Z.inj_add in E.
  assert (Hd : (Z.of_nat off - Z.of_nat j) mod Z.of_nat n = 0).
  { replace (Z.of_nat off - Z.of_nat j) with (Z.of_nat cursor + Z.of_nat off - (Z.of_nat cursor + Z.of_nat j)) by lia.
    rewrite Zminus_mod, <- E, Z.sub_diag. apply Z.mod_0_l. lia. }
  rewrite Z.mod_small in Hd; lia.
Qed.

(** Client [i] asks for the statistics and has no room for them; nobody else waits. *)
Record overfull (i : nat) (s : sys W) : Prop := {
  ov_slot : (i < slots s)%nat;
  ov_waits : waiting (the_client s i) = true;
  ov_alone j : (j < slots s)%nat -> j <> i -> waiting (the_client s j) = false;
  ov_request : control_op (c_req (the_client s i)) = IOURINGD_REQUEST_KIND_GET_STATS;
  ov_buffer : outbuf_wf (c_out (the_client s i));
  ov_full : output_capacity (c_out (the_client s i)) <
            Z.of_nat (length (pending_of s i) + wire_size stats_result);
}.

Lemma overfull_request i s :
  overfull i s -> exists s', iouringd_dispatch_client_request i s = (Err EOVERFLOW, s').
Proof.
  intros [_ Hw _ Hr Hb Hf]. apply andb_true_iff in Hw as [_ Hw].
  unfold iouringd_dispatch_client_request. rewrite (mbnd_ok (get_client i) _ s _ s eq_refl). cbv zeta. rewrite Hw, Hr.
  cbn [negb]. unfold IOURINGD_REQUEST_KIND_GET_STATS. cbn [Z.eqb Pos.eqb].
  unfold IOURINGD_REQUEST_KIND_REGISTER_FD, IOURINGD_REQUEST_KIND_REGISTER_BUFFER, IOURINGD_REQUEST_KIND_RELEASE_RESOURCE.
  cbn [Z.eqb Pos.eqb]. unfold iouringd_queue_stats_result. unfold mbnd at 1. rewrite (mbnd_ok get_rt _ s _ s eq_refl).
  unfold queue_output. pose proof (queue_bytes (c_out (the_client s i)) (to_wire (stats_of (s_rt s))) Hb) as Hq.
  destruct (iouringd_queue_client_output _ _) as [[[]|e] b].
  - destruct Hq as (_ & _ & Hq & _). unfold pending_of in Hf.
    change (length (to_wire (stats_of (s_rt s)))) with (wire_size stats_result) in Hq. lia.
  - destruct Hq as (_ & _ & -> & _). by eexists.
Qed.

Lemma overfull_pass i s :
  overfull i s -> exists s', iouringd_dispatch_ready_requests s = (Err EOVERFLOW, s').
Proof.
  intros Ho. destruct (overfull_request i s Ho) as [s' E]. exists s'. destruct Ho as [Hi Hw Ha Hr _ _].
  destruct (cursor_reaches (rt_dispatch_cursor (s_rt s)) i (slots s) Hi) as (off & Hoff & Ec).
  unfold iouringd_dispatch_ready_requests, dispatch_bands. cbn [dispatch_in_bands]. unfold mbnd at 1.
  unfold dispatch_band at 1. rewrite (mbnd_ok get_rt _ s _ s eq_refl). fold (slots s).
  assert (Hnot : forall j, (j < off)%nat -> ((rt_dispatch_cursor (s_rt s) + j) mod slots s)%nat <> i).
  { intros j Hj Ej. rewrite <- Ec in Ej. apply (cursor_differs (rt_dispatch_cursor (s_rt s)) j off (slots s)) in Ej; lia. }
  rewrite (for_each_fails _ _ off EOVERFLOW s s'); [done| | |done].
  - intros j Hj. rewrite dispatch_at_eq, (Ha _); [done|apply Nat.mod_upper_bound; lia|by apply Hnot].
  - rewrite dispatch_at_eq, Ec, Hw. unfold client_band. rewrite Hr. cbn. unfold mbnd. by rewrite E.
Qed.
End Deaf.

(** C34: a client that does not read its replies ends the daemon for all.  Whatever the state,
    a client that is alone in waiting asks for the statistics, and there is no room
    for the reply in its output buffer: the round ends with [EOVERFLOW], and with it
    the main loop, instead of the connection. *)
Theorem deaf_client_ends_daemon {W} `{Kernel W} i (s0 s : sys W) p rounds fuel :
  iouringd_service_ready_inputs s0 = (Ok p, s) -> overfull i s ->
  exists s', iouringd_run (S rounds) fuel s0 = (Err EOVERFLOW, s').
Proof.
  intros Es Ho. destruct (overfull_pass i s Ho) as [s' Ed]. exists s'.
  cbn [iouringd_run]. unfold mbnd at 1. unfold run_round. rewrite (mbnd_ok _ _ _ _ _ Es). unfold mbnd at 1. by rewrite Ed.
Qed.

(** ** A submission the kernel did not take *)

Section Stale.
Context {W : Type} `{Kernel W}.

Definition nop_entry (id : Z) : sqe := mk_sqe IORING_OP_NOP 0 0 0 (ANum 0) (ANum 0) 0 0 id 0.

(** Client [i] has a nop that passes the guards, there is a task slot for it and room
    in the ring. *)
Record nop_ready (n : Z) (i k : nat) (s : sys W) : Prop := {
  nr_ready : request_ready (c_req (the_client s i)) = true;
  nr_kind : control_op (c_req (the_client s i)) = 0 /\ req_kind (the_client s i) = IOURINGD_TASK_KIND_NOP;
  nr_guards : submit_guards (s_rt s) (the_client s i) = None;
  nr_id : rt_next_task_id (s_rt s) < IOURINGD_TASK_ID_RESERVED_MIN;
  nr_slot : iouringd_find_free_task_slot (s_rt s) = Some k;
  nr_ring : ring_wf n (rt_ring (s_rt s)) /\ sq_count (rt_ring (s_rt s)) < 2 ^ n /\ 0 <= ring_fd (rt_ring (s_rt s));
}.

Lemma push_refused n w r e err head w' :
  enter_documented (W := W) -> ring_wf n r -> sq_count r < 2 ^ n ->
  k_enter w (ring_store r e) 1 = ((Err err, head), w') ->
  exists r', ring_push w r e = (Err err, r', w') /\ sq_pending r' = sq_pending r ++ [e].
Proof.
  intros Hent Hr Hc Ee. pose proof (ring_push_appends n w r e Hent Hr) as Hp. unfold ring_push in *.
  rewrite (rw_entries n r Hr) in *. change (u32 (sq_tail r - sq_head r)) with (sq_count r) in *.
  rewrite (proj2 (Z.leb_gt _ _) Hc) in *. cbv zeta in *. rewrite Ee in *. destruct Hp as (_ & [[Hf _]|Hp]); [lia|].
  by eexists.
Qed.

Lemma submit_simple_refused n i k (s : sys W) err head w1 :
  enter_documented (W := W) -> (k < length (rt_tasks (s_rt s)))%nat ->
  t_task_kind (the_task s k) = IOURINGD_TASK_KIND_NOP ->
  ring_wf n (rt_ring (s_rt s)) -> sq_count (rt_ring (s_rt s)) < 2 ^ n -> 0 <= ring_fd (rt_ring (s_rt s)) ->
  k_enter (s_world s) (ring_store (rt_ring (s_rt s)) (nop_entry (t_task_id (the_task s k)))) 1 = ((Err err, head), w1) ->
  exists r', submit_simple i k s = (Err err, s <| s_rt := s_rt s <| rt_ring := r' |> |> <| s_world := w1 |>) /\
             sq_pending r' = sq_pending (rt_ring (s_rt s)) ++ [nop_entry (t_task_id (the_task s k))].
Proof.
  intros Hent Hk Et Hr Hc Hfd Ee. destruct (push_refused n _ _ _ _ _ _ Hent Hr Hc Ee) as (r' & Ep & Hp).
  exists r'. split; [|done]. unfold submit_simple. rewrite (mbnd_ok (get_client i) _ s _ s eq_refl).
  rewrite (mbnd_ok (get_task k) _ s _ s eq_refl), Et. cbn [Z.eqb]. unfold with_ring, iouringd_ring_submit_nop, ring_queue_sqe.
  change (IOURINGD_TASK_KIND_NOP =? IOURINGD_TASK_KIND_TIMEOUT) with false.
  change (IOURINGD_TASK_KIND_NOP =? IOURINGD_TASK_KIND_CANCEL) with false. cbv iota beta.
  rewrite (proj2 (Z.ltb_ge _ _) Hfd). unfold nop_entry in Ep. by rewrite Ep.
Qed.

(** The client is told, and the task's tables stay. *)
Lemma reject_tables i e (s s' : sys W) b :
  reject i e s = (Ok b, s') -> b = true /\ tables_of s' = tables_of s.
Proof.
  unfold reject, mbnd. pose proof (still_reject_submit (W := W) i (- e) s) as Hs.
  destruct (iouringd_reject_submit i (- e) s) as [[[]|x] s1]; [|done]. intros [= <- <-]. split; [done|].
  cbn [snd] in Hs. injection Hs as E1 E2 E3 _ _ _. unfold tables_of. cbn. by rewrite E1, E2, E3.
Qed.

Lemma refused_nop n i k (s : sys W) err head w1 b s' :
  enter_documented (W := W) -> nop_ready n i k s ->
  k_enter (s_world s) (ring_store (rt_ring (s_rt s)) (nop_entry (rt_next_task_id (s_rt s)))) 1 = ((Err err, head), w1) ->
  iouringd_dispatch_client_request i s = (Ok b, s') ->
  b = true /\ rt_next_task_id (s_rt s') = rt_next_task_id (s_rt s) /\
  rt_tasks (s_rt s') = <[k := iouringd_clear_task_slot]> (rt_tasks (s_rt s)) /\
  sq_pending (rt_ring (s_rt s')) = sq_pending (rt_ring (s_rt s)) ++ [nop_entry (rt_next_task_id (s_rt s))].
Proof.
  intros Hent [Hrdy [Hop Hkind] Hg Hid Hslot (Hr & Hc & Hfd)] Ee E.
  pose proof (lookup_lt_Some _ _ _ (table_free _ _ Hslot)) as Hk. unfold table in Hk. rewrite length_fmap in Hk.
  unfold iouringd_dispatch_client_request in E. rewrite (mbnd_ok (get_client i) _ s _ s eq_refl) in E. cbv zeta in E.
  rewrite Hrdy, Hop in E. cbn -[mbnd dispatch_task] in E. rewrite (mbnd_ok get_rt _ s _ s eq_refl), Hg in E.
  unfold dispatch_task in E. rewrite Hkind in E.
  change (dispatch_simple i (s_rt s) (the_client s i) s = (Ok b, s')) in E. unfold dispatch_simple in E.
  rewrite (proj2 (Z.leb_gt _ _) Hid), Hslot in E. set (t := new_task (s_rt s) (the_client s i) i) in E.
  set (s1 := s <| s_rt := s_rt s <| rt_tasks := <[k := t]> (rt_tasks (s_rt s)) |> |>).
  rewrite (mbnd_ok (mod_task k _) _ s tt s1 eq_refl) in E.
  assert (Et : the_task s1 k = t) by (by apply insert_total_eq).
  destruct (submit_simple_refused n i k s1 err head w1) as (r' & Es & Hp); try done.
  - cbn. by rewrite length_insert.
  - by rewrite Et.
  - by rewrite Et.
  - rewrite Et in Hp. rewrite (mbnd_try _ _ _ _ _ Es) in E. unfold abandon_task in E. set (s2 := _ <| s_world := w1 |>) in E.
    rewrite (mbnd_ok (mret tt) _ s2 tt s2 eq_refl) in E.
    set (s3 := s2 <| s_rt := s_rt s2 <| rt_tasks := <[k := iouringd_clear_task_slot]> (rt_tasks (s_rt s2)) |> |>).
    rewrite (mbnd_ok (clear_task k) _ s2 tt s3 eq_refl) in E. apply reject_tables in E as [-> [= E1 E2 E3]].
    split_and!; [done|done| |by rewrite E3]. rewrite E1. cbn. apply list_insert_insert_eq.
Qed.

Lemma peek_tasks (s : sys W) o s' :
  peek_completion s = (o, s') -> rt_tasks (s_rt s') = rt_tasks (s_rt s) /\ rt_task_capacity (s_rt s') = rt_task_capacity (s_rt s).
Proof. unfold peek_completion. destruct (iouringd_ring_peek_completion _ _) as [[oc r] w]. by intros [= <- <-]. Qed.
End Stale.

(** C33: a submission that [io_uring_enter] refuses is not taken back.  In any state a client's
    nop finds a slot and room in the ring, and [io_uring_enter] fails.  The client is
    told so and the task slot is cleared, but the entry stays in the ring, under the id
    that the next task will get.  If the kernel completes it (it takes the entry with
    the next submission) when no task has that id, the completion ends the daemon with
    [EPROTO]. *)
Theorem failed_enter_leaves_entry {W} `{Kernel W} n i k (s : sys W) err head w1 b s' :
  enter_documented (W := W) -> nop_ready n i k s ->
  let id := rt_next_task_id (s_rt s) in
  k_enter (s_world s) (ring_store (rt_ring (s_rt s)) (nop_entry id)) 1 = ((Err err, head), w1) ->
  iouringd_dispatch_client_request i s = (Ok b, s') ->
  rt_next_task_id (s_rt s') = id /\
  rt_tasks (s_rt s') = <[k := iouringd_clear_task_slot]> (rt_tasks (s_rt s)) /\
  sq_pending (rt_ring (s_rt s')) = sq_pending (rt_ring (s_rt s)) ++ [nop_entry id] /\
  forall (s1 : sys W) e s2 fuel p,
    peek_completion s1 = (Ok (Some e), s2) -> cqe_user_data e = id ->
    iouringd_find_task_slot (s_rt s1) id = None -> reap_loop (S fuel) p s1 = (Err EPROTO, s2).
Proof.
  intros Hent Hn id Ee E. destruct (refused_nop n i k s err head w1 b s' Hent Hn Ee E) as (_ & E1 & E2 & E3).
  split_and!; [done|done|done|]. intros s1 e s2 fuel p Ep Eid Hf. cbn [reap_loop]. rewrite (mbnd_ok _ _ _ _ _ Ep).
  rewrite (mbnd_ok get_rt _ s2 _ s2 eq_refl), Eid. destruct (peek_tasks _ _ _ Ep) as [Et Ec].
  unfold iouringd_find_task_slot in *. by rewrite Et, Ec, Hf.
Qed.

(** ** The hypotheses can hold *)

(** One client slot; 32 of the 64 bytes of its output buffer are taken, and a request for
    the statistics arrives. *)
Definition deaf_start : sys script :=
  mk_sys (iouringd_init_runtime <| rt_limits := mk_iouringd_limits 1 2 1 4 16 2 |>
            <| rt_clients := [idle_example <| c_out := mk_outbuf (replicate 64 0) 64 32 0 |>] |>)
         (quiet <| sc_recv := send WGetStats |>) [].
Definition deaf_waiting : sys script := snd (iouringd_service_ready_inputs deaf_start).

Lemma deaf_client_ends_daemon_witness :
  exists s', iouringd_run 3 5 deaf_start = (Err EOVERFLOW, s').
Proof.
  apply (deaf_client_ends_daemon 0 deaf_start deaf_waiting true).
  - vm_compute. reflexivity.
  - assert (Hs : slots deaf_waiting = 1%nat) by (vm_compute; reflexivity). constructor.
    + rewrite Hs. lia.
    + vm_compute. reflexivity.
    + intros j Hj Hne. rewrite Hs in Hj. lia.
    + vm_compute. reflexivity.
    + constructor; vm_compute; try split; congruence.
    + vm_compute. reflexivity.
Defined.

(** A connected client with a nop, and a kernel that is short of memory. *)
Definition starved : sys script :=
  after 2 5 (session 2 4 (quiet <| sc_poll := [Ok [POLLIN]] |> <| sc_accept := [Ok 7] |>
                                <| sc_recv := [bytes_message hello] |>))
    <| s_world := quiet <| sc_enter := [Err EAGAIN] |> <| sc_recv := send (WNop 0) |> |>.
Definition starved_ready : sys script := snd (iouringd_service_client_readable 0 starved).

Lemma failed_enter_leaves_entry_witness :
  let s' := snd (iouringd_dispatch_client_request 0 starved_ready) in
  rt_next_task_id (s_rt s') = 1 /\ sqe_user_data <$> sq_pending (rt_ring (s_rt s')) = [1].
Proof.
  assert (H0 : sq_count (rt_ring (s_rt starved_ready)) = 0) by (vm_compute; reflexivity).
  assert (Hn : nop_ready 2 0 0 starved_ready).
  { constructor; try (vm_compute; reflexivity).
    - split; vm_compute; reflexivity.
    - split_and!; [|rewrite H0; reflexivity|vm_compute; congruence].
      constructor; [lia| | | | | | |rewrite H0; lia|intros k Hk; rewrite H0 in Hk; lia].
      all: vm_compute; first [reflexivity | split; congruence]. }
  destruct (iouringd_dispatch_client_request 0 starved_ready) as [r s'] eqn:E. intros s1. subst s1. cbn [snd].
  assert (Er : r = Ok true) by (change r with (fst (r, s')); rewrite <- E; vm_compute; reflexivity). subst r.
  destruct (failed_enter_leaves_entry 2 0 0 starved_ready EAGAIN 0 (quiet) true s' script_enter_documented Hn)
    as (E1 & _ & E3 & _); [vm_compute; reflexivity|exact E|].
  split; [rewrite E1; vm_compute; reflexivity|]. rewrite E3. vm_compute. reflexivity.
Defined.
