(* ===== verification/Log.v ===== *)
(** * The lines on stderr

    Models what [src/daemon/main.c] writes with [--trace-stderr]
    ([iouringd_emit_trace_event], [iouringd_log_metrics]), the reports of failed
    starts and the usage text, as strings.  [trace_line_roundtrip] shows that nothing
    is lost: the numbers and names of a trace line can be read back. *)

From Stdlib Require Import String Ascii.
From S2P Require Import Prelude Wire Kernel Ring State Output Resources Trace Daemon Startup Input.

Local Open Scope Z_scope.
Local Infix "+++" := String.append (at level 60, right associativity).

Definition iouringd_trace_event_name (event_kind : Z) : string :=
  if event_kind =? IOURINGD_TRACE_EVENT_SUBMIT_ACCEPT then "submit_accept"
  else if event_kind =? IOURINGD_TRACE_EVENT_SUBMIT_REJECT then "submit_reject"
  else if event_kind =? IOURINGD_TRACE_EVENT_COMPLETION then "completion"
  else if event_kind =? IOURINGD_TRACE_EVENT_RESOURCE_REGISTER then "resource_register"
  else if event_kind =? IOURINGD_TRACE_EVENT_RESOURCE_RELEASE then "resource_release"
  else "unknown".

Definition iouringd_task_kind_name (task_kind : Z) : string :=
  if task_kind =? 0 then "control"
  else if task_kind =? IOURINGD_TASK_KIND_NOP then "nop"
  else if task_kind =? IOURINGD_TASK_KIND_TIMEOUT then "timeout"
  else if task_kind =? IOURINGD_TASK_KIND_CANCEL then "cancel"
  else if task_kind =? IOURINGD_TASK_KIND_SOCK_READ then "sock_read"
  else if task_kind =? IOURINGD_TASK_KIND_SOCK_WRITE then "sock_write"
  else if task_kind =? IOURINGD_TASK_KIND_SOCK_READ_FIXED then "sock_read_fixed"
  else if task_kind =? IOURINGD_TASK_KIND_SOCK_WRITE_FIXED then "sock_write_fixed"
  else if task_kind =? IOURINGD_TASK_KIND_FILE_READ then "file_read"
  else if task_kind =? IOURINGD_TASK_KIND_FILE_WRITE then "file_write"
  else if task_kind =? IOURINGD_TASK_KIND_POLL then "poll"
  else if task_kind =? IOURINGD_TASK_KIND_CONNECT then "connect"
  else if task_kind =? IOURINGD_TASK_KIND_ACCEPT then "accept"
  else if task_kind =? IOURINGD_TASK_KIND_OPENAT then "openat"
  else if task_kind =? IOURINGD_TASK_KIND_CLOSE then "close"
  else "unknown".

Definition iouringd_priority_name (priority : Z) : string :=
  if priority =? IOURINGD_SUBMIT_PRIORITY_NORMAL then "normal"
  else if priority =? IOURINGD_SUBMIT_PRIORITY_LOW then "low"
  else if priority =? IOURINGD_SUBMIT_PRIORITY_HIGH then "high"
  else "unknown".

(** The kinds whose bytes are counted. *)
Definition counts_bytes (kind : Z) : bool :=
  (kind =? IOURINGD_TASK_KIND_SOCK_READ) || (kind =? IOURINGD_TASK_KIND_SOCK_WRITE) ||
  (kind =? IOURINGD_TASK_KIND_SOCK_READ_FIXED) || (kind =? IOURINGD_TASK_KIND_SOCK_WRITE_FIXED) ||
  (kind =? IOURINGD_TASK_KIND_FILE_READ) || (kind =? IOURINGD_TASK_KIND_FILE_WRITE).

Definition iouringd_trace_bytes_for_client_request (client : option client) : Z :=
  match client with
  | None => 0
  | Some c =>
      if control_op (c_req c) =? IOURINGD_REQUEST_KIND_REGISTER_BUFFER then io_length (c_req c)
      else if counts_bytes (sq_task_kind (request (c_req c))) then io_length (c_req c) else 0
  end.

Definition iouringd_trace_bytes_for_completion (task_kind res : Z) : Z :=
  if res <=? 0 then 0 else if counts_bytes task_kind then u32 res else 0.

(** ** [%u], [%zu], [PRIu64] and [%d] *)

(** The digits of a number of at most [fuel] digits. *)
Fixpoint digits (fuel : nat) (z : Z) : list Z :=
  match fuel with
  | O => []
  | S n => if z <? 10 then [z] else digits n (z / 10) ++ [z mod 10]
  end.
Definition dec (z : Z) : string := numeral (digits 20 z).
Definition sdec (z : Z) : string := if z <? 0 then "-" +++ dec (- z) else dec z.

Definition newline : string := String (ascii_of_nat 10) EmptyString.

Definition iouringd_log_job_field (a : arguments) : string :=
  match arg_job_id a with
  | Some id => " job_id=" +++ dec id
  | None => " job_id=-"
  end.

Definition metrics_line (a : arguments) (pid : Z) (rt : runtime) (phase : string) : string :=
  "iouringd metrics phase=" +++ phase +++ " pid=" +++ sdec pid +++ iouringd_log_job_field a +++
  " socket=" +++ arg_socket_path a +++ " active_clients=" +++ dec (iouringd_count_active_clients rt) +++
  " outstanding_tasks=" +++ dec (rt_outstanding_tasks rt) +++
  " outstanding_credit_tasks=" +++ dec (rt_outstanding_credit_tasks rt) +++
  " available_credits=" +++ dec (iouringd_available_credits rt) +++
  " registered_files=" +++ dec (iouringd_count_registered_files rt) +++
  " registered_buffers=" +++ dec (iouringd_count_registered_buffers rt) +++
  " accepted_submits=" +++ dec (rt_accepted_submits rt) +++
  " rejected_submits=" +++ dec (rt_rejected_submits rt) +++ " completions=" +++ dec (rt_completions rt) +++
  " ring_entries=" +++ dec (cap_ring_entries (rt_capabilities rt)) +++
  " registered_fd_slots=" +++ dec (cap_registered_fd_slots (rt_capabilities rt)) +++
  " registered_buffer_slots=" +++ dec (cap_registered_buffer_slots (rt_capabilities rt)) +++
  " io_bytes_max=" +++ dec (cap_io_bytes_max (rt_capabilities rt)) +++
  " per_client_credit_limit=" +++ dec (rt_per_client_credit_limit rt) +++
  " clients_at_credit_limit=" +++ dec (iouringd_count_clients_at_credit_limit rt) +++ newline.

Definition iouringd_log_metrics (a : arguments) (pid : Z) (rt : runtime) (phase : string) : string :=
  if arg_trace_stderr a then metrics_line a pid rt phase else EmptyString.

(** The line of [iouringd_emit_trace_event] for the event it has recorded. *)
Definition trace_line (a : arguments) (pid : Z) (e : trace_event) (bytes : Z) : string :=
  "iouringd trace sequence=" +++ dec (te_sequence e) +++ " timestamp_nsec=" +++ dec (te_timestamp_nsec e) +++
  " pid=" +++ sdec pid +++ iouringd_log_job_field a +++ " client_slot=" +++ dec (te_client_slot e) +++
  " event=" +++ iouringd_trace_event_name (te_event_kind e) +++
  " task_kind=" +++ iouringd_task_kind_name (te_task_kind e) +++
  " priority=" +++ iouringd_priority_name (te_priority e) +++ " task_id=" +++ dec (te_task e) +++
  " resource_id=" +++ dec (te_resource e) +++ " bytes=" +++ dec bytes +++ " result=" +++ sdec (te_res e) +++
  " credits=" +++ dec (te_credits e) +++ newline.

(** [strerror] is the C library's. *)
Definition iouringd_log_errno (strerror : Z -> string) (context : string) (err : Z) : string :=
  "iouringd: " +++ context +++ ": " +++ strerror err +++ newline.

Definition ENOSYS : Z := 38.
Definition EPERM : Z := 1.
Definition EACCES : Z := 13.

Definition iouringd_report_ring_init_error (strerror : Z -> string) (err : Z) : string :=
  if err =? ENOSYS then "iouringd: io_uring setup is unavailable on this kernel (ENOSYS)" +++ newline
  else if (err =? EPERM) || (err =? EACCES) then
    "iouringd: io_uring setup blocked by kernel policy or sandbox (" +++ strerror err +++ ")" +++ newline
  else if err =? ENOTSUP then "iouringd: io_uring probe reported no supported operations (ENOTSUP)" +++ newline
  else iouringd_log_errno strerror "io_uring initialization failed" err.

Definition iouringd_print_usage : string :=
  "usage: iouringd [--ring-entries N] [--max-clients N]" +++ newline +++
  "                 [--registered-fds N] [--registered-buffers N]" +++ newline +++
  "                 [--per-client-credits N] [--io-bytes-max N]" +++ newline +++
  "                 [--job-id N] [--trace-stderr]" +++ newline +++
  "                 SOCKET_PATH" +++ newline.

(** ** Reading a line back *)

Definition reader (A : Type) : Type := string -> option (A * string).

(** The fixed text [t]. *)
Fixpoint text (t : string) : reader unit :=
  fun s => match t, s with
           | EmptyString, _ => Some (tt, s)
           | String a t', String b s' => if (a =? b)%char then text t' s' else None
           | _, _ => None
           end.

Definition number : reader Z :=
  fun s => let '(v, any, rest) := take_digits 0 false s in if any : bool then Some (v, rest) else None.

Definition signed : reader Z :=
  fun s => match s with
           | String a rest =>
               if char_code a =? 45
               then match number rest with Some (v, r) => Some (- v, r) | None => None end
               else number s
           | EmptyString => None
           end.

(** The characters before the next space. *)
Fixpoint word (s : string) : string * string :=
  match s with
  | String a rest => if is_space a then (EmptyString, s) else let '(w, r) := word rest in (String a w, r)
  | EmptyString => (EmptyString, EmptyString)
  end.

(** The value among [0 .. n-1] whose name is the next word. *)
Definition name_of (name : Z -> string) (n : nat) : reader Z :=
  fun s => let '(w, rest) := word s in
           match find_index (fun k => (name (Z.of_nat k) =? w)%string) (seq 0 n) with
           | Some k => Some (Z.of_nat k, rest)
           | None => None
           end.

Definition job : reader (option Z) :=
  fun s => match text " job_id=-" s with
           | Some (_, rest) => Some (None, rest)
           | None => match text " job_id=" s with
                     | Some (_, rest) => match number rest with Some (v, r) => Some (Some v, r) | None => None end
                     | None => None
                     end
           end.

Definition rbind {A B} (m : reader A) (k : A -> reader B) : reader B :=
  fun s => match m s with Some (a, rest) => k a rest | None => None end.
Local Notation "x <~ m ; k" := (rbind m (fun x => k)) (at level 100, m at next level, right associativity).
Local Notation "t >> k" := (rbind (text t) (fun _ => k)) (at level 100, right associativity).

(** The event, the process, the job and the bytes. *)
Definition read_trace_line : reader (trace_event * Z * option Z * Z) :=
  "iouringd trace sequence=" >> seqno <~ number ; " timestamp_nsec=" >> stamp <~ number ;
  " pid=" >> pid <~ signed ; j <~ job ; " client_slot=" >> slot <~ number ;
  " event=" >> ev <~ name_of iouringd_trace_event_name 6 ;
  " task_kind=" >> kind <~ name_of iouringd_task_kind_name 15 ;
  " priority=" >> prio <~ name_of iouringd_priority_name 3 ; " task_id=" >> task <~ number ;
  " resource_id=" >> rid <~ number ; " bytes=" >> n <~ number ; " result=" >> res <~ signed ;
  " credits=" >> credits <~ number ;
  newline >> fun rest => Some ((mk_trace_event seqno stamp task rid res credits ev kind slot prio 0, pid, j, n), rest).

(** ** Each field is read as it was written *)

Definition stops_number (s : string) : Prop :=
  match s with String a _ => is_digit a = false | EmptyString => True end.
Definition stops_word (s : string) : Prop :=
  match s with String a _ => is_space a = true | EmptyString => True end.

Lemma append_assoc a b c : (a +++ b) +++ c = a +++ (b +++ c).
Proof. induction a as [|x a IH]; cbn [String.append]; congruence. Qed.

Lemma text_ok t s : text t (t +++ s) = Some (tt, s).
Proof. induction t as [|a t IH]; cbn; [done|]. by rewrite Ascii.eqb_refl. Qed.

Lemma digits_decimal n z : 0 <= z -> Forall decimal_digit (digits n z).
Proof.
  revert z. induction n as [|n IH]; intros z Hz; cbn [digits]; [constructor|].
  destruct (Z.ltb_spec z 10); [repeat constructor; unfold decimal_digit; lia|].
  apply Forall_app; split; [apply IH, Z.div_pos; lia|].
  repeat constructor; unfold decimal_digit; pose proof (Z.mod_pos_bound z 10); lia.
Qed.

Lemma digits_value n z : 0 <= z < 10 ^ Z.of_nat n -> numeral_value (digits n z) = z.
Proof.
  revert z. induction n as [|n IH]; intros z Hz; cbn [digits]; [cbn in Hz |- *; lia|].
  destruct (Z.ltb_spec z 10); [cbn; lia|].
  unfold numeral_value in *. rewrite fold_left_app, IH; cbn [fold_left].
  - pose proof (Z.div_mod z 10). lia.
  - rewrite Nat2Z.inj_succ, Z.pow_succ_r in Hz by lia.
    split; [apply Z.div_pos; lia|apply Z.div_lt_upper_bound; lia].
Qed.

Lemma digits_cons n z : exists d ds, digits (S n) z = d :: ds.
Proof.
  cbn [digits]. destruct (z <? 10); [by eexists _, _|].
  destruct (digits n (z / 10)) as [|d ds]; by eexists _, _.
Qed.

Lemma take_digits_app ds acc any s :
  Forall decimal_digit ds -> stops_number s ->
  take_digits acc any (numeral ds +++ s) =
  (fold_left (fun acc d => 10 * acc + d) ds acc, any || negb (bool_decide (ds = [])), s).
Proof.
  intros Hds Hs. revert acc any. induction Hds as [|d ds Hd _ IH]; intros acc any; cbn.
  - rewrite orb_false_r. destruct s as [|a s]; cbn in *; [done|by rewrite Hs].
  - unfold is_digit. rewrite digit_char_code by done. unfold decimal_digit in Hd.
    rewrite (proj2 (Z.leb_le 48 _)), (proj2 (Z.leb_le _ 57)) by lia. cbn.
    rewrite IH, !orb_true_r. do 2 f_equal. f_equal. lia.
Qed.

(** The numbers a line may hold: every [uint64_t] is one. *)
Definition printable (z : Z) : Prop := 0 <= z < 10 ^ 20.

Lemma number_ok z s : printable z -> stops_number s -> number (dec z +++ s) = Some (z, s).
Proof.
  intros Hz Hs. unfold number, dec. unfold printable in Hz.
  rewrite take_digits_app by (done || apply digits_decimal; lia).
  fold (numeral_value (digits 20 z)). rewrite digits_value by (cbn; lia).
  by destruct (digits_cons 19 z) as (d & ds & ->).
Qed.

Lemma dec_first z s : 0 <= z -> exists a r, dec z +++ s = String a r /\ 48 <= char_code a <= 57.
Proof.
  intros Hz. unfold dec. pose proof (digits_decimal 20 z Hz) as Hd.
  destruct (digits_cons 19 z) as (d & ds & E). rewrite E in *.
  exists (digit_char d), (numeral ds +++ s). split; [done|].
  apply Forall_inv in Hd. rewrite digit_char_code by done. unfold decimal_digit in Hd. lia.
Qed.

Lemma signed_ok z s : printable (Z.abs z) -> stops_number s -> signed (sdec z +++ s) = Some (z, s).
Proof.
  unfold sdec. intros Hz Hs. destruct (Z.ltb_spec z 0) as [Hn|Hn].
  - rewrite append_assoc. cbn [String.append]. unfold signed. cbn [char_code nat_of_ascii].
    rewrite number_ok by (done || by replace (- z) with (Z.abs z) by lia).
    cbn. by rewrite Z.opp_involutive.
  - rewrite Z.abs_eq in Hz by done. pose proof (number_ok z s Hz Hs) as En.
    destruct (dec_first z s Hn) as (a & r & E & Ha). rewrite E in *. unfold signed.
    by destruct (Z.eqb_spec (char_code a) 45); [lia|].
Qed.

Fixpoint no_space (s : string) : bool :=
  match s with String a r => negb (is_space a) && no_space r | EmptyString => true end.

Lemma word_ok w s : no_space w = true -> stops_word s -> word (w +++ s) = (w, s).
Proof.
  intros Hw Hs. induction w as [|a w IH]; cbn in *.
  - destruct s as [|a s]; cbn in *; [done|by rewrite Hs].
  - apply andb_true_iff in Hw as [Ha Hw]. apply negb_true_iff in Ha. by rewrite Ha, IH.
Qed.

(** The names of [0 .. n-1] are words, and the search for one finds its number. *)
Definition named (name : Z -> string) (n : nat) : bool :=
  forallb (fun k => no_space (name (Z.of_nat k)) &&
                    bool_decide (find_index (fun i => (name (Z.of_nat i) =? name (Z.of_nat k))%string)
                                            (seq 0 n) = Some k)) (seq 0 n).

Lemma name_of_ok name n z s :
  named name n = true -> 0 <= z < Z.of_nat n -> stops_word s ->
  name_of name n (name z +++ s) = Some (z, s).
Proof.
  intros Hn Hz Hs. unfold named in Hn. rewrite forallb_forall in Hn.
  destruct (proj1 (andb_true_iff _ _) (Hn (Z.to_nat z) ltac:(apply in_seq; lia))) as [Hw Hf].
  apply bool_decide_eq_true in Hf. rewrite Z2Nat.id in Hw, Hf by lia.
  unfold name_of. rewrite word_ok by done. rewrite Hf. by rewrite Z2Nat.id by lia.
Qed.

Lemma job_ok a s :
  (forall id, arg_job_id a = Some id -> printable id) -> stops_number s ->
  job (iouringd_log_job_field a +++ s) = Some (arg_job_id a, s).
Proof.
  intros Hid Hs. unfold iouringd_log_job_field, job.
  destruct (arg_job_id a) as [id|] eqn:E; [|by rewrite text_ok].
  specialize (Hid id eq_refl). rewrite append_assoc, text_ok, number_ok by done.
  destruct (dec_first id s ltac:(unfold printable in Hid; lia)) as (b & r & -> & Hb).
  cbn -[Ascii.eqb]. rewrite !Ascii.eqb_refl.
  destruct (Ascii.eqb_spec "-" b) as [<-|]; [change (char_code "-") with 45 in Hb; lia|done].
Qed.

(** Fields one after another. *)
Lemma then_text {B} t (k : unit -> reader B) s : rbind (text t) k (t +++ s) = k tt s.
Proof. unfold rbind. by rewrite text_ok. Qed.

Lemma then_field {A B} (m : reader A) (k : A -> reader B) p v s :
  m (p +++ s) = Some (v, s) -> rbind m k (p +++ s) = k v s.
Proof. unfold rbind. by intros ->. Qed.

(** An event whose kind, task kind and priority have names. *)
Record printable_event (e : trace_event) : Prop := {
  pe_numbers : Forall printable [te_sequence e; te_timestamp_nsec e; te_task e; te_resource e; te_credits e;
                                 te_client_slot e];
  pe_res : printable (Z.abs (te_res e));
  pe_event : 0 < te_event_kind e <= 5;
  pe_kind : 0 <= te_task_kind e <= 14;
  pe_priority : 0 <= te_priority e <= 2;
  pe_reserved : te_reserved1 e = 0 }.

Ltac field :=
  first [ etransitivity; [apply then_text|]; cbv beta
        | etransitivity;
          [ apply then_field;
            first [apply number_ok | apply signed_ok | apply name_of_ok | apply job_ok]; try done; try lia | cbv beta ] ].

Lemma job_field_stops a s : stops_number (iouringd_log_job_field a +++ s).
Proof. unfold iouringd_log_job_field. by destruct (arg_job_id a). Qed.

(** C39: No field of a trace line is lost or run into the next: reading the line that
    [iouringd_emit_trace_event] writes for an event gives back every field of the event,
    the process, the job id (or its absence) and the bytes, and nothing is left over. *)
Theorem trace_line_roundtrip a pid e bytes :
  printable_event e -> printable (Z.abs pid) -> printable bytes ->
  (forall id, arg_job_id a = Some id -> printable id) ->
  read_trace_line (trace_line a pid e bytes) = Some ((e, pid, arg_job_id a, bytes), EmptyString).
Proof.
  intros [Hn Hr He Hk Hp H0] Hpid Hb Hid. repeat rewrite Forall_cons in Hn.
  destruct Hn as (H1 & H2 & H3 & H4 & H5 & H6 & _).
  unfold read_trace_line, trace_line. repeat field.
  - apply job_field_stops.
  - cbn. destruct e; cbn in *. by subst.
Qed.

(** Trace line of a completed read by a client of a named job, and its reading. *)
Definition sample_event : trace_event := mk_trace_event 18446744073709551615 7 42 3 (-11) 9 3 8 2 1 0.
Definition sample_args : arguments := default_arguments <| arg_job_id := Some 77 |>.

Lemma trace_line_roundtrip_witness :
  read_trace_line (trace_line sample_args 1234 sample_event 0) =
  Some ((sample_event, 1234, Some 77, 0), EmptyString).
Proof.
  apply trace_line_roundtrip.
  - split; cbn; repeat constructor; unfold printable; lia.
  - unfold printable; lia.
  - unfold printable; lia.
  - cbn. intros id [= <-]. unfold printable. lia.
Defined.

Example trace_line_sample :
  trace_line sample_args 1234 sample_event 0 =
  ("iouringd trace sequence=18446744073709551615 timestamp_nsec=7 pid=1234 job_id=77 client_slot=2" +++
   " event=completion task_kind=file_read priority=low task_id=42 resource_id=3 bytes=0 result=-11 credits=9" +++
   newline)%string.
Proof. vm_compute. reflexivity. Qed.
