(* ===== verification/Overlay.v ===== *)
(** * The example programs

    Models [examples/memfd_overlay_copy.c], a client of the library that registers a
    source and a target file and has the daemon read up to 4096 bytes of the one and
    write them to the other, and [examples/standalone_nop.c], which submits one nop.
    They are the library's documented way of use, and so a test of what the library's
    theorems are good for: [overlay_copies] and [standalone_reports] run them against
    the daemon's answers. *)

From Stdlib Require Import String Ascii.
From S2P Require Import Prelude Wire Kernel Ring State Output Resources Trace Daemon Startup Input Request Socket Client Inbox ClientApi Calls Conversation Payloads Passing Log.

(** [atoi], for numbers in the range of [int] *)
Definition atoi (s : string) : Z :=
  let '(negative, s1) := take_sign (skip_spaces s) in
  let '(v, _, _) := take_digits 0 false s1 in
  if negative then - v else v.

Definition path_bytes (s : string) : bytes := char_code <$> list_ascii_of_string s.

(** How the target is opened: created if need be with mode 0644, emptied, for writing. *)
Definition O_WRONLY : Z := 0x1.
Definition O_CREAT : Z := 0x40.
Definition O_TRUNC : Z := 0x200.
Definition O_CLOEXEC : Z := 0x80000.
Definition target_flags : Z := Z.lor O_CREAT (Z.lor O_TRUNC (Z.lor O_WRONLY O_CLOEXEC)).
Definition target_mode : Z := 420.

(** [sizeof(buffer)] *)
Definition BUFFER_SIZE : Z := 4096.

(** [memset(&x, 0, sizeof(x))] *)
Definition zero_handshake : handshake_result := of_wire (replicate (wire_size handshake_result) 0).
Definition zero_completion : completion_record := of_wire (replicate (wire_size completion_record) 0).

Section Program.
Context {W : Type} `{Socket W}.
(** [open(path, flags, mode)] *)
Context (k_open : W -> string -> Z -> Z -> outcome Z * W).
(** The bound on the completions in front of a reply, and what is in the local buffer
    before it is written. *)
Context (rounds : nat) (buffer : bytes).
Local Open Scope iou_scope.
Abbreviation P := (M (lib W)).

(** [close(fd); close(target_fd); return code;] *)
Fixpoint leave (fds : list Z) (code : Z) : P Z :=
  match fds with
  | [] => mret code
  | fd :: rest => on_world (sock_close fd) ;;; leave rest code
  end.

(** A library call with its result in a local object that holds [init] before. *)
Definition out_of {A} (init : A) (m : M (lib W * option A) unit) : P A :=
  fun l => let '(r, (l', o)) := m (l, Some init) in
           (match r with Ok _ => Ok (default init o) | Err e => Err e end, l').

(** [if (call != 0) { perror(..); close(..); return 1; }] *)
Definition or_leave {A} (fds : list Z) (m : P A) (k : A -> P Z) : P Z :=
  r <- mtry m ;; match r with Ok a => k a | Err _ => leave fds 1 end.

Definition read_payload_of (fd : Z) (x : completion_record) : P (bytes * Z) :=
  fun l => let '(r, (l', o)) :=
             iouringd_read_completion_payload fd (Some x) BUFFER_SIZE (l, mk_payload_out (Some buffer) (Some 0)) in
           (match r with Ok _ => Ok (default buffer (po_buf o), default 0 (po_length o)) | Err e => Err e end, l').

Definition handshake_on (fd : Z) : P handshake_result :=
  fun l => let '(r, (w, o)) := iouringd_client_handshake_fd fd (l_world l, Some zero_handshake) in
           (match r with Ok _ => Ok (default zero_handshake o) | Err e => Err e end, l <| l_world := w |>).

(** The completion is not the expected one. *)
Definition unexpected (x : completion_record) (task kind : Z) : bool :=
  negb (cr_task x =? task) || negb (cr_task_kind x =? kind) || (cr_res x <? 0).

(** [main] from the registration of the source on. *)
Definition transfer (fd source_fd target_fd : Z) : P Z :=
  let fds := [fd; target_fd] in
  or_leave fds (out_of 0 (iouringd_register_fd rounds fd source_fd)) (fun source =>
  or_leave fds (out_of 0 (iouringd_register_fd rounds fd target_fd)) (fun target =>
  or_leave fds (out_of 0 (iouringd_submit_file_read rounds fd source BUFFER_SIZE)) (fun read_task =>
  or_leave fds (out_of zero_completion (iouringd_wait_completion fd)) (fun x =>
  if unexpected x read_task IOURINGD_TASK_KIND_FILE_READ then leave fds 1
  else
    or_leave fds (read_payload_of fd x) (fun '(buf, payload_length) =>
    or_leave fds (out_of 0 (iouringd_submit_file_write rounds fd target (Some buf) (u32 payload_length)))
      (fun write_task =>
    or_leave fds (out_of zero_completion (iouringd_wait_completion fd)) (fun y =>
    if unexpected y write_task IOURINGD_TASK_KIND_FILE_WRITE then leave fds 1 else leave fds 0))))))).

Definition overlay_main (argv : list string) : P Z :=
  match argv with
  | [_; socket_path; memfd; target_path] =>
      let source_fd := atoi memfd in
      if source_fd <? 0 then mret 2
      else
        or_leave [] (on_world (sock (fun w => k_open w target_path target_flags target_mode))) (fun target_fd =>
        or_leave [target_fd] (on_world (iouringd_client_connect (Some (path_bytes socket_path)))) (fun fd =>
        or_leave [fd; target_fd] (handshake_on fd) (fun handshake =>
        if cap_io_bytes_max (hr_capabilities handshake) <? BUFFER_SIZE then leave [fd; target_fd] 1
        else transfer fd source_fd target_fd)))
  | _ => mret 2
  end.

(** ** [standalone_nop.c]: the exit status and what is printed *)

Definition result_line (x : completion_record) : string :=
  ("task=" ++ dec (cr_task x) ++ " result=" ++ sdec (cr_res x) ++ newline)%string.

Definition standalone_main (argv : list string) : P (Z * string) :=
  match argv with
  | [_; socket_path] =>
      r <- mtry (on_world (iouringd_client_connect (Some (path_bytes socket_path)))) ;;
      match r with
      | Err _ => mret (1, EmptyString)
      | Ok fd =>
          r <- mtry (handshake_on fd ;;; out_of 0 (iouringd_submit_nop rounds fd) ;;;
                     out_of zero_completion (iouringd_wait_completion fd)) ;;
          match r with
          | Err _ => code <- leave [fd] 1 ;; mret (code, EmptyString)
          | Ok x => code <- leave [fd] 0 ;; mret (code, result_line x)
          end
      end
  | _ => mret (2, EmptyString)
  end.
End Program.

Section Runs.
Context {W : Type} `{Passing W} (fd : Z) `{!Reliable W fd} (rounds : nat) (buffer : bytes).
Hypothesis fd_open : 0 <= fd.
Hypothesis enough : (0 < rounds)%nat.
Abbreviation P := (M (lib W)).

Lemma or_leave_ok {A} fds (m : P A) k l a l' : m l = (Ok a, l') -> or_leave fds m k l = k a l'.
Proof. intros E. unfold or_leave. by rewrite (mbnd_try _ _ _ _ _ E). Qed.
Lemma or_leave_err {A} fds (m : P A) k l e l' : m l = (Err e, l') -> or_leave fds m k l = leave fds 1 l'.
Proof. intros E. unfold or_leave. by rewrite (mbnd_try _ _ _ _ _ E). Qed.

(** A step of the program that sends [out], takes [inp] from the stream and passes the
    descriptors [ds] with the first byte it sends. *)
Definition with_first (w : W) (ds : list Z) : list (Z * nat * Z) := (fun d => (fd, length (outgoing w fd), d)) <$> ds.
Record talks {A} (m : P A) (a : A) (out inp : bytes) (ds : list Z) (w w' : W) (ps ps' : list buffered_payload) : Prop := {
  tk_run : m (mk_lib w [] ps) = (Ok a, mk_lib w' [] ps');
  tk_out : outgoing w' fd = outgoing w fd ++ out;
  tk_in rest : incoming w fd = inp ++ rest -> incoming w' fd = rest;
  tk_passed : passed w' = passed w ++ with_first w ds;
}.

Lemma talks_moves {A} (m : P A) a out inp ds w w' ps ps' :
  m (mk_lib w [] ps) = (Ok a, mk_lib w' [] ps') -> moves fd out inp w w' -> passed w' = passed w ++ with_first w ds ->
  talks m a out inp ds w w' ps ps'.
Proof.
  intros E Hm Hp. constructor; [done|exact (mv_out _ _ _ _ _ _ _ Hm)| |done].
  intros rest Hi. exact (moves_incoming _ _ _ _ _ _ Hm Hi).
Qed.
Lemma passes_none {S A} world (m : M S A) s r s' :
  passless world m -> m s = (r, s') -> passed (world s') = passed (world s) ++ with_first (world s) [].
Proof. intros Hq E. cbn. rewrite app_nil_r. exact (passless_run _ _ _ _ _ Hq E). Qed.

Lemma handshake_talks hs rest w :
  wire_fit hs -> handshake_result_ok hs = true -> handshake_buffers_ok (hr_capabilities hs) = true ->
  incoming w fd = to_wire hs ++ rest ->
  exists w', talks (handshake_on fd) hs (to_wire client_hello) (to_wire hs) [] w w' [] [].
Proof.
  intros Hfit Hok Hbuf Hi. destruct (write_full_works fd (to_wire client_hello) w) as (w1 & E1 & M1).
  rewrite (mv_in _ _ _ _ _ _ _ M1) in Hi. cbn [app] in Hi.
  destruct (read_full_works fd _ _ w1 Hi) as (w2 & E2 & M2). rewrite (length_to_wire _ Hfit) in E2.
  assert (E : iouringd_client_handshake_fd fd (w, Some zero_handshake) = (Ok tt, (w2, Some hs))).
  { unfold iouringd_client_handshake_fd. rewrite (mbnd_ok (mget _) _ _ _ _ eq_refl).
    rewrite (proj2 (Z.ltb_ge fd 0) fd_open). cbn [is_null orb snd].
    rewrite (mbnd_ok _ _ _ _ _ (lift_run _ _ _ _ _ E1)), (mbnd_ok _ _ _ _ _ (lift_run _ _ _ _ _ E2)).
    rewrite <- (app_nil_r (to_wire hs)), of_to_wire by exact Hfit. cbv zeta.
    rewrite (mbnd_ok _ _ _ tt (w2, Some hs)) by done. by rewrite Hok, Hbuf. }
  exists w2. apply talks_moves; [| |exact (passes_none _ _ _ _ _ (passless_handshake fd) E)].
  - unfold handshake_on. cbn [l_world]. by rewrite E.
  - rewrite <- (app_nil_r (to_wire client_hello)). exact (moves_trans _ _ _ _ _ _ _ _ M1 M2).
Qed.

(** A call that returns an id. *)
Lemma id_of_talks {A} (init : A) field (m : M (lib W * option A) unit) x out inp ds w ps :
  (exists l', m (mk_lib w [] ps, Some init) = (Ok tt, (l', Some x)) /\ buffered fd (mk_lib w [] ps) l' out inp [] /\
              passed (l_world l') = passed w ++ with_first w ds) ->
  exists w', talks (out_of 0 (id_of init field m)) (field x) out inp ds w w' ps ps.
Proof.
  intros (l' & E & (w' & -> & Hm) & Hp). exists w'. apply talks_moves; [|exact Hm|exact Hp].
  unfold out_of, id_of. rewrite (mbnd_ok out_is_null _ _ _ _ eq_refl). cbn [is_null snd fst]. by rewrite E.
Qed.

Lemma register_talks f r rest w ps :
  0 <= f -> good_reply (RResource r) -> resource_code r = Ok tt -> incoming w fd = to_wire r ++ rest ->
  exists w', talks (out_of 0 (iouringd_register_fd rounds fd f)) (rr_resource r) (encode WRegisterFd) (to_wire r) [f]
               w w' ps ps.
Proof.
  intros Hf Hg Hc Hi. apply id_of_talks.
  destruct (resource_works fd rounds fd_open (ARegisterFd f) [] r rest (mk_lib w [] ps) (mk_resource_result 0 0 0 0))
    as (l' & E & B); [cbn; lia|constructor|done|cbn; lia|done|]. rewrite Hc in E.
  exists l'. split_and!; [done|done|exact (register_passes _ _ _ _ _ _ _ E)].
Qed.

Lemma submit_talks call r rest w ps :
  submit_args call -> good_reply (RSubmit r) -> submit_code r = Ok tt -> incoming w fd = to_wire r ++ rest ->
  exists w', talks (out_of 0 (as_task (submit_run call rounds fd))) (sr_task r) (encode (submit_request_of call))
               (to_wire r) [] w w' ps ps.
Proof.
  intros Ha Hg Hc Hi. apply id_of_talks.
  destruct (submit_works fd rounds fd_open call [] r rest (mk_lib w [] ps) (mk_submit_result 0 0 0))
    as (l' & E & B); [done|constructor|done|cbn; lia|done|]. rewrite Hc in E.
  exists l'. split_and!; [done|done|exact (passes_none _ _ _ _ _ (passless_submit_run call rounds fd) E)].
Qed.

Lemma wait_talks x p rest w ps :
  good_completion x p -> incoming w fd = (to_wire x ++ p) ++ rest ->
  exists w', talks (out_of zero_completion (iouringd_wait_completion fd)) x [] (to_wire x ++ p) [] w w' ps
               (ps ++ kept fd (x, p)).
Proof.
  intros Hg Hi. destruct (wait_stream fd (x, p) rest (mk_lib w [] ps) zero_completion fd_open eq_refl Hg Hi)
    as (w' & E & Hm). exists w'. cbn [fst snd] in E.
  apply talks_moves; [unfold out_of; by rewrite E|exact Hm|exact (passes_none _ _ _ _ _ (passless_wait fd) E)].
Qed.

Lemma payload_read x p (w : W) :
  good_completion x p -> payload_kind (cr_task_kind x) = true -> cr_payload_length x <= BUFFER_SIZE ->
  read_payload_of buffer fd x (mk_lib w [] (kept fd (x, p))) =
    (Ok (p ++ drop (length p) buffer, Z.of_nat (length p)), mk_lib w [] []).
Proof.
  intros Hg Hk Hl. pose proof (gc_payload _ _ Hg) as Hp. unfold read_payload_of, kept. cbn [fst snd].
  destruct (Z.eqb_spec (cr_payload_length x) 0) as [E|E].
  - assert (Hp0 : p = []) by (destruct p; [done|cbn in Hp; lia]). subst p.
    unfold iouringd_read_completion_payload, mbnd, mget, id. cbn [po_length po_buf].
    by rewrite (proj2 (Z.ltb_ge fd 0) fd_open), Hk, E.
  - erewrite read_payload_found; [|done|done|done|done|cbn; by rewrite !Z.eqb_refl].
    cbn [po_buf po_length bp_payload_length bp_payload payload_entry fst snd default].
    rewrite <- Hp, Nat2Z.id, take_ge by lia. unfold blit. by rewrite take_0.
Qed.

(** ** The program against the daemon's answers *)

Section Session.
Context (source_fd target_fd : Z) (r1 r2 : resource_result) (a1 : submit_result) (x : completion_record) (p : bytes).
Hypothesis fds_open : 0 <= source_fd /\ 0 <= target_fd.
(** The registrations and the read are accepted; the read completes with [p]. *)
Record accepted_read : Prop := {
  ov_source : good_reply (RResource r1) /\ resource_code r1 = Ok tt /\ resource_arg (rr_resource r1);
  ov_target : good_reply (RResource r2) /\ resource_code r2 = Ok tt /\ resource_arg (rr_resource r2);
  ov_read : good_reply (RSubmit a1) /\ submit_code a1 = Ok tt;
  ov_done : good_completion x p /\ unexpected x (sr_task a1) IOURINGD_TASK_KIND_FILE_READ = false;
  ov_fits : cr_payload_length x <= BUFFER_SIZE;
}.
Hypothesis Hread : accepted_read.

(** The end of [main], when the payload has been read. *)
Definition write_out : P Z :=
  let fds := [fd; target_fd] in
  or_leave fds (out_of 0 (iouringd_submit_file_write rounds fd (rr_resource r2) (Some (p ++ drop (length p) buffer))
                            (u32 (Z.of_nat (length p))))) (fun write_task =>
  or_leave fds (out_of zero_completion (iouringd_wait_completion fd)) (fun y =>
  if unexpected y write_task IOURINGD_TASK_KIND_FILE_WRITE then leave fds 1 else leave fds 0)).

(** The source goes with the first registration, the target with the second. *)
Definition handed (sent : bytes) : list (Z * nat * Z) :=
  [(fd, length sent, source_fd); (fd, length (sent ++ encode WRegisterFd), target_fd)].

Lemma transfer_reads (w : W) rest :
  incoming w fd = to_wire r1 ++ to_wire r2 ++ to_wire a1 ++ (to_wire x ++ p) ++ rest ->
  exists w', transfer rounds buffer fd source_fd target_fd (mk_lib w [] []) = write_out (mk_lib w' [] []) /\
    outgoing w' fd = outgoing w fd ++ encode WRegisterFd ++ encode WRegisterFd ++
                     encode (WRead true 0 (rr_resource r1) BUFFER_SIZE) /\
    incoming w' fd = rest /\ passed w' = passed w ++ handed (outgoing w fd).
Proof.
  destruct Hread as [(G1 & C1 & A1) (G2 & C2 & A2) (G3 & C3) (G4 & U4) Hf]. destruct fds_open as [F1 F2]. intros Hi.
  destruct (register_talks source_fd r1 _ w [] F1 G1 C1 Hi) as (w1 & [E1 O1 I1 P1]). specialize (I1 _ Hi).
  destruct (register_talks target_fd r2 _ w1 [] F2 G2 C2 I1) as (w2 & [E2 O2 I2 P2]). specialize (I2 _ I1).
  destruct (submit_talks (SRead true (rr_resource r1) BUFFER_SIZE) a1 ((to_wire x ++ p) ++ rest) w2 []) as (w3 & [E3 O3 I3 P3]);
    [split; [done|vm_compute; split; congruence]|done|done|exact I2|]. specialize (I3 _ I2).
  destruct (wait_talks x p _ w3 [] G4 I3) as (w4 & [E4 O4 I4 P4]). specialize (I4 _ I3). cbn [app] in E4.
  exists w4. split_and!; [|rewrite O4, O3, O2, O1, app_nil_r, <- !app_assoc; done|done|].
  2: { rewrite P4, P3, P2, P1. cbn. by rewrite O1, !app_nil_r, <- app_assoc. }
  unfold transfer. cbv zeta. rewrite (or_leave_ok _ _ _ _ _ _ E1), (or_leave_ok _ _ _ _ _ _ E2).
  rewrite (or_leave_ok _ _ _ _ _ _ E3), (or_leave_ok _ _ _ _ _ _ E4), U4.
  assert (Hk : payload_kind (cr_task_kind x) = true).
  { unfold unexpected in U4. apply orb_false_iff in U4 as [U4 _]. apply orb_false_iff in U4 as [_ U4].
    apply negb_false_iff, Z.eqb_eq in U4. by rewrite U4. }
  by rewrite (or_leave_ok _ _ _ _ _ _ (payload_read x p w4 G4 Hk Hf)).
Qed.

(** An empty source: the write is refused by the library, before it is sent. *)
Lemma write_out_empty (w : W) : p = [] -> write_out (mk_lib w [] []) = leave [fd; target_fd] 1 (mk_lib w [] []).
Proof.
  intros Ep. unfold write_out. cbv zeta. erewrite or_leave_err; [reflexivity|].
  unfold out_of, iouringd_submit_file_write, as_task, id_of. rewrite (mbnd_ok out_is_null _ _ _ _ eq_refl).
  cbn [is_null snd fst]. unfold iouringd_submit_file_write_result, submit_call.
  rewrite (mbnd_ok out_is_null _ _ _ _ eq_refl). rewrite Ep. cbn [length Z.of_nat].
  change (u32 0 =? 0) with true. rewrite ?orb_true_r. reflexivity.
Qed.

Lemma write_out_copies (w : W) a2 y rest :
  p <> [] -> good_reply (RSubmit a2) -> submit_code a2 = Ok tt ->
  good_completion y [] -> unexpected y (sr_task a2) IOURINGD_TASK_KIND_FILE_WRITE = false ->
  incoming w fd = to_wire a2 ++ to_wire y ++ rest ->
  exists w', write_out (mk_lib w [] []) = leave [fd; target_fd] 0 (mk_lib w' [] []) /\
    outgoing w' fd = outgoing w fd ++ encode (WWrite true 0 (rr_resource r2) p) /\ passed w' = passed w.
Proof.
  intros Hp Ga Ca Gy Uy Hi. destruct Hread as [_ (_ & _ & A2) _ (Gx & _) Hf]. pose proof (gc_payload _ _ Gx) as Hl.
  assert (Hn : 0 < Z.of_nat (length p) <= BUFFER_SIZE) by (destruct p; [done|cbn [length] in *; lia]).
  assert (Eb : bytes_at (Some (p ++ drop (length p) buffer)) (Z.of_nat (length p)) = p).
  { unfold bytes_at. cbn [default from_option id]. rewrite Nat2Z.id. by apply take_app_length'. }
  destruct (submit_talks (SWrite true (rr_resource r2) (Some (p ++ drop (length p) buffer)) (Z.of_nat (length p)))
    a2 (to_wire y ++ rest) w []) as (w1 & [E1 O1 I1 P1]); [|done|done|exact Hi|].
  { cbn. unfold length_arg, BUFFER_SIZE in *. split_and!; [exact A2|lia|lia|]. eexists. split; [done|].
    rewrite length_app. lia. }
  specialize (I1 _ Hi). cbn [submit_request_of submit_run] in E1, O1. rewrite Eb in O1.
  rewrite <- (app_nil_r (to_wire y)) in I1. destruct (wait_talks y [] rest w1 [] Gy I1) as (w2 & [E2 O2 _ P2]).
  exists w2. rewrite app_nil_r in O2. split_and!; [|by rewrite O2|by rewrite P2, P1; cbn; rewrite !app_nil_r].
  unfold write_out. cbv zeta. rewrite u32_id by (unfold BUFFER_SIZE in *; lia).
  rewrite (or_leave_ok _ _ _ _ _ _ E1). rewrite (or_leave_ok _ _ _ _ _ _ E2), Uy.
  replace (kept fd (y, [])) with (@nil buffered_payload); [done|]. unfold kept. cbn [fst].
  rewrite <- (gc_payload _ _ Gy). reflexivity.
Qed.
End Session.
End Runs.

(** C38: the example copies its source.  It opens the target for writing, created with mode
    0644 if need be and truncated; the daemon lets it in with room for 4096 bytes,
    registers both files, accepts the read and completes it with [p].  Then the
    descriptors it has passed are the source with the first registration and the
    target with the second.  If [p] is not empty and the write is accepted and completes,
    the program exits with 0, and what it sent is the handshake, the two
    registrations, a read of 4096 bytes from the first resource and a write of exactly
    [p] to the second.  If [p] is empty, it exits with 1 without having sent the write:
    the library refuses a write of no bytes. *)
Theorem overlay_copies {W} `{Passing W} (fd : Z) `{!Reliable W fd} (k_open : W -> string -> Z -> Z -> outcome Z * W)
    rounds buffer name path memfd target w w1 w2 tfd hs r1 r2 a1 x p answers :
  (0 < rounds)%nat -> 0 <= fd -> 0 <= atoi memfd -> 0 <= tfd ->
  k_open w target (Z.lor O_CREAT (Z.lor O_TRUNC (Z.lor O_WRONLY O_CLOEXEC))) 420 = (Ok tfd, w1) ->
  iouringd_client_connect (Some (path_bytes path)) w1 = (Ok fd, w2) ->
  wire_fit hs -> handshake_result_ok hs = true -> handshake_buffers_ok (hr_capabilities hs) = true ->
  BUFFER_SIZE <= cap_io_bytes_max (hr_capabilities hs) -> accepted_read r1 r2 a1 x p ->
  incoming w2 fd = to_wire hs ++ to_wire r1 ++ to_wire r2 ++ to_wire a1 ++ (to_wire x ++ p) ++ answers ->
  let sent := to_wire client_hello ++ encode WRegisterFd ++ encode WRegisterFd ++
              encode (WRead true 0 (rr_resource r1) BUFFER_SIZE) in
  let run := overlay_main k_open rounds buffer [name; path; memfd; target] (mk_lib w [] []) in
  let before := outgoing w2 fd ++ to_wire client_hello in
  let files := [(fd, length before, atoi memfd); (fd, length (before ++ encode WRegisterFd), tfd)] in
  (p = [] -> exists w', run = (Ok 1, mk_lib (k_close (k_close w' fd) tfd) [] []) /\
                        outgoing w' fd = outgoing w2 fd ++ sent /\ passed w' = passed w2 ++ files) /\
  (p <> [] -> forall a2 y rest, answers = to_wire a2 ++ to_wire y ++ rest ->
     good_reply (RSubmit a2) -> submit_code a2 = Ok tt -> good_completion y [] ->
     unexpected y (sr_task a2) IOURINGD_TASK_KIND_FILE_WRITE = false ->
     exists w', run = (Ok 0, mk_lib (k_close (k_close w' fd) tfd) [] []) /\
                outgoing w' fd = outgoing w2 fd ++ sent ++ encode (WWrite true 0 (rr_resource r2) p) /\
                passed w' = passed w2 ++ files).
Proof.
  intros Hrounds Hfd Hsrc Htfd Eo Ec Hfit Hok Hbuf Hmax Hread Hi sent run before files.
  destruct (handshake_talks fd Hfd hs _ w2 Hfit Hok Hbuf Hi) as (w3 & [E3 O3 I3 P3]). specialize (I3 _ Hi).
  destruct (transfer_reads fd rounds buffer Hfd Hrounds (atoi memfd) tfd r1 r2 a1 x p (conj Hsrc Htfd) Hread w3 answers I3)
    as (w4 & E4 & O4 & I4 & P4). rewrite P3, O3 in P4. cbn in P4. rewrite app_nil_r in P4.
  rewrite O3, <- !app_assoc in O4.
  assert (Er : run = write_out fd rounds buffer tfd r2 p (mk_lib w4 [] [])).
  { unfold run, overlay_main. cbv zeta. rewrite (proj2 (Z.ltb_ge _ 0) Hsrc).
    rewrite (or_leave_ok [] _ _ (mk_lib w [] []) tfd (mk_lib w1 [] [])) by (unfold on_world, sock; cbn [l_world]; by rewrite (Eo : k_open w target target_flags target_mode = _)).
    rewrite (or_leave_ok [tfd] _ _ (mk_lib w1 [] []) fd (mk_lib w2 [] [])) by (unfold on_world; cbn [l_world]; by rewrite Ec).
    rewrite (or_leave_ok _ _ _ _ _ _ E3), (proj2 (Z.ltb_ge _ _) Hmax). exact E4. }
  rewrite Er. split.
  - intros Hp. exists w4. split_and!; [|exact O4|exact P4]. by rewrite (write_out_empty fd rounds buffer tfd r2 p w4 Hp).
  - intros Hp a2 y rest -> Ga Ca Gy Uy.
    destruct (write_out_copies fd rounds buffer Hfd Hrounds tfd r1 r2 a1 x p Hread w4 a2 y rest Hp Ga Ca Gy Uy I4)
      as (w5 & E5 & O5 & P5). exists w5. split_and!; [by rewrite E5| |by rewrite P5].
    rewrite O5, O4. unfold sent. by rewrite <- !app_assoc.
Qed.

(** The nop example prints the id and the result of the first completion that arrives:
    it does not compare the id with that of its task. *)
Theorem standalone_reports {W} `{Passing W} (fd : Z) `{!Reliable W fd} rounds name path w w1 hs a x p rest :
  (0 < rounds)%nat -> 0 <= fd -> iouringd_client_connect (Some (path_bytes path)) w = (Ok fd, w1) ->
  wire_fit hs -> handshake_result_ok hs = true -> handshake_buffers_ok (hr_capabilities hs) = true ->
  good_reply (RSubmit a) -> submit_code a = Ok tt -> good_completion x p ->
  incoming w1 fd = to_wire hs ++ to_wire a ++ (to_wire x ++ p) ++ rest ->
  exists w', standalone_main rounds [name; path] (mk_lib w [] []) =
               (Ok (0, result_line x), mk_lib (k_close w' fd) [] (kept fd (x, p))) /\
             outgoing w' fd = outgoing w1 fd ++ to_wire client_hello ++ encode (WNop 0) /\
             incoming w' fd = rest.
Proof.
  intros Hrounds Hfd Ec Hfit Hok Hbuf Ga Ca Gx Hi.
  destruct (handshake_talks fd Hfd hs _ w1 Hfit Hok Hbuf Hi) as (w2 & [E2 O2 I2 _]). specialize (I2 _ Hi).
  destruct (submit_talks fd rounds Hfd Hrounds SNop a _ w2 [] I Ga Ca I2) as (w3 & [E3 O3 I3 _]). specialize (I3 _ I2).
  destruct (wait_talks fd Hfd x p _ w3 [] Gx I3) as (w4 & [E4 O4 I4 _]). specialize (I4 _ I3).
  exists w4. split_and!; [|by rewrite O4, O3, O2, app_nil_r, <- app_assoc|exact I4].
  unfold standalone_main.
  assert (E1 : on_world (iouringd_client_connect (Some (path_bytes path))) (mk_lib w [] []) = (Ok fd, mk_lib w1 [] []))
    by (unfold on_world; cbn [l_world]; by rewrite Ec).
  rewrite (mbnd_try _ _ _ _ _ E1).
  erewrite mbnd_try; [|rewrite (mbnd_ok _ _ _ _ _ E2), (mbnd_ok _ _ _ _ _ E3); exact E4]. done.
Qed.

(** ** A run *)

Definition welcome : handshake_result :=
  mk_handshake_result
    (mk_handshake_response protocol_header_v1 IOURINGD_ABI_V1_MAJOR IOURINGD_ABI_V1_MINOR
       IOURINGD_HANDSHAKE_STATUS_ACCEPT 0)
    (mk_capability_descriptor 36 0 8 16 IOURINGD_CAPABILITY_OP_MASK_V1 4 2 1 4096).
Definition copied : bytes := [104; 101; 108; 108; 111].
Definition source_registered : resource_result := mk_resource_result 1 0 1 0.
Definition target_registered : resource_result := mk_resource_result 2 0 0 0.
Definition read_accepted : submit_result := mk_submit_result 1 0 3.
Definition write_accepted : submit_result := mk_submit_result 2 0 3.
Definition read_completed : completion_record :=
  mk_completion_record protocol_header_v1 1 5 IOURINGD_TASK_KIND_FILE_READ 5.
Definition write_completed : completion_record :=
  mk_completion_record protocol_header_v1 2 5 IOURINGD_TASK_KIND_FILE_WRITE 0.

Definition daemon_says : bytes :=
  to_wire welcome ++ to_wire source_registered ++ to_wire target_registered ++ to_wire read_accepted ++
  (to_wire read_completed ++ copied) ++ to_wire write_accepted ++ to_wire write_completed ++ [].
Definition overlay_world : pipe := mk_pipe (fun _ => []) (fun fd => if fd =? 3 then daemon_says else []) [5; 0; 9]%nat [] [].

Lemma overlay_copies_witness :
  exists w', overlay_main (fun w _ _ _ => (Ok 6, w)) 4 (replicate 4096 0) ["copy"; "/s"; "5"; "/t"]%string
               (mk_lib overlay_world [] []) = (Ok 0, mk_lib (k_close (k_close w' 3) 6) [] []) /\
             outgoing w' 3 = (to_wire client_hello ++ encode WRegisterFd ++ encode WRegisterFd ++
                              encode (WRead true 0 1 4096)) ++ encode (WWrite true 0 2 copied) /\
             passed w' = [(3, 16%nat, 5); (3, 32%nat, 6)].
Proof.
  assert (Hgood : forall r, valid_reply r -> looks_like_completion (reply_bytes r) = false -> good_reply r) by (by split).
  destruct (overlay_copies 3 (fun w _ _ _ => (Ok 6, w)) 4 (replicate 4096 0) "copy" "/s" "5" "/t"
    overlay_world overlay_world overlay_world 6 welcome source_registered target_registered read_accepted read_completed
    copied (to_wire write_accepted ++ to_wire write_completed ++ [])) as [_ H].
  - lia.
  - lia.
  - vm_compute. congruence.
  - lia.
  - reflexivity.
  - reflexivity.
  - fit_compute.
  - vm_compute. reflexivity.
  - vm_compute. reflexivity.
  - vm_compute. congruence.
  - constructor; [| | | |vm_compute; congruence]; split_and!;
      try (vm_compute; reflexivity); try (vm_compute; split; congruence); try good_compute;
      (apply Hgood; [split; [split; [fit_compute|vm_compute; split; congruence]|]|]; vm_compute; reflexivity).
  - reflexivity.
  - apply (H ltac:(discriminate) write_accepted write_completed []); try (vm_compute; reflexivity); [|good_compute].
    apply Hgood; [split; [split; [fit_compute|vm_compute; split; congruence]|]|]; vm_compute; reflexivity.
Defined.

Definition nop_world : pipe :=
  mk_pipe (fun _ => [])
    (fun fd => if fd =? 3 then to_wire welcome ++ to_wire read_accepted ++
                                to_wire (mk_completion_record protocol_header_v1 1 0 IOURINGD_TASK_KIND_NOP 0) else [])
    [7; 3]%nat [] [].

Example standalone_run :
  fst (standalone_main 4 ["nop"; "/s"]%string (mk_lib nop_world [] [])) =
  Ok (0, ("task=1 result=0" ++ newline)%string).
Proof. vm_compute. reflexivity. Qed.
